(* ===== verification/_CoqProject ===== *)
-Q . S2P
Prelude.v
NetAddr.v
Seqno.v
Stream.v
Wire.v
Samples.v
Keys.v
PayChain.v
Hoare.v
State.v
Peers.v
Node.v
Payments.v
OutGate.v
Gateway.v
Console.v
Print.v
Worlds.v
Traffic.v
Invariants.v
Listen.v
Types.v
PaymentFacts.v
Ledger.v
Replay.v
Refs.v
Findings.v
Client.v
ClientMsg.v
ClientPay.v
ClientIO.v
ClientFacts.v
ClientWorlds.v
Delivery.v
ClientOnion.v
ClientPayFacts.v
ClientFindings.v
Dht.v
Config.v
Address.v
Setup.v
SetupFacts.v
PayerSetup.v
RunTunnel.v
Prices.v
CLib.v
NodeMain.v
NodeStart.v
CLibStart.v
CLibRun.v
Reassemble.v
