(* ===== verification/Prelude.v ===== *)
(** * A verification of adnl-tunnel

    adnl-tunnel relays UDP datagrams through a chain of nodes over ADNL, in the
    manner of an onion router with payments.  An _initiator_ ([RegularOutTunnel])
    picks a chain of nodes to an exit and a chain back, and sends each of them
    instructions under one layer of encryption per node.  A _node_ ([Gateway])
    removes its layer, checks the number of the packet, and executes the
    instructions of its _section_: build a route to the next node, pass the rest
    of the message on, take a payment, bind a UDP port and send from it, or
    deliver to an initiator.  Most instructions are cached in the section, so
    that later packets only carry a number and a payload.  Paid routes and ports
    count prepaid packets, which the initiator buys with signed states of virtual
    payment channels.  Around this core: a file of configuration, a DHT record by
    which nodes are found, the choice of routes, a C library and a node program.

    ** Files and sources

    Shared by all:
    - [Prelude] (this file): machine integers, errors and panics, the state and
      error monad [M], byte strings, generic lemmas, the hint database.
    - [NetAddr]: addresses in text, as Go's [net] and [net/netip] read and print
      them.
    - [Hoare]: triples, preservation and frames for [M]; sums over maps.
    - [Samples], [Worlds], [ClientWorlds]: concrete instances of the parameters,
      to run the definitions on; nothing is proved from their details.

    The wire:
    - [Seqno]: [tunnel/seqno.go], the replay window with its in-place shift, and
      [Spec], the set of accepted numbers it refines.
    - [Stream]: [encryptStream], [decryptStream] of [tunnel/gateway.go] over the
      CRC-64 of Go, written out.
    - [Wire]: messages, the ten instructions, the hand-written codecs of
      [tunnel/instructions.go].
    - [Keys]: [tunnel/keys.go] and [decryptMessage]: layers on layers.

    A node:
    - [State]: the structs of [tunnel/gateway.go] and [tunnel/peer.go]; objects
      shared through pointers live in heaps.
    - [Peers]: [tunnel/peer.go].
    - [Node], [Payments], [OutGate]: every [Execute] method of
      [tunnel/instructions.go] and what they call.  [Node.Tunnel] is the interface
      to the tunnels of an initiator, [TunnelOk] what a node relies on.
    - [Gateway]: the message handler, a turn of the periodic check, the goroutines,
      the statistics of [tunnel/gateway.go].
    - [Listen]: the reader, the workers, the queue and the buffers of [Out.Listen]
      as goroutines of one machine.
    - [Console]: [metrics/metrics.go], the exported counters, and the console of
      the node program; [Print]: the numbers it prints, as binary64 floats, and
      the levels of its loggers ([cmd/node/main.go]).
    - [Dht]: [tunnel/dht.go].

    An initiator:
    - [PayChain]: [buildTunnelPaymentsChain] with [math/big] floats.
    - [Client]: the structs and creation of a tunnel; [ClientMsg]: the messages
      that configure and close it; [ClientPay]: virtual channels and the control
      message; [ClientIO]: [Process], the socket interface, the control round,
      [Stop], and [tunnel/atomicTun.go]; [Reassemble]: [ReassembleInstructions]
      (all [tunnel/regularOutTunnel.go]).
    - [Setup]: the choice of a route and the turns of [RunTunnel], [PayerSetup]:
      [preparePayerPayments], [RunTunnel]: the function itself, from the start of
      the network stack to its last event ([tunnel/setup.go]), with
      [Gateway.Stop].

    Around:
    - [Config]: [config/config.go] over a file system; [Address]: its port
      checker, two goroutines over one variable.
    - [NodeStart]: [main] and [preparePayments] of [cmd/node/main.go], from the
      configuration to the running gateway; [NodeMain]: [preparePaymentChannel].
    - [CLib]: the frames, the reader and [WriteTunnel] of [cmd/lib/lib.go];
      [CLibStart]: the files [PrepareTunnel] reads; [CLibRun]: its event loop
      beside [RunTunnel] and what it returns.

    The other files hold theorems about the definitions of these.

    ** What is shown

    - Wire: [checkSeqno] refines the set specification, so a number is accepted
      at most once within 2^31 packets and exactly when it is new and less than
      512 behind; the shift loop is a 512-bit shift; a layer decrypts to what was
      encrypted and a changed byte is detected; containers round-trip; the
      parsers end without a panic and without unbounded allocation; a message
      wrapped for a chain is peeled by its nodes in order ([Seqno], [Stream],
      [Wire], [Keys]).
    - A node: the invariant of every reachable state (limits, minimum prices,
      ranges of balances, cached routes) by induction on the steps of a node; the
      reference count of a peer is the number of its users; every branch of
      [Route.Route]; a payment is credited by the price and only once; a cached
      packet runs once; the fields of its sections keep the width of their types
      ([Invariants], [Refs], [Traffic], [PaymentFacts], [Replay], [Types]).  What a
      node has promised to carry and what it has written to the network, over all
      its sections, is covered at the minimum prices by the payment states it was
      shown ([Ledger]).  With
      the goroutines of a port interleaved in any way, its balance is overdrawn by
      at most one packet for every worker but one, and what is sent back are
      datagrams that arrived, unchanged and once each, although the buffers are
      shared ([Listen]); one whole turn, which the other theorems use, is one of
      these runs.
    - Initiator and node together: a datagram written to a tunnel leaves the exit
      as it was, one that arrives at the exit is read from the tunnel; every node
      reads from the configuration and closing messages what is meant for it; a
      message that is reassembled reads the same; opening nested layers ends
      ([Delivery], [ClientOnion], [Reassemble]).  [ClientFacts] discharges
      [TunnelOk], so the theorems on a node hold with the initiator's code
      plugged in.
    - Payments of an initiator: a chain of fees and capacities is sound; no state
      is signed beyond the capacity of its channel; a control message that fails
      books nothing ([PayChain], [ClientPayFacts]).
    - Around: the published list of nodes and its discovery ([Dht]); a
      configuration is read as it was written ([Config]); a route has the wanted
      shape and was not tried, and the wait for a ready tunnel ends
      ([SetupFacts]); however [RunTunnel] ends, it closes what it opened and says
      so last ([PayerSetup], [RunTunnel]); the price
      that is shared is the one asked for, except at an exit ([Prices]); the
      frames of the C interface deliver every datagram in order ([CLib]); the
      payment channel a node starts with ([NodeMain]).
    - From the files to the running programs: the first start of a node announces
      the address the port checker saw, as bytes, or none; a start that fails
      leaves no gateway behind ([NodeStart]); the description a node writes of
      itself is what a client's tunnel is run with ([CLibStart]); a program that
      calls [PrepareTunnel] gets the first tunnel or is ended, and writes to the
      latest one ([CLibRun]).
    - [Findings], [ClientFindings] and examples in the files above run the cases
      in which the code does something other than it means to.

    ** Parameters

    Code outside of the repository is a class of parameters; the classes named
    [...Ok] state what is relied on, and every use has an instance:
    - [CipherCtr] (AES-CTR key stream), [KeyAgreement] (shared keys), [Ed25519];
    - [TL] (the codec derived by reflection in [tonutils-go/tl]), [Json];
    - [World] (connections, sockets, clock, randomness, rate limiter, payment
      service of a node), [ClientWorld] and [PayerWorld] (payment service and
      blockchain of an initiator), [SetupWorld], [RunWorld], [DhtWorld],
      [ConfigWorld], [NodeWorld] (the libraries a node starts), [ConsoleWorld].
    [TLBytes] (a parsed field is made of bytes), [GeneratedKeys] (a generated
    key is that of its seed) and [CoinsOk] (amounts are unsigned) are laws of the same kind.

    Every answer of a world may depend on the number of calls made before, so no
    two calls are assumed to agree and a call may fail at any time.

    ** Integers, fuel and interleavings

    Integers are in [Z] and wrapped where the code can leave their width.  Fuel:
    [parseInstructions] runs on the length of its input, which [Wire] shows to be
    enough; [unwrapAll] needs one more than the bytes of the message
    ([unwrapAll_terminates]).  The loops that poll an outside service
    ([waitActive], [waitExchange], [Stop_loop], [WaitForInit]) take the number
    of polls or the schedule of what happens between them, since the code ends
    them by the deadline of a context; [WaitForInit_returns] says when one ends
    with a result.  [newRoute] makes the fifty-one tries of the code.

    A step of a node is one message, datagram, timer or goroutine; inside a step
    the code holds the locks of a section, except in [PaymentInstruction.Execute],
    which is cut where it does not ([Payments]), and in [Out.Listen], whose
    goroutines [Listen] interleaves at every access to what they share.  The port
    checker ([Address]), the printer of speeds ([Console]) and the reader of the C
    library ([CLib.startupStep]) are machines of the same kind.

    ** Not modelled

    The text of log lines and the rotation of log files; the endless loops around
    a turn (timers and channels of [Start], [keepAlivePeersAndSections] and
    [startControlSender]); [requestCheckPeers], whose channel nobody reads; the
    calls through C pointers; the commented-out code of [tunnel/seqno.go]. *)

From Stdlib Require Export ZArith Lia.
From stdpp Require Export base list strings gmap numbers.

#[global] Open Scope Z_scope.

(** ** Machine integers

    A Go [uintN] is an integer in [0, 2^N); every operation that can leave the
    range is wrapped explicitly.  An [int64] is an integer in
    [-2^63, 2^63). *)

Definition uint8 (x : Z) : Z := x mod 2 ^ 8.
Definition uint16 (x : Z) : Z := x mod 2 ^ 16.
Definition uint32 (x : Z) : Z := x mod 2 ^ 32.
Definition uint64 (x : Z) : Z := x mod 2 ^ 64.
Definition int64 (x : Z) : Z := (x + 2 ^ 63) mod 2 ^ 64 - 2 ^ 63.

Definition MaxUint16 : Z := 2 ^ 16 - 1.
Definition MaxUint32 : Z := 2 ^ 32 - 1.
Definition MaxInt64 : Z := 2 ^ 63 - 1.

Definition in_uint (w x : Z) : Prop := 0 <= x < 2 ^ w.
Definition in_int64 (x : Z) : Prop := - 2 ^ 63 <= x < 2 ^ 63.

#[global] Instance in_uint_dec w x : Decision (in_uint w x).
Proof. unfold in_uint; apply _. Defined.
#[global] Instance in_int64_dec x : Decision (in_int64 x).
Proof. unfold in_int64; apply _. Defined.

(** Operations on 64-bit words. *)
Definition shl64 (x s : Z) : Z := uint64 (Z.shiftl x s).
Definition shr64 (x s : Z) : Z := Z.shiftr x s.

(** ** Errors, panics and outcomes

    [fmt.Errorf] without [%w] builds a fresh error, with [%w] it keeps the
    cause, which is what [errors.Is] follows.  A run-time panic is a third
    outcome: an index or slice out of range, a nil dereference or a division
    by zero. [OutOfFuel] is no error of the program: it marks a recursion cut
    short by the fuel of a definition, and the theorems on those definitions
    show it is never returned. *)
Inductive error : Type :=
| Errorf (msg : string)
| Errorw (msg : string) (cause : error)
| OutOfFuel.

#[global] Instance error_eq_dec : EqDecision error.
Proof. solve_decision. Defined.

(** [errors.Is]: the error or one of its causes is the target. *)
Fixpoint errorsIs (e target : error) : bool :=
  bool_decide (e = target) ||
  match e with Errorw _ c => errorsIs c target | _ => false end.

Inductive outcome (A : Type) : Type :=
| Ok (a : A)
| Err (e : error)
| Panic (why : string).
Arguments Ok {A} _.
Arguments Err {A} _.
Arguments Panic {A} _.

#[global] Instance outcome_ret : MRet outcome := fun A a => Ok a.
#[global] Instance outcome_bind : MBind outcome := fun A B k m =>
  match m with Ok a => k a | Err e => Err e | Panic w => Panic w end.

Definition is_ok {A} (o : outcome A) : bool :=
  match o with Ok _ => true | _ => false end.

(** [fmt.Errorf("...: %w", err)] on the error of a call, and its variant with
    [%v], which drops the cause. *)
Definition wrapErr {A} (msg : string) (o : outcome A) : outcome A :=
  match o with Err e => Err (Errorw msg e) | o => o end.
Definition hideErr {A} (msg : string) (o : outcome A) : outcome A :=
  match o with Err OutOfFuel => Err OutOfFuel | Err _ => Err (Errorf msg) | o => o end.

Definition of_option {A} (msg : string) (o : option A) : outcome A :=
  match o with Some a => Ok a | None => Err (Errorf msg) end.

(** ** Stateful code: the state survives an error, as it does in Go. *)
Definition M (S A : Type) : Type := S -> S * outcome A.

#[global] Instance M_ret S : MRet (M S) := fun A a s => (s, Ok a).
#[global] Instance M_bind S : MBind (M S) := fun A B k m s =>
  match m s with
  | (s', Ok a) => k a s'
  | (s', Err e) => (s', Err e)
  | (s', Panic w) => (s', Panic w)
  end.

Definition throw {S A} (e : error) : M S A := fun s => (s, Err e).
Definition panic {S A} (why : string) : M S A := fun s => (s, Panic why).
Definition get {S} : M S S := fun s => (s, Ok s).
Definition gets {S A} (f : S -> A) : M S A := fun s => (s, Ok (f s)).
Definition modify {S} (f : S -> S) : M S unit := fun s => (f s, Ok tt).
Definition lift {S A} (o : outcome A) : M S A := fun s => (s, o).
Definition guard_err {S} (b : bool) (msg : string) : M S unit :=
  if b then throw (Errorf msg) else mret tt.
Definition wrapM {S A} (msg : string) (m : M S A) : M S A := fun s =>
  let '(s', o) := m s in (s', wrapErr msg o).
(** [_ = call()]: the error is discarded, a panic is not. *)
Definition ignore {S A} (m : M S A) : M S unit := fun s =>
  match m s with
  | (s', Panic w) => (s', Panic w)
  | (s', _) => (s', Ok tt)
  end.

(** [if err := call(); err != nil]: the error as a value, a panic goes on. *)
Definition attempt {S A} (m : M S A) : M S (option error) := fun s =>
  match m s with
  | (s', Ok _) => (s', Ok None)
  | (s', Err e) => (s', Ok (Some e))
  | (s', Panic w) => (s', Panic w)
  end.
(** [defer cleanup()] around a body. *)
Definition deferred {S A} (cleanup : M S unit) (body : M S A) : M S A := fun s =>
  let '(s', o) := body s in
  match cleanup s' with
  | (s'', Panic w) => (s'', Panic w)
  | (s'', _) => (s'', o)
  end.
(** [for _, x := range l { body }] with an early return on an error. *)
Fixpoint for_each {S A} (l : list A) (body : A -> M S unit) : M S unit :=
  match l with
  | [] => mret tt
  | x :: l => body x ;; for_each l body
  end.

(** ** Bytes *)

Abbreviation bytes := (list Z).

Definition is_byte (b : Z) : Prop := in_uint 8 b.
Definition is_bytes (bs : bytes) : Prop := Forall is_byte bs.

Definition len (bs : bytes) : Z := Z.of_nat (length bs).

(** [binary.LittleEndian]: the value of a byte string and the [n]-byte
    encoding of an integer. *)
Fixpoint le_decode (bs : bytes) : Z :=
  match bs with
  | [] => 0
  | b :: bs => b + 2 ^ 8 * le_decode bs
  end.

Fixpoint le_encode (n : nat) (x : Z) : bytes :=
  match n with
  | O => []
  | S n => x mod 2 ^ 8 :: le_encode n (x / 2 ^ 8)
  end.

Definition PutUint32 (x : Z) : bytes := le_encode 4 x.
Definition PutUint64 (x : Z) : bytes := le_encode 8 x.

(** Both decoders index past the slice, and panic, when it is too short. *)
Definition Uint32 (bs : bytes) : outcome Z :=
  if len bs <? 4 then Panic "index out of range" else Ok (le_decode (take 4 bs)).
Definition Uint64 (bs : bytes) : outcome Z :=
  if len bs <? 8 then Panic "index out of range" else Ok (le_decode (take 8 bs)).

(** [bs[from:]]: panics when the bound is beyond the length. *)
Definition slice_from (bs : bytes) (from : nat) : outcome bytes :=
  if bool_decide (from <= length bs)%nat then Ok (drop from bs)
  else Panic "slice bounds out of range".

(** ** Lemmas shared by the components *)

Create HintDb go discriminated.
Create Rewrite HintDb go_simpl.

Lemma uint_range w x : 0 <= w -> in_uint w (x mod 2 ^ w).
Proof. intros. unfold in_uint. apply Z.mod_pos_bound. lia. Qed.

Lemma uint32_id x : in_uint 32 x -> uint32 x = x.
Proof. intros. apply Z.mod_small. exact H. Qed.
Lemma uint64_id x : in_uint 64 x -> uint64 x = x.
Proof. intros. apply Z.mod_small. exact H. Qed.
Lemma int64_id x : in_int64 x -> int64 x = x.
Proof. unfold in_int64, int64. intros. rewrite Z.mod_small; lia. Qed.
Lemma int64_range x : in_int64 (int64 x).
Proof.
  unfold in_int64, int64.
  pose proof (Z.mod_pos_bound (x + 2 ^ 63) (2 ^ 64)). lia.
Qed.

Lemma lor_range w x y : 0 <= w -> in_uint w x -> in_uint w y -> in_uint w (Z.lor x y).
Proof.
  unfold in_uint. intros Hw Hx Hy. split; [apply Z.lor_nonneg; lia|].
  destruct (Z.eq_dec (Z.lor x y) 0) as [->|Hne]; [lia|].
  assert (0 <= Z.lor x y) by (apply Z.lor_nonneg; lia).
  apply Z.log2_lt_pow2; [lia|]. rewrite Z.log2_lor by lia.
  assert (forall z, 0 <= z < 2 ^ w -> 0 < w -> Z.log2 z < w) as Hlog.
  { intros z Hz Hw'. destruct (Z.eq_dec z 0) as [->|]; [simpl; lia|].
    apply Z.log2_lt_pow2; lia. }
  destruct (Z.eq_dec w 0) as [->|]; [|apply Z.max_lub_lt; apply Hlog; lia].
  exfalso. apply Hne. replace x with 0 by lia. replace y with 0 by lia. done.
Qed.

Lemma lxor_range w x y : 0 <= w -> in_uint w x -> in_uint w y -> in_uint w (Z.lxor x y).
Proof.
  intros Hw Hx Hy. rewrite <- (Z.mod_small x (2 ^ w) Hx), <- (Z.mod_small y (2 ^ w) Hy).
  replace (Z.lxor (x mod 2 ^ w) (y mod 2 ^ w)) with (Z.lxor x y mod 2 ^ w);
    [by apply uint_range|].
  apply Z.bits_inj'. intros i Hi. rewrite Z.lxor_spec.
  destruct (Z.lt_ge_cases i w).
  - by rewrite !Z.mod_pow2_bits_low, Z.lxor_spec by lia.
  - by rewrite !Z.mod_pow2_bits_high by lia.
Qed.

Lemma shiftr_range w x n : 0 <= n -> in_uint w x -> in_uint w (Z.shiftr x n).
Proof.
  unfold in_uint. intros Hn Hx. rewrite Z.shiftr_div_pow2 by lia.
  assert (0 < 2 ^ n) by lia.
  split; [apply Z.div_pos; lia|]. apply Z.div_lt_upper_bound; nia.
Qed.

Lemma lxor_cancel_r x y : Z.lxor (Z.lxor x y) y = x.
Proof. by rewrite Z.lxor_assoc, Z.lxor_nilpotent, Z.lxor_0_r. Qed.
Lemma lxor_inj_r x y z : Z.lxor x z = Z.lxor y z -> x = y.
Proof. intros H. rewrite <- (lxor_cancel_r x z), H. apply lxor_cancel_r. Qed.
Lemma lxor_inj_l x y z : Z.lxor z x = Z.lxor z y -> x = y.
Proof. rewrite !(Z.lxor_comm z). apply lxor_inj_r. Qed.

#[export] Hint Resolve uint_range lor_range lxor_range shiftr_range int64_range : go.
#[export] Hint Rewrite uint32_id uint64_id int64_id using
  (solve [assumption | unfold in_uint, in_int64; lia]) : go_simpl.

Lemma length_le_encode n x : length (le_encode n x) = n.
Proof. revert x; induction n; intros; simpl; auto. Qed.

Lemma le_encode_bytes n x : is_bytes (le_encode n x).
Proof.
  revert x; induction n; intros; constructor; [|apply IHn].
  apply uint_range; lia.
Qed.

Lemma le_decode_encode n x : le_decode (le_encode n x) = x mod 2 ^ (8 * Z.of_nat n).
Proof.
  revert x; induction n as [|n IH]; intros x.
  - simpl. by rewrite Z.mod_1_r.
  - cbn [le_encode le_decode]. rewrite IH.
    replace (8 * Z.of_nat (S n)) with (8 + 8 * Z.of_nat n) by lia.
    rewrite Z.pow_add_r, Z.rem_mul_r by lia. lia.
Qed.

Lemma le_decode_range bs : is_bytes bs -> 0 <= le_decode bs < 2 ^ (8 * len bs).
Proof.
  unfold len. induction 1 as [|b bs Hb _ IH]; [simpl; lia|].
  cbn [le_decode length]. replace (8 * Z.of_nat (S (length bs)))
    with (8 + 8 * Z.of_nat (length bs)) by lia.
  rewrite Z.pow_add_r by lia. unfold is_byte, in_uint in Hb. nia.
Qed.

Lemma le_encode_decode bs : is_bytes bs -> le_encode (length bs) (le_decode bs) = bs.
Proof.
  induction 1 as [|b bs Hb _ IH]; [done|]. cbn [length le_encode le_decode].
  unfold is_byte, in_uint in Hb. rewrite (Z.mul_comm _ (le_decode bs)).
  rewrite Z.mod_add, Z.div_add by lia.
  rewrite Z.mod_small, Z.div_small by lia. by rewrite Z.add_0_l, IH.
Qed.

Lemma len_app a b : len (a ++ b) = len a + len b.
Proof. unfold len. rewrite length_app. lia. Qed.
Lemma len_nonneg a : 0 <= len a.
Proof. unfold len. lia. Qed.
Lemma len_drop n a : (n <= length a)%nat -> len (drop n a) = len a - Z.of_nat n.
Proof. unfold len. rewrite length_drop. lia. Qed.

#[export] Hint Rewrite length_le_encode length_app len_app : go_simpl.

Lemma Uint32_app x bs : in_uint 32 x -> Uint32 (PutUint32 x ++ bs) = Ok x.
Proof.
  intros Hx. unfold Uint32. rewrite len_app.
  pose proof (len_nonneg bs). change (len (PutUint32 x)) with 4.
  destruct (Z.ltb_spec (4 + len bs) 4); [lia|].
  rewrite take_app_length' by done.
  unfold PutUint32. rewrite le_decode_encode. f_equal. by apply Z.mod_small.
Qed.

Lemma Uint64_app x bs : in_uint 64 x -> Uint64 (PutUint64 x ++ bs) = Ok x.
Proof.
  intros Hx. unfold Uint64. rewrite len_app.
  pose proof (len_nonneg bs). change (len (PutUint64 x)) with 8.
  destruct (Z.ltb_spec (8 + len bs) 8); [lia|].
  rewrite take_app_length' by done.
  unfold PutUint64. rewrite le_decode_encode. f_equal. by apply Z.mod_small.
Qed.

Lemma slice_from_app a b n : n = length a -> slice_from (a ++ b) n = Ok b.
Proof.
  intros ->. unfold slice_from. rewrite bool_decide_eq_true_2 by (rewrite length_app; lia).
  by rewrite drop_app_length.
Qed.

Lemma slice_from_ok bs n : (n <= length bs)%nat -> slice_from bs n = Ok (drop n bs).
Proof. intros. unfold slice_from. by rewrite bool_decide_eq_true_2. Qed.

Lemma Uint32_ok bs : 4 <= len bs -> Uint32 bs = Ok (le_decode (take 4 bs)).
Proof. intros. unfold Uint32. destruct (Z.ltb_spec (len bs) 4); [lia|done]. Qed.
Lemma Uint64_ok bs : 8 <= len bs -> Uint64 bs = Ok (le_decode (take 8 bs)).
Proof. intros. unfold Uint64. destruct (Z.ltb_spec (len bs) 8); [lia|done]. Qed.

Lemma Ok_inj {A} (a b : A) : Ok a = Ok b -> a = b.
Proof. congruence. Qed.

Lemma alter_Some `{Countable K} {A} (f : A -> A) (m : gmap K A) k a :
  m !! k = Some a -> alter f k m = <[k := f a]> m.
Proof.
  intros Hk. apply map_eq. intros k'. destruct (decide (k = k')) as [<-|Hne].
  - by rewrite lookup_alter_eq, lookup_insert_eq, Hk.
  - by rewrite lookup_alter_ne, lookup_insert_ne.
Qed.

Lemma alter_None `{Countable K} {A} (f : A -> A) (m : gmap K A) k : m !! k = None -> alter f k m = m.
Proof. intros Hk. apply alter_id. intros a Ha. congruence. Qed.

(** ** Tactics *)

(** Case analysis on the conditions of a definition, with integer facts. *)
Ltac z_case :=
  match goal with
  | |- context [?a <? ?b] => destruct (Z.ltb_spec a b)
  | |- context [?a <=? ?b] => destruct (Z.leb_spec a b)
  | |- context [?a =? ?b] => destruct (Z.eqb_spec a b)
  end.
Ltac z_cases := repeat (z_case; try lia).

(** Split the conjunctions and existentials of the context. *)
Ltac break_hyps :=
  repeat match goal with
  | H : _ /\ _ |- _ => destruct H
  | H : exists _, _ |- _ => destruct H
  | H : (_, _) = (_, _) |- _ => injection H as; subst
  | H : Ok _ = Ok _ |- _ => injection H as; subst
  | H : Some _ = Some _ |- _ => injection H as; subst
  end.

(** A disjunction one side of which is at hand or arithmetic. *)
Ltac either_or := first [by left | by right | left; lia | right; lia].

(** Run one step of the outcome monad without unfolding the operations. *)
Tactic Notation "go_bind" := cbn [mbind outcome_bind mret outcome_ret].
Tactic Notation "go_bind" "in" hyp(H) := cbn [mbind outcome_bind mret outcome_ret] in H.
