(* ===== verification/NetAddr.v ===== *)
(** * Addresses in text (Go's [net] and [net/netip])

    What the program uses of the standard library to read and write addresses:
    [netip.ParseAddr] and [net.ParseIP] for both families, [IP.To4], [IP.String]
    of four bytes and [netip.ParseAddrPort].  Strings are lists of characters. *)

From Stdlib Require Import Ascii.
From S2P Require Import Prelude.

Definition code (c : ascii) : Z := Z.of_nat (nat_of_ascii c).
Definition chars (s : string) : list ascii := String.list_ascii_of_string s.

Definition digitVal (c : ascii) : option Z :=
  if (48 <=? code c) && (code c <=? 57) then Some (code c - 48) else None.
Definition hexVal (c : ascii) : option Z :=
  if (48 <=? code c) && (code c <=? 57) then Some (code c - 48)
  else if (97 <=? code c) && (code c <=? 102) then Some (code c - 97 + 10)
  else if (65 <=? code c) && (code c <=? 70) then Some (code c - 65 + 10)
  else None.

Definition isChar (c d : ascii) : bool := bool_decide (c = d).

(** ** IPv4

    [parseIPv4Fields]: [val] and [digLen] are the value and the digits of the
    current octet, [fields] the octets before it; [first] says that the last
    character was a dot or that there was none. *)
Fixpoint parseIPv4Fields (s : list ascii) (first : bool) (val digLen : Z) (fields : bytes) : option bytes :=
  match s with
  | [] => if bool_decide (length fields < 3)%nat then None else Some (fields ++ [uint8 val])
  | c :: s =>
      match digitVal c with
      | Some d =>
          if (digLen =? 1) && (val =? 0) then None  (* leading zero *)
          else
            let val := val * 10 + d in
            if 255 <? val then None else parseIPv4Fields s false val (digLen + 1) fields
      | None =>
          if isChar c "."%char then
            if first || bool_decide (s = []) then None
            else if bool_decide (length fields = 3)%nat then None
            else parseIPv4Fields s true 0 0 (fields ++ [uint8 val])
          else None
      end
  end.
Definition parseIPv4 (s : list ascii) : option bytes := parseIPv4Fields s true 0 0 [].

(** ** IPv6 *)

(** A group of hexadecimal digits: the value, how many, and the rest. *)
Fixpoint hexGroup (s : list ascii) (off acc : Z) : option (Z * Z * list ascii) :=
  match s with
  | [] => Some (acc, off, [])
  | c :: s' =>
      match hexVal c with
      | None => Some (acc, off, s)
      | Some d =>
          let acc := acc * 16 + d in
          if (3 <? off) || (65535 <? acc) then None else hexGroup s' (off + 1) acc
      end
  end.

(** The loop over the groups: the bytes so far and where the ellipsis is among
    them.  A turn adds two bytes, so eight are enough. *)
Fixpoint parseIPv6Loop (turns : nat) (s : list ascii) (ip : bytes) (ellipsis : option nat)
    : option (bytes * option nat * list ascii) :=
  match turns with
  | O => Some (ip, ellipsis, s)
  | S turns =>
      match hexGroup s 0 0 with
      | None => None
      | Some (acc, off, rest) =>
          if off =? 0 then None
          else match rest with
          | [] => Some (ip ++ [uint8 (Z.shiftr acc 8); uint8 acc], ellipsis, [])
          | c :: rest' =>
              if isChar c "."%char then
                (* a trailing IPv4 address *)
                if bool_decide (ellipsis = None) && negb (bool_decide (length ip = 12)%nat) then None
                else if bool_decide (16 < length ip + 4)%nat then None
                else match parseIPv4 s with
                     | Some v4 => Some (ip ++ v4, ellipsis, [])
                     | None => None
                     end
              else
                let ip := ip ++ [uint8 (Z.shiftr acc 8); uint8 acc] in
                if negb (isChar c ":"%char) then None
                else match rest' with
                | [] => None
                | c' :: rest'' =>
                    if isChar c' ":"%char then
                      match ellipsis, rest'' with
                      | Some _, _ => None
                      | None, [] => Some (ip, Some (length ip), [])
                      | None, _ => parseIPv6Loop turns rest'' ip (Some (length ip))
                      end
                    else parseIPv6Loop turns rest' ip ellipsis
                end
          end
      end
  end.

(** The zone behind a percent sign must not be empty; [net.ParseIP] refuses it. *)
Definition splitZone (s : list ascii) : list ascii * option (list ascii) :=
  match list_find (fun c => c = "%"%char) s with
  | None => (s, None)
  | Some (i, _) => (take i s, Some (drop (S i) s))
  end.

Definition parseIPv6 (s : list ascii) : option (bytes * option (list ascii)) :=
  let '(s, zone) := splitZone s in
  if bool_decide (zone = Some []) then None
  else
    let '(lead, s') := match s with
                       | c :: c' :: s' => if isChar c ":"%char && isChar c' ":"%char then (true, s') else (false, s)
                       | _ => (false, s)
                       end in
    if lead && bool_decide (s' = []) then Some (replicate 16 0, zone)
    else
      match parseIPv6Loop 8 s' [] (if (lead : bool) then Some 0%nat else None) with
      | Some (ip, ellipsis, []) =>
          match ellipsis with
          | None => if bool_decide (length ip < 16)%nat then None else Some (ip, zone)
          | Some at_ =>
              if bool_decide (length ip < 16)%nat
              then Some (take at_ ip ++ replicate (16 - length ip) 0 ++ drop at_ ip, zone)
              else None
          end
      | _ => None
      end.

Definition v4InV6Prefix : bytes := [0; 0; 0; 0; 0; 0; 0; 0; 0; 0; 255; 255].

(** [netip.ParseAddr]: the first of these characters decides.  Sixteen bytes, with
    IPv4 addresses mapped, as [net.ParseIP] returns them. *)
Fixpoint addrKind (s : list ascii) : option bool :=
  match s with
  | [] => None
  | c :: s => if isChar c "."%char then Some true
              else if isChar c ":"%char then Some false
              else if isChar c "%"%char then None
              else addrKind s
  end.

Definition ParseIP (s : list ascii) : option bytes :=
  match addrKind s with
  | Some true => v4 ← parseIPv4 s; Some (v4InV6Prefix ++ v4)
  | Some false => '(ip, zone) ← parseIPv6 s; match zone with None => Some ip | Some _ => None end
  | None => None
  end.

(** [IP.To4]; the empty slice stands for nil. *)
Definition To4 (ip : bytes) : bytes :=
  if len ip =? 4 then ip
  else if (len ip =? 16) && bool_decide (take 12 ip = v4InV6Prefix) then drop 12 ip
  else [].

(** [IP.String] of four bytes: [appendDecimal] without leading zeros. *)
Definition digitChar (d : Z) : ascii := ascii_of_nat (Z.to_nat (48 + d)).
Definition appendDecimal (x : Z) : list ascii :=
  (if 100 <=? x then [digitChar (x / 100)] else []) ++
  (if 10 <=? x then [digitChar (x / 10 mod 10)] else []) ++ [digitChar (x mod 10)].
Definition IP4_String (ip : bytes) : list ascii :=
  match ip with
  | [a; b; c; d] =>
      appendDecimal a ++ "."%char :: appendDecimal b ++ "."%char :: appendDecimal c ++ "."%char :: appendDecimal d
  | _ => []
  end.

(** [netip.ParseAddrPort]: the text in front of the last colon, in brackets when it
    is an IPv6 address, and a decimal port below 2^16. *)
Fixpoint parsePort (s : list ascii) (val : Z) : option Z :=
  match s with
  | [] => Some val
  | c :: s => d ← digitVal c; let val := val * 10 + d in if 65535 <? val then None else parsePort s val
  end.

Definition lastColon (s : list ascii) : option (list ascii * list ascii) :=
  match list_find (fun c => c = ":"%char) (reverse s) with
  | None => None
  | Some (i, _) => Some (take (length s - S i) s, drop (length s - i) s)
  end.

Definition ParseAddrPort (s : list ascii) : option (bytes * Z) :=
  '(addr, port) ← lastColon s;
  if bool_decide (port = []) then None
  else
    let '(addr, bracketed) :=
      match addr, list.last addr with
      | c :: addr', Some c' =>
          if isChar c "["%char && isChar c' "]"%char then (take (length addr' - 1) addr', true) else (addr, false)
      | _, _ => (addr, false)
      end in
    port ← parsePort port 0;
    ip ← (match addrKind addr with
          | Some true => if (bracketed : bool) then None else v4 ← parseIPv4 addr; Some (v4InV6Prefix ++ v4)
          | Some false => if (bracketed : bool) then '(ip, _) ← parseIPv6 addr; Some ip else None
          | None => None
          end);
    Some (ip, port).

(** ** The two texts of an IPv4 address *)

Lemma digitVal_digitChar d : 0 <= d < 10 -> digitVal (digitChar d) = Some d.
Proof.
  intros Hd. assert (Forall (fun d => digitVal (digitChar d) = Some d) (map Z.of_nat (seq 0 10))) as H
    by (repeat constructor).
  rewrite Forall_forall in H. apply H, in_map_iff. exists (Z.to_nat d). split; [lia|]. apply in_seq. lia.
Qed.

Lemma uint8_small x : 0 <= x < 256 -> uint8 x = x.
Proof. intros Hx. unfold uint8. apply Z.mod_small. lia. Qed.

(** One digit of an octet that has not ended. *)
Lemma parseIPv4Fields_digit d s first val digLen fields :
  0 <= d < 10 -> (digLen = 1 -> val <> 0) -> val * 10 + d <= 255 ->
  parseIPv4Fields (digitChar d :: s) first val digLen fields = parseIPv4Fields s false (val * 10 + d) (digLen + 1) fields.
Proof.
  intros Hd Hz Hv. cbn [parseIPv4Fields]. rewrite (digitVal_digitChar _ Hd).
  destruct (Z.eqb_spec digLen 1); [destruct (Z.eqb_spec val 0); [by apply Hz in e|]|]; cbn [andb];
    by rewrite (proj2 (Z.ltb_ge _ _) Hv).
Qed.

(** An octet in decimal is read as its value. *)
Lemma parseIPv4Fields_octet x s fields :
  is_byte x -> exists n, parseIPv4Fields (appendDecimal x ++ s) true 0 0 fields = parseIPv4Fields s false x n fields.
Proof.
  unfold is_byte, in_uint, appendDecimal. intros Hx.
  destruct (Z.leb_spec 100 x) as [H100|H100]; [|destruct (Z.leb_spec 10 x) as [H10|H10]].
  - rewrite (proj2 (Z.leb_le 10 x)) by lia. exists 3. cbn [app].
    rewrite !parseIPv4Fields_digit by (Z.to_euclidean_division_equations; lia).
    f_equal. Z.to_euclidean_division_equations; lia.
  - exists 2. cbn [app]. rewrite !parseIPv4Fields_digit by (Z.to_euclidean_division_equations; lia).
    f_equal. Z.to_euclidean_division_equations; lia.
  - exists 1. cbn [app]. rewrite parseIPv4Fields_digit by (Z.to_euclidean_division_equations; lia).
    f_equal. Z.to_euclidean_division_equations; lia.
Qed.

Lemma appendDecimal_cons x : exists c l, appendDecimal x = c :: l.
Proof. unfold appendDecimal. destruct (_ <=? _), (_ <=? _); simpl; eauto. Qed.

Lemma parseIPv4Fields_dot x s n fields :
  is_byte x -> s <> [] -> (length fields < 3)%nat ->
  parseIPv4Fields ("."%char :: s) false x n fields = parseIPv4Fields s true 0 0 (fields ++ [x]).
Proof.
  intros Hx Hs Hf. cbn [parseIPv4Fields]. change (digitVal "."%char) with (@None Z). change (isChar "." ".") with true. cbv iota.
  rewrite !bool_decide_eq_false_2 by (done || lia). cbn [orb]. by rewrite uint8_small.
Qed.

Lemma parseIPv4_IP4_String ip : is_bytes ip -> length ip = 4%nat -> parseIPv4 (IP4_String ip) = Some ip.
Proof.
  intros Hip Hl. destruct ip as [|a [|b [|c [|d [|]]]]]; try discriminate.
  unfold is_bytes in Hip. rewrite !Forall_cons_iff in Hip. destruct Hip as (Ha & Hb & Hc & Hd & _).
  assert (forall x (s : list ascii), appendDecimal x ++ s <> []) as Hne
    by (intros x s; destruct (appendDecimal_cons x) as (? & ? & ->); discriminate).
  unfold parseIPv4, IP4_String.
  destruct (parseIPv4Fields_octet a ("."%char :: appendDecimal b ++ "."%char :: appendDecimal c ++ "."%char :: appendDecimal d) [] Ha) as [na ->].
  rewrite parseIPv4Fields_dot by (apply Hne || done || simpl; lia).
  destruct (parseIPv4Fields_octet b ("."%char :: appendDecimal c ++ "."%char :: appendDecimal d) ([] ++ [a]) Hb) as [nb ->].
  rewrite parseIPv4Fields_dot by (apply Hne || done || simpl; lia).
  destruct (parseIPv4Fields_octet c ("."%char :: appendDecimal d) (([] ++ [a]) ++ [b]) Hc) as [nc ->].
  rewrite parseIPv4Fields_dot by (done || (rewrite <- (app_nil_r (appendDecimal d)); apply Hne) || simpl; lia).
  rewrite <- (app_nil_r (appendDecimal d)).
  destruct (parseIPv4Fields_octet d [] ((([] ++ [a]) ++ [b]) ++ [c]) Hd) as [nd ->].
  cbn [parseIPv4Fields app length]. rewrite bool_decide_eq_false_2 by lia. by rewrite uint8_small.
Qed.

(** A digit is no separator, so the first one of a dotted quad is a dot. *)
Lemma addrKind_digits x s : is_byte x -> addrKind (appendDecimal x ++ "."%char :: s) = Some true.
Proof.
  unfold is_byte, in_uint. intros Hx.
  assert (forall d (l : list ascii), 0 <= d < 10 -> addrKind (digitChar d :: l) = addrKind l) as Hd.
  { intros d l Hd. assert (Forall (fun d => isChar (digitChar d) "." = false /\ isChar (digitChar d) ":" = false /\
      isChar (digitChar d) "%" = false) (map Z.of_nat (seq 0 10))) as H by (repeat constructor).
    rewrite Forall_forall in H. destruct (H d) as (E1 & E2 & E3).
    - apply in_map_iff. exists (Z.to_nat d). split; [lia|]. apply in_seq. lia.
    - cbn [addrKind]. by rewrite E1, E2, E3. }
  unfold appendDecimal. rewrite <- !app_assoc.
  destruct (_ <=? _), (_ <=? _); cbn [app]; rewrite !Hd by (Z.to_euclidean_division_equations; lia); done.
Qed.

Lemma ParseIP_IP4_String ip :
  is_bytes ip -> length ip = 4%nat -> ParseIP (IP4_String ip) = Some (v4InV6Prefix ++ ip).
Proof.
  intros Hip Hl. unfold ParseIP. rewrite (parseIPv4_IP4_String _ Hip Hl).
  destruct ip as [|a [|b [|c [|d [|]]]]]; try discriminate. unfold IP4_String.
  apply Forall_cons_iff in Hip as [Ha _]. by rewrite addrKind_digits.
Qed.

(** What is read are sixteen bytes. *)
Lemma uint8_byte x : is_byte (uint8 x).
Proof. unfold is_byte, in_uint, uint8. apply Z.mod_pos_bound. lia. Qed.

Lemma parseIPv4Fields_bytes s first val digLen fields ip :
  is_bytes fields -> (length fields <= 3)%nat -> parseIPv4Fields s first val digLen fields = Some ip ->
  is_bytes ip /\ length ip = 4%nat.
Proof.
  unfold is_bytes. revert first val digLen fields. induction s as [|c s IH]; intros first val digLen fields Hb Hl; cbn [parseIPv4Fields].
  - case_bool_decide; [done|]. intros [= <-]. rewrite Forall_app, length_app. simpl.
    split; [split; [done|]; constructor; [apply uint8_byte|done]|lia].
  - destruct (digitVal c) as [d|].
    + destruct (_ && _); [done|]. destruct (_ <? _); [done|]. by apply IH.
    + destruct (isChar _ _); [|done]. destruct (_ || _); [done|]. case_bool_decide; [done|].
      apply IH; [|rewrite length_app; simpl; lia]. rewrite Forall_app. split; [done|]. constructor; [apply uint8_byte|done].
Qed.

Lemma parseIPv4_bytes s ip : parseIPv4 s = Some ip -> is_bytes ip /\ length ip = 4%nat.
Proof. apply parseIPv4Fields_bytes; [constructor|simpl; lia]. Qed.

Lemma parseIPv6Loop_bytes turns s ip ellipsis ip' ellipsis' s' :
  is_bytes ip -> parseIPv6Loop turns s ip ellipsis = Some (ip', ellipsis', s') -> is_bytes ip'.
Proof.
  unfold is_bytes. revert s ip ellipsis. induction turns as [|turns IH]; intros s ip ellipsis Hip; cbn [parseIPv6Loop];
    [by intros [= <- _ _]|].
  destruct (hexGroup s 0 0) as [[[acc off] rest]|]; [|done]. destruct (off =? 0); [done|].
  assert (Forall is_byte (ip ++ [uint8 (Z.shiftr acc 8); uint8 acc])) as Hip2
    by (rewrite Forall_app; split; [done|]; repeat constructor; apply uint8_byte).
  destruct rest as [|c rest]; [by intros [= <- _ _]|]. destruct (isChar c "."%char).
  - destruct (_ && _); [done|]. case_bool_decide; [done|]. destruct (parseIPv4 s) as [v4|] eqn:E4; [|done].
    intros [= <- _ _]. rewrite Forall_app. split; [done|]. by apply parseIPv4_bytes in E4 as [? _].
  - destruct (negb _); [done|]. destruct rest as [|c' rest]; [done|]. destruct (isChar c' ":"%char); [|by apply IH].
    destruct ellipsis; [done|]. destruct rest; [by intros [= <- _ _]|by apply IH].
Qed.

Lemma parseIPv6_bytes s ip zone : parseIPv6 s = Some (ip, zone) -> is_bytes ip.
Proof.
  assert (forall n, is_bytes (replicate n 0)) as Hz.
  { intros n. unfold is_bytes. induction n; simpl; constructor; [unfold is_byte, in_uint; lia|done]. }
  unfold parseIPv6. destruct (splitZone s) as [s' z]. case_bool_decide; [done|].
  destruct (match s' with [] => _ | _ => _ end) as [lead s'']. destruct (_ && _); [intros [= <- _]; apply (Hz 16%nat)|].
  destruct (parseIPv6Loop _ _ _ _) as [[[ip' ellipsis] [|]]|] eqn:El; [|done..].
  apply parseIPv6Loop_bytes in El; [|constructor]. destruct ellipsis as [at_|]; case_bool_decide; [|done..|].
  - intros [= <- _]. unfold is_bytes in *. rewrite !Forall_app. rewrite <- (take_drop at_ ip'), Forall_app in El.
    split; [|split]; [apply El|apply Hz|apply El].
  - by intros [= <- _].
Qed.

Lemma ParseIP_bytes s ip : ParseIP s = Some ip -> is_bytes ip.
Proof.
  unfold ParseIP. destruct (addrKind s) as [[]|]; [| |done].
  - destruct (parseIPv4 s) as [v4|] eqn:E; [|done]. apply parseIPv4_bytes in E as [Hb _]. intros [= <-].
    unfold is_bytes. do 12 (apply Forall_cons_2; [unfold is_byte, in_uint; lia|]). done.
  - destruct (parseIPv6 s) as [[ip' zone]|] eqn:E; [|done]. apply parseIPv6_bytes in E. simpl. destruct zone; [done|]. by intros [= <-].
Qed.

(** [To4] of bytes: none, or four of them. *)
Lemma To4_bytes ip : is_bytes ip -> To4 ip = [] \/ (is_bytes (To4 ip) /\ length (To4 ip) = 4%nat).
Proof.
  intros Hip. unfold To4. destruct (Z.eqb_spec (len ip) 4) as [E|_]; [right; unfold len in E; split; [done|lia]|].
  destruct (Z.eqb_spec (len ip) 16) as [E|_]; [|by left]. cbn [andb]. case_bool_decide; [|by left]. right.
  unfold is_bytes in *. rewrite <- (take_drop 12 ip), Forall_app in Hip. unfold len in E. rewrite length_drop. split; [apply Hip|lia].
Qed.

Lemma To4_mapped ip : length ip = 4%nat -> To4 (v4InV6Prefix ++ ip) = ip.
Proof. intros H. do 4 (destruct ip as [|? ip]; [discriminate|]). by destruct ip. Qed.

Lemma IP4_String_inj ip ip' :
  is_bytes ip -> length ip = 4%nat -> is_bytes ip' -> length ip' = 4%nat -> IP4_String ip = IP4_String ip' -> ip = ip'.
Proof.
  intros H Hl H' Hl' E. apply (f_equal parseIPv4) in E. rewrite !parseIPv4_IP4_String in E by done. congruence.
Qed.

Lemma chars_string l : chars (String.string_of_list_ascii l) = l.
Proof. apply String.list_ascii_of_string_of_list_ascii. Qed.

(** ** Samples *)
Example ParseIP_samples :
  ParseIP (chars "203.0.113.7") = Some (v4InV6Prefix ++ [203; 0; 113; 7]) /\
  ParseIP (chars "2001:db8::7") = Some ([32; 1; 13; 184] ++ replicate 11 0 ++ [7]) /\
  ParseIP (chars "::ffff:203.0.113.7") = Some (v4InV6Prefix ++ [203; 0; 113; 7]) /\
  ParseIP (chars "203.0.113.07") = None /\ ParseIP (chars "203.0.113") = None /\ ParseIP (chars "fe80::1%eth0") = None /\
  ParseAddrPort (chars "0.0.0.0:17330") = Some (v4InV6Prefix ++ [0; 0; 0; 0], 17330) /\
  ParseAddrPort (chars "[::1]:80") = Some (replicate 15 0 ++ [1], 80) /\
  ParseAddrPort (chars ":17330") = None /\ ParseAddrPort (chars "0.0.0.0:65536") = None.
Proof. vm_compute. auto 12. Qed.
