(* ===== verification/Seqno.v ===== *)
(** * Replay protection: [tunnel/seqno.go]

    The sliding window of the last 512 sequence numbers of a section.  The
    code keeps it in eight 64-bit words, most significant bit first: bit
    [63 - j mod 64] of word [j / 64] says that [latest - j] was accepted.
    [shiftRightInPlace] and [checkSeqno] are translated with their in-place
    loop; [Spec] is the promise they make, a set of accepted numbers. *)

From S2P Require Import Prelude.

(** ** The data and the operations *)

Record SeqnoWindow := mkSeqnoWindow {
  latest : Z;
  window : list Z;
}.

Definition windowWords : nat := 8.

(** The zero value: [SeqnoWindow{}], also what [CacheInstruction] resets to. *)
Definition zeroWindow : list Z := replicate windowWords 0.
Definition zeroSeqno : SeqnoWindow := mkSeqnoWindow 0 zeroWindow.

Definition totalBits (obj : SeqnoWindow) : Z :=
  uint32 (Z.of_nat (length (window obj)) * 64).

(** The loop body of [shiftRightInPlace] at index [i]: the new word, from the
    words the array holds at that moment. *)
Definition shiftWord (w : list Z) (wordShift bitShift : Z) (i : nat) : Z :=
  let srcIndex := Z.of_nat i - wordShift in
  if srcIndex <? 0 then 0
  else
    let src := Z.to_nat srcIndex in
    let newVal := shr64 (w !!! src) bitShift in
    if (0 <? bitShift) && (0 <? srcIndex)
    then Z.lor newVal (shl64 (w !!! (src - 1)%nat) (64 - bitShift))
    else newVal.

(** [for i := n - 1; i >= 0; i--]: every iteration writes [window[i]]. *)
Fixpoint shiftLoop (n : nat) (wordShift bitShift : Z) (w : list Z) : list Z :=
  match n with
  | O => w
  | S i => shiftLoop i wordShift bitShift (<[i := shiftWord w wordShift bitShift i]> w)
  end.

Definition shiftRightInPlace (obj : SeqnoWindow) (diff : Z) : SeqnoWindow :=
  if totalBits obj <=? diff
  then mkSeqnoWindow (latest obj) ((fun _ => 0) <$> window obj)
  else mkSeqnoWindow (latest obj)
         (shiftLoop (length (window obj)) (diff / 64) (diff mod 64) (window obj)).

(** [window[0] = 1 << 63] after clearing every word. *)
Definition restartWindow (w : list Z) : list Z :=
  <[0%nat := 2 ^ 63]> ((fun _ => 0) <$> w).

(** The counter has wrapped: the number is far below the latest one. *)
Definition overflows (obj : SeqnoWindow) (seqno : Z) : bool :=
  (seqno <? latest obj) && (2 ^ 31 <? uint32 (latest obj - seqno)).

Definition checkSeqno (obj : SeqnoWindow) (seqno : Z) : SeqnoWindow * bool :=
  if overflows obj seqno then
    (mkSeqnoWindow seqno (restartWindow (window obj)), true)
  else if latest obj <? seqno then
    let diff := uint32 (seqno - latest obj) in
    if totalBits obj <=? diff then
      (mkSeqnoWindow seqno (restartWindow (window obj)), true)
    else
      let w := window (shiftRightInPlace obj diff) in
      (mkSeqnoWindow seqno (<[0%nat := Z.lor (w !!! 0%nat) (2 ^ 63)]> w), true)
  else if seqno =? latest obj then (obj, false)
  else
    let diff := uint32 (latest obj - seqno) in
    if totalBits obj <=? diff then (obj, false)
    else
      let wordIndex := Z.to_nat (diff / 64) in
      let bitIndex := 63 - diff mod 64 in
      let word := window obj !!! wordIndex in
      if negb (Z.land (shr64 word bitIndex) 1 =? 0) then (obj, false)
      else (mkSeqnoWindow (latest obj)
              (<[wordIndex := Z.lor word (shl64 1 bitIndex)]> (window obj)), true).

(** A sequence of packets: the numbers accepted, in order. *)
Fixpoint acceptAll (obj : SeqnoWindow) (seqnos : list Z) : SeqnoWindow * list Z :=
  match seqnos with
  | [] => (obj, [])
  | n :: seqnos =>
      let '(obj', ok) := checkSeqno obj n in
      let '(obj'', l) := acceptAll obj' seqnos in
      (obj'', if ok then n :: l else l)
  end.

(** ** The promise: a window over the set of accepted numbers *)
Module Spec.
Record state := mk { top : Z; seen : gset Z }.

Definition init : state := mk 0 ∅.

Definition accept (s : state) (n : Z) : state * bool :=
  if decide (2 ^ 31 < top s - n) then (mk n {[n]}, true)
  else if decide (top s < n) then (mk n ({[n]} ∪ seen s), true)
  else if decide (n = top s \/ 512 <= top s - n \/ n ∈ seen s) then (s, false)
  else (mk (top s) ({[n]} ∪ seen s), true).

Fixpoint acceptAll (s : state) (seqnos : list Z) : state * list Z :=
  match seqnos with
  | [] => (s, [])
  | n :: seqnos =>
      let '(s', ok) := accept s n in
      let '(s'', l) := acceptAll s' seqnos in
      (s'', if ok then n :: l else l)
  end.
End Spec.

(** ** The invariant and the abstraction *)

Definition wf (obj : SeqnoWindow) : Prop :=
  in_uint 32 (latest obj) /\ length (window obj) = windowWords /\
  Forall (in_uint 64) (window obj).

(** Position [j] of the window, counted from the latest number down. *)
Definition bitAt (w : list Z) (j : Z) : bool :=
  Z.testbit (w !!! Z.to_nat (j / 64)) (63 - j mod 64).

Definition represents (obj : SeqnoWindow) (s : Spec.state) : Prop :=
  latest obj = Spec.top s /\ (forall n, n ∈ Spec.seen s -> 0 <= n <= Spec.top s) /\
  forall j, 0 <= j < 512 -> bitAt (window obj) j = bool_decide (latest obj - j ∈ Spec.seen s).

(** ** The in-place shift is a shift of the 512-bit window *)

Lemma lookup_total_range (w : list Z) i :
  Forall (in_uint 64) w -> (i < length w)%nat -> in_uint 64 (w !!! i).
Proof.
  intros Hw Hi. eapply Forall_lookup_1; [exact Hw|].
  by apply list_lookup_lookup_total_lt.
Qed.

Lemma testbit_word_high x b : in_uint 64 x -> 64 <= b -> Z.testbit x b = false.
Proof.
  intros Hx Hb. rewrite <- (Z.mod_small x (2 ^ 64)) by exact Hx.
  apply Z.mod_pow2_bits_high. lia.
Qed.

Lemma shl64_spec x s b : 0 <= b < 64 -> Z.testbit (shl64 x s) b = Z.testbit x (b - s).
Proof.
  intros. unfold shl64, uint64. rewrite Z.mod_pow2_bits_low by lia.
  by rewrite Z.shiftl_spec by lia.
Qed.

Lemma shiftWord_insert w ws bs i k v :
  0 <= ws -> (i < k)%nat -> shiftWord (<[k := v]> w) ws bs i = shiftWord w ws bs i.
Proof.
  intros Hws Hi. unfold shiftWord. destruct (Z.ltb_spec (Z.of_nat i - ws) 0); [done|].
  rewrite !list_lookup_total_insert_ne by lia. done.
Qed.

Lemma length_shiftLoop n ws bs w : length (shiftLoop n ws bs w) = length w.
Proof.
  revert w. induction n as [|n IH]; intros w; simpl; [done|].
  by rewrite IH, length_insert.
Qed.

Lemma shiftLoop_lookup n ws bs w i :
  0 <= ws -> (n <= length w)%nat ->
  shiftLoop n ws bs w !!! i = if decide (i < n)%nat then shiftWord w ws bs i else w !!! i.
Proof.
  intros Hws. revert w. induction n as [|n IH]; intros w Hn; simpl; [done|].
  rewrite IH by (rewrite length_insert; lia).
  destruct (decide (i < n)%nat), (decide (i < S n)%nat); try lia.
  - by apply shiftWord_insert.
  - assert (i = n) as -> by lia. by rewrite list_lookup_total_insert_eq by lia.
  - by rewrite list_lookup_total_insert_ne by lia.
Qed.

(** Where bit [j] of the shifted window comes from. *)
Lemma shiftWord_bit w d j :
  Forall (in_uint 64) w -> 0 <= d -> 0 <= j < 64 * Z.of_nat (length w) ->
  Z.testbit (shiftWord w (d / 64) (d mod 64) (Z.to_nat (j / 64))) (63 - j mod 64)
  = if decide (d <= j) then bitAt w (j - d) else false.
Proof.
  intros Hw Hd Hj. unfold shiftWord, bitAt.
  pose proof (Z.mod_pos_bound d 64 ltac:(lia)) as Hdm.
  pose proof (Z.mod_pos_bound j 64 ltac:(lia)) as Hjm.
  pose proof (Z.div_mod d 64 ltac:(lia)) as Ed.
  pose proof (Z.div_mod j 64 ltac:(lia)) as Ej.
  assert (j / 64 < Z.of_nat (length w)) by (apply Z.div_lt_upper_bound; lia).
  rewrite Z2Nat.id by (apply Z.div_pos; lia).
  set (q := j / 64) in *. set (r := j mod 64) in *.
  set (e := d / 64) in *. set (f := d mod 64) in *.
  destruct (Z.ltb_spec (q - e) 0).
  { rewrite Z.bits_0, decide_False by lia. done. }
  assert (in_uint 64 (w !!! Z.to_nat (q - e))) as Hsrc by (apply lookup_total_range; [done|lia]).
  destruct (Z.le_gt_cases f r) as [Hfr|Hfr].
  - (* the bit comes from the source word *)
    rewrite decide_True by lia.
    assert ((j - d) / 64 = q - e /\ (j - d) mod 64 = r - f) as [-> ->].
    { replace (j - d) with ((r - f) + (q - e) * 64) by lia.
      rewrite Z.div_add, Z.mod_add by lia. rewrite Z.div_small, Z.mod_small by lia. lia. }
    destruct ((0 <? f) && (0 <? q - e)) eqn:E.
    + rewrite Z.lor_spec, shl64_spec by lia.
      rewrite (Z.testbit_neg_r _ (63 - r - (64 - f))) by lia. rewrite orb_false_r.
      unfold shr64. rewrite Z.shiftr_spec by lia. f_equal; lia.
    + unfold shr64. rewrite Z.shiftr_spec by lia. f_equal; lia.
  - (* the bit crosses into the word before *)
    assert ((0 <? f) = true) as -> by (apply Z.ltb_lt; lia). simpl.
    destruct (Z.ltb_spec 0 (q - e)).
    + rewrite decide_True by lia.
      assert ((j - d) / 64 = q - e - 1 /\ (j - d) mod 64 = r - f + 64) as [-> ->].
      { replace (j - d) with ((r - f + 64) + (q - e - 1) * 64) by lia.
        rewrite Z.div_add, Z.mod_add by lia. rewrite Z.div_small, Z.mod_small by lia. lia. }
      rewrite Z.lor_spec, shl64_spec by lia. unfold shr64. rewrite Z.shiftr_spec by lia.
      rewrite testbit_word_high by (done || lia).
      replace (Z.to_nat (q - e) - 1)%nat with (Z.to_nat (q - e - 1)) by lia.
      simpl. f_equal. lia.
    + rewrite decide_False by lia. unfold shr64. rewrite Z.shiftr_spec by lia.
      by rewrite testbit_word_high by (done || lia).
Qed.

Lemma shiftWord_range w ws bs i :
  Forall (in_uint 64) w -> 0 <= ws -> 0 <= bs -> (i < length w)%nat ->
  in_uint 64 (shiftWord w ws bs i).
Proof.
  intros Hw Hws Hbs Hi. unfold shiftWord. destruct (Z.ltb_spec (Z.of_nat i - ws) 0).
  { by vm_compute. }
  assert (in_uint 64 (shr64 (w !!! Z.to_nat (Z.of_nat i - ws)) bs)) as Hr.
  { unfold shr64. pose proof (lookup_total_range w (Z.to_nat (Z.of_nat i - ws)) Hw ltac:(lia)) as Hx.
    unfold in_uint in *. rewrite Z.shiftr_div_pow2 by lia.
    assert (0 < 2 ^ bs) by lia. split; [apply Z.div_pos; lia|].
    apply Z.div_lt_upper_bound; nia. }
  destruct (_ && _); [|done].
  assert (in_uint 64 (shl64 (w !!! (Z.to_nat (Z.of_nat i - ws) - 1)%nat) (64 - bs))) as Hl
    by (apply uint_range; lia).
  by apply lor_range.
Qed.

(** ** Reading and setting one position *)

Lemma bit_test x b : 0 <= b -> negb (Z.land (shr64 x b) 1 =? 0) = Z.testbit x b.
Proof.
  intros Hb. unfold shr64. rewrite (Z.testbit_odd x b).
  change (Z.land (Z.shiftr x b) 1) with (Z.land (Z.shiftr x b) (Z.ones 1)).
  rewrite Z.land_ones by lia. change (2 ^ 1) with 2. rewrite Zmod_odd.
  by destruct (Z.odd _).
Qed.

Lemma testbit_pow2 b i : 0 <= b -> 0 <= i -> Z.testbit (2 ^ b) i = bool_decide (i = b).
Proof.
  intros. case_bool_decide; [subst; by apply Z.pow2_bits_true|].
  by apply Z.pow2_bits_false; lia.
Qed.

Lemma shl64_1 b : 0 <= b < 64 -> shl64 1 b = 2 ^ b.
Proof.
  intros. unfold shl64. rewrite Z.shiftl_1_l. apply uint64_id.
  split; [lia|]. apply Z.pow_lt_mono_r; lia.
Qed.

(** The position a word index and a bit index stand for. *)
Lemma bitAt_set w p j :
  0 <= p < 64 * Z.of_nat (length w) -> 0 <= j ->
  bitAt (<[Z.to_nat (p / 64) := Z.lor (w !!! Z.to_nat (p / 64)) (2 ^ (63 - p mod 64))]> w) j
  = bitAt w j || bool_decide (j = p).
Proof.
  intros Hp Hj. unfold bitAt.
  assert (p / 64 < Z.of_nat (length w)) by (apply Z.div_lt_upper_bound; lia).
  pose proof (Z.div_pos p 64 ltac:(lia) ltac:(lia)). pose proof (Z.div_pos j 64 ltac:(lia) ltac:(lia)).
  pose proof (Z.mod_pos_bound p 64 ltac:(lia)). pose proof (Z.mod_pos_bound j 64 ltac:(lia)).
  pose proof (Z.div_mod p 64 ltac:(lia)). pose proof (Z.div_mod j 64 ltac:(lia)).
  destruct (Z.eq_dec (j / 64) (p / 64)) as [E|E].
  - rewrite E, list_lookup_total_insert_eq by lia. rewrite Z.lor_spec. f_equal.
    rewrite testbit_pow2 by lia. apply bool_decide_ext. lia.
  - rewrite list_lookup_total_insert_ne by lia.
    rewrite bool_decide_eq_false_2 by (intros ->; done). by rewrite orb_false_r.
Qed.

Lemma set_bit_range x b : in_uint 64 x -> 0 <= b < 64 -> in_uint 64 (Z.lor x (2 ^ b)).
Proof.
  intros. apply lor_range; [lia|done|]. split; [lia|]. apply Z.pow_lt_mono_r; lia.
Qed.

Lemma zeros_lookup (w : list Z) i : (i < length w)%nat -> ((fun _ => 0) <$> w) !!! i = 0.
Proof.
  intros Hi. apply list_lookup_total_correct. rewrite list_lookup_fmap.
  by destruct (lookup_lt_is_Some_2 w i Hi) as [x ->].
Qed.

Lemma bitAt_zeros (w : list Z) j :
  0 <= j < 64 * Z.of_nat (length w) -> bitAt ((fun _ => 0) <$> w) j = false.
Proof.
  intros Hj. unfold bitAt.
  assert (j / 64 < Z.of_nat (length w)) by (apply Z.div_lt_upper_bound; lia).
  pose proof (Z.div_pos j 64 ltac:(lia) ltac:(lia)).
  rewrite zeros_lookup by lia. apply Z.bits_0.
Qed.

Lemma zeros_range (w : list Z) : Forall (in_uint 64) ((fun _ => 0) <$> w).
Proof. apply Forall_fmap, Forall_true. intros. by vm_compute. Qed.

Lemma bitAt_restart w j :
  length w = windowWords -> 0 <= j < 512 -> bitAt (restartWindow w) j = bool_decide (j = 0).
Proof.
  intros Hl Hj. unfold restartWindow.
  assert (length ((fun _ : Z => 0) <$> w) = windowWords) as Hl' by (by rewrite length_fmap).
  unfold windowWords in Hl, Hl'.
  pose proof (bitAt_set ((fun _ => 0) <$> w) 0 j) as H. rewrite Hl' in H.
  change (0 / 64) with 0 in H. change (63 - 0 mod 64) with 63 in H.
  change (Z.to_nat 0) with 0%nat in H.
  rewrite zeros_lookup in H by lia. rewrite Z.lor_0_l in H.
  rewrite H by lia. rewrite bitAt_zeros by (rewrite Hl; lia). done.
Qed.

Lemma bitAt_shift obj d j :
  wf obj -> 0 <= d < 512 -> 0 <= j < 512 ->
  bitAt (window (shiftRightInPlace obj d)) j
  = if decide (d <= j) then bitAt (window obj) (j - d) else false.
Proof.
  intros (_ & Hl & Hw) Hd Hj. unfold shiftRightInPlace, totalBits. rewrite Hl.
  change (uint32 (Z.of_nat windowWords * 64)) with 512.
  destruct (Z.leb_spec 512 d); [lia|]. cbn [window]. unfold bitAt at 1.
  pose proof (Z.div_pos j 64 ltac:(lia) ltac:(lia)).
  assert (j / 64 < 8) by (apply Z.div_lt_upper_bound; lia).
  rewrite shiftLoop_lookup by (try apply Z.div_pos; unfold windowWords in *; lia).
  rewrite decide_True by (unfold windowWords; lia).
  apply shiftWord_bit; [done|lia|]. rewrite Hl. unfold windowWords. lia.
Qed.

Lemma shift_wf obj d : wf obj -> 0 <= d -> wf (shiftRightInPlace obj d).
Proof.
  intros (Hla & Hl & Hw) Hd. unfold shiftRightInPlace. destruct (_ <=? d).
  { split_and!; simpl; [done|by rewrite length_fmap|apply zeros_range]. }
  split_and!; simpl; [done|by rewrite length_shiftLoop|].
  apply Forall_lookup_2. intros i x Hx.
  assert (i < length (window obj))%nat as Hi
    by (apply lookup_lt_Some in Hx; by rewrite length_shiftLoop in Hx).
  apply list_lookup_total_correct in Hx. subst x.
  rewrite shiftLoop_lookup by (try apply Z.div_pos; lia). rewrite decide_True by done.
  apply shiftWord_range; try done; [apply Z.div_pos; lia|apply Z.mod_pos_bound; lia].
Qed.

Lemma totalBits_wf obj : wf obj -> totalBits obj = 512.
Proof. intros (_ & Hl & _). unfold totalBits. by rewrite Hl. Qed.

Lemma restart_wf obj n : wf obj -> in_uint 32 n -> wf (mkSeqnoWindow n (restartWindow (window obj))).
Proof.
  intros (_ & Hl & _) Hn. unfold restartWindow. split_and!; simpl; [done| |].
  - by rewrite length_insert, length_fmap.
  - apply Forall_insert; [apply zeros_range|]. by vm_compute.
Qed.

Lemma set_wf obj i n b :
  wf obj -> in_uint 32 n -> 0 <= b < 64 -> (i < windowWords)%nat ->
  wf (mkSeqnoWindow n (<[i := Z.lor (window obj !!! i) (2 ^ b)]> (window obj))).
Proof.
  intros (_ & Hl & Hw) Hn Hb Hi. split_and!; simpl; [done|by rewrite length_insert|].
  apply Forall_insert; [done|]. apply set_bit_range; [|done].
  apply lookup_total_range; [done|by rewrite Hl].
Qed.

Lemma uint32_sub a b : in_uint 32 a -> in_uint 32 b -> b <= a -> uint32 (a - b) = a - b.
Proof. intros Ha Hb H. apply uint32_id. unfold in_uint in *. lia. Qed.

(** ** The operations keep the invariant *)

Lemma checkSeqno_wf obj n : wf obj -> in_uint 32 n -> wf (checkSeqno obj n).1.
Proof.
  intros Hwf Hn. pose proof Hwf as (Hla & _ & _). unfold checkSeqno.
  rewrite totalBits_wf by done.
  destruct (overflows obj n); [by apply restart_wf|].
  destruct (Z.ltb_spec (latest obj) n).
  - rewrite uint32_sub by (done || lia).
    destruct (Z.leb_spec 512 (n - latest obj)); [by apply restart_wf|].
    apply (set_wf (shiftRightInPlace obj (n - latest obj)) 0 n 63);
      [apply shift_wf; [done|lia]|done|lia|by vm_compute; lia].
  - destruct (Z.eqb_spec n (latest obj)); [done|].
    rewrite uint32_sub by (done || lia).
    destruct (Z.leb_spec 512 (latest obj - n)); [done|].
    destruct (negb _); [done|]. cbn [fst].
    pose proof (Z.mod_pos_bound (latest obj - n) 64 ltac:(lia)).
    pose proof (Z.div_pos (latest obj - n) 64 ltac:(lia) ltac:(lia)).
    assert ((latest obj - n) / 64 < 8) by (apply Z.div_lt_upper_bound; lia).
    rewrite shl64_1 by lia. apply set_wf; [done|done|lia|unfold windowWords; lia].
Qed.

Lemma zeroSeqno_wf : wf zeroSeqno.
Proof. split_and!; [by vm_compute|done|]. apply Forall_replicate. by vm_compute. Qed.

Lemma represents_init : represents zeroSeqno Spec.init.
Proof.
  split_and!; [done|set_solver|]. intros j Hj.
  rewrite bool_decide_eq_false_2 by set_solver.
  unfold zeroSeqno, zeroWindow, windowWords; cbn [window].
  change (replicate 8 0) with ((fun _ : Z => 0) <$> replicate 8 0).
  apply bitAt_zeros. simpl. lia.
Qed.

(** A bound on the members of a set after one more. *)
Ltac bounded_union Hle :=
  let x := fresh "x" in let Hx := fresh "Hx" in
  intros x [->%elem_of_singleton|Hx]%elem_of_union; [|apply Hle in Hx]; lia.

(** The three ways the code changes the window. *)
Lemma represents_restart obj n (S : gset Z) :
  wf obj -> in_uint 32 n -> n ∈ S -> (forall x, x ∈ S -> 0 <= x <= n) ->
  (forall x, x ∈ S -> x <= n - 512 \/ x = n) ->
  represents (mkSeqnoWindow n (restartWindow (window obj))) (Spec.mk n S).
Proof.
  intros (_ & Hl & _) Hn HnS Hle Hfar.
  split_and!; [done|exact Hle|]. intros j Hj. cbn [window latest Spec.seen].
  rewrite bitAt_restart by done. apply bool_decide_ext. split; [intros ->|].
  - by rewrite Z.sub_0_r.
  - intros H. apply Hfar in H. lia.
Qed.

Lemma represents_advance obj s n :
  wf obj -> in_uint 32 n -> represents obj s -> latest obj < n < latest obj + 512 ->
  let w := window (shiftRightInPlace obj (n - latest obj)) in
  represents (mkSeqnoWindow n (<[0%nat := Z.lor (w !!! 0%nat) (2 ^ 63)]> w))
    (Spec.mk n ({[n]} ∪ Spec.seen s)).
Proof.
  intros Hwf Hn (Htop & Hle & Hbits) Hlt w.
  assert (wf (shiftRightInPlace obj (n - latest obj))) as (_ & Hl & _) by (apply shift_wf; [done|lia]).
  unfold in_uint in Hn.
  split_and!; [done| |]; cbn [Spec.seen Spec.top].
  { bounded_union Hle. }
  intros j Hj. cbn [window latest].
  pose proof (bitAt_set w 0 j) as Hset. change (0 / 64) with 0 in Hset.
  change (63 - 0 mod 64) with 63 in Hset. change (Z.to_nat 0) with 0%nat in Hset.
  subst w. rewrite Hset by (rewrite ?Hl; unfold windowWords; lia).
  rewrite bitAt_shift by (done || lia).
  destruct (decide (n - latest obj <= j)).
  - rewrite Hbits by lia. rewrite <- bool_decide_or. apply bool_decide_ext.
    replace (latest obj - (j - (n - latest obj))) with (n - j) by lia.
    rewrite elem_of_union, elem_of_singleton. split; intros [?|?]; either_or.
  - simpl. apply bool_decide_ext. rewrite elem_of_union, elem_of_singleton.
    split; [lia|]. intros [?|Hx]; [|apply Hle in Hx]; lia.
Qed.

Lemma represents_mark obj s n :
  wf obj -> in_uint 32 n -> represents obj s -> n < latest obj < n + 512 ->
  let d := latest obj - n in
  represents (mkSeqnoWindow (latest obj)
      (<[Z.to_nat (d / 64) := Z.lor (window obj !!! Z.to_nat (d / 64)) (2 ^ (63 - d mod 64))]> (window obj)))
    (Spec.mk (latest obj) ({[n]} ∪ Spec.seen s)).
Proof.
  intros (Hla & Hl & Hw) Hn (Htop & Hle & Hbits) Hlt d. unfold in_uint in Hn.
  split_and!; [done| |]; cbn [Spec.seen Spec.top].
  { bounded_union Hle. }
  intros j Hj. cbn [window latest].
  rewrite bitAt_set by (rewrite ?Hl; unfold windowWords; lia).
  rewrite Hbits by lia. rewrite <- bool_decide_or. apply bool_decide_ext.
  rewrite elem_of_union, elem_of_singleton. subst d. split; intros [?|?]; either_or.
Qed.

(** ** The window implements the specification *)

Lemma overflows_spec obj n :
  wf obj -> in_uint 32 n -> overflows obj n = bool_decide (2 ^ 31 < latest obj - n).
Proof.
  intros (Hla & _) Hn. unfold overflows.
  destruct (Z.ltb_spec n (latest obj)); cbn [andb].
  - rewrite uint32_sub by (done || lia).
    case_bool_decide; [by apply Z.ltb_lt|by apply Z.ltb_ge, Z.nlt_ge].
  - rewrite bool_decide_eq_false_2; [done|lia].
Qed.

Lemma bitAt_test obj n :
  n < latest obj < n + 512 ->
  let d := latest obj - n in
  negb (Z.land (shr64 (window obj !!! Z.to_nat (d / 64)) (63 - d mod 64)) 1 =? 0)
  = bitAt (window obj) d.
Proof.
  intros H d. pose proof (Z.mod_pos_bound d 64 ltac:(lia)). rewrite bit_test by lia. done.
Qed.

Lemma checkSeqno_simulates obj s n :
  wf obj -> in_uint 32 n -> represents obj s ->
  (checkSeqno obj n).2 = (Spec.accept s n).2 /\
  represents (checkSeqno obj n).1 (Spec.accept s n).1.
Proof.
  intros Hwf Hn Hrep. pose proof Hrep as (Htop & Hle & Hbits). pose proof Hwf as (Hla & _).
  unfold checkSeqno, Spec.accept. rewrite totalBits_wf, overflows_spec by done. rewrite <- Htop.
  case_bool_decide as Hov; [rewrite decide_True by done|rewrite decide_False by done].
  { split; [done|]. apply represents_restart; try done; try set_solver.
    intros x ->%elem_of_singleton. unfold in_uint in Hn. lia. }
  destruct (Z.ltb_spec (latest obj) n) as [Hlt|Hge];
    [rewrite decide_True by done|rewrite decide_False by lia].
  { rewrite uint32_sub by (done || lia). destruct (Z.leb_spec 512 (n - latest obj)).
    - split; [done|]. apply represents_restart; try done; [set_solver| |];
        unfold in_uint in *; bounded_union Hle.
    - split; [done|]. apply represents_advance; try done; lia. }
  destruct (Z.eqb_spec n (latest obj)); [rewrite decide_True by (by left); done|].
  rewrite uint32_sub by (done || lia).
  destruct (Z.leb_spec 512 (latest obj - n)); [rewrite decide_True by (right; left; lia); done|].
  rewrite bitAt_test by lia. rewrite Hbits by lia.
  replace (latest obj - (latest obj - n)) with n by lia.
  case_bool_decide as Hin; [rewrite decide_True by (by right; right); done|].
  rewrite decide_False by (intros [?|[?|?]]; [done|lia|done]). split; [done|].
  pose proof (Z.mod_pos_bound (latest obj - n) 64 ltac:(lia)).
  rewrite shl64_1 by lia. apply represents_mark; done || lia.
Qed.

Lemma acceptAll_simulates obj s ns :
  wf obj -> represents obj s -> Forall (in_uint 32) ns ->
  wf (acceptAll obj ns).1 /\
  (acceptAll obj ns).2 = (Spec.acceptAll s ns).2 /\
  represents (acceptAll obj ns).1 (Spec.acceptAll s ns).1.
Proof.
  intros Hwf Hrep Hns. revert obj s Hwf Hrep.
  induction Hns as [|n ns Hn _ IH]; intros obj s Hwf Hrep; [done|]. simpl.
  destruct (checkSeqno_simulates obj s n Hwf Hn Hrep) as [Hok Hrep'].
  pose proof (checkSeqno_wf obj n Hwf Hn) as Hwf'.
  destruct (checkSeqno obj n) as [obj' ok], (Spec.accept s n) as [s' ok']. simpl in *. subst ok'.
  destruct (IH obj' s' Hwf' Hrep') as (Hw & Hl & Hr).
  destruct (acceptAll obj' ns), (Spec.acceptAll s' ns). simpl in *. by subst.
Qed.

(** While no number passes 2^31 the window never restarts, and the set of the
    specification is the set of the numbers accepted so far. *)
Lemma Spec_run_seen s ns :
  Spec.top s <= 2 ^ 31 -> Forall (fun n => 0 <= n <= 2 ^ 31) ns ->
  (forall x, x ∈ Spec.seen s -> x <= Spec.top s) ->
  let '(s', l) := Spec.acceptAll s ns in
  Spec.top s' <= 2 ^ 31 /\ NoDup l /\ (forall x, x ∈ l -> x ∉ Spec.seen s) /\
  Spec.seen s' = list_to_set l ∪ Spec.seen s.
Proof.
  intros Htop Hns. revert s Htop. induction Hns as [|n ns Hn _ IH]; intros s Htop Hle; simpl.
  { split_and!; [done|constructor|set_solver|set_solver]. }
  unfold Spec.accept. rewrite decide_False by lia.
  destruct (decide (Spec.top s < n)).
  - specialize (IH (Spec.mk n ({[n]} ∪ Spec.seen s))).
    destruct (Spec.acceptAll _ ns) as [s' acc].
    destruct IH as (Ht & Hnd & Hfr & Hse); simpl in *; [lia| |].
    { bounded_union Hle. }
    assert (n ∉ Spec.seen s) by (intros Hx; apply Hle in Hx; lia).
    split_and!; [done| |set_solver|rewrite Hse; set_solver].
    constructor; [|done]. intros Hx%Hfr. set_solver.
  - destruct (decide _) as [|Hrej].
    + specialize (IH s). destruct (Spec.acceptAll _ ns) as [s' acc]. by apply IH.
    + specialize (IH (Spec.mk (Spec.top s) ({[n]} ∪ Spec.seen s))).
      destruct (Spec.acceptAll _ ns) as [s' acc].
      destruct IH as (Ht & Hnd & Hfr & Hse); simpl in *; [lia| |].
      { bounded_union Hle. }
      split_and!; [done| |set_solver|rewrite Hse; set_solver].
      constructor; [|done]. intros Hx%Hfr. set_solver.
Qed.

Lemma small_uint32 ns : Forall (fun n => 0 <= n <= 2 ^ 31) ns -> Forall (in_uint 32) ns.
Proof. apply Forall_impl. unfold in_uint. intros; lia. Qed.

Lemma acceptAll_NoDup ns : Forall (fun n => 0 <= n <= 2 ^ 31) ns -> NoDup (acceptAll zeroSeqno ns).2.
Proof.
  intros Hns.
  destruct (acceptAll_simulates _ _ _ zeroSeqno_wf represents_init (small_uint32 _ Hns)) as (_ & -> & _).
  pose proof (Spec_run_seen Spec.init ns) as H.
  destruct (Spec.acceptAll Spec.init ns). apply H; [by vm_compute|done|set_solver].
Qed.

(** ** Properties *)

(** C40: [shiftRightInPlace] shifts the window as one 512-bit string: position
    [j] of the result is position [j - d] of the argument, and the first [d]
    positions are clear; the words stay in range. *)
Theorem shiftRightInPlace_shifts obj d :
  wf obj -> 0 <= d ->
  wf (shiftRightInPlace obj d) /\
  forall j, 0 <= j < 512 ->
    bitAt (window (shiftRightInPlace obj d)) j
    = if decide (d <= j) then bitAt (window obj) (j - d) else false.
Proof.
  intros Hwf Hd. split; [by apply shift_wf|]. intros j Hj.
  destruct (Z.lt_ge_cases d 512); [by apply bitAt_shift|].
  unfold shiftRightInPlace. rewrite totalBits_wf by done.
  destruct (Z.leb_spec 512 d); [|lia]. rewrite decide_False by lia.
  apply bitAt_zeros. destruct Hwf as (_ & -> & _). unfold windowWords. lia.
Qed.

Lemma shiftRightInPlace_shifts_witness :
  wf (shiftRightInPlace (mkSeqnoWindow 1000 (<[0%nat := 2 ^ 63]> zeroWindow)) 70) /\
  bitAt (window (shiftRightInPlace (mkSeqnoWindow 1000 (<[0%nat := 2 ^ 63]> zeroWindow)) 70)) 70 = true.
Proof.
  assert (wf (mkSeqnoWindow 1000 (<[0%nat := 2 ^ 63]> zeroWindow))) as Hwf.
  { split_and!; [by vm_compute|done|].
    apply Forall_insert; [apply Forall_replicate|]; by vm_compute. }
  destruct (shiftRightInPlace_shifts _ 70 Hwf ltac:(lia)) as [H1 H2].
  split; [exact H1|]. rewrite H2 by lia. reflexivity.
Defined.

(** C2: from a fresh window, on every sequence of packets, [checkSeqno] accepts
    exactly the packets the set-based specification accepts, and the window it
    keeps represents the specification's state. *)
Theorem checkSeqno_refines_spec ns :
  Forall (in_uint 32) ns ->
  wf (acceptAll zeroSeqno ns).1 /\
  (acceptAll zeroSeqno ns).2 = (Spec.acceptAll Spec.init ns).2 /\
  represents (acceptAll zeroSeqno ns).1 (Spec.acceptAll Spec.init ns).1.
Proof. apply acceptAll_simulates; [apply zeroSeqno_wf|apply represents_init]. Qed.

Lemma checkSeqno_refines_spec_witness :
  (acceptAll zeroSeqno [1000; 1000; 1001; 1000; 999; 37; 2000; 2000]).2
  = (Spec.acceptAll Spec.init [1000; 1000; 1001; 1000; 999; 37; 2000; 2000]).2 /\
  (acceptAll zeroSeqno [1000; 1000; 1001; 1000; 999; 37; 2000; 2000]).2 = [1000; 1001; 999; 2000].
Proof.
  split; [|vm_compute; reflexivity].
  apply (checkSeqno_refines_spec [1000; 1000; 1001; 1000; 999; 37; 2000; 2000]).
  repeat constructor; vm_compute; congruence.
Defined.

(** C18: no replay: as long as the counter stays within 2^31 no sequence number
    is accepted twice, whatever the order in which packets arrive. *)
Theorem checkSeqno_no_replay ns :
  Forall (fun n => 0 <= n <= 2 ^ 31) ns -> NoDup (acceptAll zeroSeqno ns).2.
Proof. apply acceptAll_NoDup. Qed.

Lemma checkSeqno_no_replay_witness : NoDup (acceptAll zeroSeqno [5; 7; 5; 6; 7; 600; 5; 89; 88]).2.
Proof.
  apply (checkSeqno_no_replay [5; 7; 5; 6; 7; 600; 5; 89; 88]).
  repeat constructor; vm_compute; congruence.
Defined.

(** After any such history a packet is accepted exactly when its number was
    not accepted before, is not the latest one, and lies less than 512 below
    the latest one: reordering within the window loses nothing. *)
Theorem checkSeqno_exactly_once ns n :
  Forall (fun m => 0 <= m <= 2 ^ 31) ns -> 0 <= n <= 2 ^ 31 ->
  let '(obj, accepted) := acceptAll zeroSeqno ns in
  (checkSeqno obj n).2 = true <->
  n ∉ accepted /\ n <> latest obj /\ latest obj < n + 512.
Proof.
  intros Hns Hn.
  destruct (acceptAll_simulates _ _ _ zeroSeqno_wf represents_init (small_uint32 _ Hns)) as (Hwf & Hacc & Hrep).
  pose proof (Spec_run_seen Spec.init ns ltac:(by vm_compute) Hns ltac:(set_solver)) as Hrun.
  destruct (acceptAll zeroSeqno ns) as [obj acc], (Spec.acceptAll Spec.init ns) as [s acc'].
  simpl in *. subst acc'. destruct Hrun as (Ht & _ & _ & Hseen).
  assert (in_uint 32 n) as Hn32 by (unfold in_uint; lia).
  destruct (checkSeqno_simulates obj s n Hwf Hn32 Hrep) as [-> _].
  destruct Hrep as (Htop & Hle & _). unfold Spec.accept. rewrite Htop.
  rewrite decide_False by lia.
  assert (n ∈ Spec.seen s <-> n ∈ acc) as Hin by (rewrite Hseen; set_solver).
  destruct (decide (Spec.top s < n)).
  - simpl. split; [|done]. intros _. split_and!; [|lia|lia].
    rewrite <- Hin. intros Hx. apply Hle in Hx. lia.
  - destruct (decide _) as [Hrej|Hrej]; simpl; (split; [|]).
    + done.
    + intros (H1 & H2 & H3). exfalso. rewrite <- Hin in H1. destruct Hrej as [?|[?|?]]; [lia|lia|done].
    + intros _. rewrite <- Hin. split_and!; [tauto|lia|]. apply Z.nle_gt. intros ?. apply Hrej. lia.
    + done.
Qed.

Lemma checkSeqno_exactly_once_witness :
  let obj := (acceptAll zeroSeqno [1; 600; 100]).1 in
  (checkSeqno obj 99).2 = true <-> 99 ∉ [1; 600; 100] /\ 99 <> latest obj /\ latest obj < 99 + 512.
Proof.
  apply (checkSeqno_exactly_once [1; 600; 100] 99); [|lia].
  repeat constructor; vm_compute; congruence.
Defined.

(** Beyond 2^31 the protection is lost: one packet far ahead makes every old
    number acceptable again, so packet 16 passes twice. *)
Theorem checkSeqno_wrap_replays :
  (acceptAll zeroSeqno [16; 2 ^ 31 + 17; 16; 2 ^ 31 + 17; 16]).2
  = [16; 2 ^ 31 + 17; 16; 2 ^ 31 + 17; 16].
Proof. vm_compute. reflexivity. Qed.
