(* ===== verification/Stream.v ===== *)
(** * The layer cipher: [encryptStream], [decryptStream] ([tunnel/gateway.go])

    A layer is [iv ++ ciphertext]: the first eight bytes of the iv hold the
    CRC-64 of the plaintext masked with the CRC-64 of the key, the other eight
    are random, and the whole iv seeds an AES-CTR keystream.  The checksum is
    Go's [hash/crc64] with the ECMA polynomial, written out below; the block
    cipher of [tonutils-go/adnl/keys] is a parameter. *)

From S2P Require Import Prelude.

(** ** [hash/crc64] *)
Module Crc64.
(** The ECMA polynomial in reversed bit order. *)
Definition ECMA : Z := 0xC96C5795D7870F42.

(** One of the eight steps of [makeTable]. *)
Definition tableStep (crc : Z) : Z :=
  if Z.testbit crc 0 then Z.lxor (Z.shiftr crc 1) ECMA else Z.shiftr crc 1.

Definition tableEntry (i : nat) : Z := Nat.iter 8 tableStep (Z.of_nat i).

(** [crc64.MakeTable(crc64.ECMA)], the package variable [crcTable]. *)
Definition crcTable : list Z := Eval vm_compute in tableEntry <$> seq 0 256.

Definition not64 (x : Z) : Z := Z.lxor x (2 ^ 64 - 1).

Definition updateByte (crc b : Z) : Z :=
  Z.lxor (crcTable !!! Z.to_nat (Z.lxor (Z.land crc 255) b)) (Z.shiftr crc 8).

Definition Checksum (data : bytes) : Z :=
  not64 (foldl updateByte (not64 0) data).
End Crc64.

Abbreviation Checksum := Crc64.Checksum.
#[global] Strategy 1000 [Crc64.Checksum Crc64.updateByte].
#[global] Arguments Crc64.Checksum : simpl never.

(** ** The block cipher, a parameter

    [keys.NewCipherCtr] returns a [cipher.Stream] or an error (a key of a wrong
    size); a stream is determined by the keystream it XORs, byte after byte,
    onto the data ([XORKeyStream] of [crypto/cipher]). *)
Class CipherCtr : Type :=
  NewCipherCtr : bytes -> bytes -> option (nat -> Z).

(** What the code relies on: a keystream is made of bytes. *)
Class CipherCtrOk {C : CipherCtr} : Prop :=
  keystream_bytes : forall key iv ks, NewCipherCtr key iv = Some ks -> forall i, is_byte (ks i).
Arguments CipherCtrOk : clear implicits.

Definition XORKeyStream (ks : nat -> Z) (data : bytes) : bytes :=
  imap (fun i b => Z.lxor b (ks i)) data.

Section Stream.
Context {C : CipherCtr}.

(** [rnd] are the eight bytes [rand.Read] puts in the iv; [None] is its error. *)
Definition encryptStream (rnd : option bytes) (cipherKeyCrc : Z) (cipherKey data : bytes)
    : outcome bytes :=
  let crc := PutUint64 (Z.lxor (Checksum data) cipherKeyCrc) in
  r ← of_option "rand failed" rnd;
  let iv := crc ++ r in
  crypt ← of_option "new cipher calc failed" (NewCipherCtr cipherKey iv);
  mret (iv ++ XORKeyStream crypt data).

(** The plaintext replaces the ciphertext inside [data]: the first component is
    the buffer after the call, which the caller still holds. *)
Definition decryptStream (cipherKeyCrc : Z) (cipherKey data : bytes)
    : bytes * outcome bytes :=
  if len data <=? 16 then (data, Err (Errorf "corrupted data, len")) else
  let pl := drop 16 data in
  match NewCipherCtr cipherKey (take 16 data) with
  | None => (data, Err (Errorf "new cipher calc failed"))
  | Some crypt =>
      let pl := XORKeyStream crypt pl in
      let data := take 16 data ++ pl in
      let crc := Z.lxor (Checksum pl) cipherKeyCrc in
      if le_decode (take 8 data) =? crc then (data, Ok pl)
      else (data, Err (Errorf "corrupted data, checksum not match"))
  end.
End Stream.

(** The check value of the CRC-64/XZ catalogue entry, over the digits 1 to 9. *)
Example Checksum_check : Checksum [49; 50; 51; 52; 53; 54; 55; 56; 57] = 0x995DC9BBDF1939FA.
Proof. vm_compute. reflexivity. Qed.

(** ** The checksum is a 64-bit word and sees every single changed byte *)
Module Crc64Facts.
Import Crc64.

Lemma crcTable_range i : in_uint 64 (crcTable !!! i).
Proof.
  destruct (decide (i < 256)%nat) as [Hi|Hi].
  - eapply Forall_lookup_1; [|apply list_lookup_lookup_total_lt; exact Hi].
    apply (bool_decide_unpack (Forall (in_uint 64) crcTable)). by vm_compute.
  - rewrite list_lookup_total_alt, lookup_ge_None_2 by (simpl; lia). by vm_compute.
Qed.

Lemma not64_range x : in_uint 64 x -> in_uint 64 (not64 x).
Proof. intros. apply lxor_range; [lia|done|by vm_compute]. Qed.

Lemma updateByte_range crc b : in_uint 64 crc -> in_uint 64 (updateByte crc b).
Proof.
  intros. apply lxor_range; [lia|apply crcTable_range|apply shiftr_range; [lia|done]].
Qed.

Lemma foldl_updateByte_range data crc :
  in_uint 64 crc -> in_uint 64 (foldl updateByte crc data).
Proof.
  revert crc. induction data as [|b data IH]; intros crc Hc; [done|].
  simpl. by apply IH, updateByte_range.
Qed.

Lemma Checksum_range data : in_uint 64 (Checksum data).
Proof. apply not64_range, foldl_updateByte_range. by vm_compute. Qed.

(** The top bytes of the table are all different. *)
Lemma crcTable_top_inj i j :
  (i < 256)%nat -> (j < 256)%nat ->
  Z.shiftr (crcTable !!! i) 56 = Z.shiftr (crcTable !!! j) 56 -> i = j.
Proof.
  assert (NoDup ((fun t => Z.shiftr t 56) <$> crcTable)) as Hnd.
  { apply (bool_decide_unpack (NoDup _)). by vm_compute. }
  intros Hi Hj E. eapply NoDup_lookup; [exact Hnd| |].
  - rewrite list_lookup_fmap, list_lookup_lookup_total_lt by exact Hi. reflexivity.
  - rewrite list_lookup_fmap, list_lookup_lookup_total_lt by exact Hj. simpl. by rewrite E.
Qed.

Lemma index_range crc b : is_byte b -> (Z.to_nat (Z.lxor (Z.land crc 255) b) < 256)%nat.
Proof.
  intros Hb. assert (in_uint 8 (Z.lxor (Z.land crc 255) b)) as H; [|unfold in_uint in H; lia].
  apply lxor_range; [lia| |done]. change 255 with (Z.ones 8). rewrite Z.land_ones by lia.
  apply uint_range. lia.
Qed.

Lemma low_high_eq x y :
  Z.land x 255 = Z.land y 255 -> Z.shiftr x 8 = Z.shiftr y 8 -> x = y.
Proof.
  change 255 with (Z.ones 8). rewrite !Z.land_ones, !Z.shiftr_div_pow2 by lia.
  intros H1 H2. rewrite (Z.div_mod x (2 ^ 8)), (Z.div_mod y (2 ^ 8)) by lia. lia.
Qed.

Lemma updateByte_inj x y b c :
  in_uint 64 x -> in_uint 64 y -> is_byte b -> is_byte c ->
  updateByte x b = updateByte y c ->
  Z.lxor (Z.land x 255) b = Z.lxor (Z.land y 255) c /\ Z.shiftr x 8 = Z.shiftr y 8.
Proof.
  intros Hx Hy Hb Hc E. unfold updateByte in E.
  assert (forall z, in_uint 64 z -> Z.shiftr (Z.shiftr z 8) 56 = 0) as Hz.
  { intros z Hz. rewrite Z.shiftr_shiftr, Z.shiftr_div_pow2 by lia.
    apply Z.div_small. exact Hz. }
  pose proof (f_equal (fun z => Z.shiftr z 56) E) as E56. simpl in E56.
  rewrite !Z.shiftr_lxor, !Hz, !Z.lxor_0_r in E56 by done.
  apply crcTable_top_inj in E56; [|by apply index_range..].
  assert (forall z d, is_byte d -> 0 <= Z.lxor (Z.land z 255) d) as Hpos.
  { intros z d Hd. apply Z.lxor_nonneg. unfold is_byte, in_uint in Hd.
    split; intros; [lia|]. apply Z.land_nonneg. lia. }
  pose proof (Hpos x b Hb). pose proof (Hpos y c Hc).
  assert (Z.lxor (Z.land x 255) b = Z.lxor (Z.land y 255) c) as El by lia.
  split; [done|]. rewrite El in E. by apply lxor_inj_l in E.
Qed.

Lemma foldl_updateByte_inj data x y :
  in_uint 64 x -> in_uint 64 y -> is_bytes data ->
  foldl updateByte x data = foldl updateByte y data -> x = y.
Proof.
  intros Hx Hy Hd. revert x y Hx Hy. induction Hd as [|b data Hb _ IH]; intros x y Hx Hy E; [done|].
  simpl in E. apply IH in E; [|by apply updateByte_range..].
  apply updateByte_inj in E; [|done..]. destruct E as [El Eh].
  apply low_high_eq; [by apply lxor_inj_r in El|done].
Qed.

Lemma Checksum_byte_differs pre b c post :
  is_byte b -> is_byte c -> is_bytes post -> b <> c ->
  Checksum (pre ++ b :: post) <> Checksum (pre ++ c :: post).
Proof.
  intros Hb Hc Hpost Hne E. apply Hne. unfold Checksum in E. apply lxor_inj_r in E.
  rewrite !foldl_app in E. simpl in E.
  assert (in_uint 64 (foldl updateByte (not64 0) pre)) as Hp
    by (apply foldl_updateByte_range; by vm_compute).
  apply foldl_updateByte_inj in E; [|by apply updateByte_range..|done].
  apply updateByte_inj in E; [|done..]. destruct E as [El _]. by apply lxor_inj_l in El.
Qed.
End Crc64Facts.
Import Crc64Facts.

(** ** The keystream *)

Lemma length_XORKeyStream ks data : length (XORKeyStream ks data) = length data.
Proof. apply length_imap. Qed.

Lemma XORKeyStream_involutive ks data : XORKeyStream ks (XORKeyStream ks data) = data.
Proof.
  apply list_eq. intros i. unfold XORKeyStream. rewrite !list_lookup_imap.
  destruct (data !! i); simpl; [|done]. by rewrite lxor_cancel_r.
Qed.

Lemma XORKeyStream_bytes ks data :
  (forall i, is_byte (ks i)) -> is_bytes data -> is_bytes (XORKeyStream ks data).
Proof.
  intros Hk Hd. apply Forall_lookup_2. intros i x. unfold XORKeyStream.
  rewrite list_lookup_imap. intros (b & Hb & ->)%fmap_Some_1.
  apply lxor_range; [lia| |apply Hk]. eapply Forall_lookup_1; [exact Hd|exact Hb].
Qed.

Lemma XORKeyStream_split ks pre b post :
  XORKeyStream ks (pre ++ b :: post)
  = XORKeyStream ks pre ++ Z.lxor b (ks (length pre)) ::
    XORKeyStream (fun i => ks (S (length pre + i))) post.
Proof.
  unfold XORKeyStream. rewrite imap_app. f_equal. simpl. rewrite Nat.add_0_r. f_equal.
  apply imap_ext. intros i x _. simpl. by rewrite Nat.add_succ_r.
Qed.

(** ** One layer *)

Section StreamFacts.
Context {C : CipherCtr} {COk : CipherCtrOk C}.

Lemma encryptStream_inv rnd crc key data enc :
  encryptStream rnd crc key data = Ok enc ->
  exists r ks, rnd = Some r /\
    NewCipherCtr key (PutUint64 (Z.lxor (Checksum data) crc) ++ r) = Some ks /\
    enc = (PutUint64 (Z.lxor (Checksum data) crc) ++ r) ++ XORKeyStream ks data.
Proof using Type.
  unfold encryptStream. destruct rnd as [r|]; [|done]. simpl.
  destruct (NewCipherCtr key _) as [ks|] eqn:E; [|done]. simpl.
  intros [= <-]. by exists r, ks.
Qed.

Lemma header_crc data crc r :
  in_uint 64 crc ->
  le_decode (take 8 (PutUint64 (Z.lxor (Checksum data) crc) ++ r)) = Z.lxor (Checksum data) crc.
Proof using Type.
  intros Hc. rewrite take_app_length' by done. unfold PutUint64. rewrite le_decode_encode.
  apply Z.mod_small. apply lxor_range; [lia|apply Checksum_range|done].
Qed.

Lemma decrypt_encrypt rnd crc key data enc :
  encryptStream rnd crc key data = Ok enc ->
  (forall r, rnd = Some r -> length r = 8%nat) -> in_uint 64 crc -> data <> [] ->
  decryptStream crc key enc = (take 16 enc ++ data, Ok data) /\ length enc = (16 + length data)%nat.
Proof using Type.
  intros (r & ks & -> & Hks & ->)%encryptStream_inv Hr Hc Hne. specialize (Hr r eq_refl).
  set (iv := PutUint64 _ ++ r) in *.
  assert (length iv = 16%nat) as Hiv by (subst iv; rewrite length_app, Hr; done).
  split; [|rewrite length_app, length_XORKeyStream, Hiv; done].
  unfold decryptStream.
  assert ((len (iv ++ XORKeyStream ks data) <=? 16) = false) as ->.
  { apply Z.leb_gt. unfold len. rewrite length_app, length_XORKeyStream, Hiv.
    destruct data; [done|simpl; lia]. }
  rewrite drop_app_length', take_app_length' by done. rewrite Hks, XORKeyStream_involutive.
  rewrite take_app_le by lia. subst iv. rewrite header_crc by done. by rewrite Z.eqb_refl.
Qed.

Lemma encryptStream_bytes rnd crc key data enc :
  encryptStream rnd crc key data = Ok enc ->
  (forall r, rnd = Some r -> is_bytes r) -> is_bytes data -> is_bytes enc.
Proof using COk.
  intros (r & ks & -> & Hks & ->)%encryptStream_inv Hr Hd.
  apply Forall_app; split; [apply Forall_app; split; [apply le_encode_bytes|by apply Hr]|].
  apply XORKeyStream_bytes; [|done]. by eapply keystream_bytes.
Qed.

(** C21: a layer round-trips: [decryptStream] of what [encryptStream] returned
    for non-empty data is that data, the layer is 16 bytes longer than the data,
    and the plaintext now sits in the caller's buffer. *)
Theorem decryptStream_encryptStream rnd crc key data enc :
  encryptStream rnd crc key data = Ok enc ->
  (forall r, rnd = Some r -> length r = 8%nat) -> in_uint 64 crc -> data <> [] ->
  decryptStream crc key enc = (take 16 enc ++ data, Ok data) /\ length enc = (16 + length data)%nat.
Proof using Type. apply decrypt_encrypt. Qed.

(** An empty plaintext does not round-trip: the layer of length 16 it makes
    is refused by [decryptStream] under every key. *)
Theorem encryptStream_empty_undecryptable rnd crc key enc :
  encryptStream rnd crc key [] = Ok enc ->
  (forall r, rnd = Some r -> length r = 8%nat) ->
  forall crc' key', decryptStream crc' key' enc = (enc, Err (Errorf "corrupted data, len")).
Proof using Type.
  intros (r & ks & -> & Hks & ->)%encryptStream_inv Hr crc' key'. specialize (Hr r eq_refl).
  unfold decryptStream, len. rewrite !length_app, Hr. done.
Qed.

(** C22: integrity against a single corrupted byte: changing one ciphertext byte
    of an accepted layer makes [decryptStream] report a checksum mismatch. *)
Theorem decryptStream_detects_byte crc key iv pre b c post out :
  length iv = 16%nat -> is_bytes (iv ++ pre ++ b :: post) -> is_byte c -> b <> c ->
  (decryptStream crc key (iv ++ pre ++ b :: post)).2 = Ok out ->
  (decryptStream crc key (iv ++ pre ++ c :: post)).2
    = Err (Errorf "corrupted data, checksum not match").
Proof using COk.
  intros Hiv Hbs Hc Hne. unfold decryptStream.
  assert (forall x, (len (iv ++ pre ++ x :: post) <=? 16) = false) as Hlen.
  { intros x. apply Z.leb_gt. unfold len. rewrite !length_app, Hiv. simpl. lia. }
  rewrite !Hlen, !drop_app_length', !take_app_length' by done.
  destruct (NewCipherCtr key iv) as [ks|] eqn:Hks; [|done].
  rewrite !take_app_le by lia.
  rewrite !XORKeyStream_split.
  unfold is_bytes in Hbs. rewrite !Forall_app in Hbs.
  destruct Hbs as (_ & _ & [Hb Hpost]%Forall_cons_1).
  assert (forall i, is_byte (ks i)) as Hk by (by eapply keystream_bytes).
  set (pre' := XORKeyStream ks pre). set (post' := XORKeyStream _ post).
  assert (is_bytes post') as Hpost' by (apply XORKeyStream_bytes; [intros; apply Hk|done]).
  destruct (Z.eqb_spec (le_decode (take 8 iv))
    (Z.lxor (Checksum (pre' ++ Z.lxor b (ks (length pre)) :: post')) crc)) as [E|]; [|done].
  intros _.
  destruct (Z.eqb_spec (le_decode (take 8 iv))
    (Z.lxor (Checksum (pre' ++ Z.lxor c (ks (length pre)) :: post')) crc)) as [E'|]; [|done].
  exfalso. rewrite E in E'. apply lxor_inj_r in E'. revert E'.
  pose proof (Hk (length pre)).
  apply Checksum_byte_differs; [by apply lxor_range; [lia|..]|by apply lxor_range; [lia|..]|done|].
  intros Hx. by apply lxor_inj_r in Hx.
Qed.
End StreamFacts.

(** ** A cipher to evaluate with: the keystream is the key and the iv, repeated *)
Definition toyCipher : CipherCtr := fun key iv =>
  match key ++ iv with
  | [] => None
  | k :: ks => Some (fun i => (k :: ks) !!! (i mod S (length ks))%nat mod 2 ^ 8)
  end.

Lemma toyCipher_ok : CipherCtrOk toyCipher.
Proof.
  intros key iv ks. unfold NewCipherCtr, toyCipher. destruct (key ++ iv); [done|].
  intros [= <-] i. apply uint_range. lia.
Qed.

Definition toyKey : bytes := [7; 1; 200; 33].
Definition toyRnd : option bytes := Some [1; 2; 3; 4; 5; 6; 7; 8].

(** The layer of a few bytes under [toyKey]. *)
Definition toyLayer (data : bytes) : bytes :=
  match encryptStream (C := toyCipher) toyRnd (Checksum toyKey) toyKey data with
  | Ok enc => enc
  | _ => []
  end.

Lemma decryptStream_encryptStream_witness :
  decryptStream (C := toyCipher) (Checksum toyKey) toyKey (toyLayer [10; 20; 30])
  = (take 16 (toyLayer [10; 20; 30]) ++ [10; 20; 30], Ok [10; 20; 30]).
Proof.
  apply (decryptStream_encryptStream (C := toyCipher) toyRnd (Checksum toyKey) toyKey [10; 20; 30]).
  - vm_compute. reflexivity.
  - intros r [= <-]. reflexivity.
  - apply Checksum_range.
  - discriminate.
Defined.

Lemma encryptStream_empty_undecryptable_witness :
  decryptStream (C := toyCipher) (Checksum toyKey) toyKey (toyLayer [])
  = (toyLayer [], Err (Errorf "corrupted data, len")).
Proof.
  apply (encryptStream_empty_undecryptable (C := toyCipher) toyRnd (Checksum toyKey) toyKey).
  - vm_compute. reflexivity.
  - intros r [= <-]. reflexivity.
Defined.

Lemma decryptStream_detects_byte_witness :
  (decryptStream (C := toyCipher) (Checksum toyKey) toyKey
     (take 16 (toyLayer [10; 20; 30]) ++ [] ++ 14 :: drop 17 (toyLayer [10; 20; 30]))).2
  = Err (Errorf "corrupted data, checksum not match").
Proof.
  refine (decryptStream_detects_byte (C := toyCipher) (COk := toyCipher_ok) (Checksum toyKey) toyKey
    (take 16 (toyLayer [10; 20; 30])) [] 13 14 (drop 17 (toyLayer [10; 20; 30])) [10; 20; 30] _ _ _ _ _).
  - reflexivity.
  - apply (bool_decide_unpack (Forall (in_uint 8) _)). vm_compute. exact I.
  - vm_compute. split; congruence.
  - congruence.
  - vm_compute. reflexivity.
Defined.
