(* ===== verification/Wire.v ===== *)
(** * Messages and instructions ([tunnel/instructions.go], [tunnel/gateway.go])

    The data that travels: messages, payloads, the ten instructions, and the
    two hand-written codecs [InstructionsContainer.Parse/Serialize] and
    [CacheInstruction.Parse/Serialize].  The codec of the other instructions is
    derived by reflection inside [tonutils-go/tl]: it is the parameter [TL]. *)

From S2P Require Import Prelude.

(** ** Messages *)

Record EncryptedMessage := mkEncryptedMessage {
  em_SectionPubKey : bytes;
  em_Instructions : bytes;
  em_Payload : bytes;
}.

Record EncryptedMessageCached := mkEncryptedMessageCached {
  emc_SectionPubKey : bytes;
  emc_Seqno : Z;
  emc_Payload : bytes;
}.

(** What [messageHandler] switches on; [OtherMessage] is any other registered
    type. *)
Inductive message : Type :=
| Ping (Seqno : Z)
| Pong (Seqno : Z)
| MsgCached (m : EncryptedMessageCached)
| MsgEncrypted (m : EncryptedMessage)
| OtherMessage.

(** The metadata of a delivery; [OtherMeta] is any other boxed type. *)
Inductive metadata : Type :=
| StateMeta (State : Z)
| PingMeta (Seqno : Z) (WithPayments : bool)
| OtherMeta.

Record SendOutPayload := mkSendOutPayload {
  so_Seqno : Z; so_IP : bytes; so_Port : Z; so_Payload : bytes }.
Record DeliverUDPPayload := mkDeliverUDPPayload {
  du_Seqno : Z; du_IP : bytes; du_Port : Z; du_Payload : bytes }.
Record OutBindDonePayload := mkOutBindDonePayload {
  ob_Seqno : Z; ob_IP : bytes; ob_Port : Z }.

(** ** Instructions *)

Record BuildRouteInstruction := mkBuildRoute {
  br_TargetADNL : bytes;
  br_TargetSectionPubKey : bytes;
  br_RouteID : Z;
  br_PricePerPacket : Z;
}.

(** The channel state is a cell of [tonutils-go], kept here as its bytes. *)
Record PaymentInstruction := mkPayment {
  pi_Key : bytes;
  pi_PaymentChannelState : bytes;
  pi_Purpose : Z;
  pi_Final : bool;
}.

Record BindOutInstruction := mkBindOut {
  bo_InboundNodeADNL : bytes;
  bo_InboundSectionPubKey : bytes;
  bo_InboundInstructions : bytes;
  bo_ReceiverPubKey : bytes;
  bo_PricePerPacket : Z;
}.

Record ReportStatsInstruction := mkReportStats {
  rs_InboundNodeADNL : bytes;
  rs_InboundSectionPubKey : bytes;
  rs_InboundInstructions : bytes;
  rs_InboundInstructionsChecksum : Z;
  rs_ReceiverPubKey : bytes;
}.

(** The lists of instructions are lists of any value: [NotAnInstruction] stands
    for one that has no [Execute] method, which the codecs refuse. *)
Inductive instruction : Type :=
| Destroy
| Cache (Version : Z) (Instructions : list instruction)
| Route (RouteID : Z)
| BuildRoute (ins : BuildRouteInstruction)
| Payment (ins : PaymentInstruction)
| BindOut (ins : BindOutInstruction)
| ReportStats (ins : ReportStatsInstruction)
| SendOut
| Deliver
| DeliverInitiator (From : Z) (Metadata : metadata)
| NotAnInstruction.

Record InstructionsContainer := mkContainer {
  ic_Seqno : Z;
  ic_List : list instruction;
}.

(** The dynamic type of an instruction: the ten keys of [instructionOpcodes]. *)
Inductive kind : Type :=
| KDestroy | KCache | KRoute | KBuildRoute | KPayment | KBindOut
| KReportStats | KSendOut | KDeliver | KDeliverInitiator.

#[global] Instance kind_eq_dec : EqDecision kind.
Proof. solve_decision. Defined.

Definition kinds : list kind :=
  [KDestroy; KCache; KRoute; KBuildRoute; KPayment; KBindOut;
   KReportStats; KSendOut; KDeliver; KDeliverInitiator].

(** [s.(Instruction)]: the dynamic type, when it is one of them. *)
Definition kindOf (i : instruction) : option kind :=
  match i with
  | Destroy => Some KDestroy
  | Cache _ _ => Some KCache
  | Route _ => Some KRoute
  | BuildRoute _ => Some KBuildRoute
  | Payment _ => Some KPayment
  | BindOut _ => Some KBindOut
  | ReportStats _ => Some KReportStats
  | SendOut => Some KSendOut
  | Deliver => Some KDeliver
  | DeliverInitiator _ _ => Some KDeliverInitiator
  | NotAnInstruction => None
  end.

(** ** The reflective codec of [tonutils-go/tl], a parameter

    - [tl_opcode k]: the constructor id [tl.Register] returned for type [k];
    - [tl_fields i]: what [tl.Serialize(i, false)] writes for an instruction
      without a [Serialize] method ([None] when it fails);
    - [tl_parseFields k d]: [tl.Parse(inst, d, false)] for such a type, with the
      bytes left over;
    - [tl_box]/[tl_unbox]: the boxed form of a container around the bytes its
      own [Serialize] method wrote, and its inverse. *)
Class TL : Type := {
  tl_opcode : kind -> Z;
  tl_fields : instruction -> option bytes;
  tl_parseFields : kind -> bytes -> option (instruction * bytes);
  tl_box : bytes -> bytes;
  tl_unbox : bytes -> option bytes;
}.

(** The documented behaviour the tunnel relies on. *)
Class TLOk {T : TL} : Prop := {
  tl_opcode_range : forall k, in_uint 32 (tl_opcode k);
  tl_opcode_inj : forall k k', tl_opcode k = tl_opcode k' -> k = k';
  tl_fields_parse : forall i k bs rest,
    kindOf i = Some k -> k <> KCache -> tl_fields i = Some bs ->
    tl_parseFields k (bs ++ rest) = Some (i, rest);
  tl_parse_shorter : forall k d i rest,
    tl_parseFields k d = Some (i, rest) -> (length rest <= length d)%nat;
  tl_parse_kind : forall k d i rest, tl_parseFields k d = Some (i, rest) -> kindOf i = Some k;
  tl_unbox_box : forall bs rest, tl_unbox (tl_box bs ++ rest) = Some (bs ++ rest);
  tl_unbox_length : forall d bs, tl_unbox d = Some bs -> length d = (4 + length bs)%nat;
}.
Arguments TLOk : clear implicits.

Section Codec.
Context {T : TL}.

(** [instructionOpcodes[op]]. *)
Definition instructionOpcodes (op : Z) : option kind :=
  list_find (fun k => tl_opcode k = op) kinds ≫= fun '(_, k) => Some k.

(** ** Parsing

    [parseInstructions] is the loop shared by the two [Parse] methods, which
    the source writes out twice.  A [CacheInstruction] inside it is parsed by
    its own [Parse] method, so the two recurse into each other; both cut the
    recursion by fuel, and [parse_fuel_enough] shows that a fuel above the
    number of bytes is never used up. *)
Fixpoint parseInstructions (fuel : nat) (num : Z) (data : bytes)
    : outcome (list instruction * bytes) :=
  if num <=? 0 then Ok ([], data) else
  match fuel with
  | O => Err OutOfFuel
  | S fuel =>
      if len data <? 4 then Err (Errorf "corrupted instruction") else
      op ← Uint32 data;
      match instructionOpcodes op with
      | None => Err (Errorf "unsupported instruction")
      | Some typ =>
          body ← slice_from data 4;
          '(inst, rest) ← hideErr "parse instruction failed"
            (match typ with
             | KCache => CacheInstruction_Parse fuel body
             | _ => of_option "tl parse failed" (tl_parseFields typ body)
             end);
          '(list, rest) ← parseInstructions fuel (num - 1) rest;
          mret (inst :: list, rest)
      end
  end
with CacheInstruction_Parse (fuel : nat) (data : bytes) : outcome (instruction * bytes) :=
  match fuel with
  | O => Err OutOfFuel
  | S fuel =>
      if len data <? 12 then Err (Errorf "corrupted instruction") else
      version ← Uint64 data;
      d8 ← slice_from data 8;
      num ← Uint32 d8;
      d12 ← slice_from data 12;
      '(list, rest) ← parseInstructions fuel num d12;
      mret (Cache version list, rest)
  end.

(** The fuel a parse of [data] is run with. *)
Definition parseFuel (data : bytes) : nat := S (length data).

(** No length check here: the callers make sure of eight bytes. *)
Definition InstructionsContainer_Parse (data : bytes) : outcome (InstructionsContainer * bytes) :=
  seqno ← Uint32 data;
  d4 ← slice_from data 4;
  num ← Uint32 d4;
  d8 ← slice_from data 8;
  '(list, rest) ← parseInstructions (parseFuel d8) num d8;
  mret (mkContainer seqno list, rest).

(** ** Serialization

    [tl.Serialize(s, true, buf)] writes the id, then the body; the body of a
    [CacheInstruction] is what its [Serialize] method writes. *)
Fixpoint serializeInstruction (i : instruction) : outcome bytes :=
  match kindOf i with
  | None => Err (Errorf "unsupported instruction")
  | Some k =>
      body ←
        (match i with
         | Cache version list =>
             bs ← (fix go l := match l with
               | [] => Ok []
               | x :: l =>
                   if kindOf x is None then Err (Errorf "unsupported instruction") else
                   b ← hideErr "serialize instruction failed" (serializeInstruction x);
                   bs ← go l;
                   mret (b ++ bs)
               end) list;
             mret (PutUint64 version ++ PutUint32 (uint32 (Z.of_nat (length list))) ++ bs)
         | _ => of_option "tl serialize failed" (tl_fields i)
         end);
      mret (PutUint32 (tl_opcode k) ++ body)
  end.

(** The loop of the two [Serialize] methods. *)
Fixpoint serializeList (l : list instruction) : outcome bytes :=
  match l with
  | [] => Ok []
  | x :: l =>
      if kindOf x is None then Err (Errorf "unsupported instruction") else
      b ← hideErr "serialize instruction failed" (serializeInstruction x);
      bs ← serializeList l;
      mret (b ++ bs)
  end.

Definition CacheInstruction_Serialize (Version : Z) (Instructions : list instruction) : outcome bytes :=
  bs ← serializeList Instructions;
  mret (PutUint64 Version ++ PutUint32 (uint32 (Z.of_nat (length Instructions))) ++ bs).

Definition InstructionsContainer_Serialize (c : InstructionsContainer) : outcome bytes :=
  bs ← serializeList (ic_List c);
  mret (PutUint32 (ic_Seqno c) ++ PutUint32 (uint32 (Z.of_nat (length (ic_List c)))) ++ bs).

(** [tl.Parse(container, data, true)] and [tl.Serialize(container, true)]. *)
Definition parseContainer (data : bytes) : outcome (InstructionsContainer * bytes) :=
  body ← of_option "invalid constructor" (tl_unbox data);
  InstructionsContainer_Parse body.

Definition serializeContainer (c : InstructionsContainer) : outcome bytes :=
  bs ← InstructionsContainer_Serialize c;
  mret (tl_box bs).
End Codec.

(** ** What the parser guarantees on every input *)

Section CodecFacts.
Context {T : TL} {TOk : TLOk T}.

Definition goodList (fuel : nat) (data : bytes) (num : Z) (o : outcome (list instruction * bytes)) : Prop :=
  match o with
  | Ok (l, rest) =>
      (length rest + 4 * length l <= length data)%nat /\ Z.of_nat (length l) = Z.max 0 num /\
      Forall (fun i => is_Some (kindOf i)) l
  | Err e => (length data < fuel)%nat -> e <> OutOfFuel
  | Panic _ => False
  end.

Definition goodCache (fuel : nat) (data : bytes) (o : outcome (instruction * bytes)) : Prop :=
  match o with
  | Ok (i, rest) => (length rest + 12 <= length data)%nat /\ is_Some (kindOf i)
  | Err e => (length data < fuel)%nat -> e <> OutOfFuel
  | Panic _ => False
  end.

Lemma instructionOpcodes_opcode k : instructionOpcodes (tl_opcode k) = Some k.
Proof using TOk.
  unfold instructionOpcodes.
  destruct (list_find (fun k' => tl_opcode k' = tl_opcode k) kinds) as [[i k']|] eqn:E.
  - apply list_find_Some in E as (_ & E & _). simpl. f_equal. by apply tl_opcode_inj.
  - apply list_find_None in E. exfalso. rewrite Forall_forall in E. apply (E k); [|done].
    destruct k; set_solver.
Qed.

Lemma hideErr_fuel {A} msg (o : outcome A) e :
  hideErr msg o = Err e -> e = OutOfFuel -> o = Err OutOfFuel.
Proof using Type. destruct o as [|[]|]; simpl; intros [= <-] H; done. Qed.

(** One parsed body, whichever [Parse] reads it. *)
Lemma body_good fuel typ body :
  goodCache fuel body (CacheInstruction_Parse fuel body) ->
  match hideErr "parse instruction failed"
      (match typ with
       | KCache => CacheInstruction_Parse fuel body
       | _ => of_option "tl parse failed" (tl_parseFields typ body)
       end) with
  | Ok (i, rest) => (length rest <= length body)%nat /\ is_Some (kindOf i)
  | Err e => (length body < fuel)%nat -> e <> OutOfFuel
  | Panic _ => False
  end.
Proof using TOk.
  intros Hc.
  assert (match (of_option "tl parse failed" (tl_parseFields typ body)) with
    | Ok (i, rest) => (length rest <= length body)%nat /\ is_Some (kindOf i)
    | Err e => e = Errorf "tl parse failed"
    | Panic _ => False end) as Ht.
  { destruct (tl_parseFields typ body) as [[i rest]|] eqn:E; simpl; [|done].
    split; [by eapply tl_parse_shorter|]. rewrite (tl_parse_kind _ _ _ _ E). by eexists. }
  destruct typ; simpl;
    try (destruct (tl_parseFields _ body) as [[i rest]|]; simpl in *; [done|intros; congruence]).
  destruct (CacheInstruction_Parse fuel body) as [[i rest]|e|] eqn:E; simpl in *; [|by destruct e; naive_solver|done].
  split; [lia|naive_solver].
Qed.

Lemma parse_good fuel :
  (forall num data, goodList fuel data num (parseInstructions fuel num data)) /\
  (forall data, goodCache fuel data (CacheInstruction_Parse fuel data)).
Proof using TOk.
  induction fuel as [|fuel [IHl IHc]].
  - split; [intros num data|intros data]; simpl; [destruct (Z.leb_spec num 0); simpl|]; try lia.
    split_and!; [lia|lia|constructor].
  - split.
    + intros num data. simpl. destruct (Z.leb_spec num 0).
      { simpl. split_and!; [lia|lia|constructor]. }
      destruct (Z.ltb_spec (len data) 4) as [|Hlen]; [done|].
      rewrite Uint32_ok by done. unfold len in Hlen. simpl.
      destruct (instructionOpcodes _) as [typ|]; [|done].
      rewrite slice_from_ok by lia. simpl.
      pose proof (body_good fuel typ (drop 4 data) (IHc _)) as Hb. rewrite length_drop in Hb.
      destruct (hideErr _ _) as [[i rest]|e|]; simpl in *; [|intros; apply Hb; lia|done].
      destruct Hb as [Hr Hi]. specialize (IHl (num - 1) rest).
      destruct (parseInstructions fuel (num - 1) rest) as [[l rest']|e|]; simpl in *;
        [|intros; apply IHl; lia|done].
      destruct IHl as (? & ? & ?). split_and!; [lia|lia|by constructor].
    + intros data. cbn [CacheInstruction_Parse]. destruct (Z.ltb_spec (len data) 12) as [|Hlen]; [done|].
      rewrite Uint64_ok by lia. unfold len in Hlen. go_bind.
      rewrite (slice_from_ok data 8), (slice_from_ok data 12) by lia. go_bind.
      rewrite Uint32_ok by (unfold len; rewrite length_drop; lia). go_bind.
      specialize (IHl (le_decode (take 4 (drop 8 data))) (drop 12 data)).
      destruct (parseInstructions fuel _ _) as [[l rest]|e|]; simpl in *; rewrite ?length_drop in IHl;
        [|intros; apply IHl; lia|done].
      destruct IHl as (? & ? & ?). split; [lia|by eexists].
Qed.

(** ** Round trip *)

Inductive encodable : instruction -> Prop :=
| encodable_cache v l :
    in_uint 64 v -> Z.of_nat (length l) < 2 ^ 32 -> Forall encodable l -> encodable (Cache v l)
| encodable_plain i : kindOf i <> Some KCache -> encodable i.

Lemma serializeInstruction_unfold i :
  serializeInstruction i =
  match kindOf i with
  | None => Err (Errorf "unsupported instruction")
  | Some k =>
      body ← (match i with
              | Cache v l => CacheInstruction_Serialize v l
              | _ => of_option "tl serialize failed" (tl_fields i)
              end);
      mret (PutUint32 (tl_opcode k) ++ body)
  end.
Proof using Type.
  by destruct i.
Qed.

Lemma serializeList_cons_inv x l bs :
  serializeList (x :: l) = Ok bs ->
  exists b bs', serializeInstruction x = Ok b /\ serializeList l = Ok bs' /\ bs = b ++ bs'.
Proof using Type.
  simpl. destruct (kindOf x); [|done].
  destruct (serializeInstruction x) as [b|[]|]; try done. simpl.
  destruct (serializeList l) as [bs'|e|]; simpl; [|done|done].
  intros [= <-]. by exists b, bs'.
Qed.

Lemma parse_serialize_list fuel l bs rest :
  (length (bs ++ rest) < fuel)%nat -> serializeList l = Ok bs -> Forall encodable l ->
  parseInstructions fuel (Z.of_nat (length l)) (bs ++ rest) = Ok (l, rest).
Proof using TOk.
  revert l bs rest. induction (lt_wf fuel) as [fuel _ IH]. intros l bs rest Hf Hs Henc.
  destruct l as [|x l]; [injection Hs as <-; by destruct fuel|].
  apply serializeList_cons_inv in Hs as (b & bs' & Hx & Hs & ->). apply Forall_cons_1 in Henc as [He Henc].
  rewrite serializeInstruction_unfold in Hx.
  destruct (kindOf x) as [k|] eqn:Hk; [|done].
  destruct fuel as [|fuel]; [lia|].
  destruct (match x with Cache v l => _ | _ => _ end) as [body| |] eqn:Hb; go_bind in Hx; [|done|done].
  apply Ok_inj in Hx as <-. rewrite <- !app_assoc in Hf |- *. rewrite length_app in Hf.
  change (length (PutUint32 (tl_opcode k))) with 4%nat in Hf.
  assert (parseInstructions fuel (Z.of_nat (length l)) (bs' ++ rest) = Ok (l, rest)) as Htail.
  { apply IH; [lia| |done|done]. rewrite !length_app in Hf. rewrite length_app. lia. }
  cbn [parseInstructions]. destruct (Z.leb_spec (Z.of_nat (length (x :: l))) 0) as [Hle|_].
  { simpl in Hle. lia. }
  destruct (Z.ltb_spec (len (PutUint32 (tl_opcode k) ++ body ++ bs' ++ rest)) 4) as [Hl|_].
  { rewrite len_app in Hl. change (len (PutUint32 _)) with 4 in Hl.
    pose proof (len_nonneg (body ++ bs' ++ rest)). lia. }
  rewrite Uint32_app by apply tl_opcode_range. go_bind.
  rewrite instructionOpcodes_opcode, slice_from_app by done. go_bind.
  replace (Z.of_nat (length (x :: l)) - 1) with (Z.of_nat (length l)) by (simpl; lia).
  (* the head *)
  enough ((match k with KCache => CacheInstruction_Parse fuel (body ++ bs' ++ rest)
           | _ => of_option "tl parse failed" (tl_parseFields k (body ++ bs' ++ rest)) end)
          = Ok (x, bs' ++ rest)) as ->.
  { simpl. by rewrite Htail. }
  destruct (decide (k = KCache)) as [->|Hnk].
  - destruct x as [|v lc| | | | | | | | |]; try discriminate.
    inversion He as [v' l' Hv Hll Hlc|]; [subst|done].
    unfold CacheInstruction_Serialize in Hb.
    destruct (serializeList lc) as [bc| |] eqn:Hbc; go_bind in Hb; [|done|done].
    apply Ok_inj in Hb as <-. rewrite !length_app in Hf.
    change (length (PutUint64 v)) with 8%nat in Hf.
    change (length (PutUint32 (uint32 (Z.of_nat (length lc))))) with 4%nat in Hf.
    destruct fuel as [|fuel]; [lia|]. cbn [CacheInstruction_Parse].
    rewrite <- !app_assoc.
    destruct (Z.ltb_spec (len (PutUint64 v ++ PutUint32 (uint32 (Z.of_nat (length lc))) ++ bc ++ bs' ++ rest)) 12)
      as [Hl|_].
    { unfold len in Hl. rewrite !length_app in Hl. change (length (PutUint64 v)) with 8%nat in Hl.
      change (length (PutUint32 (uint32 (Z.of_nat (length lc))))) with 4%nat in Hl. lia. }
    rewrite Uint64_app by done. go_bind.
    rewrite (slice_from_app (PutUint64 v) _ 8) by done. go_bind.
    rewrite uint32_id by (unfold in_uint; lia).
    rewrite Uint32_app by (unfold in_uint; lia). go_bind.
    rewrite (app_assoc (PutUint64 v)), slice_from_app by done. go_bind.
    rewrite IH; [done|lia| |done|done]. rewrite !length_app. lia.
  - destruct k; try done;
      (destruct x as [|v lc| | | | | | | | |]; try discriminate;
       match type of Hb with of_option _ ?o = _ => destruct o as [fb|] eqn:Hf'; [|done] end;
       injection Hb as <-; by rewrite (tl_fields_parse _ _ _ _ Hk Hnk Hf')).
Qed.
End CodecFacts.

(** ** Properties *)

Section WireProperties.
Context {T : TL} {TOk : TLOk T}.

(** The container parser on a buffer of at least eight bytes. *)
Lemma container_parse_cases data :
  8 <= len data ->
  match InstructionsContainer_Parse data with
  | Ok (c, rest) =>
      (length rest + 4 * length (ic_List c) + 8 <= length data)%nat /\
      Z.of_nat (length (ic_List c)) = Z.max 0 (le_decode (take 4 (drop 4 data))) /\
      Forall (fun i => is_Some (kindOf i)) (ic_List c)
  | Err e => e <> OutOfFuel
  | Panic _ => False
  end.
Proof using TOk.
  intros Hlen. unfold InstructionsContainer_Parse. rewrite Uint32_ok by lia.
  unfold len in Hlen. go_bind.
  rewrite (slice_from_ok data 4), (slice_from_ok data 8) by lia. go_bind.
  rewrite Uint32_ok by (unfold len; rewrite length_drop; lia). go_bind.
  destruct (parse_good (parseFuel (drop 8 data))) as [Hl _].
  specialize (Hl (le_decode (take 4 (drop 4 data))) (drop 8 data)).
  destruct (parseInstructions _ _ _) as [[l rest]|e|]; go_bind; simpl in *; rewrite ?length_drop in Hl.
  - destruct Hl as (? & ? & ?). split_and!; [lia|done|done].
  - apply Hl. unfold parseFuel. rewrite length_drop. lia.
  - done.
Qed.

(** C25: [InstructionsContainer.Parse] is total on eight bytes or more: it never
    panics and always ends, whatever number of instructions the packet claims; a
    parsed list has as many instructions as claimed, each took four bytes or
    more of the packet, and each has an [Execute] method. *)
Theorem InstructionsContainer_Parse_total data :
  8 <= len data ->
  match InstructionsContainer_Parse data with
  | Ok (c, rest) =>
      (length rest + 4 * length (ic_List c) + 8 <= length data)%nat /\
      Z.of_nat (length (ic_List c)) = Z.max 0 (le_decode (take 4 (drop 4 data))) /\
      Forall (fun i => is_Some (kindOf i)) (ic_List c)
  | Err e => e <> OutOfFuel
  | Panic _ => False
  end.
Proof using TOk. apply container_parse_cases. Qed.

(** The check in [Parse] is missing, not redundant: on fewer than eight
    bytes it panics. *)
Theorem InstructionsContainer_Parse_short_panics data :
  len data < 8 -> exists why, InstructionsContainer_Parse data = Panic why.
Proof using Type.
  intros Hlen. unfold InstructionsContainer_Parse, Uint32.
  destruct (Z.ltb_spec (len data) 4); [by eexists|]. unfold len in *. go_bind.
  rewrite (slice_from_ok data 4) by lia. go_bind.
  destruct (Z.ltb_spec (Z.of_nat (length (drop 4 data))) 4) as [|H']; [by eexists|].
  rewrite length_drop in H'. lia.
Qed.

Lemma container_roundtrip c bs rest :
  in_uint 32 (ic_Seqno c) -> Z.of_nat (length (ic_List c)) < 2 ^ 32 ->
  Forall encodable (ic_List c) -> serializeContainer c = Ok bs ->
  parseContainer (bs ++ rest) = Ok (c, rest).
Proof using TOk.
  intros Hs Hl Henc. unfold serializeContainer, InstructionsContainer_Serialize.
  destruct (serializeList (ic_List c)) as [b| |] eqn:Eb; go_bind; [|done|done].
  intros <-%Ok_inj. unfold parseContainer. rewrite tl_unbox_box. cbn [of_option]. go_bind.
  rewrite <- !app_assoc. rewrite uint32_id by (unfold in_uint; lia).
  unfold InstructionsContainer_Parse. rewrite Uint32_app by done. go_bind.
  rewrite (slice_from_app (PutUint32 (ic_Seqno c)) _ 4) by done. go_bind.
  rewrite Uint32_app by (unfold in_uint; lia). go_bind.
  rewrite (app_assoc (PutUint32 (ic_Seqno c))), slice_from_app by done. go_bind.
  rewrite parse_serialize_list; [by destruct c|unfold parseFuel; lia|done|done].
Qed.

(** C20: containers round-trip: parsing what [Serialize] wrote, followed by any
    bytes (the inner layers), returns the container and exactly those bytes. *)
Theorem parseContainer_serializeContainer c bs rest :
  in_uint 32 (ic_Seqno c) -> Z.of_nat (length (ic_List c)) < 2 ^ 32 ->
  Forall encodable (ic_List c) -> serializeContainer c = Ok bs ->
  parseContainer (bs ++ rest) = Ok (c, rest).
Proof using TOk. apply container_roundtrip. Qed.
End WireProperties.
