(* ===== verification/Samples.v ===== *)
(** * Concrete parameters to evaluate with

    A codec in the role of [tonutils-go/tl], so that the definitions can be run
    on concrete packets: opcodes count from 1, integers are little-endian words
    and byte strings carry a 32-bit length.  It satisfies the laws of [TLOk];
    nothing in the development depends on its layout. *)

From S2P Require Import Prelude Stream Wire.

(** ** Fields *)

Definition putWord (n : nat) (x : Z) : option bytes :=
  if bool_decide (in_uint (8 * Z.of_nat n) x) then Some (le_encode n x) else None.
Definition getWord (n : nat) (d : bytes) : option (Z * bytes) :=
  if bool_decide (n <= length d)%nat then Some (le_decode (take n d), drop n d) else None.

Definition putBytes (bs : bytes) : option bytes :=
  p ← putWord 4 (len bs); Some (p ++ bs).
Definition getBytes (d : bytes) : option (bytes * bytes) :=
  '(n, d) ← getWord 4 d;
  if bool_decide (Z.to_nat n <= length d)%nat
  then Some (take (Z.to_nat n) d, drop (Z.to_nat n) d) else None.

Definition putBool (b : bool) : option bytes := putWord 1 (if b then 1 else 0).
Definition getBool (d : bytes) : option (bool * bytes) :=
  '(n, d) ← getWord 1 d; Some (bool_decide (n = 1), d).

Definition putMeta (m : metadata) : option bytes :=
  match m with
  | StateMeta s => t ← putWord 1 1; p ← putWord 4 s; Some (t ++ p)
  | PingMeta n w => t ← putWord 1 2; p ← putWord 8 n; q ← putBool w; Some (t ++ p ++ q)
  | OtherMeta => None
  end.
Definition getMeta (d : bytes) : option (metadata * bytes) :=
  '(t, d) ← getWord 1 d;
  if bool_decide (t = 1) then '(s, d) ← getWord 4 d; Some (StateMeta s, d)
  else if bool_decide (t = 2) then
    '(n, d) ← getWord 8 d; '(w, d) ← getBool d; Some (PingMeta n w, d)
  else None.

(** ** Instructions *)

Definition sampleFields (i : instruction) : option bytes :=
  match i with
  | Destroy | SendOut | Deliver => Some []
  | Route id => putWord 4 id
  | BuildRoute x =>
      a ← putBytes (br_TargetADNL x); b ← putBytes (br_TargetSectionPubKey x);
      c ← putWord 4 (br_RouteID x); d ← putWord 8 (br_PricePerPacket x);
      Some (a ++ b ++ c ++ d)
  | Payment x =>
      a ← putBytes (pi_Key x); b ← putBytes (pi_PaymentChannelState x);
      c ← putWord 8 (pi_Purpose x); d ← putBool (pi_Final x);
      Some (a ++ b ++ c ++ d)
  | BindOut x =>
      a ← putBytes (bo_InboundNodeADNL x); b ← putBytes (bo_InboundSectionPubKey x);
      c ← putBytes (bo_InboundInstructions x); d ← putBytes (bo_ReceiverPubKey x);
      e ← putWord 8 (bo_PricePerPacket x);
      Some (a ++ b ++ c ++ d ++ e)
  | ReportStats x =>
      a ← putBytes (rs_InboundNodeADNL x); b ← putBytes (rs_InboundSectionPubKey x);
      c ← putBytes (rs_InboundInstructions x); d ← putWord 8 (rs_InboundInstructionsChecksum x);
      e ← putBytes (rs_ReceiverPubKey x);
      Some (a ++ b ++ c ++ d ++ e)
  | DeliverInitiator from m => a ← putWord 4 from; b ← putMeta m; Some (a ++ b)
  | Cache _ _ | NotAnInstruction => None
  end.

Definition sampleParse (k : kind) (d : bytes) : option (instruction * bytes) :=
  match k with
  | KDestroy => Some (Destroy, d)
  | KSendOut => Some (SendOut, d)
  | KDeliver => Some (Deliver, d)
  | KRoute => '(id, d) ← getWord 4 d; Some (Route id, d)
  | KBuildRoute =>
      '(a, d) ← getBytes d; '(b, d) ← getBytes d;
      '(c, d) ← getWord 4 d; '(e, d) ← getWord 8 d;
      Some (BuildRoute (mkBuildRoute a b c e), d)
  | KPayment =>
      '(a, d) ← getBytes d; '(b, d) ← getBytes d;
      '(c, d) ← getWord 8 d; '(e, d) ← getBool d;
      Some (Payment (mkPayment a b c e), d)
  | KBindOut =>
      '(a, d) ← getBytes d; '(b, d) ← getBytes d;
      '(c, d) ← getBytes d; '(e, d) ← getBytes d; '(f, d) ← getWord 8 d;
      Some (BindOut (mkBindOut a b c e f), d)
  | KReportStats =>
      '(a, d) ← getBytes d; '(b, d) ← getBytes d;
      '(c, d) ← getBytes d; '(e, d) ← getWord 8 d; '(f, d) ← getBytes d;
      Some (ReportStats (mkReportStats a b c e f), d)
  | KDeliverInitiator =>
      '(a, d) ← getWord 4 d; '(m, d) ← getMeta d; Some (DeliverInitiator a m, d)
  | KCache => None
  end.

Definition sampleOpcode (k : kind) : Z :=
  match k with
  | KDestroy => 1 | KCache => 2 | KRoute => 3 | KBuildRoute => 4 | KPayment => 5
  | KBindOut => 6 | KReportStats => 7 | KSendOut => 8 | KDeliver => 9 | KDeliverInitiator => 10
  end.

Definition sampleId : bytes := [222; 173; 190; 239].

Definition sampleTL : TL := {|
  tl_opcode := sampleOpcode;
  tl_fields := sampleFields;
  tl_parseFields := sampleParse;
  tl_box := fun bs => sampleId ++ bs;
  tl_unbox := fun d =>
    if bool_decide (take 4 d = sampleId) then Some (drop 4 d) else None;
|}.

(** ** The codec satisfies the laws *)

Lemma get_putWord n x p rest :
  putWord n x = Some p -> getWord n (p ++ rest) = Some (x, rest).
Proof.
  unfold putWord, getWord. case_bool_decide as Hx; [|done]. intros [= <-].
  rewrite bool_decide_eq_true_2 by (rewrite length_app, length_le_encode; lia).
  rewrite take_app_length', drop_app_length' by (by rewrite length_le_encode).
  rewrite le_decode_encode. by rewrite Z.mod_small by exact Hx.
Qed.

Lemma get_putBytes bs p rest : putBytes bs = Some p -> getBytes (p ++ rest) = Some (bs, rest).
Proof.
  unfold putBytes, getBytes. destruct (putWord 4 (len bs)) as [q|] eqn:E; [|done].
  simpl. intros [= <-]. rewrite <- app_assoc, (get_putWord _ _ _ _ E). simpl.
  unfold len. rewrite Nat2Z.id, bool_decide_eq_true_2 by (rewrite length_app; lia).
  by rewrite take_app_length, drop_app_length.
Qed.

Lemma get_putBool b p rest : putBool b = Some p -> getBool (p ++ rest) = Some (b, rest).
Proof. intros H. unfold getBool. rewrite (get_putWord _ _ _ _ H). by destruct b. Qed.

(** Run the getters on what the putters wrote. *)
Ltac run_codec :=
  repeat match goal with
  | H : (putWord ?n ?x ≫= _) = Some _ |- _ =>
      destruct (putWord n x) eqn:?; [cbn [mbind option_bind] in H|discriminate]
  | H : (putBytes ?x ≫= _) = Some _ |- _ =>
      destruct (putBytes x) eqn:?; [cbn [mbind option_bind] in H|discriminate]
  | H : (putBool ?x ≫= _) = Some _ |- _ =>
      destruct (putBool x) eqn:?; [cbn [mbind option_bind] in H|discriminate]
  | H : Some _ = Some _ |- _ => injection H as <-
  end;
  rewrite <- ?app_assoc;
  repeat (first [erewrite get_putWord by eassumption | erewrite get_putBytes by eassumption
                | erewrite get_putBool by eassumption]; cbn [mbind option_bind]).

Lemma get_putMeta m p rest : putMeta m = Some p -> getMeta (p ++ rest) = Some (m, rest).
Proof.
  destruct m; cbn [putMeta]; intros H; [| |done]; unfold getMeta; run_codec.
  - rewrite bool_decide_eq_true_2 by done. by run_codec.
  - rewrite bool_decide_eq_false_2, bool_decide_eq_true_2 by done. by run_codec.
Qed.

Lemma getWord_shorter n d x rest : getWord n d = Some (x, rest) -> (length rest <= length d)%nat.
Proof. unfold getWord. case_bool_decide; [|done]. intros [= _ <-]. rewrite length_drop. lia. Qed.
Lemma getBytes_shorter d x rest : getBytes d = Some (x, rest) -> (length rest <= length d)%nat.
Proof.
  unfold getBytes. destruct (getWord 4 d) as [[n d']|] eqn:E; [|done]. simpl.
  case_bool_decide; [|done]. intros [= _ <-]. apply getWord_shorter in E. rewrite length_drop. lia.
Qed.
Lemma getBool_shorter d x rest : getBool d = Some (x, rest) -> (length rest <= length d)%nat.
Proof.
  unfold getBool. destruct (getWord 1 d) as [[n d']|] eqn:E; [|done]. simpl.
  intros [= _ <-]. by apply getWord_shorter in E.
Qed.

(** Every getter of a parser leaves a shorter string. *)
Ltac run_shorter H :=
  repeat match type of H with
  | (?g ≫= _) = Some _ =>
      let E := fresh "E" in destruct g as [[? ?]|] eqn:E; [cbn [mbind option_bind] in H|discriminate H]
  end;
  repeat match goal with
  | E : getWord _ _ = Some _ |- _ => apply getWord_shorter in E
  | E : getBytes _ = Some _ |- _ => apply getBytes_shorter in E
  | E : getBool _ = Some _ |- _ => apply getBool_shorter in E
  end.

Lemma getMeta_shorter d x rest : getMeta d = Some (x, rest) -> (length rest <= length d)%nat.
Proof.
  unfold getMeta. intros H. destruct (getWord 1 d) as [[t d']|] eqn:E; [|done].
  cbn [mbind option_bind] in H. apply getWord_shorter in E.
  repeat case_bool_decide; [| |done]; run_shorter H; injection H as; subst; lia.
Qed.

Lemma sampleTL_ok : TLOk sampleTL.
Proof.
  constructor; simpl.
  - intros []; by vm_compute.
  - intros [] []; done.
  - intros i k bs rest Hk Hc H.
    destruct i as [| |id|x|x|x|x| | |from m|]; cbn [kindOf] in Hk; try discriminate;
      injection Hk as <-; cbn [sampleFields sampleParse] in *;
      try (injection H as <-; reflexivity); try done;
      try (destruct x; run_codec; reflexivity).
    + rewrite (get_putWord _ _ _ _ H). done.
    + destruct (putWord 4 from) eqn:E; [|done]. cbn [mbind option_bind] in H.
      destruct (putMeta m) as [pm|] eqn:Em; [|done]. cbn [mbind option_bind] in H. injection H as <-.
      rewrite <- app_assoc. rewrite (get_putWord _ _ _ _ E). cbn [mbind option_bind].
      by rewrite (get_putMeta _ _ _ Em).
  - intros k d i rest H. destruct k; simpl in H; try (injection H as <- <-; lia); try done;
      try (run_shorter H; injection H as; subst; lia).
    destruct (getWord 4 d) as [[a d']|] eqn:E; [|done]. simpl in H. apply getWord_shorter in E.
    destruct (getMeta d') as [[m d'']|] eqn:E'; [|done]. simpl in H. apply getMeta_shorter in E'.
    injection H as; subst. lia.
  - intros k d i rest H. destruct k; simpl in H; try (injection H as <- <-; done); try done;
      repeat match type of H with
      | (?g ≫= _) = Some _ => destruct g as [[? ?]|]; [cbn [mbind option_bind] in H|discriminate H]
      end; injection H as; subst; done.
  - intros bs rest. done.
  - intros d bs. case_bool_decide as E; [|done]. intros [= <-].
    rewrite <- (take_drop 4 d) at 1. rewrite length_app, E. done.
Qed.

(** ** The codec theorems at work *)

Definition sampleBuildRoute : BuildRouteInstruction :=
  mkBuildRoute [1; 1; 1; 1] [2; 2; 2; 2] 33686018 5.

Definition sampleContainer : InstructionsContainer :=
  mkContainer 7
    [BuildRoute sampleBuildRoute;
     Cache 1700000000 [Route 33686018; Cache 3 [SendOut]];
     DeliverInitiator 9 (PingMeta 4 true); Route 33686018].

Definition sampleContainerBytes : bytes :=
  match serializeContainer (T := sampleTL) sampleContainer with Ok bs => bs | _ => [] end.

Lemma sampleContainer_encodable : Forall encodable (ic_List sampleContainer).
Proof.
  assert (encodable (Cache 3 [SendOut])) as H3.
  { apply encodable_cache; [by vm_compute|by vm_compute|].
    constructor; [by apply encodable_plain|constructor]. }
  assert (encodable (Cache 1700000000 [Route 33686018; Cache 3 [SendOut]])).
  { apply encodable_cache; [by vm_compute|by vm_compute|].
    constructor; [by apply encodable_plain|]. constructor; [exact H3|constructor]. }
  cbn [ic_List sampleContainer]. repeat apply Forall_cons_2; try done; try apply Forall_nil_2;
    by apply encodable_plain.
Qed.

Lemma parseContainer_serializeContainer_witness :
  parseContainer (T := sampleTL) (sampleContainerBytes ++ [99; 98]) = Ok (sampleContainer, [99; 98]).
Proof.
  apply (parseContainer_serializeContainer (T := sampleTL) (TOk := sampleTL_ok)).
  - vm_compute. split; congruence.
  - vm_compute. reflexivity.
  - apply sampleContainer_encodable.
  - vm_compute. reflexivity.
Defined.

Lemma InstructionsContainer_Parse_total_witness :
  match InstructionsContainer_Parse (T := sampleTL) (drop 4 sampleContainerBytes) with
  | Ok (c, rest) => c = sampleContainer /\
      (length rest + 4 * length (ic_List c) + 8 <= length (drop 4 sampleContainerBytes))%nat
  | _ => False
  end.
Proof.
  pose proof (InstructionsContainer_Parse_total (T := sampleTL) (TOk := sampleTL_ok)
    (drop 4 sampleContainerBytes) ltac:(vm_compute; congruence)) as H.
  assert (InstructionsContainer_Parse (T := sampleTL) (drop 4 sampleContainerBytes)
    = Ok (sampleContainer, [])) as E by (vm_compute; reflexivity).
  rewrite E in H |- *. split; [reflexivity|apply H].
Defined.

Lemma InstructionsContainer_Parse_short_panics_witness :
  exists why, InstructionsContainer_Parse (T := sampleTL) [1; 0; 0; 0; 2] = Panic why.
Proof.
  apply (InstructionsContainer_Parse_short_panics (T := sampleTL)). vm_compute. reflexivity.
Defined.
