(* ===== verification/Keys.v ===== *)
(** * Keys and onion layers ([tunnel/keys.go], [decryptMessage] of [tunnel/gateway.go])

    A sender wraps a message once per node of a chain, innermost first; each
    node removes its own layer, reads its instructions and finds the bytes of
    the inner layers left over, which it forwards.  [onion_peel] is the theorem
    the whole tunnel rests on. *)

From S2P Require Import Prelude Stream Wire Samples.

(** ** The key agreement of [tonutils-go/adnl/keys], a parameter

    [SharedKey] takes a private and a public key; [PublicKey] is the public half
    of an ed25519 private key. *)
Class KeyAgreement : Type := {
  SharedKey : bytes -> bytes -> option bytes;
  PublicKey : bytes -> bytes;
}.

(** Both ends of a Diffie-Hellman exchange compute the same secret. *)
Class KeyAgreementOk {K : KeyAgreement} : Prop :=
  SharedKey_comm : forall a b, SharedKey a (PublicKey b) = SharedKey b (PublicKey a).
Arguments KeyAgreementOk : clear implicits.

Record EncryptionKeys := mkEncryptionKeys {
  CipherKey : bytes;
  CipherKeyCRC : Z;
  ek_Seqno : Z;
  ek_SectionPubKey : bytes;
  ReceiverPubKey : bytes;
}.

Definition setSeqno (k : EncryptionKeys) (n : Z) : EncryptionKeys :=
  mkEncryptionKeys (CipherKey k) (CipherKeyCRC k) n (ek_SectionPubKey k) (ReceiverPubKey k).

Section Keys.
Context {C : CipherCtr} {T : TL} {K : KeyAgreement}.

Definition NewEncryptionKeys (sectionPrivate targetPub : bytes) : outcome EncryptionKeys :=
  shKey ← of_option "shared key calc failed" (SharedKey sectionPrivate targetPub);
  mret (mkEncryptionKeys shKey (Checksum shKey) 0 (PublicKey sectionPrivate) targetPub).

(** [generated] is the private key [ed25519.GenerateKey] returned. *)
Definition GenerateEncryptionKeys (generated : option bytes) (targetPub : bytes) : outcome EncryptionKeys :=
  sectionPrivate ← of_option "generate key failed" generated;
  NewEncryptionKeys sectionPrivate targetPub.

Definition EncryptPayload (rnd : option bytes) (k : EncryptionKeys) (payload : bytes) : outcome bytes :=
  hideErr "encryption failed" (encryptStream rnd (CipherKeyCRC k) (CipherKey k) payload).

(** The counter and the message survive an error, changed as far as the code
    got. *)
Definition EncryptInstructionsMessage (rnd : option bytes) (k : EncryptionKeys)
    (msg : EncryptedMessage) (instructions : list instruction)
    : EncryptionKeys * EncryptedMessage * outcome unit :=
  match instructions with
  | [] => (k, msg, Err (Errorf "no instructions"))
  | _ =>
      let seqno := uint32 (ek_Seqno k + 1) in
      let k := setSeqno k seqno in
      match hideErr "serialize instructions failed" (serializeContainer (mkContainer seqno instructions)) with
      | Err e => (k, msg, Err e)
      | Panic w => (k, msg, Panic w)
      | Ok instructionsData =>
          let plain := instructionsData ++ em_Instructions msg in
          match encryptStream rnd (CipherKeyCRC k) (CipherKey k) plain with
          | Ok enc => (k, mkEncryptedMessage (ek_SectionPubKey k) enc (em_Payload msg), Ok tt)
          | Err _ => (* [msg.Instructions, err = ...] assigns the nil result *)
              (k, mkEncryptedMessage (ek_SectionPubKey k) [] (em_Payload msg),
               Err (Errorf "encryption failed"))
          | Panic w => (k, mkEncryptedMessage (ek_SectionPubKey k) plain (em_Payload msg), Panic w)
          end
      end
  end.

(** [Section.decryptMessage]: the message is the one the handler holds, its
    instructions are decrypted in place, and the rest of the instructions is a
    tail of that buffer. *)
Definition decryptMessage (cipherKeyCrc : Z) (cipherKey : bytes) (m : EncryptedMessage)
    : EncryptedMessage * outcome (InstructionsContainer * bytes) :=
  let '(buf, o) := decryptStream cipherKeyCrc cipherKey (em_Instructions m) in
  let m := mkEncryptedMessage (em_SectionPubKey m) buf (em_Payload m) in
  match o with
  | Err _ => (m, Err (Errorf "shared key calc failed"))
  | Panic w => (m, Panic w)
  | Ok data =>
      if len data <? 12 then (m, Err (Errorf "corrupted instructions"))
      else (m, hideErr "parse instructions failed" (parseContainer data))
  end.

(** ** The onion: layers outermost first, each with its iv randomness *)

Record layer := mkLayer {
  l_keys : EncryptionKeys;
  l_rnd : bytes;
  l_instructions : list instruction;
}.

(** The senders build from the innermost layer out, as [prepareInitMessage],
    [prepareTunnelControlMessage] and the others do. *)
Fixpoint wrapLayers (layers : list layer) (msg : EncryptedMessage) : outcome EncryptedMessage :=
  match layers with
  | [] => Ok msg
  | l :: layers =>
      inner ← wrapLayers layers msg;
      let '(_, msg, o) := EncryptInstructionsMessage (Some (l_rnd l)) (l_keys l) inner (l_instructions l) in
      _ ← o;
      mret msg
  end.

(** A chain of nodes: each decrypts with its key and passes on what is left. *)
Fixpoint peelLayers (nodes : list (Z * bytes)) (instructions : bytes)
    : outcome (list InstructionsContainer * bytes) :=
  match nodes with
  | [] => Ok ([], instructions)
  | (crc, key) :: nodes =>
      '(c, rest) ← (decryptMessage crc key (mkEncryptedMessage [] instructions [])).2;
      '(cs, rest) ← peelLayers nodes rest;
      mret (c :: cs, rest)
  end.
End Keys.

(** ** Facts *)

Section KeysFacts.
Context {C : CipherCtr} {T : TL} {TOk : TLOk T} {K : KeyAgreement} {KOk : KeyAgreementOk K}.

Definition wfLayer (l : layer) : Prop :=
  length (l_rnd l) = 8%nat /\ in_uint 64 (CipherKeyCRC (l_keys l)) /\
  Forall encodable (l_instructions l) /\ Z.of_nat (length (l_instructions l)) < 2 ^ 32.

(** The container a layer carries: the counter is bumped before it is used. *)
Definition layerContainer (l : layer) : InstructionsContainer :=
  mkContainer (uint32 (ek_Seqno (l_keys l) + 1)) (l_instructions l).

Definition layerKey (l : layer) : Z * bytes := (CipherKeyCRC (l_keys l), CipherKey (l_keys l)).

Lemma serializeContainer_length c bs : serializeContainer c = Ok bs -> (12 <= length bs)%nat.
Proof using TOk.
  unfold serializeContainer, InstructionsContainer_Serialize.
  destruct (serializeList _) as [b| |]; go_bind; [|done|done]. intros <-%Ok_inj.
  set (body := PutUint32 _ ++ _).
  assert (8 <= length body)%nat as Hb.
  { subst body. rewrite !length_app. change (length (PutUint32 _)) with 4%nat.
    change (length (PutUint32 (uint32 (Z.of_nat (length (ic_List c)))))) with 4%nat. lia. }
  pose proof (tl_unbox_box body []) as Hu. rewrite !app_nil_r in Hu.
  apply tl_unbox_length in Hu. lia.
Qed.

Lemma EncryptInstructionsMessage_inv rnd k msg ins k' msg' :
  EncryptInstructionsMessage rnd k msg ins = (k', msg', Ok tt) ->
  exists bs enc,
    serializeContainer (mkContainer (uint32 (ek_Seqno k + 1)) ins) = Ok bs /\
    encryptStream rnd (CipherKeyCRC k) (CipherKey k) (bs ++ em_Instructions msg) = Ok enc /\
    k' = setSeqno k (uint32 (ek_Seqno k + 1)) /\
    msg' = mkEncryptedMessage (ek_SectionPubKey k) enc (em_Payload msg).
Proof using Type.
  unfold EncryptInstructionsMessage. destruct ins as [|i ins]; [done|].
  destruct (serializeContainer _) as [bs|[]|]; simpl; try done.
  destruct (encryptStream _ _ _ _) as [enc| |] eqn:E; try done. intros [= <- <-]. by exists bs, enc.
Qed.

(** One layer on, one layer off. *)
Lemma decryptMessage_layer l inner k' out :
  wfLayer l ->
  EncryptInstructionsMessage (Some (l_rnd l)) (l_keys l) inner (l_instructions l) = (k', out, Ok tt) ->
  forall pub payload,
  (decryptMessage (CipherKeyCRC (l_keys l)) (CipherKey (l_keys l))
     (mkEncryptedMessage pub (em_Instructions out) payload)).2
  = Ok (layerContainer l, em_Instructions inner).
Proof using TOk.
  intros (Hr & Hc & He & Hl) (bs & enc & Hs & Henc & -> & ->)%EncryptInstructionsMessage_inv pub payload.
  pose proof (serializeContainer_length _ _ Hs) as Hlen.
  destruct (decrypt_encrypt _ _ _ _ _ Henc) as [Hd _].
  { intros r [= <-]. done. }
  { done. }
  { intros E. apply app_eq_nil in E as [-> _]. simpl in Hlen. lia. }
  unfold decryptMessage. cbn [em_Instructions]. rewrite Hd.
  destruct (Z.ltb_spec (len (bs ++ em_Instructions inner)) 12) as [Hlt|_].
  { unfold len in Hlt. rewrite length_app in Hlt. lia. }
  cbn [snd]. unfold layerContainer.
  rewrite (container_roundtrip (mkContainer (uint32 (ek_Seqno (l_keys l) + 1)) (l_instructions l)) bs);
    [done|apply uint_range; lia|done|done|done].
Qed.

Lemma wrapLayers_cons l layers msg out :
  wrapLayers (l :: layers) msg = Ok out ->
  exists inner k', wrapLayers layers msg = Ok inner /\
    EncryptInstructionsMessage (Some (l_rnd l)) (l_keys l) inner (l_instructions l) = (k', out, Ok tt).
Proof using Type.
  simpl. destruct (wrapLayers layers msg) as [inner| |]; go_bind; [|done|done].
  destruct (EncryptInstructionsMessage _ _ _ _) as [[k' m'] [[]| |]] eqn:E; go_bind; [|done|done].
  intros <-%Ok_inj. by exists inner, k'.
Qed.

Lemma peel_wrap layers msg out :
  Forall wfLayer layers -> wrapLayers layers msg = Ok out ->
  peelLayers (layerKey <$> layers) (em_Instructions out)
    = Ok (layerContainer <$> layers, em_Instructions msg) /\
  em_Payload out = em_Payload msg /\
  (forall l, head layers = Some l -> em_SectionPubKey out = ek_SectionPubKey (l_keys l)).
Proof using TOk.
  intros Hwf. revert out. induction Hwf as [|l layers Hl _ IH]; intros out Hout.
  { injection Hout as <-. done. }
  apply wrapLayers_cons in Hout as (inner & k' & Hin & Henc).
  destruct (IH inner Hin) as (Hpeel & Hpay & _).
  rewrite !fmap_cons. unfold layerKey at 1. cbn [peelLayers].
  rewrite (decryptMessage_layer l inner k' out Hl Henc). go_bind. rewrite Hpeel. go_bind.
  apply EncryptInstructionsMessage_inv in Henc as (bs & enc & _ & _ & _ & ->).
  split_and!; [done|done|]. by intros ? [= <-].
Qed.

(** The keys a node derives for a section it has not seen
    ([messageHandler]: [keys.SharedKey(g.key, m.SectionPubKey)]). *)
Definition sectionKeys (nodePrivate sectionPub : bytes) : option (Z * bytes) :=
  shKey ← SharedKey nodePrivate sectionPub;
  Some (Checksum shKey, shKey).

Lemma sectionKeys_agree sectionPrivate nodePrivate k :
  NewEncryptionKeys sectionPrivate (PublicKey nodePrivate) = Ok k ->
  sectionKeys nodePrivate (ek_SectionPubKey k) = Some (CipherKeyCRC k, CipherKey k).
Proof using KOk.
  unfold NewEncryptionKeys, sectionKeys. rewrite SharedKey_comm.
  destruct (SharedKey nodePrivate (PublicKey sectionPrivate)) as [sh|] eqn:E; [|done].
  intros <-%Ok_inj. cbn [ek_SectionPubKey]. by rewrite E.
Qed.

(** The keys of a layer were made for a node: [NewEncryptionKeys] and then any
    number of messages. *)
Definition keysFor (nodePrivate : bytes) (k : EncryptionKeys) : Prop :=
  exists sectionPrivate k0 n, NewEncryptionKeys sectionPrivate (PublicKey nodePrivate) = Ok k0 /\
    k = setSeqno k0 n.

Lemma keysFor_facts np k :
  keysFor np k ->
  sectionKeys np (ek_SectionPubKey k) = Some (CipherKeyCRC k, CipherKey k) /\ in_uint 64 (CipherKeyCRC k).
Proof using KOk.
  intros (sp & k0 & n & Hk & ->). split; [exact (sectionKeys_agree sp np k0 Hk)|].
  unfold NewEncryptionKeys in Hk. destruct (SharedKey _ _); [|done]. apply Ok_inj in Hk as <-.
  apply Crc64Facts.Checksum_range.
Qed.

(** C1: the onion theorem: a message wrapped for a chain of nodes, each with keys
    agreed with that node, is peeled by the nodes in order, each deriving its
    key from the section key alone: node [i] reads exactly the instructions
    meant for it with the next sequence number, the last one is left with what
    the message held before, and the payload travels unchanged. *)
Theorem onion_peel (layers : list layer) (nodes : list bytes) msg out :
  Forall2 (fun l np => keysFor np (l_keys l) /\ length (l_rnd l) = 8%nat /\
    Forall encodable (l_instructions l) /\ Z.of_nat (length (l_instructions l)) < 2 ^ 32) layers nodes ->
  wrapLayers layers msg = Ok out ->
  exists ks,
    mapM (fun '(l, np) => sectionKeys np (ek_SectionPubKey (l_keys l))) (zip layers nodes) = Some ks /\
    peelLayers ks (em_Instructions out) = Ok (layerContainer <$> layers, em_Instructions msg) /\
    em_Payload out = em_Payload msg.
Proof using TOk KOk.
  intros Hall Hout. exists (layerKey <$> layers).
  assert (Forall wfLayer layers /\
    mapM (fun '(l, np) => sectionKeys np (ek_SectionPubKey (l_keys l))) (zip layers nodes)
      = Some (layerKey <$> layers)) as [Hwf Hks].
  { clear Hout. induction Hall as [|l np layers nodes (Hk & Hr & He & Hl) _ [IH1 IH2]]; [done|].
    destruct (keysFor_facts np (l_keys l) Hk) as [Hs Hc]. split; [by constructor|].
    cbn [zip_with mapM]. rewrite Hs. cbn [mbind option_bind]. by rewrite IH2. }
  destruct (peel_wrap layers msg out Hwf Hout) as (Hp & Hpay & _). done.
Qed.

(** A node survives every message: [decryptMessage] never panics and always
    ends, the check for twelve bytes being exactly what the container parser
    needs. *)
Theorem decryptMessage_total cipherKeyCrc cipherKey m :
  match (decryptMessage cipherKeyCrc cipherKey m).2 with
  | Ok (c, rest) => (4 * length (ic_List c) + length rest <= length (em_Instructions m))%nat
  | Err e => e <> OutOfFuel
  | Panic _ => False
  end.
Proof using TOk.
  unfold decryptMessage.
  destruct (decryptStream cipherKeyCrc cipherKey (em_Instructions m)) as [buf o] eqn:E.
  assert (match o with Ok d => (length d <= length (em_Instructions m))%nat
          | Err _ => True | Panic _ => False end) as Ho.
  { unfold decryptStream in E. destruct (_ <=? 16); [by injection E as <- <-|].
    destruct (NewCipherCtr _ _); [|by injection E as <- <-].
    destruct (_ =? _); injection E as <- <-; [|done].
    rewrite length_XORKeyStream, length_drop. lia. }
  destruct o as [d| |]; [|done|done].
  destruct (Z.ltb_spec (len d) 12) as [|Hlen]; [done|]. cbn [snd]. unfold parseContainer.
  destruct (tl_unbox d) as [body|] eqn:Eb; [|done]. cbn [of_option]. go_bind.
  apply tl_unbox_length in Eb. unfold len in Hlen.
  pose proof (container_parse_cases body ltac:(unfold len; lia)) as Hp.
  destruct (InstructionsContainer_Parse body) as [[c rest]|[]|]; simpl in *; try done; lia.
Qed.
End KeysFacts.

(** ** The chain of three nodes of [TestGateway_encryptMessage] *)

Definition sampleKA : KeyAgreement := {|
  SharedKey := fun a b => Some (PutUint64 (le_decode a + le_decode b));
  PublicKey := fun a => a;
|}.

Lemma sampleKA_ok : KeyAgreementOk sampleKA.
Proof. intros a b. unfold SharedKey, PublicKey, sampleKA. by rewrite Z.add_comm. Qed.

Definition sampleKeysFor (sectionPrivate nodePrivate : bytes) : EncryptionKeys :=
  match NewEncryptionKeys (K := sampleKA) sectionPrivate (PublicKey (KeyAgreement := sampleKA) nodePrivate) with
  | Ok k => k
  | _ => mkEncryptionKeys [] 0 0 [] []
  end.

Lemma sampleKeysFor_keysFor sp np : keysFor (K := sampleKA) np (sampleKeysFor sp np).
Proof.
  exists sp, (sampleKeysFor sp np), 0. unfold sampleKeysFor, NewEncryptionKeys, setSeqno.
  cbn [SharedKey PublicKey sampleKA of_option]. go_bind. split; reflexivity.
Qed.

Definition sampleNodes : list bytes := [[11; 12; 13; 14]; [21; 22; 23; 24]; [31; 32; 33; 34]].

Definition sampleLayers : list layer :=
  [mkLayer (sampleKeysFor [1; 1; 1; 1] [11; 12; 13; 14]) [8; 7; 6; 5; 4; 3; 2; 1]
     [BuildRoute (mkBuildRoute [21; 22; 23; 24] [2; 2; 2; 2] 1 0); Route 1];
   mkLayer (sampleKeysFor [2; 2; 2; 2] [21; 22; 23; 24]) [1; 1; 2; 3; 5; 8; 13; 21]
     [BuildRoute (mkBuildRoute [31; 32; 33; 34] [3; 3; 3; 3] 1 0); Route 1];
   mkLayer (sampleKeysFor [3; 3; 3; 3] [31; 32; 33; 34]) [0; 9; 0; 9; 0; 9; 0; 9] [SendOut]].

Definition sampleOnion : EncryptedMessage :=
  match wrapLayers (C := toyCipher) (T := sampleTL) sampleLayers (mkEncryptedMessage [] [] [42]) with
  | Ok m => m
  | _ => mkEncryptedMessage [] [] []
  end.

Lemma onion_peel_witness :
  exists ks,
    mapM (fun '(l, np) => sectionKeys (K := sampleKA) np (ek_SectionPubKey (l_keys l)))
      (zip sampleLayers sampleNodes) = Some ks /\
    peelLayers (C := toyCipher) (T := sampleTL) ks (em_Instructions sampleOnion)
      = Ok (layerContainer <$> sampleLayers, []) /\
    em_Payload sampleOnion = [42].
Proof.
  apply (onion_peel (C := toyCipher) (T := sampleTL) (TOk := sampleTL_ok) (K := sampleKA) (KOk := sampleKA_ok)
    sampleLayers sampleNodes (mkEncryptedMessage [] [] [42]) sampleOnion).
  - repeat apply Forall2_cons_2; try apply Forall2_nil_2;
      (split; [apply sampleKeysFor_keysFor|]);
      (split; [reflexivity|split; [|vm_compute; reflexivity]]);
      repeat apply Forall_cons_2; try apply Forall_nil_2; apply encodable_plain; discriminate.
  - vm_compute. reflexivity.
Defined.

Lemma decryptMessage_total_witness :
  match (decryptMessage (C := toyCipher) (T := sampleTL) 5 [1; 2; 3]
           (mkEncryptedMessage [] (em_Instructions sampleOnion) [])).2 with
  | Ok (c, rest) => False
  | Err e => e <> OutOfFuel
  | Panic _ => False
  end.
Proof.
  pose proof (decryptMessage_total (C := toyCipher) (T := sampleTL) (TOk := sampleTL_ok) 5 [1; 2; 3]
    (mkEncryptedMessage [] (em_Instructions sampleOnion) [])) as H.
  assert ((decryptMessage (C := toyCipher) (T := sampleTL) 5 [1; 2; 3]
    (mkEncryptedMessage [] (em_Instructions sampleOnion) [])).2
    = Err (Errorf "shared key calc failed")) as E by (vm_compute; reflexivity).
  rewrite E in H |- *. exact H.
Defined.
