(* ===== verification/PayChain.v ===== *)
(** * The payment chain of a tunnel ([buildTunnelPaymentsChain], [tunnel/regularOutTunnel.go])

    A virtual payment channel runs through intermediate payment nodes, each of
    which takes a fee (a minimum or a percentage of what passes through it) and
    limits the capacity.  The code looks for a capacity [x] that fits, by at most
    ten rounds of a fixed-point iteration.  The percentage is computed with
    [math/big] floats, modelled here with their precision and rounding. *)

From S2P Require Import Prelude.

(** ** [math/big.Float]: a mantissa, an exponent and a precision *)
Module BigFloat.

Record Float := mkFloat { prec : Z; mant : Z; exp : Z }.

Definition bitLen (x : Z) : Z := if x =? 0 then 0 else Z.log2 (Z.abs x) + 1.

(** The quotient [n / d] of non-negative integers to [p] significant bits,
    rounded to nearest even: a mantissa and the exponent it is scaled by. *)
Definition roundQuo (p n d : Z) : Z * Z :=
  if n =? 0 then (0, 0) else
  let s0 := p - 1 - (Z.log2 n - Z.log2 d) in
  let scaled s := (n * 2 ^ Z.max 0 s, d * 2 ^ Z.max 0 (- s)) in
  let '(a0, b0) := scaled s0 in
  let s := if a0 <? 2 ^ (p - 1) * b0 then s0 + 1 else s0 in
  let '(a, b) := scaled s in
  let q := a / b in
  let r := a mod b in
  let up := (b <? 2 * r) || ((2 * r =? b) && Z.odd q) in
  ((if up then q + 1 else q), - s).

Definition round (p : Z) (m e : Z) : Float :=
  let '(q, e') := roundQuo p (Z.abs m) 1 in mkFloat p (Z.sgn m * q) (e + e').

(** [new(big.Float).SetInt(x)]: exact, at least 64 bits. *)
Definition SetInt (x : Z) : Float := mkFloat (Z.max (bitLen x) 64) x 0.

(** [new(big.Float).Mul(x, y)]: the larger precision of the two. *)
Definition Mul (x y : Float) : Float :=
  round (Z.max (prec x) (prec y)) (mant x * mant y) (exp x + exp y).

(** [z.Quo(z, y)]: the precision of [z]. *)
Definition Quo (z y : Float) : Float :=
  let '(q, e') := roundQuo (prec z) (Z.abs (mant z)) (Z.abs (mant y)) in
  mkFloat (prec z) (Z.sgn (mant z) * Z.sgn (mant y) * q) (exp z - exp y + e').

(** [x.Int(z)]: truncation towards zero. *)
Definition Int (x : Float) : Z :=
  if 0 <=? exp x then mant x * 2 ^ exp x else mant x ÷ 2 ^ (- exp x).

End BigFloat.
Import BigFloat.

Record PaymentTunnelSection := mkPaymentTunnelSection {
  pts_Key : bytes;
  MinFee : Z;
  PercentFee : Float;
  MaxCapacity : Z;
}.

(** [transport.TunnelChainPart]: what the code fills in. *)
Record TunnelChainPart := mkTunnelChainPart {
  Target : bytes;
  Capacity : Z;
  Fee : Z;
  Deadline : Z;
}.

(** ** One round *)

Definition percentFee (percent : Float) (R : Z) : Z :=
  let candidateFeeFloat := Mul percent (SetInt R) in
  let candidateFeeFloat := Quo candidateFeeFloat (SetInt 100) in
  Int candidateFeeFloat.

Definition sectionFee (s : PaymentTunnelSection) (R : Z) : Z :=
  let candidateFee := percentFee (PercentFee s) R in
  if MinFee s <? candidateFee then candidateFee else MinFee s.

(** [cumulativeFees[i..n]], filled from the end: the head is the fee of the
    first section and of all after it. *)
Fixpoint cumulativeFees (x : Z) (tunnel : list PaymentTunnelSection) : list Z :=
  match tunnel with
  | [] => [0]
  | s :: tunnel =>
      let rest := cumulativeFees x tunnel in
      let next := hd 0 rest in
      sectionFee s (x + next) + next :: rest
  end.

(** The loop over [allowed := MaxCapacity - cumulativeFees[i+1]]. *)
Fixpoint allowedCapacity (tunnel : list PaymentTunnelSection) (fees : list Z) (newX : Z) : Z :=
  match tunnel, fees with
  | s :: tunnel, _ :: fees =>
      let allowed := MaxCapacity s - hd 0 fees in
      allowedCapacity tunnel fees (if allowed <? newX then allowed else newX)
  | _, _ => newX
  end.

(** The fixed-point iteration, with the number of rounds left: the value of [x]
    and the fees computed in the last round. *)
Fixpoint fitCapacity (rounds : nat) (tunnel : list PaymentTunnelSection) (initialCapacity x : Z)
    (fees : list Z) : Z * list Z :=
  match rounds with
  | O => (x, fees)
  | S rounds =>
      let fees := cumulativeFees x tunnel in
      let newX := allowedCapacity tunnel fees initialCapacity in
      if newX =? x then (x, fees)
      else fitCapacity rounds tunnel initialCapacity newX fees
  end.

Definition maxIter : nat := 10.

(** The parts of the chain: section [i] of [n] gets its deadline [n - i] hops
    after the base. *)
Fixpoint chainParts (tunnel : list PaymentTunnelSection) (x : Z) (fees : list Z) (base hopTTL : Z)
    : list TunnelChainPart :=
  match tunnel, fees with
  | s :: tunnel', f :: fees' =>
      mkTunnelChainPart (pts_Key s) (x + hd 0 fees') f (base + Z.of_nat (length tunnel) * hopTTL)
      :: chainParts tunnel' x fees' base hopTTL
  | _, _ => []
  end.

Definition buildTunnelPaymentsChain (now : Z) (paymentTunnel : list PaymentTunnelSection)
    (initialCapacity baseTTL hopTTL : Z) : outcome (list TunnelChainPart) :=
  match paymentTunnel with
  | [] => Err (Errorf "empty payment tunnel")
  | _ =>
      let zeroFees := replicate (S (length paymentTunnel)) 0 in
      let '(x, fees) := fitCapacity maxIter paymentTunnel initialCapacity initialCapacity zeroFees in
      if x <? 0 then Err (Errorf "min capacity on the way cannot cover fees")
      else Ok (chainParts paymentTunnel x fees (now + baseTTL) hopTTL)
  end.

(** The chain of [TestBuildTunnelPaymentsChain]; 0.05 is the nearest float64. *)
Definition testTunnel : list PaymentTunnelSection :=
  [mkPaymentTunnelSection [1] 10 (mkFloat 53 10 0) 120;
   mkPaymentTunnelSection [2] 5 (mkFloat 53 20 0) 100;
   mkPaymentTunnelSection [3] 1 (mkFloat 53 3602879701896397 (-56)) 50;
   mkPaymentTunnelSection [4] 0 (mkFloat 53 0 0) 100].

Example TestBuildTunnelPaymentsChain :
  buildTunnelPaymentsChain 0 testTunnel 80 1800 30
  = Ok [mkTunnelChainPart [1] 61 21 1920; mkTunnelChainPart [2] 51 11 1890;
        mkTunnelChainPart [3] 50 1 1860; mkTunnelChainPart [4] 50 0 1830].
Proof. vm_compute. reflexivity. Qed.

(** ** Facts on one round and on the iteration *)

(** What the sections from [i] on charge together, computed for [y]. *)
Definition feesFrom (y : Z) (tunnel : list PaymentTunnelSection) (i : nat) : Z :=
  hd 0 (cumulativeFees y (drop i tunnel)).

Lemma feesFrom_lookup y tunnel i s :
  tunnel !! i = Some s ->
  feesFrom y tunnel i = sectionFee s (y + feesFrom y tunnel (S i)) + feesFrom y tunnel (S i).
Proof. intros H. unfold feesFrom. by rewrite (drop_S tunnel s i H). Qed.

Lemma drop_cumulativeFees y tunnel i :
  hd 0 (drop i (cumulativeFees y tunnel)) = hd 0 (cumulativeFees y (drop i tunnel)).
Proof.
  revert i. induction tunnel as [|s tunnel IH]; intros [|i]; try done; [by destruct i|apply IH].
Qed.

Lemma sectionFee_min s R : MinFee s <= sectionFee s R.
Proof. unfold sectionFee. z_cases. Qed.

Lemma allowedCapacity_spec tunnel y newX :
  allowedCapacity tunnel (cumulativeFees y tunnel) newX <= newX /\
  (forall i s, tunnel !! i = Some s ->
    allowedCapacity tunnel (cumulativeFees y tunnel) newX <= MaxCapacity s - feesFrom y tunnel (S i)).
Proof.
  revert newX. induction tunnel as [|s tunnel IH]; intros newX; simpl; [split; [lia|done]|].
  set (newX' := if _ <? newX then _ else newX).
  destruct (IH newX') as [H1 H2].
  assert (newX' <= newX /\ newX' <= MaxCapacity s - hd 0 (cumulativeFees y tunnel)) as [H3 H4]
    by (subst newX'; z_cases).
  split; [lia|]. intros [|i] s' Hs; simpl in Hs.
  - injection Hs as <-. unfold feesFrom. simpl. rewrite drop_0. lia.
  - apply H2 in Hs. unfold feesFrom in *. simpl in *. exact Hs.
Qed.

(** At least one round: the fees are those of some [y], and [x] is what they
    allow. *)
Lemma fitCapacity_spec rounds tunnel init x fees0 x' fees :
  fitCapacity (S rounds) tunnel init x fees0 = (x', fees) ->
  exists y, fees = cumulativeFees y tunnel /\ x' = allowedCapacity tunnel fees init.
Proof.
  revert x fees0. induction rounds as [|rounds IH]; intros x fees0 H.
  - simpl in H. destruct (Z.eqb_spec (allowedCapacity tunnel (cumulativeFees x tunnel) init) x) as [E|E];
      injection H as <- <-; by exists x.
  - cbn [fitCapacity] in H.
    destruct (Z.eqb_spec (allowedCapacity tunnel (cumulativeFees x tunnel) init) x) as [E|E].
    + injection H as <- <-. by exists x.
    + by apply IH in H.
Qed.

Lemma length_chainParts tunnel y x base hop :
  length (chainParts tunnel x (cumulativeFees y tunnel) base hop) = length tunnel.
Proof. induction tunnel as [|s tunnel IH]; simpl; [done|by rewrite IH]. Qed.

Lemma chainParts_lookup tunnel y x base hop i s :
  tunnel !! i = Some s ->
  chainParts tunnel x (cumulativeFees y tunnel) base hop !! i
  = Some (mkTunnelChainPart (pts_Key s) (x + feesFrom y tunnel (S i)) (feesFrom y tunnel i)
            (base + Z.of_nat (length tunnel - i) * hop)).
Proof.
  revert i. induction tunnel as [|s' tunnel IH]; intros i H; [done|]. destruct i as [|i]; simpl in H.
  - injection H as ->. unfold feesFrom. simpl. by rewrite drop_0.
  - unfold feesFrom. simpl. apply IH. done.
Qed.

Lemma feesFrom_end y tunnel i : (length tunnel <= i)%nat -> feesFrom y tunnel i = 0.
Proof. intros. unfold feesFrom. by rewrite drop_ge. Qed.

(** The fee the sections after [i] charge, read off the chain. *)
Definition feeAfter (parts : list TunnelChainPart) (i : nat) : Z :=
  match parts !! S i with Some p => Fee p | None => 0 end.

Lemma feeAfter_chain tunnel y x base hop i :
  feeAfter (chainParts tunnel x (cumulativeFees y tunnel) base hop) i = feesFrom y tunnel (S i).
Proof.
  unfold feeAfter. destruct (tunnel !! S i) as [s|] eqn:E.
  - by rewrite (chainParts_lookup _ _ _ _ _ _ _ E).
  - apply lookup_ge_None_1 in E. rewrite lookup_ge_None_2 by (rewrite length_chainParts; lia).
    by rewrite feesFrom_end.
Qed.

Lemma build_inv now tunnel init baseTTL hopTTL parts :
  buildTunnelPaymentsChain now tunnel init baseTTL hopTTL = Ok parts ->
  exists x y, fitCapacity maxIter tunnel init init (replicate (S (length tunnel)) 0) = (x, cumulativeFees y tunnel) /\
    x = allowedCapacity tunnel (cumulativeFees y tunnel) init /\ 0 <= x /\
    parts = chainParts tunnel x (cumulativeFees y tunnel) (now + baseTTL) hopTTL.
Proof.
  unfold buildTunnelPaymentsChain. destruct tunnel as [|s tunnel]; [done|].
  destruct (fitCapacity _ _ _ _ _) as [x fees] eqn:E.
  pose proof (fitCapacity_spec _ _ _ _ _ _ _ E) as (y & -> & Hx).
  destruct (Z.ltb_spec x 0); [done|]. intros <-%Ok_inj. by exists x, y.
Qed.

(** ** The float arithmetic is exact for whole percentages *)

(** Rounding to [p] bits, truncated afterwards, is the floor of the quotient as
    long as six fractional bits are kept and the divisor is 100. *)
Lemma roundQuo_floor n s :
  0 < n -> roundQuo 64 n 100 = ((roundQuo 64 n 100).1, - s) -> 6 <= s ->
  (roundQuo 64 n 100).1 / 2 ^ s = n / 100.
Proof.
  unfold roundQuo. intros Hn. destruct (Z.eqb_spec n 0); [lia|].
  set (s0 := 64 - 1 - (Z.log2 n - Z.log2 100)). cbv zeta.
  set (s1 := if _ <? _ then s0 + 1 else s0). cbn [fst]. intros [= Hs] Hs6.
  assert (s1 = s) as Es by lia. rewrite Es. clear Es Hs s1 s0.
  rewrite (Z.max_r 0 s), (Z.max_l 0 (- s)) by lia. rewrite Z.pow_0_r, Z.mul_1_r.
  set (a := n * 2 ^ s). pose proof (Z.div_mod a 100 ltac:(lia)) as Ha.
  pose proof (Z.mod_pos_bound a 100 ltac:(lia)) as Hr.
  pose proof (Z.div_mod n 100 ltac:(lia)) as Hdn. pose proof (Z.mod_pos_bound n 100 ltac:(lia)) as Hrn.
  set (q := a / 100) in *. set (r := a mod 100) in *. set (N := n / 100) in *. set (t := n mod 100) in *.
  assert (64 <= 2 ^ s) by (change 64 with (2 ^ 6); apply Z.pow_le_mono_r; lia).
  set (P := 2 ^ s) in *.
  assert (N * P <= q) by (subst a; nia).
  set (up := (100 <? 2 * r) || _).
  assert (100 * (if up then q + 1 else q) <= 100 * q + r + 50) as Hup.
  { subst up. destruct (Z.ltb_spec 100 (2 * r)); simpl; [lia|].
    destruct (Z.eqb_spec (2 * r) 100); simpl; [|lia]. destruct (Z.odd q); lia. }
  assert (q <= (if up then q + 1 else q)) by (destruct up; lia).
  symmetry. apply (Z.div_unique_pos _ _ _ ((if up then q + 1 else q) - N * P)); [|lia].
  subst a. nia.
Qed.

(** A product below 2^64 is kept exactly, shifted up to 64 significant bits. *)
Lemma roundQuo_exact n :
  0 < n < 2 ^ 64 -> roundQuo 64 n 1 = (n * 2 ^ (63 - Z.log2 n), - (63 - Z.log2 n)).
Proof.
  intros Hn. unfold roundQuo. destruct (Z.eqb_spec n 0); [lia|].
  assert (Z.log2 n <= 63) by (enough (Z.log2 n < 64) by lia; apply Z.log2_lt_pow2; lia).
  pose proof (Z.log2_spec n ltac:(lia)) as [Hl _]. pose proof (Z.log2_nonneg n).
  change (Z.log2 1) with 0. rewrite Z.sub_0_r. change (64 - 1) with 63.
  assert (exists s, s = 63 - Z.log2 n) as [s Es] by eauto. rewrite <- Es. cbv zeta.
  rewrite (Z.max_r 0 s), (Z.max_l 0 (- s)) by lia. rewrite Z.pow_0_r, Z.mul_1_r.
  assert (n * 2 ^ s <? 2 ^ 63 = false) as ->.
  { apply Z.ltb_ge. replace 63 with (Z.log2 n + s) by lia. rewrite Z.pow_add_r by lia.
    assert (0 < 2 ^ s) by (apply Z.pow_pos_nonneg; lia). nia. }
  rewrite (Z.max_r 0 s), (Z.max_l 0 (- s)) by lia.
  rewrite Z.pow_0_r, Z.mul_1_r, Z.div_1_r, Z.mod_1_r. done.
Qed.

Lemma roundQuo_hundred n : 2 ^ 63 <= n < 2 ^ 64 -> exists s, 6 <= s /\ roundQuo 64 n 100 = ((roundQuo 64 n 100).1, - s).
Proof.
  intros Hn. unfold roundQuo. destruct (Z.eqb_spec n 0); [lia|].
  assert (Z.log2 n = 63) as -> by (apply Z.log2_unique; lia).
  change (Z.log2 100) with 6. change (64 - 1 - (63 - 6)) with 6. cbv zeta.
  match goal with |- context [(_, - ?x)] => exists x end.
  split; [destruct (_ <? _); lia|reflexivity].
Qed.

Lemma percentFee_exact p R :
  0 <= p -> 0 <= R -> p * R < 2 ^ 64 -> percentFee (mkFloat 53 p 0) R = p * R / 100.
Proof.
  intros Hp HR Hlt. unfold percentFee, Mul, SetInt, round. cbn [prec mant exp].
  destruct (Z.eq_dec (p * R) 0) as [E|E].
  { rewrite E. simpl Z.abs. unfold roundQuo. simpl Z.eqb. cbn [Z.sgn Z.mul prec mant exp].
    unfold Quo. cbn [prec mant exp Z.abs]. unfold roundQuo. simpl Z.eqb.
    cbn [Z.sgn Z.mul prec mant exp]. done. }
  assert (p <> 0 /\ R <> 0) as [Hp0 HR0] by (split; intros ->; lia).
  assert (R < 2 ^ 64) by nia.
  assert (Z.max 53 (Z.max (bitLen R) 64) = 64) as ->.
  { unfold bitLen. destruct (Z.eqb_spec R 0); [lia|]. rewrite Z.abs_eq by lia.
    assert (Z.log2 R < 64) by (apply Z.log2_lt_pow2; lia). lia. }
  rewrite Z.abs_eq by nia. rewrite roundQuo_exact by nia.
  set (n := p * R) in *. assert (0 < n) by nia. set (s := 63 - Z.log2 n).
  assert (0 <= s) by (enough (Z.log2 n < 64) by lia; apply Z.log2_lt_pow2; lia).
  rewrite Z.sgn_pos, Z.mul_1_l by lia.
  unfold Quo. cbn [prec mant exp]. set (n2 := n * 2 ^ s).
  assert (2 ^ 63 <= n2 < 2 ^ 64) as Hn2.
  { pose proof (Z.log2_spec n ltac:(lia)) as [Hl Hu]. pose proof (Z.log2_nonneg n). subst n2.
    replace 63 with (Z.log2 n + s) by lia. replace 64 with (Z.succ (Z.log2 n) + s) by lia.
    rewrite !Z.pow_add_r by lia. assert (0 < 2 ^ s) by (apply Z.pow_pos_nonneg; lia). nia. }
  rewrite !Z.abs_eq by lia. destruct (roundQuo_hundred n2 Hn2) as (s' & Hs' & Hq).
  pose proof (roundQuo_floor n2 s' ltac:(lia) Hq Hs') as Hfl. rewrite Hq.
  set (q := (roundQuo 64 n2 100).1) in *.
  rewrite (Z.sgn_pos n2), Z.mul_1_l by lia.
  unfold Int. cbn [exp mant]. destruct (Z.leb_spec 0 (0 + 0 + - s - 0 + - s')); [lia|].
  replace (- (0 + 0 + - s - 0 + - s')) with (s' + s) by lia.
  assert (0 <= q) as Hq0.
  { assert (0 <= q / 2 ^ s') by (rewrite Hfl; apply Z.div_pos; lia).
    apply Z.nlt_ge. intros Hneg. assert (q / 2 ^ s' < 0) by (apply Z.div_lt_upper_bound; lia). lia. }
  rewrite Z.quot_div_nonneg by lia. rewrite Z.pow_add_r, <- Z.div_div by lia. rewrite Hfl.
  subst n2. rewrite Z.div_div by lia. rewrite (Z.mul_comm 100), <- Z.div_div by lia.
  by rewrite Z.div_mul by lia.
Qed.

(** ** Convergence *)

(** One round of the iteration, as a function of the capacity. *)
Definition nextX (tunnel : list PaymentTunnelSection) (init x : Z) : Z :=
  allowedCapacity tunnel (cumulativeFees x tunnel) init.

(** A fixed point reached within the rounds is found, with its own fees. *)
Lemma fitCapacity_converges k rounds tunnel init x fees :
  (k < rounds)%nat ->
  let z := Nat.iter k (nextX tunnel init) x in
  nextX tunnel init z = z ->
  exists z', fitCapacity rounds tunnel init x fees = (z', cumulativeFees z' tunnel).
Proof.
  revert rounds x fees. induction k as [|k IH]; intros [|rounds] x fees Hk z Hz; try lia; cbn [fitCapacity].
  - simpl in z. subst z. fold (nextX tunnel init x). rewrite Hz, Z.eqb_refl. eauto.
  - fold (nextX tunnel init x). destruct (Z.eqb_spec (nextX tunnel init x) x); [eauto|].
    apply IH; [lia|]. by rewrite <- Nat.iter_succ_r.
Qed.

Lemma feesFrom_nonneg y tunnel i :
  Forall (fun s => 0 <= MinFee s) tunnel -> 0 <= feesFrom y tunnel i.
Proof.
  intros H. apply (Forall_drop _ i) in H. unfold feesFrom.
  induction H as [|s rest Hs _ IH]; simpl; [lia|].
  pose proof (sectionFee_min s (y + hd 0 (cumulativeFees y rest))). lia.
Qed.

(** A section that charges a whole percentage, small enough for the 64-bit
    mantissa. *)
Definition wholePercent (s : PaymentTunnelSection) (p : Z) : Prop :=
  PercentFee s = mkFloat 53 p 0 /\ 0 <= p /\ 0 <= MinFee s /\ p * MaxCapacity s < 2 ^ 64.

Lemma sectionFee_exact s p R :
  wholePercent s p -> 0 <= R <= MaxCapacity s -> sectionFee s R = Z.max (MinFee s) (p * R / 100).
Proof.
  intros (Hp & H0 & _ & Hlt) HR. unfold sectionFee. rewrite Hp, percentFee_exact by nia. z_cases.
Qed.

(** ** Properties *)

(** C19: a chain that is built is sound, whether or not the iteration converged:
    one part per section with that section's key, every capacity within the
    section's limit, the fee of each section at least its minimum, the capacity
    of a part equal to the amount that arrives at the end plus the fees still to
    be paid, that amount between zero and the requested one, and deadlines that
    leave one hop more at every section. *)
Theorem buildTunnelPaymentsChain_sound now tunnel init baseTTL hopTTL parts :
  buildTunnelPaymentsChain now tunnel init baseTTL hopTTL = Ok parts ->
  length parts = length tunnel /\
  exists x, 0 <= x <= init /\
  forall i s, tunnel !! i = Some s ->
    exists part, parts !! i = Some part /\
      Target part = pts_Key s /\
      Capacity part = x + feeAfter parts i /\ Capacity part <= MaxCapacity s /\
      MinFee s <= Fee part - feeAfter parts i /\
      Deadline part = now + baseTTL + Z.of_nat (length tunnel - i) * hopTTL.
Proof.
  intros (x & y & _ & Hx & H0 & ->)%build_inv.
  destruct (allowedCapacity_spec tunnel y init) as [Hle Hall].
  split; [apply length_chainParts|]. exists x. split; [lia|]. intros i s Hs. eexists.
  split; [by apply chainParts_lookup|]. rewrite feeAfter_chain. simpl.
  pose proof (Hall _ _ Hs). rewrite (feesFrom_lookup y tunnel i s Hs).
  pose proof (sectionFee_min s (y + feesFrom y tunnel (S i))).
  split_and!; [done|done|lia|lia|done].
Qed.


Lemma buildTunnelPaymentsChain_sound_witness :
  exists parts : list TunnelChainPart, length parts = length testTunnel /\ exists x, 0 <= x <= 80.
Proof.
  eexists. edestruct (buildTunnelPaymentsChain_sound 0 testTunnel 80 1800 30) as (H & x & Hx & _);
    [vm_compute; reflexivity|]. split; [exact H|]. by exists x.
Defined.


(** Two sections, ten percent and twenty, with whole percentages. *)
Definition wholeTunnel : list PaymentTunnelSection :=
  [mkPaymentTunnelSection [1] 10 (mkFloat 53 10 0) 120;
   mkPaymentTunnelSection [2] 5 (mkFloat 53 20 0) 100].

Lemma wholeTunnel_percent s :
  s ∈ wholeTunnel -> exists p, wholePercent s p.
Proof.
  unfold wholeTunnel. intros [->|[->|[]%elem_of_nil]%elem_of_cons]%elem_of_cons;
    [exists 10|exists 20]; unfold wholePercent; simpl; split_and!; (reflexivity || lia).
Qed.


(** A section that takes everything it forwards, behind one with capacity 100. *)
Definition oscillatingTunnel : list PaymentTunnelSection :=
  [mkPaymentTunnelSection [1] 0 (mkFloat 53 0 0) 100;
   mkPaymentTunnelSection [2] 0 (mkFloat 53 100 0) 100].

(** The iteration need not converge: on a section that charges 100% behind
    a capacity limit it alternates between two capacities, and after ten rounds
    the chain is returned with the fees of one and the capacity of the other, so
    the section is offered 20 where its own rule asks for 80. *)
Theorem buildTunnelPaymentsChain_underpays :
  exists parts part s, buildTunnelPaymentsChain 0 oscillatingTunnel 80 1800 30 = Ok parts /\
    parts !! 1%nat = Some part /\ oscillatingTunnel !! 1%nat = Some s /\
    Fee part = 20 /\ sectionFee s (Capacity part) = 80.
Proof.
  exists [mkTunnelChainPart [1] 100 20 1860; mkTunnelChainPart [2] 80 20 1830],
    (mkTunnelChainPart [2] 80 20 1830), (mkPaymentTunnelSection [2] 0 (mkFloat 53 100 0) 100).
  repeat split. all: vm_compute; reflexivity.
Qed.

(** The two errors: no section, and sections that can not carry even their
    own fees, such as minimum fees above a capacity limit before them. *)
Theorem buildTunnelPaymentsChain_errors now init baseTTL hopTTL a b :
  MaxCapacity a < MinFee b ->
  buildTunnelPaymentsChain now [] init baseTTL hopTTL = Err (Errorf "empty payment tunnel") /\
  buildTunnelPaymentsChain now [a; b] init baseTTL hopTTL
  = Err (Errorf "min capacity on the way cannot cover fees").
Proof.
  intros Hlt. split; [done|]. unfold buildTunnelPaymentsChain.
  destruct (fitCapacity _ _ _ _ _) as [x fees] eqn:E.
  pose proof (fitCapacity_spec _ _ _ _ _ _ _ E) as (y & -> & Hx).
  destruct (Z.ltb_spec x 0); [done|]. exfalso.
  destruct (allowedCapacity_spec [a; b] y init) as [_ Hall].
  specialize (Hall 0%nat a eq_refl). rewrite <- Hx in Hall.
  rewrite (feesFrom_lookup y [a; b] 1 b eq_refl), (feesFrom_end y [a; b] 2) in Hall by (simpl; lia).
  pose proof (sectionFee_min b (y + 0)). lia.
Qed.

Lemma buildTunnelPaymentsChain_errors_witness :
  buildTunnelPaymentsChain 0 [mkPaymentTunnelSection [1] 0 (mkFloat 53 0 0) 3;
    mkPaymentTunnelSection [2] 5 (mkFloat 53 0 0) 9] 80 1800 30
  = Err (Errorf "min capacity on the way cannot cover fees").
Proof. eapply (buildTunnelPaymentsChain_errors 0 80 1800 30). simpl. lia. Defined.
