(* ===== verification/Hoare.v ===== *)
(** * Reasoning on stateful code

    Triples for the monad [M] of the prelude, with one postcondition for a
    normal end and one for an error or a panic (the state survives both), and
    two special cases that need no annotations: a computation that preserves an
    invariant whatever happens, and one that does not touch a part of the state.
    Sums over finite maps, used to count references. *)

From S2P Require Import Prelude.

Section Hoare.
Context {S : Type}.
Implicit Types (P : S -> Prop) (s : S).

Definition triple {A} P (m : M S A) (Q : A -> S -> Prop) (E : S -> Prop) : Prop :=
  forall s, P s -> match m s with (s', Ok a) => Q a s' | (s', _) => E s' end.

(** Every outcome leaves the invariant true. *)
Definition preserves {A} P (m : M S A) : Prop := forall s, P s -> P (m s).1.

(** Every outcome leaves the view [f] of the state as it was. *)
Definition frame {A X} (f : S -> X) (m : M S A) : Prop := forall s, f (m s).1 = f s.

Lemma triple_ret {A} P (a : A) E : triple P (mret a) (fun x s => x = a /\ P s) E.
Proof. intros s H. by split. Qed.

Lemma triple_bind {A B} P (m : M S A) (k : A -> M S B) Q R E :
  triple P m Q E -> (forall a, triple (Q a) (k a) R E) -> triple P (m ≫= k) R E.
Proof.
  intros Hm Hk s Hs. specialize (Hm s Hs). unfold mbind, M_bind.
  destruct (m s) as [s' [a|e|w]]; [by apply Hk|done|done].
Qed.

Lemma triple_conseq {A} P P' (m : M S A) Q Q' (E E' : S -> Prop) :
  triple P m Q E -> (forall s, P' s -> P s) -> (forall a s, Q a s -> Q' a s) ->
  (forall s, E s -> E' s) -> triple P' m Q' E'.
Proof.
  intros Hm HP HQ HE s Hs. specialize (Hm s (HP s Hs)). destruct (m s) as [s' [a|e|w]]; auto.
Qed.

Lemma triple_frame {A X} (f : S -> X) P (m : M S A) Q E :
  frame f m -> (forall s s', f s = f s' -> P s -> P s') ->
  triple P m Q E -> triple P m (fun a s => Q a s /\ P s) E.
Proof.
  intros Hf HP Hm s Hs. specialize (Hm s Hs). specialize (Hf s).
  destruct (m s) as [s' [a|e|w]]; [|done|done]. split; [done|]. by apply (HP s).
Qed.

(** A step that keeps the precondition, and a step in last position that
    establishes the postcondition of a modification. *)
Lemma triple_keep {A B} P (m : M S A) (k : A -> M S B) R (E : S -> Prop) :
  preserves P m -> (forall s, P s -> E s) -> (forall a, triple P (k a) R E) -> triple P (m ≫= k) R E.
Proof.
  intros Hm HE Hk s Hs. specialize (Hm s Hs). unfold mbind, M_bind.
  destruct (m s) as [s' [a|e|w]]; [by apply Hk|by apply HE|by apply HE].
Qed.
Lemma triple_modify P f (Q : unit -> S -> Prop) E : (forall s, P s -> Q tt (f s)) -> triple P (modify f) Q E.
Proof. intros H s Hs. by apply H. Qed.
Lemma triple_weaken {A} P I (m : M S A) :
  (forall s, P s -> I s) -> preserves I m -> triple P m (fun _ => I) I.
Proof. intros HP Hm s Hs. specialize (Hm s (HP s Hs)). by destruct (m s) as [s' []]. Qed.

(** ** Preservation *)

Lemma preserves_ret {A} P (a : A) : preserves P (mret a).
Proof. by intros s H. Qed.
Lemma preserves_throw {A} P e : preserves P (@throw S A e).
Proof. by intros s H. Qed.
Lemma preserves_panic {A} P w : preserves P (@panic S A w).
Proof. by intros s H. Qed.
Lemma preserves_get P : preserves P (@get S).
Proof. by intros s H. Qed.
Lemma preserves_lift {A} P (o : outcome A) : preserves P (lift o).
Proof. by intros s H. Qed.
Lemma preserves_guard P b msg : preserves P (@guard_err S b msg).
Proof. intros s H. unfold guard_err. by destruct b. Qed.
Lemma preserves_modify P f : (forall s, P s -> P (f s)) -> preserves P (modify f).
Proof. intros H s Hs. by apply H. Qed.
Lemma preserves_bind {A B} P (m : M S A) (k : A -> M S B) :
  preserves P m -> (forall a, preserves P (k a)) -> preserves P (m ≫= k).
Proof.
  intros Hm Hk s Hs. specialize (Hm s Hs). unfold mbind, M_bind.
  destruct (m s) as [s' [a|e|w]]; [by apply Hk|done|done].
Qed.
Lemma preserves_wrapM {A} P msg (m : M S A) : preserves P m -> preserves P (wrapM msg m).
Proof. intros Hm s Hs. specialize (Hm s Hs). unfold wrapM. by destruct (m s). Qed.
Lemma preserves_ignore {A} P (m : M S A) : preserves P m -> preserves P (ignore m).
Proof. intros Hm s Hs. specialize (Hm s Hs). unfold ignore. by destruct (m s) as [s' []]. Qed.
Lemma preserves_attempt {A} P (m : M S A) : preserves P m -> preserves P (attempt m).
Proof. intros Hm s Hs. specialize (Hm s Hs). unfold attempt. by destruct (m s) as [s' []]. Qed.
Lemma preserves_deferred {A} P c (m : M S A) :
  preserves P c -> preserves P m -> preserves P (deferred c m).
Proof.
  intros Hc Hm s Hs. specialize (Hm s Hs). unfold deferred. destruct (m s) as [s' o].
  specialize (Hc s' Hm). by destruct (c s') as [s'' []].
Qed.
Lemma preserves_for_each {A} P (l : list A) body :
  (forall x, x ∈ l -> preserves P (body x)) -> preserves P (for_each l body).
Proof.
  induction l as [|x l IH]; intros H; simpl; [apply preserves_ret|].
  apply preserves_bind; [apply H; left|intros _]. apply IH. intros y Hy. apply H. by right.
Qed.
Lemma preserves_frame {A X} (f : S -> X) P (m : M S A) :
  frame f m -> (forall s s', f s = f s' -> P s -> P s') -> preserves P m.
Proof. intros Hf HP s Hs. apply (HP s); [by rewrite Hf|done]. Qed.

(** Steps that teach the rest something: a read of the state, a guard passed. *)
Lemma preserves_get_bind {A} P (k : S -> M S A) :
  (forall s, P s -> preserves P (k s)) -> preserves P (get ≫= k).
Proof. intros H s Hs. by apply H. Qed.
Lemma preserves_guard_bind {A} P b msg (k : unit -> M S A) :
  (b = false -> preserves P (k tt)) -> preserves P (guard_err b msg ≫= k).
Proof. intros H s Hs. unfold guard_err. destruct b; [done|]. by apply H. Qed.
Lemma triple_guard_bind {A} P b msg (k : unit -> M S A) Q (E : S -> Prop) :
  (forall s, P s -> E s) -> (b = false -> triple P (k tt) Q E) -> triple P (guard_err b msg ≫= k) Q E.
Proof. intros HE H s Hs. unfold guard_err. destruct b; [by apply HE|]. by apply H. Qed.

Lemma triple_preserves {A} P (m : M S A) : preserves P m <-> triple P m (fun _ => P) P.
Proof. split; intros H s Hs; specialize (H s Hs); by destruct (m s) as [s' []]. Qed.

(** ** Frames: preservation of every value of a view *)

Lemma frame_preserves {A X} (f : S -> X) (m : M S A) :
  (forall x, preserves (fun s => f s = x) m) <-> frame f m.
Proof. split; intros H s; [by apply H|]. intros s' Hs. by rewrite H. Qed.

Lemma frame_comp {A X Y} (f : S -> X) (g : X -> Y) (m : M S A) : frame f m -> frame (g ∘ f) m.
Proof. intros H s. unfold compose. by rewrite H. Qed.
End Hoare.

(** ** Running a computation step by step *)

Section Run.
Context {S : Type}.

Lemma bind_run {A B} (m : M S A) (k : A -> M S B) s :
  (m ≫= k) s = match m s with
               | (s', Ok a) => k a s'
               | (s', Err e) => (s', Err e)
               | (s', Panic w) => (s', Panic w)
               end.
Proof. done. Qed.
Lemma ret_run {A} (a : A) (s : S) : mret (M := M S) a s = (s, Ok a).
Proof. done. Qed.
Lemma get_run (s : S) : get s = (s, Ok s).
Proof. done. Qed.
Lemma modify_run (f : S -> S) s : modify f s = (f s, Ok tt).
Proof. done. Qed.
Lemma throw_run {A} e (s : S) : throw (A := A) e s = (s, Err e).
Proof. done. Qed.
Lemma panic_run {A} w (s : S) : panic (A := A) w s = (s, Panic w).
Proof. done. Qed.
Lemma lift_run {A} (o : outcome A) (s : S) : lift o s = (s, o).
Proof. done. Qed.
Lemma guard_run b msg (s : S) : guard_err b msg s = (s, if b then Err (Errorf msg) else Ok tt).
Proof. by destruct b. Qed.
Lemma wrapM_run {A} msg (m : M S A) s : wrapM msg m s = ((m s).1, wrapErr msg (m s).2).
Proof. unfold wrapM. by destruct (m s). Qed.
Lemma attempt_run {A} (m : M S A) s :
  attempt m s = match m s with
                | (s', Ok _) => (s', Ok None)
                | (s', Err e) => (s', Ok (Some e))
                | (s', Panic w) => (s', Panic w)
                end.
Proof. done. Qed.
End Run.

Create Rewrite HintDb run.
#[export] Hint Rewrite @bind_run @ret_run @get_run @modify_run @throw_run @panic_run @lift_run @guard_run : run.

(** Run the next steps, without unfolding anything else. *)
Ltac run := repeat (autorewrite with run; cbv iota beta).

Create HintDb pres discriminated.
#[export] Hint Resolve preserves_ret preserves_throw preserves_panic preserves_get preserves_lift
  preserves_guard preserves_bind preserves_wrapM preserves_ignore preserves_attempt
  preserves_deferred : pres.

(** Follow the structure of a computation, splitting every condition and match,
    down to the steps the hints know. *)
Ltac pres_step :=
  match goal with
  | |- forall _, _ => intro
  | |- preserves _ (let '(_, _) := ?x in _) => destruct x
  | |- preserves _ (match ?x with _ => _ end) => destruct x eqn:?
  | |- preserves _ (mbind _ _) => apply preserves_bind
  | |- _ => solve [auto 2 with pres nocore]
  | |- preserves _ (wrapM _ _) => apply preserves_wrapM
  | |- preserves _ (ignore _) => apply preserves_ignore
  | |- preserves _ (attempt _) => apply preserves_attempt
  | |- preserves _ (deferred _ _) => apply preserves_deferred
  | |- preserves _ (for_each _ _) => apply preserves_for_each; intros ? _
  end.
Ltac pres := repeat pres_step.

(** ** Sums over finite maps *)

Section SumMap.
Context {Key : Type} `{Countable Key} {A : Type}.
Implicit Types (m : gmap Key A) (f : A -> Z).

Definition sumMap f m : Z := map_fold (fun _ a acc => f a + acc) 0 m.

Lemma sumMap_empty f : sumMap f ∅ = 0.
Proof. apply map_fold_empty. Qed.

Lemma sumMap_insert f m k a : m !! k = None -> sumMap f (<[k := a]> m) = f a + sumMap f m.
Proof. intros Hk. unfold sumMap. rewrite map_fold_insert_L; [done|intros; lia|done]. Qed.

Lemma sumMap_extract f m k a : m !! k = Some a -> sumMap f m = f a + sumMap f (delete k m).
Proof.
  intros Hk. rewrite <- (insert_delete_id m k a Hk) at 1. by rewrite sumMap_insert by apply lookup_delete_eq.
Qed.

Lemma sumMap_update f m k a b : m !! k = Some a -> sumMap f (<[k := b]> m) = sumMap f m - f a + f b.
Proof.
  intros Hk. rewrite <- (insert_delete_eq m k b). rewrite sumMap_insert by apply lookup_delete_eq.
  rewrite (sumMap_extract f m k a Hk). lia.
Qed.

Lemma sumMap_ext f f' m : (forall k a, m !! k = Some a -> f a = f' a) -> sumMap f m = sumMap f' m.
Proof.
  induction m as [|k a m Hk IH] using map_ind; intros Hf; [done|].
  rewrite !sumMap_insert by done. rewrite (Hf k a) by apply lookup_insert_eq. f_equal. apply IH.
  intros k' a' Hk'. apply (Hf k'). rewrite lookup_insert_ne; [done|congruence].
Qed.

Lemma sumMap_bound f m lo hi :
  (forall k a, m !! k = Some a -> lo <= f a <= hi) ->
  lo * Z.of_nat (size m) <= sumMap f m <= hi * Z.of_nat (size m).
Proof.
  induction m as [|k a m Hk IH] using map_ind; intros Hf; [rewrite sumMap_empty, map_size_empty; lia|].
  rewrite sumMap_insert, map_size_insert_None by done.
  pose proof (Hf k a (lookup_insert_eq _ _ _)).
  assert (lo * Z.of_nat (size m) <= sumMap f m <= hi * Z.of_nat (size m)); [|lia].
  apply IH. intros k' a' Hk'. apply (Hf k'). rewrite lookup_insert_ne; [done|congruence].
Qed.
End SumMap.
