(* ===== verification/State.v ===== *)
(** * The state of a node ([tunnel/gateway.go], [tunnel/peer.go])

    The structs of a gateway as records.  Peers, sections, payment channels and
    initiated tunnels are shared through pointers, so they live in heaps indexed
    by location; a [*Route] never leaves its section and is named by its id
    there, and a [*Out] is owned by its section.  What the gateway calls outside
    of this repository (connections, sockets, DHT, clock, payment service, rate
    limiter) is the parameter [World]: each answer may depend on the number of
    calls made before, so that no two calls are assumed to agree. *)

From S2P Require Import Prelude Seqno Stream Wire.

(** ** Third-party values *)

(** A connection ([adnl.Peer]) and a UDP socket. *)
Record Conn := mkConn { c_id : Z; c_addr : string }.
Record Sock := mkSock { sk_id : Z; sk_port : Z }.
#[global] Instance Conn_eq_dec : EqDecision Conn.
Proof. solve_decision. Defined.

(** [payments.VirtualChannelState] of the payment network. *)
Record VirtualChannelState := mkVirtualChannelState { Amount : Z; Signature : bytes }.

(** [db.VirtualChannelMeta]: what the gateway reads of it.  Times are in
    nanoseconds since the epoch. *)
Record VirtualChannelSide := mkVirtualChannelSide { vs_Capacity : string; SafeDeadline : Z }.
Record VirtualChannelMeta := mkVirtualChannelMeta {
  LastKnownResolve : bytes;
  Incoming : option VirtualChannelSide;
  Outgoing : option VirtualChannelSide;
  StatusActive : bool;
}.

(** The payloads of [tunnel/instructions.go] and their reflective codec, boxed. *)
Inductive payload : Type :=
| PSendOut (p : SendOutPayload)
| PDeliverUDP (p : DeliverUDPPayload)
| POutBindDone (p : OutBindDonePayload).

(** ** The outside world, a parameter *)
Class World : Type := {
  w_now : nat -> Z;  (* time.Now(), in nanoseconds *)
  w_rand : nat -> option bytes;  (* rand.Read of the iv *)
  w_connSend : nat -> Conn -> message -> option error;
  w_findAddresses : nat -> bytes -> outcome (list (string * Z) * bytes);
  w_registerClient : nat -> string -> bytes -> outcome Conn;
  w_addressList : nat -> list bytes;  (* the IPs of gate.GetAddressList() *)
  w_tryLock : nat -> bool;
  w_listenPacket : nat -> outcome Sock;
  w_writeTo : nat -> Sock -> bytes -> bytes -> Z -> option error;
  w_serializePayload : payload -> outcome bytes;  (* tl.Serialize(obj, true) *)
  w_parsePayload : bytes -> outcome payload;  (* tl.Parse of any boxed payload *)
  Bucket : Type;  (* *leakybucket.LeakyBucket *)
  w_newBucket : Z -> Z -> Bucket;
  w_bucketAdd : nat -> Bucket -> Z -> Bucket * Z;
  w_loadState : bytes -> outcome VirtualChannelState;  (* tlb.LoadFromCell *)
  w_fromBOC : bytes -> outcome bytes;
  w_verify : VirtualChannelState -> bytes -> bool;
  w_fromTON : string -> outcome Z;
  w_channelMeta : nat -> bytes -> outcome VirtualChannelMeta;
  w_addResolve : nat -> bytes -> VirtualChannelState -> option error;
  w_closeVirtual : nat -> bytes -> option error;
}.

(** ** What the gateway does to the world *)
Inductive event : Type :=
| EvSend (c : Conn) (m : message) (res : option error)
| EvConnClose (c : Conn)
| EvReinit (c : Conn)
| EvSetHandler (c : Conn) (peer : nat)
| EvWriteTo (k : Sock) (data ip : bytes) (port : Z) (res : option error)
| EvSockClose (k : Sock)
| EvResolve (key : bytes) (st : VirtualChannelState)
| EvCloseVirtual (key : bytes)
| EvPrintln (what : string).

(** Goroutines the handlers start, run later by [runTask]. *)
Inductive task : Type :=
| TDiscover (peer : nat)
| TKill (peer : nat)
| TCloseChannel (channel : nat)
| TListen (section : nat).

(** ** Structs *)

Record Peer := mkPeer {
  p_id : bytes;
  p_conn : option Conn;
  p_pingSeqno : Z;
  p_pongSeqno : Z;
  p_references : Z;
  p_CreatedAt : Z;
  p_DiscoveredAt : Z;
  p_LastPacketFromAt : Z;
  p_LastPacketToAt : Z;
  p_LastPingSentAt : Z;
  p_discoverInProgress : Z;
  p_closed : bool;
}.

Definition set_p_id (v : bytes) (x : Peer) : Peer :=
  mkPeer v (p_conn x) (p_pingSeqno x) (p_pongSeqno x) (p_references x) (p_CreatedAt x)
    (p_DiscoveredAt x) (p_LastPacketFromAt x) (p_LastPacketToAt x) (p_LastPingSentAt x)
    (p_discoverInProgress x) (p_closed x).
Definition set_p_conn (v : option Conn) (x : Peer) : Peer :=
  mkPeer (p_id x) v (p_pingSeqno x) (p_pongSeqno x) (p_references x) (p_CreatedAt x) (p_DiscoveredAt
    x) (p_LastPacketFromAt x) (p_LastPacketToAt x) (p_LastPingSentAt x) (p_discoverInProgress x)
    (p_closed x).
Definition set_p_pingSeqno (v : Z) (x : Peer) : Peer :=
  mkPeer (p_id x) (p_conn x) v (p_pongSeqno x) (p_references x) (p_CreatedAt x) (p_DiscoveredAt x)
    (p_LastPacketFromAt x) (p_LastPacketToAt x) (p_LastPingSentAt x) (p_discoverInProgress x)
    (p_closed x).
Definition set_p_pongSeqno (v : Z) (x : Peer) : Peer :=
  mkPeer (p_id x) (p_conn x) (p_pingSeqno x) v (p_references x) (p_CreatedAt x) (p_DiscoveredAt x)
    (p_LastPacketFromAt x) (p_LastPacketToAt x) (p_LastPingSentAt x) (p_discoverInProgress x)
    (p_closed x).
Definition set_p_references (v : Z) (x : Peer) : Peer :=
  mkPeer (p_id x) (p_conn x) (p_pingSeqno x) (p_pongSeqno x) v (p_CreatedAt x) (p_DiscoveredAt x)
    (p_LastPacketFromAt x) (p_LastPacketToAt x) (p_LastPingSentAt x) (p_discoverInProgress x)
    (p_closed x).
Definition set_p_CreatedAt (v : Z) (x : Peer) : Peer :=
  mkPeer (p_id x) (p_conn x) (p_pingSeqno x) (p_pongSeqno x) (p_references x) v (p_DiscoveredAt x)
    (p_LastPacketFromAt x) (p_LastPacketToAt x) (p_LastPingSentAt x) (p_discoverInProgress x)
    (p_closed x).
Definition set_p_DiscoveredAt (v : Z) (x : Peer) : Peer :=
  mkPeer (p_id x) (p_conn x) (p_pingSeqno x) (p_pongSeqno x) (p_references x) (p_CreatedAt x) v
    (p_LastPacketFromAt x) (p_LastPacketToAt x) (p_LastPingSentAt x) (p_discoverInProgress x)
    (p_closed x).
Definition set_p_LastPacketFromAt (v : Z) (x : Peer) : Peer :=
  mkPeer (p_id x) (p_conn x) (p_pingSeqno x) (p_pongSeqno x) (p_references x) (p_CreatedAt x)
    (p_DiscoveredAt x) v (p_LastPacketToAt x) (p_LastPingSentAt x) (p_discoverInProgress x)
    (p_closed x).
Definition set_p_LastPacketToAt (v : Z) (x : Peer) : Peer :=
  mkPeer (p_id x) (p_conn x) (p_pingSeqno x) (p_pongSeqno x) (p_references x) (p_CreatedAt x)
    (p_DiscoveredAt x) (p_LastPacketFromAt x) v (p_LastPingSentAt x) (p_discoverInProgress x)
    (p_closed x).
Definition set_p_LastPingSentAt (v : Z) (x : Peer) : Peer :=
  mkPeer (p_id x) (p_conn x) (p_pingSeqno x) (p_pongSeqno x) (p_references x) (p_CreatedAt x)
    (p_DiscoveredAt x) (p_LastPacketFromAt x) (p_LastPacketToAt x) v (p_discoverInProgress x)
    (p_closed x).
Definition set_p_discoverInProgress (v : Z) (x : Peer) : Peer :=
  mkPeer (p_id x) (p_conn x) (p_pingSeqno x) (p_pongSeqno x) (p_references x) (p_CreatedAt x)
    (p_DiscoveredAt x) (p_LastPacketFromAt x) (p_LastPacketToAt x) (p_LastPingSentAt x) v (p_closed
    x).
Definition set_p_closed (v : bool) (x : Peer) : Peer :=
  mkPeer (p_id x) (p_conn x) (p_pingSeqno x) (p_pongSeqno x) (p_references x) (p_CreatedAt x)
    (p_DiscoveredAt x) (p_LastPacketFromAt x) (p_LastPacketToAt x) (p_LastPingSentAt x)
    (p_discoverInProgress x) v.

Record RouteTarget := mkRouteTarget {
  rt_Peer : nat;
  rt_ADNL : bytes;
  rt_SectionKey : bytes;
  rt_PricePerPacket : Z;
}.

Record Out := mkOut {
  o_inboundPeer : nat;
  o_conn : Sock;
  o_closed : bool;
  o_InboundADNL : bytes;
  o_PayloadCipherKey : bytes;
  o_PayloadCipherKeyCRC : Z;
  o_InboundSectionKey : bytes;
  o_Instructions : bytes;
  o_PacketsSentOut : Z;
  o_PacketsSentIn : Z;
  o_PrepaidPacketsIn : Z;
  o_PrepaidPacketsOut : Z;
  o_PricePerPacket : Z;
  o_backSeqno : Z;
}.

Definition set_o_inboundPeer (v : nat) (x : Out) : Out :=
  mkOut v (o_conn x) (o_closed x) (o_InboundADNL x) (o_PayloadCipherKey x) (o_PayloadCipherKeyCRC x)
    (o_InboundSectionKey x) (o_Instructions x) (o_PacketsSentOut x) (o_PacketsSentIn x)
    (o_PrepaidPacketsIn x) (o_PrepaidPacketsOut x) (o_PricePerPacket x) (o_backSeqno x).
Definition set_o_conn (v : Sock) (x : Out) : Out :=
  mkOut (o_inboundPeer x) v (o_closed x) (o_InboundADNL x) (o_PayloadCipherKey x)
    (o_PayloadCipherKeyCRC x) (o_InboundSectionKey x) (o_Instructions x) (o_PacketsSentOut x)
    (o_PacketsSentIn x) (o_PrepaidPacketsIn x) (o_PrepaidPacketsOut x) (o_PricePerPacket x)
    (o_backSeqno x).
Definition set_o_closed (v : bool) (x : Out) : Out :=
  mkOut (o_inboundPeer x) (o_conn x) v (o_InboundADNL x) (o_PayloadCipherKey x)
    (o_PayloadCipherKeyCRC x) (o_InboundSectionKey x) (o_Instructions x) (o_PacketsSentOut x)
    (o_PacketsSentIn x) (o_PrepaidPacketsIn x) (o_PrepaidPacketsOut x) (o_PricePerPacket x)
    (o_backSeqno x).
Definition set_o_InboundADNL (v : bytes) (x : Out) : Out :=
  mkOut (o_inboundPeer x) (o_conn x) (o_closed x) v (o_PayloadCipherKey x) (o_PayloadCipherKeyCRC x)
    (o_InboundSectionKey x) (o_Instructions x) (o_PacketsSentOut x) (o_PacketsSentIn x)
    (o_PrepaidPacketsIn x) (o_PrepaidPacketsOut x) (o_PricePerPacket x) (o_backSeqno x).
Definition set_o_PayloadCipherKey (v : bytes) (x : Out) : Out :=
  mkOut (o_inboundPeer x) (o_conn x) (o_closed x) (o_InboundADNL x) v (o_PayloadCipherKeyCRC x)
    (o_InboundSectionKey x) (o_Instructions x) (o_PacketsSentOut x) (o_PacketsSentIn x)
    (o_PrepaidPacketsIn x) (o_PrepaidPacketsOut x) (o_PricePerPacket x) (o_backSeqno x).
Definition set_o_PayloadCipherKeyCRC (v : Z) (x : Out) : Out :=
  mkOut (o_inboundPeer x) (o_conn x) (o_closed x) (o_InboundADNL x) (o_PayloadCipherKey x) v
    (o_InboundSectionKey x) (o_Instructions x) (o_PacketsSentOut x) (o_PacketsSentIn x)
    (o_PrepaidPacketsIn x) (o_PrepaidPacketsOut x) (o_PricePerPacket x) (o_backSeqno x).
Definition set_o_InboundSectionKey (v : bytes) (x : Out) : Out :=
  mkOut (o_inboundPeer x) (o_conn x) (o_closed x) (o_InboundADNL x) (o_PayloadCipherKey x)
    (o_PayloadCipherKeyCRC x) v (o_Instructions x) (o_PacketsSentOut x) (o_PacketsSentIn x)
    (o_PrepaidPacketsIn x) (o_PrepaidPacketsOut x) (o_PricePerPacket x) (o_backSeqno x).
Definition set_o_Instructions (v : bytes) (x : Out) : Out :=
  mkOut (o_inboundPeer x) (o_conn x) (o_closed x) (o_InboundADNL x) (o_PayloadCipherKey x)
    (o_PayloadCipherKeyCRC x) (o_InboundSectionKey x) v (o_PacketsSentOut x) (o_PacketsSentIn x)
    (o_PrepaidPacketsIn x) (o_PrepaidPacketsOut x) (o_PricePerPacket x) (o_backSeqno x).
Definition set_o_PacketsSentOut (v : Z) (x : Out) : Out :=
  mkOut (o_inboundPeer x) (o_conn x) (o_closed x) (o_InboundADNL x) (o_PayloadCipherKey x)
    (o_PayloadCipherKeyCRC x) (o_InboundSectionKey x) (o_Instructions x) v (o_PacketsSentIn x)
    (o_PrepaidPacketsIn x) (o_PrepaidPacketsOut x) (o_PricePerPacket x) (o_backSeqno x).
Definition set_o_PacketsSentIn (v : Z) (x : Out) : Out :=
  mkOut (o_inboundPeer x) (o_conn x) (o_closed x) (o_InboundADNL x) (o_PayloadCipherKey x)
    (o_PayloadCipherKeyCRC x) (o_InboundSectionKey x) (o_Instructions x) (o_PacketsSentOut x) v
    (o_PrepaidPacketsIn x) (o_PrepaidPacketsOut x) (o_PricePerPacket x) (o_backSeqno x).
Definition set_o_PrepaidPacketsIn (v : Z) (x : Out) : Out :=
  mkOut (o_inboundPeer x) (o_conn x) (o_closed x) (o_InboundADNL x) (o_PayloadCipherKey x)
    (o_PayloadCipherKeyCRC x) (o_InboundSectionKey x) (o_Instructions x) (o_PacketsSentOut x)
    (o_PacketsSentIn x) v (o_PrepaidPacketsOut x) (o_PricePerPacket x) (o_backSeqno x).
Definition set_o_PrepaidPacketsOut (v : Z) (x : Out) : Out :=
  mkOut (o_inboundPeer x) (o_conn x) (o_closed x) (o_InboundADNL x) (o_PayloadCipherKey x)
    (o_PayloadCipherKeyCRC x) (o_InboundSectionKey x) (o_Instructions x) (o_PacketsSentOut x)
    (o_PacketsSentIn x) (o_PrepaidPacketsIn x) v (o_PricePerPacket x) (o_backSeqno x).
Definition set_o_PricePerPacket (v : Z) (x : Out) : Out :=
  mkOut (o_inboundPeer x) (o_conn x) (o_closed x) (o_InboundADNL x) (o_PayloadCipherKey x)
    (o_PayloadCipherKeyCRC x) (o_InboundSectionKey x) (o_Instructions x) (o_PacketsSentOut x)
    (o_PacketsSentIn x) (o_PrepaidPacketsIn x) (o_PrepaidPacketsOut x) v (o_backSeqno x).
Definition set_o_backSeqno (v : Z) (x : Out) : Out :=
  mkOut (o_inboundPeer x) (o_conn x) (o_closed x) (o_InboundADNL x) (o_PayloadCipherKey x)
    (o_PayloadCipherKeyCRC x) (o_InboundSectionKey x) (o_Instructions x) (o_PacketsSentOut x)
    (o_PacketsSentIn x) (o_PrepaidPacketsIn x) (o_PrepaidPacketsOut x) (o_PricePerPacket x) v.

Definition PaymentPurposeRoute : Z := 1.
Definition PaymentPurposeOut : Z := 2.

Record PaymentChannel := mkPaymentChannel {
  pc_Key : bytes;
  pc_Active : bool;
  pc_Deadline : Z;
  pc_Capacity : Z;
  pc_LatestState : option VirtualChannelState;
  pc_Purpose : Z;
}.

Definition set_pc_Key (v : bytes) (x : PaymentChannel) : PaymentChannel :=
  mkPaymentChannel v (pc_Active x) (pc_Deadline x) (pc_Capacity x) (pc_LatestState x) (pc_Purpose
    x).
Definition set_pc_Active (v : bool) (x : PaymentChannel) : PaymentChannel :=
  mkPaymentChannel (pc_Key x) v (pc_Deadline x) (pc_Capacity x) (pc_LatestState x) (pc_Purpose x).
Definition set_pc_Deadline (v : Z) (x : PaymentChannel) : PaymentChannel :=
  mkPaymentChannel (pc_Key x) (pc_Active x) v (pc_Capacity x) (pc_LatestState x) (pc_Purpose x).
Definition set_pc_Capacity (v : Z) (x : PaymentChannel) : PaymentChannel :=
  mkPaymentChannel (pc_Key x) (pc_Active x) (pc_Deadline x) v (pc_LatestState x) (pc_Purpose x).
Definition set_pc_LatestState (v : option VirtualChannelState) (x : PaymentChannel) : PaymentChannel :=
  mkPaymentChannel (pc_Key x) (pc_Active x) (pc_Deadline x) (pc_Capacity x) v (pc_Purpose x).
Definition set_pc_Purpose (v : Z) (x : PaymentChannel) : PaymentChannel :=
  mkPaymentChannel (pc_Key x) (pc_Active x) (pc_Deadline x) (pc_Capacity x) (pc_LatestState x) v.

(** The actions a section caches; a tunnel is a location in the heap of
    tunnels. *)
Inductive CachedAction : Type :=
| RouteCachedAction (Route : Z)
| SendOutCachedAction
| DeliverInitiatorCachedAction (Metadata : metadata) (tun : nat).

Section Structs.
Context {W : World}.

Record RouteState := mkRoute {
  r_ID : Z;
  r_Target : RouteTarget;
  r_PacketsRouted : Z;
  r_PaymentReceived : bool;
  r_PrepaidPackets : Z;
  r_rate : Bucket;
}.

Definition set_r_ID (v : Z) (x : RouteState) : RouteState :=
  mkRoute v (r_Target x) (r_PacketsRouted x) (r_PaymentReceived x) (r_PrepaidPackets x) (r_rate x).
Definition set_r_Target (v : RouteTarget) (x : RouteState) : RouteState :=
  mkRoute (r_ID x) v (r_PacketsRouted x) (r_PaymentReceived x) (r_PrepaidPackets x) (r_rate x).
Definition set_r_PacketsRouted (v : Z) (x : RouteState) : RouteState :=
  mkRoute (r_ID x) (r_Target x) v (r_PaymentReceived x) (r_PrepaidPackets x) (r_rate x).
Definition set_r_PaymentReceived (v : bool) (x : RouteState) : RouteState :=
  mkRoute (r_ID x) (r_Target x) (r_PacketsRouted x) v (r_PrepaidPackets x) (r_rate x).
Definition set_r_PrepaidPackets (v : Z) (x : RouteState) : RouteState :=
  mkRoute (r_ID x) (r_Target x) (r_PacketsRouted x) (r_PaymentReceived x) v (r_rate x).
Definition set_r_rate (v : Bucket) (x : RouteState) : RouteState :=
  mkRoute (r_ID x) (r_Target x) (r_PacketsRouted x) (r_PaymentReceived x) (r_PrepaidPackets x) v.

Record SectionState := mkSection {
  s_lastPacketAt : Z;
  s_key : bytes;
  s_cipherKey : bytes;
  s_cipherKeyCrc : Z;
  s_routes : gmap Z RouteState;
  s_out : option Out;
  s_cachedActions : list CachedAction;
  s_cachedActionsVer : Z;
  s_payments : gmap bytes nat;
  s_seqno : SeqnoWindow;
  s_seqnoCached : SeqnoWindow;
}.

Definition set_s_lastPacketAt (v : Z) (x : SectionState) : SectionState :=
  mkSection v (s_key x) (s_cipherKey x) (s_cipherKeyCrc x) (s_routes x) (s_out x) (s_cachedActions
    x) (s_cachedActionsVer x) (s_payments x) (s_seqno x) (s_seqnoCached x).
Definition set_s_key (v : bytes) (x : SectionState) : SectionState :=
  mkSection (s_lastPacketAt x) v (s_cipherKey x) (s_cipherKeyCrc x) (s_routes x) (s_out x)
    (s_cachedActions x) (s_cachedActionsVer x) (s_payments x) (s_seqno x) (s_seqnoCached x).
Definition set_s_cipherKey (v : bytes) (x : SectionState) : SectionState :=
  mkSection (s_lastPacketAt x) (s_key x) v (s_cipherKeyCrc x) (s_routes x) (s_out x)
    (s_cachedActions x) (s_cachedActionsVer x) (s_payments x) (s_seqno x) (s_seqnoCached x).
Definition set_s_cipherKeyCrc (v : Z) (x : SectionState) : SectionState :=
  mkSection (s_lastPacketAt x) (s_key x) (s_cipherKey x) v (s_routes x) (s_out x) (s_cachedActions
    x) (s_cachedActionsVer x) (s_payments x) (s_seqno x) (s_seqnoCached x).
Definition set_s_routes (v : gmap Z RouteState) (x : SectionState) : SectionState :=
  mkSection (s_lastPacketAt x) (s_key x) (s_cipherKey x) (s_cipherKeyCrc x) v (s_out x)
    (s_cachedActions x) (s_cachedActionsVer x) (s_payments x) (s_seqno x) (s_seqnoCached x).
Definition set_s_out (v : option Out) (x : SectionState) : SectionState :=
  mkSection (s_lastPacketAt x) (s_key x) (s_cipherKey x) (s_cipherKeyCrc x) (s_routes x) v
    (s_cachedActions x) (s_cachedActionsVer x) (s_payments x) (s_seqno x) (s_seqnoCached x).
Definition set_s_cachedActions (v : list CachedAction) (x : SectionState) : SectionState :=
  mkSection (s_lastPacketAt x) (s_key x) (s_cipherKey x) (s_cipherKeyCrc x) (s_routes x) (s_out x) v
    (s_cachedActionsVer x) (s_payments x) (s_seqno x) (s_seqnoCached x).
Definition set_s_cachedActionsVer (v : Z) (x : SectionState) : SectionState :=
  mkSection (s_lastPacketAt x) (s_key x) (s_cipherKey x) (s_cipherKeyCrc x) (s_routes x) (s_out x)
    (s_cachedActions x) v (s_payments x) (s_seqno x) (s_seqnoCached x).
Definition set_s_payments (v : gmap bytes nat) (x : SectionState) : SectionState :=
  mkSection (s_lastPacketAt x) (s_key x) (s_cipherKey x) (s_cipherKeyCrc x) (s_routes x) (s_out x)
    (s_cachedActions x) (s_cachedActionsVer x) v (s_seqno x) (s_seqnoCached x).
Definition set_s_seqno (v : SeqnoWindow) (x : SectionState) : SectionState :=
  mkSection (s_lastPacketAt x) (s_key x) (s_cipherKey x) (s_cipherKeyCrc x) (s_routes x) (s_out x)
    (s_cachedActions x) (s_cachedActionsVer x) (s_payments x) v (s_seqnoCached x).
Definition set_s_seqnoCached (v : SeqnoWindow) (x : SectionState) : SectionState :=
  mkSection (s_lastPacketAt x) (s_key x) (s_cipherKey x) (s_cipherKeyCrc x) (s_routes x) (s_out x)
    (s_cachedActions x) (s_cachedActionsVer x) (s_payments x) (s_seqno x) v.

Record PaymentConfig := mkPaymentConfig {
  Service : bool;  (* the service is configured *)
  MinPricePerPacketRoute : Z;
  MinPricePerPacketInOut : Z;
}.

(** The gauges of [metrics/metrics.go], those with a label as a pair of a
    paid and a free count. *)
Record Gauges := mkGauges {
  ActiveInboundSections : Z;
  ActiveRoutes : Z * Z;
  ActiveOutGateways : Z * Z;
}.

Definition addLabel (paid : bool) (d : Z) (g : Z * Z) : Z * Z :=
  if paid then (g.1 + d, g.2) else (g.1, g.2 + d).

Context {Tun : Type}.

Record Gateway := mkGateway {
  g_key : bytes;
  g_allowRouting : bool;
  g_allowOut : bool;
  g_payments : PaymentConfig;
  g_activePeers : gmap bytes nat;
  g_inboundSections : gmap bytes nat;
  g_tunnels : gmap Z nat;
  g_statsReceived : Z;
  g_statsSent : Z;
  g_statsRouted : Z;
  g_gauges : Gauges;
  g_peers : gmap nat Peer;
  g_sections : gmap nat SectionState;
  g_channels : gmap nat PaymentChannel;
  g_tuns : gmap nat Tun;
  g_tick : nat;
  g_trace : list event;
  g_tasks : list task;
}.

Definition set_g_key (v : bytes) (x : Gateway) : Gateway :=
  mkGateway v (g_allowRouting x) (g_allowOut x) (g_payments x) (g_activePeers x) (g_inboundSections
    x) (g_tunnels x) (g_statsReceived x) (g_statsSent x) (g_statsRouted x) (g_gauges x) (g_peers x)
    (g_sections x) (g_channels x) (g_tuns x) (g_tick x) (g_trace x) (g_tasks x).
Definition set_g_allowRouting (v : bool) (x : Gateway) : Gateway :=
  mkGateway (g_key x) v (g_allowOut x) (g_payments x) (g_activePeers x) (g_inboundSections x)
    (g_tunnels x) (g_statsReceived x) (g_statsSent x) (g_statsRouted x) (g_gauges x) (g_peers x)
    (g_sections x) (g_channels x) (g_tuns x) (g_tick x) (g_trace x) (g_tasks x).
Definition set_g_allowOut (v : bool) (x : Gateway) : Gateway :=
  mkGateway (g_key x) (g_allowRouting x) v (g_payments x) (g_activePeers x) (g_inboundSections x)
    (g_tunnels x) (g_statsReceived x) (g_statsSent x) (g_statsRouted x) (g_gauges x) (g_peers x)
    (g_sections x) (g_channels x) (g_tuns x) (g_tick x) (g_trace x) (g_tasks x).
Definition set_g_payments (v : PaymentConfig) (x : Gateway) : Gateway :=
  mkGateway (g_key x) (g_allowRouting x) (g_allowOut x) v (g_activePeers x) (g_inboundSections x)
    (g_tunnels x) (g_statsReceived x) (g_statsSent x) (g_statsRouted x) (g_gauges x) (g_peers x)
    (g_sections x) (g_channels x) (g_tuns x) (g_tick x) (g_trace x) (g_tasks x).
Definition set_g_activePeers (v : gmap bytes nat) (x : Gateway) : Gateway :=
  mkGateway (g_key x) (g_allowRouting x) (g_allowOut x) (g_payments x) v (g_inboundSections x)
    (g_tunnels x) (g_statsReceived x) (g_statsSent x) (g_statsRouted x) (g_gauges x) (g_peers x)
    (g_sections x) (g_channels x) (g_tuns x) (g_tick x) (g_trace x) (g_tasks x).
Definition set_g_inboundSections (v : gmap bytes nat) (x : Gateway) : Gateway :=
  mkGateway (g_key x) (g_allowRouting x) (g_allowOut x) (g_payments x) (g_activePeers x) v
    (g_tunnels x) (g_statsReceived x) (g_statsSent x) (g_statsRouted x) (g_gauges x) (g_peers x)
    (g_sections x) (g_channels x) (g_tuns x) (g_tick x) (g_trace x) (g_tasks x).
Definition set_g_tunnels (v : gmap Z nat) (x : Gateway) : Gateway :=
  mkGateway (g_key x) (g_allowRouting x) (g_allowOut x) (g_payments x) (g_activePeers x)
    (g_inboundSections x) v (g_statsReceived x) (g_statsSent x) (g_statsRouted x) (g_gauges x)
    (g_peers x) (g_sections x) (g_channels x) (g_tuns x) (g_tick x) (g_trace x) (g_tasks x).
Definition set_g_statsReceived (v : Z) (x : Gateway) : Gateway :=
  mkGateway (g_key x) (g_allowRouting x) (g_allowOut x) (g_payments x) (g_activePeers x)
    (g_inboundSections x) (g_tunnels x) v (g_statsSent x) (g_statsRouted x) (g_gauges x) (g_peers x)
    (g_sections x) (g_channels x) (g_tuns x) (g_tick x) (g_trace x) (g_tasks x).
Definition set_g_statsSent (v : Z) (x : Gateway) : Gateway :=
  mkGateway (g_key x) (g_allowRouting x) (g_allowOut x) (g_payments x) (g_activePeers x)
    (g_inboundSections x) (g_tunnels x) (g_statsReceived x) v (g_statsRouted x) (g_gauges x)
    (g_peers x) (g_sections x) (g_channels x) (g_tuns x) (g_tick x) (g_trace x) (g_tasks x).
Definition set_g_statsRouted (v : Z) (x : Gateway) : Gateway :=
  mkGateway (g_key x) (g_allowRouting x) (g_allowOut x) (g_payments x) (g_activePeers x)
    (g_inboundSections x) (g_tunnels x) (g_statsReceived x) (g_statsSent x) v (g_gauges x) (g_peers
    x) (g_sections x) (g_channels x) (g_tuns x) (g_tick x) (g_trace x) (g_tasks x).
Definition set_g_gauges (v : Gauges) (x : Gateway) : Gateway :=
  mkGateway (g_key x) (g_allowRouting x) (g_allowOut x) (g_payments x) (g_activePeers x)
    (g_inboundSections x) (g_tunnels x) (g_statsReceived x) (g_statsSent x) (g_statsRouted x) v
    (g_peers x) (g_sections x) (g_channels x) (g_tuns x) (g_tick x) (g_trace x) (g_tasks x).
Definition set_g_peers (v : gmap nat Peer) (x : Gateway) : Gateway :=
  mkGateway (g_key x) (g_allowRouting x) (g_allowOut x) (g_payments x) (g_activePeers x)
    (g_inboundSections x) (g_tunnels x) (g_statsReceived x) (g_statsSent x) (g_statsRouted x)
    (g_gauges x) v (g_sections x) (g_channels x) (g_tuns x) (g_tick x) (g_trace x) (g_tasks x).
Definition set_g_sections (v : gmap nat SectionState) (x : Gateway) : Gateway :=
  mkGateway (g_key x) (g_allowRouting x) (g_allowOut x) (g_payments x) (g_activePeers x)
    (g_inboundSections x) (g_tunnels x) (g_statsReceived x) (g_statsSent x) (g_statsRouted x)
    (g_gauges x) (g_peers x) v (g_channels x) (g_tuns x) (g_tick x) (g_trace x) (g_tasks x).
Definition set_g_channels (v : gmap nat PaymentChannel) (x : Gateway) : Gateway :=
  mkGateway (g_key x) (g_allowRouting x) (g_allowOut x) (g_payments x) (g_activePeers x)
    (g_inboundSections x) (g_tunnels x) (g_statsReceived x) (g_statsSent x) (g_statsRouted x)
    (g_gauges x) (g_peers x) (g_sections x) v (g_tuns x) (g_tick x) (g_trace x) (g_tasks x).
Definition set_g_tuns (v : gmap nat Tun) (x : Gateway) : Gateway :=
  mkGateway (g_key x) (g_allowRouting x) (g_allowOut x) (g_payments x) (g_activePeers x)
    (g_inboundSections x) (g_tunnels x) (g_statsReceived x) (g_statsSent x) (g_statsRouted x)
    (g_gauges x) (g_peers x) (g_sections x) (g_channels x) v (g_tick x) (g_trace x) (g_tasks x).
Definition set_g_tick (v : nat) (x : Gateway) : Gateway :=
  mkGateway (g_key x) (g_allowRouting x) (g_allowOut x) (g_payments x) (g_activePeers x)
    (g_inboundSections x) (g_tunnels x) (g_statsReceived x) (g_statsSent x) (g_statsRouted x)
    (g_gauges x) (g_peers x) (g_sections x) (g_channels x) (g_tuns x) v (g_trace x) (g_tasks x).
Definition set_g_trace (v : list event) (x : Gateway) : Gateway :=
  mkGateway (g_key x) (g_allowRouting x) (g_allowOut x) (g_payments x) (g_activePeers x)
    (g_inboundSections x) (g_tunnels x) (g_statsReceived x) (g_statsSent x) (g_statsRouted x)
    (g_gauges x) (g_peers x) (g_sections x) (g_channels x) (g_tuns x) (g_tick x) v (g_tasks x).
Definition set_g_tasks (v : list task) (x : Gateway) : Gateway :=
  mkGateway (g_key x) (g_allowRouting x) (g_allowOut x) (g_payments x) (g_activePeers x)
    (g_inboundSections x) (g_tunnels x) (g_statsReceived x) (g_statsSent x) (g_statsRouted x)
    (g_gauges x) (g_peers x) (g_sections x) (g_channels x) (g_tuns x) (g_tick x) (g_trace x) v.

(** ** Primitive steps *)

Abbreviation GM := (M Gateway).

(** A call to the world: the answer may depend on how many there were. *)
Definition ask {A} (f : nat -> A) : GM A := fun g => (set_g_tick (S (g_tick g)) g, Ok (f (g_tick g))).

Definition emit (e : event) : GM unit := modify (fun g => set_g_trace (g_trace g ++ [e]) g).
Definition spawn (t : task) : GM unit := modify (fun g => set_g_tasks (g_tasks g ++ [t]) g).

(** [time.Now().Unix()]. *)
Definition nowUnix : GM Z := t ← ask w_now; mret (t / 10 ^ 9).

(** Reading through a pointer, and updating what it points to. *)
Definition nilDeref {A} : GM A := panic "nil pointer dereference".
Definition deref {A} (heap : Gateway -> gmap nat A) (l : nat) : GM A := fun g =>
  match heap g !! l with Some x => (g, Ok x) | None => (g, Panic "nil pointer dereference") end.

Definition updPeer (l : nat) (f : Peer -> Peer) : GM unit :=
  modify (fun g => set_g_peers (alter f l (g_peers g)) g).
Definition updSection (l : nat) (f : SectionState -> SectionState) : GM unit :=
  modify (fun g => set_g_sections (alter f l (g_sections g)) g).
Definition updChannel (l : nat) (f : PaymentChannel -> PaymentChannel) : GM unit :=
  modify (fun g => set_g_channels (alter f l (g_channels g)) g).
Definition updRoute (l : nat) (id : Z) (f : RouteState -> RouteState) : GM unit :=
  updSection l (fun s => set_s_routes (alter f id (s_routes s)) s).
Definition updOut (l : nat) (f : Out -> Out) : GM unit :=
  updSection l (fun s => set_s_out (f <$> s_out s) s).
Definition updGauges (f : Gauges -> Gauges) : GM unit :=
  modify (fun g => set_g_gauges (f (g_gauges g)) g).

(** [&Peer{...}], [&Section{...}], [&PaymentChannel{...}]: a fresh location. *)
Definition freshLoc {A} (h : gmap nat A) : nat := map_fold (fun l _ m => Nat.max (S l) m) 0%nat h.
Definition allocPeer (p : Peer) : GM nat := fun g =>
  let l := freshLoc (g_peers g) in (set_g_peers (<[l := p]> (g_peers g)) g, Ok l).
Definition allocSection (s : SectionState) : GM nat := fun g =>
  let l := freshLoc (g_sections g) in (set_g_sections (<[l := s]> (g_sections g)) g, Ok l).
Definition allocChannel (c : PaymentChannel) : GM nat := fun g =>
  let l := freshLoc (g_channels g) in (set_g_channels (<[l := c]> (g_channels g)) g, Ok l).

End Structs.

Arguments Gateway {W} Tun.
Abbreviation GM Tun := (M (Gateway Tun)).
