(* ===== verification/Peers.v ===== *)
(** * Peers ([tunnel/peer.go])

    A peer is created on first use of its id and shared by every route, out
    gateway and tunnel that names it; they count references, and the last one
    to go closes the connection and removes the peer. *)

From stdpp Require Import pretty.
From S2P Require Import Prelude Seqno Stream Wire State.

Definition ErrNotConnected : error := Errorf "peer is not connected".

Section Peers.
Context {W : World} {Tun : Type}.

Definition getConn (p : Peer) : option Conn := p_conn p.

Definition newPeer (id : bytes) (createdAt : Z) : Peer :=
  mkPeer id None 0 0 0 createdAt 0 0 0 0 0 false.

Definition addPeer (id : bytes) (conn : option Conn) : GM Tun nat :=
  g ← get;
  peer ← match g_activePeers g !! id with
         | Some peer => mret peer
         | None =>
             createdAt ← nowUnix;
             peer ← allocPeer (newPeer id createdAt);
             modify (fun g => set_g_activePeers (<[id := peer]> (g_activePeers g)) g) ;;
             mret peer
         end;
  match conn with
  | Some conn =>
      emit (EvSetHandler conn peer) ;;
      updPeer peer (set_p_conn (Some conn)) ;;
      now ← nowUnix;
      updPeer peer (set_p_DiscoveredAt now)
  | None => spawn (TDiscover peer)
  end ;;
  mret peer.

Definition discover (peer : nat) : GM Tun unit :=
  p ← deref g_peers peer;
  match getConn p with
  | Some _ => mret tt
  | None =>
      if p_discoverInProgress p =? 0 then
        updPeer peer (set_p_discoverInProgress 1) ;;
        deferred (updPeer peer (set_p_discoverInProgress 0)) (
          found ← ask (fun t => w_findAddresses t (p_id p));
          '(addresses, key) ← wrapM "find peer addresses failed" (lift found);
          match addresses with
          | [] => throw (Errorf "find peer addresses failed: empty address list")
          | (ip, port) :: _ =>
              let addr := (ip +:+ ":" +:+ pretty (uint16 port))%string in
              registered ← ask (fun t => w_registerClient t addr key);
              conn ← wrapM "register peer failed" (lift registered);
              emit (EvReinit conn) ;;
              emit (EvSetHandler conn peer) ;;
              updPeer peer (set_p_conn (Some conn)) ;;
              now ← nowUnix;
              updPeer peer (set_p_DiscoveredAt now)
          end)
      else mret tt
  end.

Definition closeConn (peer : nat) (cmp : option Conn) : GM Tun unit :=
  p ← deref g_peers peer;
  match getConn p with
  | Some conn =>
      if bool_decide (cmp = None \/ cmp = Some conn) then
        emit (EvConnClose conn) ;; updPeer peer (set_p_conn None)
      else mret tt
  | None => mret tt
  end.

Definition AddReference (peer : nat) : GM Tun unit :=
  updPeer peer (fun p => set_p_references (int64 (p_references p + 1)) p).

Definition removePeer (peer : nat) : GM Tun unit :=
  p ← deref g_peers peer;
  modify (fun g => set_g_activePeers (delete (p_id p) (g_activePeers g)) g) ;;
  updPeer peer (set_p_closed true).

Definition kill (peer : nat) : GM Tun unit :=
  closeConn peer None ;; removePeer peer.

Definition Dereference (peer : nat) : GM Tun unit :=
  p ← deref g_peers peer;
  let references := int64 (p_references p - 1) in
  updPeer peer (set_p_references references) ;;
  if references <=? 0 then closeConn peer None ;; removePeer peer
  else mret tt.

Definition SendCustomMessage (peer : nat) (req : message) : GM Tun unit :=
  p ← deref g_peers peer;
  match getConn p with
  | None => throw ErrNotConnected
  | Some conn =>
      now ← nowUnix;
      updPeer peer (set_p_LastPacketToAt now) ;;
      res ← ask (fun t => w_connSend t conn req);
      emit (EvSend conn req res) ;;
      match res with None => mret tt | Some err => throw err end
  end.
End Peers.
