(* ===== verification/Node.v ===== *)
(** * The instructions of a node ([tunnel/instructions.go])

    One definition per [Execute] method and per helper they call.  An
    instruction runs on a section of the gateway, with the message it came in:
    the payload is a buffer that [Out.Send] and [Tunnel.Process] decrypt in
    place, so every [Execute] returns the payload as it leaves it. *)

From S2P Require Import Prelude Seqno Stream Wire Samples Keys State Peers.

(** ** The interface [Tunnel]: what [DeliverInitiator] hands a payload to. *)
Class Tunnel {W : World} (Tun : Type) : Type :=
  Process : nat -> bytes -> metadata -> GM Tun bytes.

(** What the gateway relies on: a tunnel reaches the gateway through its peer
    only, to send messages: it takes and releases no references. *)
Definition reachesPeersOnly {W : World} {Tun A : Type} (m : GM Tun A) : Prop :=
  forall g, let g' := (m g).1 in
    (g_sections g', g_payments g', g_inboundSections g', g_channels g', g_tunnels g',
     (g_key g', g_allowRouting g', g_allowOut g'))
    = (g_sections g, g_payments g, g_inboundSections g, g_channels g, g_tunnels g,
       (g_key g, g_allowRouting g, g_allowOut g)) /\
    g_activePeers g' = g_activePeers g /\
    (fun p => (p_id p, p_references p)) <$> g_peers g' = (fun p => (p_id p, p_references p)) <$> g_peers g.
Class TunnelOk {W : World} (Tun : Type) {TP : Tunnel Tun} : Prop :=
  Process_peers : forall t payload_ meta, reachesPeersOnly (Process t payload_ meta).

Definition FreePacketsMaxPS : Z := 10.
Definition FreePacketsMaxPSBurst : Z := FreePacketsMaxPS * 2.
Definition MaxActiveRoutesPerSection : Z := 3.
Definition MinChannelTimeoutSec : Z := 300.
Definition LossAcceptablePercent : Z := 0.
Definition LossAcceptableStartup : Z := 20000.

(** [(packets/100)*LossAcceptablePercent + LossAcceptableStartup], the number
    of packets a node carries on credit. *)
Definition maxCredit (packets : Z) : Z :=
  uint64 (uint64 (packets / 100 * LossAcceptablePercent) + LossAcceptableStartup).

(** [x.BitLen()] of a [big.Int]. *)
Definition BitLen (x : Z) : Z := if x =? 0 then 0 else Z.log2 (Z.abs x) + 1.

(** The counter after [addPrepaid], which is also what it returns. *)
Definition addPrepaid (at_ num : Z) : Z :=
  if 64 <=? BitLen (num + at_) then MaxInt64 else int64 (at_ + int64 num).

Section Node.
Context {C : CipherCtr} {T : TL} {K : KeyAgreement} {W : World} {Tun : Type} {TP : Tunnel Tun}.

Abbreviation G := (GM Tun).

Definition routingAllowed : G unit :=
  g ← get; guard_err (negb (g_allowRouting g)) "instruction is not executable since routing is not allowed".
Definition outAllowed : G unit :=
  g ← get; guard_err (negb (g_allowOut g)) "instruction is not executable since out is not allowed".

(** ** Closing *)

Definition closePaymentChannel (ch : nat) : G unit :=
  c ← deref g_channels ch;
  if negb (pc_Active c) then mret tt else
  updChannel ch (set_pc_Active false) ;;
  match pc_LatestState c with
  | None => mret tt
  | Some _ =>
      g ← get;
      if negb (Service (g_payments g)) then nilDeref else
      res ← ask (fun t => w_closeVirtual t (pc_Key c));
      emit (EvCloseVirtual (pc_Key c))
  end.

Definition updActiveRoutes (paid : bool) (d : Z) : G unit :=
  updGauges (fun m => mkGauges (ActiveInboundSections m) (addLabel paid d (ActiveRoutes m)) (ActiveOutGateways m)).
Definition updActiveOut (paid : bool) (d : Z) : G unit :=
  updGauges (fun m => mkGauges (ActiveInboundSections m) (ActiveRoutes m) (addLabel paid d (ActiveOutGateways m))).
Definition updActiveSections (d : Z) : G unit :=
  updGauges (fun m => mkGauges (ActiveInboundSections m + d) (ActiveRoutes m) (ActiveOutGateways m)).

Definition Route_Close (r : RouteState) : G unit :=
  let target := r_Target r in
  Dereference (rt_Peer target) ;;
  updActiveRoutes (0 <? rt_PricePerPacket target) (-1).

Definition Out_Close (s : nat) (o : Out) : G unit :=
  updOut s (set_o_closed true) ;;
  emit (EvSockClose (o_conn o)) ;;
  Dereference (o_inboundPeer o) ;;
  updActiveOut (0 <? o_PricePerPacket o) (-1).

Definition closeIfNotLocked (s : nat) : G bool :=
  locked ← ask w_tryLock;
  if negb locked then mret false else
  sec ← deref g_sections s;
  for_each (map_to_list (s_payments sec)).*2 closePaymentChannel ;;
  for_each (map_to_list (s_routes sec)).*2 Route_Close ;;
  match s_out sec with
  | Some out => Out_Close s out
  | None => mret tt
  end ;;
  updActiveSections (-1) ;;
  mret true.

Definition dropSection (s : nat) : G unit :=
  sec ← deref g_sections s;
  modify (fun g => set_g_inboundSections (delete (s_key sec) (g_inboundSections g)) g).

Definition Destroy_Execute (s : nat) : G unit :=
  done ← closeIfNotLocked s;
  if (done : bool) then dropSection s else mret tt.

(** ** Cache *)

Fixpoint cacheActions (s : nat) (Instructions : list instruction) : G (list CachedAction) :=
  match Instructions with
  | [] => mret []
  | i :: rest =>
      a ← match i with
          | DeliverInitiator From Metadata =>
              g ← get;
              match g_tunnels g !! From with
              | None => throw (Errorf "no tunnel registered")
              | Some t => mret (DeliverInitiatorCachedAction Metadata t)
              end
          | SendOut => mret SendOutCachedAction
          | Route RouteID =>
              sec ← deref g_sections s;
              match s_routes sec !! RouteID with
              | None => throw (Errorf "route not exists")
              | Some _ => mret (RouteCachedAction RouteID)
              end
          | _ => throw (Errorf "unsupported instruction passed in list")
          end;
      list ← cacheActions s rest;
      mret (a :: list)
  end.

Definition Cache_Execute (s : nat) (Version : Z) (Instructions : list instruction) : G unit :=
  sec ← deref g_sections s;
  if Version <=? s_cachedActionsVer sec then mret tt else
  list ← cacheActions s Instructions;
  updSection s (fun sec =>
    if s_cachedActionsVer sec <? Version
    then set_s_seqnoCached zeroSeqno (set_s_cachedActionsVer Version (set_s_cachedActions list sec))
    else sec).

(** ** Routes *)

Definition sameTarget (a b : RouteTarget) : bool :=
  bool_decide (rt_ADNL a = rt_ADNL b /\ rt_SectionKey a = rt_SectionKey b /\
    rt_PricePerPacket a = rt_PricePerPacket b).

(** The gauges when a target changes between paid and free. *)
Definition movePaid (was is_ : bool) : G unit :=
  if eqb was is_ then mret tt else updActiveRoutes was (-1) ;; updActiveRoutes is_ 1.

(** [route == nil]: a new route, if there is room for it. *)
Definition addRoute (s : nat) (sec : SectionState) (id : Z) (target : RouteTarget) : G unit :=
  guard_err (MaxActiveRoutesPerSection <=? Z.of_nat (size (s_routes sec))) "too many active routes" ;;
  let route := mkRoute id target 0 false 0 (w_newBucket FreePacketsMaxPS FreePacketsMaxPSBurst) in
  AddReference (rt_Peer target) ;;
  updSection s (fun sec => set_s_routes (<[id := route]> (s_routes sec)) sec) ;;
  updActiveRoutes (0 <? rt_PricePerPacket target) 1.

(** A known route: nothing to do when the target is the same. *)
Definition retarget (s : nat) (id : Z) (existingTarget target : RouteTarget) : G unit :=
  let adnlChanged := negb (bool_decide (rt_ADNL existingTarget = rt_ADNL target)) in
  if negb adnlChanged && sameTarget existingTarget target then mret tt else
  (if adnlChanged then AddReference (rt_Peer target) ;; Dereference (rt_Peer existingTarget) else mret tt) ;;
  movePaid (0 <? rt_PricePerPacket existingTarget) (0 <? rt_PricePerPacket target) ;;
  updRoute s id (set_r_Target target).

Definition BuildRoute_Execute (s : nat) (ins : BuildRouteInstruction) : G unit :=
  routingAllowed ;;
  g ← get;
  guard_err (br_PricePerPacket ins <? MinPricePerPacketRoute (g_payments g)) "too low price per packet route" ;;
  peer ← addPeer (br_TargetADNL ins) None;
  let target := mkRouteTarget peer (br_TargetADNL ins) (br_TargetSectionPubKey ins) (br_PricePerPacket ins) in
  sec ← deref g_sections s;
  match s_routes sec !! br_RouteID ins with
  | None => addRoute s sec (br_RouteID ins) target
  | Some route => retarget s (br_RouteID ins) (r_Target route) target
  end.

(** Whether a packet is covered by a payment; a packet that is not spends from
    the free rate of the route. *)
Definition payForPacket (s : nat) (id : Z) (r : RouteState) : G bool :=
  if 0 <? rt_PricePerPacket (r_Target r) then
    paid ←
      (if r_PaymentReceived r then
         let maxLoss := - int64 (maxCredit (r_PacketsRouted r)) in
         if maxLoss <? r_PrepaidPackets r then
           let prepaid := int64 (r_PrepaidPackets r - 1) in
           updRoute s id (set_r_PrepaidPackets prepaid) ;;
           mret (maxLoss <=? prepaid)
         else mret false
       else mret false);
    if (paid : bool) then mret true else
    '(rate, added) ← ask (fun t => w_bucketAdd t (r_rate r) 1);
    updRoute s id (set_r_rate rate) ;;
    guard_err (added <=? 0) "free packets exceeds rate limit for route" ;;
    mret false
  else mret false.

Definition routedMessage (target : RouteTarget) (payload : bytes) (cached : bool)
    (instructions : bytes) (seqno : Z) : message :=
  if cached then MsgCached (mkEncryptedMessageCached (rt_SectionKey target) seqno payload)
  else MsgEncrypted (mkEncryptedMessage (rt_SectionKey target) instructions payload).

(** The send, with the refund of a paid packet that could not be sent. *)
Definition forward (s : nat) (id : Z) (target : RouteTarget) (msg : message) (paid : bool) : G unit :=
  err ← attempt (SendCustomMessage (rt_Peer target) msg);
  match err with
  | Some e =>
      (if paid then updRoute s id (fun r => set_r_PrepaidPackets (int64 (r_PrepaidPackets r + 1)) r)
       else mret tt) ;;
      throw (Errorw "route message failed" e)
  | None =>
      updRoute s id (fun r => set_r_PacketsRouted (uint64 (r_PacketsRouted r + 1)) r) ;;
      modify (fun g => set_g_statsRouted (uint64 (g_statsRouted g + 1)) g)
  end.

Definition Route_Route (s : nat) (id : Z) (payload : bytes) (cached : bool)
    (instructions : bytes) (seqno : Z) : G unit :=
  sec ← deref g_sections s;
  match s_routes sec !! id with
  | None => nilDeref
  | Some r =>
      paid ← payForPacket s id r;
      forward s id (r_Target r) (routedMessage (r_Target r) payload cached instructions seqno) paid
  end.

Definition RouteCachedAction_Execute (s : nat) (route : Z) (msg : EncryptedMessageCached) : G unit :=
  routingAllowed ;;
  Route_Route s route (emc_Payload msg) true [] (emc_Seqno msg).

Definition Route_Execute (s : nat) (RouteID : Z) (msg : EncryptedMessage) (restInstructions : bytes) : G unit :=
  routingAllowed ;;
  sec ← deref g_sections s;
  match s_routes sec !! RouteID with
  | None => throw (Errorf "route not exists")
  | Some _ => Route_Route s RouteID (em_Payload msg) false restInstructions 0
  end.
End Node.
