(* ===== verification/Payments.v ===== *)
(** * Payments ([PaymentInstruction.Execute], [tunnel/instructions.go])

    The method is cut where it holds no lock, which is where another packet of
    the same section can run: the lookup of the channel, the query to the
    payment service, the installation of the channel and the payment itself.
    [Payment_Execute] composes them as the method does. *)

From S2P Require Import Prelude Seqno Stream Wire Samples Keys State Peers Node.

Section Payments.
Context {C : CipherCtr} {T : TL} {K : KeyAgreement} {W : World} {Tun : Type} {TP : Tunnel Tun}.

Abbreviation G := (GM Tun).

(** The checks before the first lock: the state the instruction carries. *)
Definition loadPaymentState (ins : PaymentInstruction) : G VirtualChannelState :=
  routingAllowed ;;
  g ← get;
  guard_err (negb (Service (g_payments g))) "payments are not enabled" ;;
  st ← wrapM "incorrect state cell" (lift (w_loadState (pi_PaymentChannelState ins)));
  guard_err (Amount st <=? 0) "amount should be positive" ;;
  guard_err (negb (w_verify st (pi_Key ins))) "invalid payment state" ;;
  mret st.

(** [v := s.payments[string(ins.Key)]]. *)
Definition findChannel (s : nat) (ins : PaymentInstruction) : G (option nat) :=
  sec ← deref g_sections s;
  mret (s_payments sec !! pi_Key ins).

(** The last state the payment service knows of. *)
Definition lastKnown (vc : VirtualChannelMeta) : G (option VirtualChannelState) :=
  match LastKnownResolve vc with
  | [] => mret None
  | boc =>
      cl ← wrapM "incorrect latest state cell" (lift (w_fromBOC boc));
      last ← wrapM "incorrect latest state cell" (lift (w_loadState cl));
      mret (Some last)
  end.

(** The channel as the payment service describes it, and
    [justLoadedAndCountable]. *)
Definition fetchChannel (ins : PaymentInstruction) : G (PaymentChannel * bool) :=
  res ← ask (fun t => w_channelMeta t (pi_Key ins));
  vc ← wrapM "get virtual channel failed" (lift res);
  last ← lastKnown vc;
  match Incoming vc with
  | None => throw (Errorf "payment channel direction is incorrect")
  | Some incoming =>
      match Outgoing vc with
      | Some _ => throw (Errorf "payment channel should not have outgoing direction")
      | None =>
          capacity ← wrapM "incorrect capacity" (lift (w_fromTON (vs_Capacity incoming)));
          now ← ask w_now;
          let justLoadedAndCountable := MinChannelTimeoutSec * 10 ^ 9 <=? SafeDeadline incoming - now in
          mret (mkPaymentChannel (pi_Key ins) (StatusActive vc && justLoadedAndCountable)
                  (SafeDeadline incoming / 10 ^ 9) capacity last (pi_Purpose ins),
                justLoadedAndCountable)
      end
  end.

(** Under the lock of the section: another packet may have installed it. *)
Definition installChannel (s : nat) (ins : PaymentInstruction) (v : PaymentChannel) : G nat :=
  sec ← deref g_sections s;
  match s_payments sec !! pi_Key ins with
  | Some ov => mret ov
  | None =>
      ch ← allocChannel v;
      updSection s (fun sec => set_s_payments (<[pi_Key ins := ch]> (s_payments sec)) sec) ;;
      mret ch
  end.

(** What an accepted payment does: [amt.Div] panics on a price of zero. *)
Definition creditOut (s : nat) (amt : Z) : G unit :=
  sec ← deref g_sections s;
  match s_out sec with
  | None => nilDeref
  | Some out =>
      if o_PricePerPacket out =? 0 then panic "division by zero" else
      let num := amt / o_PricePerPacket out in
      updOut s (fun o => set_o_PrepaidPacketsIn (addPrepaid (o_PrepaidPacketsIn o) num)
                          (set_o_PrepaidPacketsOut (addPrepaid (o_PrepaidPacketsOut o) num) o))
  end.

Definition creditRoute (s : nat) (routeId num : Z) : G unit :=
  updRoute s routeId (fun r => set_r_PrepaidPackets (addPrepaid (r_PrepaidPackets r) num)
                                 (set_r_PaymentReceived true r)).

(** The switch on the purpose: the checks, and the mutation to run once the
    payment service has taken the state. *)
Definition paymentMutation (s : nat) (v : PaymentChannel) (amt : Z) : G (G unit) :=
  let purpose := Z.shiftr (pc_Purpose v) 32 in
  sec ← deref g_sections s;
  if purpose =? PaymentPurposeOut then
    match s_out sec with
    | None => throw (Errorf "out is not initialized")
    | Some out =>
        guard_err (bool_decide (pc_LatestState v = None) && (pc_Capacity v <? o_PricePerPacket out * 10000))
          "payment channel capacity is too low" ;;
        mret (creditOut s amt)
    end
  else if purpose =? PaymentPurposeRoute then
    let routeId := uint32 (Z.land (pc_Purpose v) MaxUint32) in
    match s_routes sec !! routeId with
    | None => throw (Errorf "route not exists")
    | Some route =>
        let target := r_Target route in
        guard_err (rt_PricePerPacket target =? 0) "payment is not required for route" ;;
        guard_err (bool_decide (pc_LatestState v = None) && (pc_Capacity v <? rt_PricePerPacket target * 1000))
          "payment channel capacity is too low" ;;
        mret (creditRoute s routeId (amt / rt_PricePerPacket target))
    end
  else throw (Errorf "unknown payment purpose").

(** Under the lock of the channel. *)
Definition applyPayment (s : nat) (ins : PaymentInstruction) (st : VirtualChannelState) (ch : nat)
    (justLoadedAndCountable : bool) : G unit :=
  v ← deref g_channels ch;
  guard_err (negb (pc_Purpose v =? pi_Purpose ins)) "purpose change is not allowed" ;;
  let lastAmt :=
    match pc_LatestState v with
    | Some last => if negb justLoadedAndCountable then Amount last else 0
    | None => 0
    end in
  let amt := Amount st - lastAmt in
  if amt <=? 0 then mret tt else (* already processed payment *)
  guard_err (negb (pc_Active v) && negb justLoadedAndCountable) "payment channel is inactive" ;;
  now ← nowUnix;
  guard_err (int64 (pc_Deadline v - now) <? MinChannelTimeoutSec) "payment channel deadline is too short" ;;
  mutation ← paymentMutation s v amt;
  res ← ask (fun t => w_addResolve t (pi_Key ins) st);
  match res with
  | Some e => throw (Errorw "add virtual channel resolve failed" e)
  | None =>
      emit (EvResolve (pi_Key ins) st) ;;
      mutation ;;
      updChannel ch (set_pc_LatestState (Some st)) ;;
      if pi_Final ins then spawn (TCloseChannel ch) else mret tt
  end.

Definition Payment_Execute (s : nat) (ins : PaymentInstruction) : G unit :=
  st ← loadPaymentState ins;
  found ← findChannel s ins;
  '(ch, justLoadedAndCountable) ←
    match found with
    | Some ch => mret (ch, false)
    | None =>
        '(v, justLoadedAndCountable) ← fetchChannel ins;
        ch ← installChannel s ins v;
        mret (ch, justLoadedAndCountable)
    end;
  applyPayment s ins st ch justLoadedAndCountable.
End Payments.
