(* ===== verification/OutGate.v ===== *)
(** * The out gateway ([BindOutInstruction], [Out], [tunnel/instructions.go])

    A section may own one UDP socket: [SendOut] writes to it what the initiator
    encrypted for this node, [Listen] sends back what arrives on it. *)

From S2P Require Import Prelude Seqno Stream Wire Samples Keys State Peers Node.

Section OutGate.
Context {C : CipherCtr} {T : TL} {K : KeyAgreement} {W : World} {Tun : Type} {TP : Tunnel Tun}.

Abbreviation G := (GM Tun).

(** [s.out], or the nil dereference of its first use. *)
Definition getOut (s : nat) : G Out :=
  sec ← deref g_sections s;
  match s_out sec with Some o => mret o | None => nilDeref end.

(** ** Towards the initiator *)

Definition sendBack (s : nat) (obj : payload) (isPayload : bool) : G unit :=
  pl ← wrapM "serialize payload failed" (lift (w_serializePayload obj));
  o ← getOut s;
  rnd ← ask w_rand;
  pl ← wrapM "encrypt payload failed"
         (lift (encryptStream rnd (o_PayloadCipherKeyCRC o) (o_PayloadCipherKey o) pl));
  msg ← (if isPayload then
           let seqno := uint32 (o_backSeqno o + 1) in
           updOut s (set_o_backSeqno seqno) ;;
           mret (MsgCached (mkEncryptedMessageCached (o_InboundSectionKey o) seqno pl))
         else mret (MsgEncrypted (mkEncryptedMessage (o_InboundSectionKey o) (o_Instructions o) pl)));
  wrapM "send message to inbound tunnel failed" (SendCustomMessage (o_inboundPeer o) msg).

(** [atomic.AddUint64(&o.PacketsSentIn, 1)]. *)
Definition nextSentIn (s : nat) : G Z :=
  o ← getOut s;
  let n := uint64 (o_PacketsSentIn o + 1) in
  updOut s (set_o_PacketsSentIn n) ;;
  mret n.

(** ** Binding *)

Definition newOut (peer : nat) (conn : Sock) (key : bytes) (ins : BindOutInstruction) (price : Z) : Out :=
  mkOut peer conn false (bo_InboundNodeADNL ins) key (Checksum key) (bo_InboundSectionPubKey ins)
    (bo_InboundInstructions ins) 0 0 0 0 price 0.

Definition outChanged (o : Out) (key : bytes) (ins : BindOutInstruction) (price : Z) : bool :=
  negb (bool_decide (o_InboundADNL o = bo_InboundNodeADNL ins)) ||
  negb (bool_decide (o_PayloadCipherKey o = key)) ||
  negb (o_PayloadCipherKeyCRC o =? Checksum key) ||
  negb (bool_decide (o_InboundSectionKey o = bo_InboundSectionPubKey ins)) ||
  negb (bool_decide (o_Instructions o = bo_InboundInstructions ins)) ||
  negb (o_PricePerPacket o =? price).

Definition reconfigureOut (s : nat) (o : Out) (key : bytes) (ins : BindOutInstruction) (price : Z) : G unit :=
  (if negb (bool_decide (o_InboundADNL o = bo_InboundNodeADNL ins)) then
     Dereference (o_inboundPeer o) ;;
     peer ← addPeer (bo_InboundNodeADNL ins) None;
     updOut s (set_o_inboundPeer peer) ;;
     AddReference peer
   else mret tt) ;;
  updOut s (fun o =>
    set_o_PricePerPacket price (set_o_Instructions (bo_InboundInstructions ins)
      (set_o_InboundSectionKey (bo_InboundSectionPubKey ins) (set_o_PayloadCipherKeyCRC (Checksum key)
        (set_o_PayloadCipherKey key (set_o_InboundADNL (bo_InboundNodeADNL ins) o)))))).

(** The first bind of a section: a port, the peer and the listener. *)
Definition openOut (s : nat) (key : bytes) (ins : BindOutInstruction) (price : Z) : G unit :=
  res ← ask w_listenPacket;
  conn ← wrapM "allocate addr for out failed" (lift res);
  peer ← addPeer (bo_InboundNodeADNL ins) None;
  updSection s (set_s_out (Some (newOut peer conn key ins price))) ;;
  updActiveOut (0 <? price) 1 ;;
  AddReference peer ;;
  spawn (TListen s).

Definition BindOut_Execute (s : nat) (ins : BindOutInstruction) : G unit :=
  outAllowed ;;
  g ← get;
  gateAddresses ← ask w_addressList;
  match gateAddresses with
  | [] => throw (Errorf "no external addresses in gate")
  | ip :: _ =>
      key ← wrapM "calculate shared_payload key for out failed"
              (lift (of_option "shared key" (SharedKey (g_key g) (bo_ReceiverPubKey ins))));
      let pay := g_payments g in
      guard_err (Service pay && (bo_PricePerPacket ins <? MinPricePerPacketInOut pay))
        "too low price per packet" ;;
      let price := if Service pay then bo_PricePerPacket ins else 0 in
      sec ← deref g_sections s;
      match s_out sec with
      | None => openOut s key ins price
      | Some o => if outChanged o key ins price then reconfigureOut s o key ins price else mret tt
      end ;;
      o ← getOut s;
      seqno ← nextSentIn s;
      ignore (sendBack s (POutBindDone (mkOutBindDonePayload seqno ip (uint16 (sk_port (o_conn o))))) false)
  end.

(** ** Towards the network *)

(** [netip.AddrFromSlice] accepts four bytes or sixteen. *)
Definition validIP (ip : bytes) : bool := (len ip =? 4) || (len ip =? 16).

(** The prepaid balances are checked in this order, and one packet is taken. *)
Definition payForOut (s : nat) (o : Out) : G unit :=
  if 0 <? o_PricePerPacket o then
    guard_err (o_PrepaidPacketsIn o <? - int64 (maxCredit (o_PacketsSentIn o)))
      "prepaid `in` packets exceeds, cannot send more out messages" ;;
    guard_err (o_PrepaidPacketsOut o <=? 0) "prepaid packets exceeds limit" ;;
    updOut s (fun o => set_o_PrepaidPacketsOut (int64 (o_PrepaidPacketsOut o - 1)) o)
  else mret tt.

Definition Out_Send (s : nat) (payload_ : bytes) : G bytes :=
  o ← getOut s;
  let '(buf, res) := decryptStream (o_PayloadCipherKeyCRC o) (o_PayloadCipherKey o) payload_ in
  data ← wrapM "decrypt payload failed" (lift res);
  pl ← wrapM "parse payload failed" (lift (
         p ← w_parsePayload data;
         match p with PSendOut pl => Ok pl | _ => Err (Errorf "invalid constructor") end));
  match so_Payload pl with
  | [] => mret buf
  | _ =>
      guard_err (negb (validIP (so_IP pl))) "invalid IP address" ;;
      payForOut s o ;;
      res ← ask (fun t => w_writeTo t (o_conn o) (so_Payload pl) (so_IP pl) (uint16 (so_Port pl)));
      emit (EvWriteTo (o_conn o) (so_Payload pl) (so_IP pl) (uint16 (so_Port pl)) res) ;;
      match res with
      | Some e => throw (Errorw "write out failed" e)
      | None =>
          updOut s (fun o => set_o_PacketsSentOut (uint64 (o_PacketsSentOut o + 1)) o) ;;
          modify (fun g => set_g_statsSent (uint64 (g_statsSent g + 1)) g) ;;
          mret buf
      end
  end.

Definition SendOutCachedAction_Execute (s : nat) (msg : EncryptedMessageCached) : G bytes :=
  outAllowed ;; Out_Send s (emc_Payload msg).

Definition SendOut_Execute (s : nat) (msg : EncryptedMessage) : G bytes :=
  outAllowed ;; Out_Send s (em_Payload msg).

(** ** From the network

    The reader keeps at most the 2048 bytes of its buffer and drops datagrams
    under 64 bytes; a worker then charges the packet and sends it back. *)
Definition bufSize : nat := 2048.

Definition Listen_read (datagram : bytes) : option bytes :=
  let buf := take bufSize datagram in
  if len buf <? 64 then None else Some buf.

Definition Listen_worker (s : nat) (buf ip : bytes) (port : Z) : G unit :=
  o ← getOut s;
  if o_closed o then mret tt else
  charged ←
    (if 0 <? o_PricePerPacket o then
       if o_PrepaidPacketsIn o <=? - int64 (maxCredit (o_PacketsSentIn o)) then mret false
       else
         updOut s (fun o => set_o_PrepaidPacketsIn (int64 (o_PrepaidPacketsIn o - 1)) o) ;;
         mret true
     else mret true);
  if negb charged then mret tt else
  modify (fun g => set_g_statsReceived (uint64 (g_statsReceived g + 1)) g) ;;
  seqno ← nextSentIn s;
  ignore (sendBack s (PDeliverUDP (mkDeliverUDPPayload seqno ip port buf)) true).

Definition Listen_datagram (s : nat) (datagram ip : bytes) (port : Z) : G unit :=
  match Listen_read datagram with
  | None => mret tt
  | Some buf => Listen_worker s buf ip port
  end.
End OutGate.
