(* ===== verification/Gateway.v ===== *)
(** * The gateway ([tunnel/gateway.go])

    The message handler that runs the instructions of a packet, the periodic
    check of peers and sections, the goroutines the handlers start and the
    statistics. *)

From S2P Require Import Prelude Seqno Stream Wire Samples Keys State Peers Node Payments OutGate.

Section GatewayOps.
Context {C : CipherCtr} {T : TL} {K : KeyAgreement} {W : World} {Tun : Type} {TP : Tunnel Tun}.

Abbreviation G := (GM Tun).

Definition NewGateway (key : bytes) (pay : PaymentConfig) : Gateway Tun :=
  mkGateway key true true pay ∅ ∅ ∅ 0 0 0 (mkGauges 0 (0, 0) (0, 0)) ∅ ∅ ∅ ∅ 0 [] [].

(** ** Delivery *)

Definition ReportStats_Execute : G unit :=
  routingAllowed ;; emit (EvPrintln "tunnel.ReportStatsInstruction").

Definition Deliver_Execute : G unit := emit (EvPrintln "tunnel.DeliverInstruction").

Definition DeliverInitiatorCachedAction_Execute (tun : nat) (Metadata : metadata)
    (msg : EncryptedMessageCached) : G bytes :=
  wrapM "process recv message failed" (Process tun (emc_Payload msg) Metadata).

Definition DeliverInitiator_Execute (From : Z) (Metadata : metadata) (msg : EncryptedMessage) : G bytes :=
  g ← get;
  match g_tunnels g !! From with
  | None => throw (Errorf "no tunnel registered")
  | Some t => wrapM "process recv message failed" (Process t (em_Payload msg) Metadata)
  end.

(** ** Dispatch on the dynamic type: [Instruction] and [CachedAction] *)

(** An instruction that leaves the payload alone. *)
Definition keeping (payload_ : bytes) (m : G unit) : G bytes := m ;; mret payload_.

Definition Execute (s : nat) (i : instruction) (msg : EncryptedMessage) (restInstructions : bytes) : G bytes :=
  let keep := keeping (em_Payload msg) in
  match i with
  | Destroy => keep (Destroy_Execute s)
  | Cache v l => keep (Cache_Execute s v l)
  | Route id => keep (Route_Execute s id msg restInstructions)
  | BuildRoute ins => keep (BuildRoute_Execute s ins)
  | Payment ins => keep (Payment_Execute s ins)
  | BindOut ins => keep (BindOut_Execute s ins)
  | ReportStats _ => keep ReportStats_Execute
  | SendOut => SendOut_Execute s msg
  | Deliver => keep Deliver_Execute
  | DeliverInitiator From Metadata => DeliverInitiator_Execute From Metadata msg
  | NotAnInstruction => panic "interface conversion"
  end.

Definition CachedAction_Execute (s : nat) (a : CachedAction) (msg : EncryptedMessageCached) : G bytes :=
  match a with
  | RouteCachedAction route => keeping (emc_Payload msg) (RouteCachedAction_Execute s route msg)
  | SendOutCachedAction => SendOutCachedAction_Execute s msg
  | DeliverInitiatorCachedAction meta tun => DeliverInitiatorCachedAction_Execute tun meta msg
  end.

(** The two loops of the handler, with the payload as each step leaves it. *)
Fixpoint executeAll (s : nat) (l : list instruction) (msg : EncryptedMessage) (restInstructions : bytes) : G unit :=
  match l with
  | [] => mret tt
  | i :: l =>
      payload_ ← wrapM "execute instruction error" (Execute s i msg restInstructions);
      executeAll s l (mkEncryptedMessage (em_SectionPubKey msg) (em_Instructions msg) payload_) restInstructions
  end.

Fixpoint executeCached (s : nat) (l : list CachedAction) (msg : EncryptedMessageCached) : G unit :=
  match l with
  | [] => mret tt
  | a :: l =>
      payload_ ← wrapM "execute cached action error" (CachedAction_Execute s a msg);
      executeCached s l (mkEncryptedMessageCached (emc_SectionPubKey msg) (emc_Seqno msg) payload_)
  end.

(** ** The message handler *)

Definition checkSectionSeqno (s : nat) (seqno : Z) (cached : bool) : G bool :=
  sec ← deref g_sections s;
  if cached then
    let '(w, ok) := checkSeqno (s_seqnoCached sec) seqno in
    updSection s (set_s_seqnoCached w) ;; mret ok
  else
    let '(w, ok) := checkSeqno (s_seqno sec) seqno in
    updSection s (set_s_seqno w) ;; mret ok.

Definition stampSection (s : nat) : G unit :=
  now ← nowUnix; updSection s (set_s_lastPacketAt now).

Definition handleCached (m : EncryptedMessageCached) : G unit :=
  g ← get;
  match g_inboundSections g !! emc_SectionPubKey m with
  | None => throw (Errorf "section is not exists")
  | Some s =>
      fresh ← checkSectionSeqno s (emc_Seqno m) true;
      guard_err (negb fresh) "repeating cached packet" ;;
      sec ← deref g_sections s;
      guard_err (bool_decide (s_cachedActions sec = [])) "cache is empty" ;;
      stampSection s ;;
      executeCached s (s_cachedActions sec) m
  end.

(** A section is created on the first message with its key; the log context
    reads the address of the connection the message came from. *)
Definition newSection (peer : nat) (key : bytes) : G nat :=
  g ← get;
  shKey ← lift (hideErr "shared key calc failed" (of_option "shared key" (SharedKey (g_key g) key)));
  now ← nowUnix;
  p ← deref g_peers peer;
  match getConn p with
  | None => nilDeref
  | Some _ =>
      s ← allocSection (mkSection now key shKey (Checksum shKey) ∅ None [] 0 ∅ zeroSeqno zeroSeqno);
      modify (fun g => set_g_inboundSections (<[key := s]> (g_inboundSections g)) g) ;;
      updActiveSections 1 ;;
      mret s
  end.

Definition handleEncrypted (peer : nat) (m : EncryptedMessage) : G unit :=
  g ← get;
  s ← match g_inboundSections g !! em_SectionPubKey m with
      | Some s => mret s
      | None => newSection peer (em_SectionPubKey m)
      end;
  sec ← deref g_sections s;
  let '(m, res) := decryptMessage (s_cipherKeyCrc sec) (s_cipherKey sec) m in
  '(container, restInstructions) ← wrapM "decrypt failed" (lift res);
  fresh ← checkSectionSeqno s (ic_Seqno container) false;
  guard_err (negb fresh) "repeating instructions packet" ;;
  guard_err (5 <? Z.of_nat (length (ic_List container))) "too many instructions" ;;
  stampSection s ;;
  executeAll s (ic_List container) m restInstructions.

Definition messageHandler (peer : nat) (msg : message) : G unit :=
  match msg with
  | Ping Seqno => wrapM "send pong failed" (SendCustomMessage peer (Pong Seqno))
  | Pong Seqno => updPeer peer (set_p_pongSeqno Seqno)
  | MsgCached m => handleCached m
  | MsgEncrypted m => handleEncrypted peer m
  | OtherMessage => throw (Errorf "unsupported message type")
  end ;;
  now ← nowUnix;
  updPeer peer (set_p_LastPacketFromAt now).

(** ** The periodic check, one tick of [keepAlivePeersAndSections] *)

Definition SectionMaxInactiveSec : Z := 120.
Definition PeerMaxInactiveSec : Z := 10.

Definition keepAlivePeer (tm : Z) (peer : nat) : G unit :=
  p ← deref g_peers peer;
  if (p_references p =? 0) && (10 <? tm - p_CreatedAt p) then spawn (TKill peer) else
  (if (PeerMaxInactiveSec <? tm - p_LastPacketFromAt p) && (PeerMaxInactiveSec <? tm - p_DiscoveredAt p)
   then closeConn peer None else mret tt) ;;
  p ← deref g_peers peer;
  match getConn p with
  | None => if p_discoverInProgress p =? 0 then spawn (TDiscover peer) else mret tt
  | Some _ =>
      if 3 <? tm - p_LastPingSentAt p then
        let seqno := uint64 (p_pingSeqno p + 1) in
        updPeer peer (set_p_LastPingSentAt tm) ;;
        updPeer peer (set_p_pingSeqno seqno) ;;
        ignore (SendCustomMessage peer (Ping seqno))
      else mret tt
  end.

(** A section past its idle time is to be closed; in the others an expired
    channel is to be closed while active and forgotten once it is not. *)
Fixpoint expiredChannels (tm : Z) (s : nat) (l : list (bytes * nat)) : G (list nat) :=
  match l with
  | [] => mret []
  | (k, ch) :: l =>
      c ← deref g_channels ch;
      here ← (if pc_Deadline c <? tm then
                if pc_Active c then mret [ch]
                else updSection s (fun sec => set_s_payments (delete k (s_payments sec)) sec) ;; mret []
              else mret []);
      rest ← expiredChannels tm s l;
      mret (here ++ rest)
  end.

Fixpoint keepAliveSections (tm : Z) (l : list nat) : G (list nat * list nat) :=
  match l with
  | [] => mret ([], [])
  | s :: l =>
      locked ← ask w_tryLock;
      '(sections, channels) ←
        (if negb locked then mret ([], []) else
         sec ← deref g_sections s;
         if s_lastPacketAt sec <? tm - SectionMaxInactiveSec then mret ([s], [])
         else channels ← expiredChannels tm s (map_to_list (s_payments sec)); mret ([], channels));
      '(sections', channels') ← keepAliveSections tm l;
      mret (sections ++ sections', channels ++ channels')
  end.

Definition keepAliveTick : G unit :=
  tm ← nowUnix;
  g ← get;
  for_each (map_to_list (g_activePeers g)).*2 (keepAlivePeer tm) ;;
  g ← get;
  '(sectionsToClose, paymentsToClose) ← keepAliveSections tm (map_to_list (g_inboundSections g)).*2;
  for_each sectionsToClose Destroy_Execute ;;
  for_each paymentsToClose (fun ch => ignore (closePaymentChannel ch)).

(** ** Goroutines *)

Definition runTask (t : task) : G unit :=
  match t with
  | TDiscover peer => ignore (discover peer)
  | TKill peer => kill peer
  | TCloseChannel ch => ignore (closePaymentChannel ch)
  | TListen _ => mret tt (* the socket: [Listen_datagram] per datagram *)
  end.

(** The handler a gateway sets for new connections. *)
Definition connHandler (id : bytes) (client : Conn) : G unit :=
  _ ← addPeer id (Some client); mret tt.
Definition disconnectHandler (peer : nat) (client : Conn) : G unit := closeConn peer (Some client).

(** The peers that are connected already when the gateway starts. *)
Definition bootstrapPeers (peers : list (bytes * Conn)) : G unit :=
  for_each peers (fun peer => ignore (connHandler peer.1 peer.2)).

(** ** Statistics *)

Record SectionStats := mkSectionStats {
  Routed : Z;
  Sent : Z;
  Received : Z;
  PrepaidPacketsRoute : list Z;
  st_PrepaidPacketsIn : Z;
  st_PrepaidPacketsOut : Z;
}.

Definition sectionStats (sec : SectionState) : SectionStats :=
  let routes := (map_to_list (s_routes sec)).*2 in
  let out f := match s_out sec with Some o => f o | None => 0 end in
  mkSectionStats (foldr (fun r acc => uint64 (acc + r_PacketsRouted r)) 0 routes)
    (out o_PacketsSentOut) (out o_PacketsSentIn) (r_PrepaidPackets <$> routes)
    (out o_PrepaidPacketsIn) (out o_PrepaidPacketsOut).

Definition GetPacketsStats (g : Gateway Tun) : gmap bytes SectionStats :=
  omap (fun s => sectionStats <$> g_sections g !! s) (g_inboundSections g).
End GatewayOps.
