(* ===== verification/Console.v ===== *)
(** * Counters and the console of a node ([metrics/metrics.go],
    [speedMetricsUpdater] and [logOnce] of [tunnel/gateway.go], the loop of [main]
    in [cmd/node/main.go])

    What a running node tells its operator: the counters exported every five
    seconds, the log lines that are held back, and the commands typed at the
    terminal, with the goroutine that prints the speed.  The wallet and the
    payment service are the parameter [ConsoleWorld]. *)

From Stdlib Require Import Ascii Sorted.
From S2P Require Import Prelude NetAddr Seqno Stream Wire Samples Keys Hoare State Peers Node Payments OutGate Gateway.

(** ** Metrics *)

Inductive collector : Type :=
| PacketsCounter | PacketsPrepaidCounter | ActiveInboundSectionsGauge | ActiveOutGatewaysGauge | ActiveRoutesGauge.

(** [RegisterMetrics]: [MustRegister] panics on a collector it already has. *)
Record registry := mkRegistry { Registered : bool; collectors : list collector }.

#[global] Instance collector_eq_dec : EqDecision collector.
Proof. solve_decision. Defined.

Definition MustRegister (c : collector) : M registry unit := fun r =>
  if bool_decide (c ∈ collectors r) then (r, Panic "duplicate metrics collector registration attempted")
  else (mkRegistry (Registered r) (collectors r ++ [c]), Ok tt).
Definition RegisterMetrics : M registry unit :=
  r ← get;
  if Registered r then mret tt
  else
    modify (fun r => mkRegistry true (collectors r)) ;;
    for_each [PacketsCounter; PacketsPrepaidCounter; ActiveInboundSectionsGauge; ActiveOutGatewaysGauge; ActiveRoutesGauge]
      MustRegister.

(** Registering again does nothing. *)
Lemma RegisterMetrics_once r :
  collectors r = [] -> Registered r = false ->
  exists r', RegisterMetrics r = (r', Ok tt) /\ length (collectors r') = 5%nat /\ RegisterMetrics r' = (r', Ok tt).
Proof. destruct r as [b l]. simpl. intros -> ->. eexists. by split_and!. Qed.

(** The counters of one label: what was seen at the last tick and what has been
    added to the metric, which a [uint64] difference is converted for. *)
Record speed := mkSpeed { sp_prev : Z; sp_exported : Z }.
Definition speedTick (sp : speed) (stat : Z) : speed :=
  let cur := stat / 1000 in mkSpeed cur (sp_exported sp + uint64 (cur - sp_prev sp)).
(** [speedMetricsUpdater]: the three counters of a gateway, at every tick. *)
Definition speedMetrics (g : Z * Z * Z) (sp : speed * speed * speed) : speed * speed * speed :=
  let '(routed, received, sent) := g in let '(r, i, o) := sp in (speedTick r routed, speedTick i received, speedTick o sent).

Lemma last_default {A} (x d d' : A) l : List.last (x :: l) d = List.last (x :: l) d'.
Proof. revert x. induction l as [|y l IH]; intros x; [done|]. apply (IH y). Qed.

(** However the ticks fall, what is exported are the full thousands: no packet is
    lost between two ticks, while the counter itself does not wrap around. *)
Lemma speedTick_exact stats sp :
  sp_exported sp = sp_prev sp -> 0 <= sp_prev sp ->
  Forall (in_uint 64) stats -> Sorted Z.le (sp_prev sp * 1000 :: stats) ->
  let sp' := foldl speedTick sp stats in
  sp_exported sp' = List.last stats (sp_prev sp * 1000) / 1000.
Proof.
  revert sp. induction stats as [|x l IH]; intros sp Hex Hpos Hin Hs; cbv zeta; simpl.
  - rewrite Hex, Z.div_mul by lia. done.
  - apply Sorted_inv in Hs as [Hs Hx]. inversion Hx as [|? ? Hle]; subst. apply Forall_cons_1 in Hin as [Hxi Hin].
    unfold in_uint in Hxi. assert (sp_prev sp <= x / 1000) as Hd by (apply Z.div_le_lower_bound; lia).
    assert (0 <= x / 1000 <= x) as Hx' by (Z.to_euclidean_division_equations; lia).
    assert (sp_exported (speedTick sp x) = x / 1000) as He.
    { unfold speedTick. cbn [sp_exported]. unfold uint64. rewrite Z.mod_small by lia. lia. }
    specialize (IH (speedTick sp x)). cbv zeta in IH. rewrite IH; [|by rewrite He|cbn; lia|done|].
    + destruct l as [|y l]; [cbn; by rewrite Z.div_mul|]. f_equal. apply last_default.
    + constructor; [by apply Sorted_inv in Hs as [? _]|]. destruct l as [|y l]; [done|]. constructor. cbn.
      apply Sorted_inv in Hs as [_ Hs]. inversion Hs; subst. Z.to_euclidean_division_equations; lia.
Qed.

(** ** Log lines that are held back *)

(** [logOnce]: [now] and [again] are the two readings of the clock in
    milliseconds, [swapped] the answer of the compare-and-swap; whether the line
    is logged, and when the last one was. *)
Definition logOnce (lastOnceLogAt now again : Z) (swapped : bool) : bool * Z :=
  if (lastOnceLogAt <? again - 500) && swapped then (true, now) else (false, lastOnceLogAt).

(** The lines logged by one goroutine whose clock goes on. *)
Fixpoint logged (lastOnceLogAt : Z) (times : list Z) : list Z :=
  match times with
  | [] => []
  | t :: times =>
      let '(b, lastOnceLogAt) := logOnce lastOnceLogAt t t true in
      (if b then [t] else []) ++ logged lastOnceLogAt times
  end.

(** They are more than half a second apart. *)
Lemma logged_apart lastOnceLogAt times :
  StronglySorted (fun a b => a + 500 < b) (lastOnceLogAt :: logged lastOnceLogAt times).
Proof.
  revert lastOnceLogAt. induction times as [|t times IH]; intros lastAt; [repeat constructor|].
  cbn [logged]. unfold logOnce. destruct (Z.ltb_spec lastAt (t - 500)) as [Hlt|]; cbn [andb app]; [|apply IH].
  specialize (IH t). pose proof (StronglySorted_inv IH) as [_ Ht]. constructor; [done|]. constructor; [lia|].
  eapply List.Forall_impl; [|exact Ht]. simpl. lia.
Qed.

(** ** [fmt.Scanln] of one string, on characters of ASCII *)

Definition newline : ascii := "010"%char.
Definition isSpace (c : ascii) : bool := ((9 <=? code c) && (code c <=? 13)) || (code c =? 32).

(** Spaces in front of the word; a newline there is an error. *)
Fixpoint skipSpace (s : list ascii) : list ascii * bool :=
  match s with
  | [] => ([], false)
  | c :: s' => if isChar c newline then (s', false) else if isSpace c then skipSpace s' else (s, true)
  end.
Fixpoint word (s : list ascii) : list ascii * list ascii :=
  match s with
  | [] => ([], [])
  | c :: s' => if isSpace c then ([], s) else let '(w, rest) := word s' in (c :: w, rest)
  end.
(** Spaces up to the newline; another character is an error, and consumed. *)
Fixpoint endLine (s : list ascii) : list ascii * bool :=
  match s with
  | [] => ([], true)
  | c :: s => if isChar c newline then (s, true) else if isSpace c then endLine s else (s, false)
  end.
(** The word, what is left of the input, whether there was no error. *)
Definition Scanln (s : list ascii) : list ascii * list ascii * bool :=
  let '(s, ok) := skipSpace s in
  if ok then let '(w, s) := word s in let '(s, ok) := endLine s in (w, s, ok) else ([], s, false).

(** ** The commands *)

Class ConsoleWorld : Type := {
  co_listChannels : nat -> outcome (list (bool -> outcome Z));  (* CalcBalance of the active channels *)
  co_masterchainInfo : nat -> option error;
  co_walletBalance : nat -> outcome Z;
  co_parseAddr : list ascii -> option string;
  co_fromTON : list ascii -> option Z;
  co_transfer : nat -> string -> Z -> list ascii -> outcome bytes;
}.

(** What a command shows. *)
Inductive reply : Type :=
| Failed (msg : string)
| Stats (stats : gmap bytes SectionStats)
| Amount (capacity : bool) (nano : Z)
| WalletBalance (nano : Z)
| Transferred (addr : string) (nano : Z) (comment : list ascii) (hash : bytes).

Section Commands.
Context {CW : ConsoleWorld}.

(** The sum over the channels whose balance can be calculated. *)
Definition sumBalances (capacity : bool) (l : list (bool -> outcome Z)) : Z :=
  foldl (fun amount calc => match calc capacity with Ok v => amount + v | _ => amount end) 0 l.

Definition balanceCommand (tick : nat) (payments capacity : bool) : reply :=
  if negb payments then Failed "payments are not enabled" else
  match co_listChannels tick with
  | Ok l => Amount capacity (sumBalances capacity l)
  | _ => Failed "Failed to list channels"
  end.

Definition walletBalanceCommand (tick : nat) (payments : bool) : reply :=
  if negb payments then Failed "payments are not enabled" else
  match co_masterchainInfo tick with
  | Some _ => Failed "failed to get current masterchain info"
  | None => match co_walletBalance tick with Ok v => WalletBalance v | _ => Failed "failed to get balance" end
  end.

(** Three more lines are read; their errors are ignored, so that a line with
    several words gives its first. *)
Definition walletTransferCommand (tick : nat) (payments : bool) (input : list ascii) : reply * list ascii :=
  if negb payments then (Failed "payments are not enabled", input) else
  let '(addrStr, input, _) := Scanln input in
  match co_parseAddr addrStr with
  | None => (Failed "incorrect format of address", input)
  | Some addr =>
      let '(strAmt, input, _) := Scanln input in
      match co_fromTON strAmt with
      | None => (Failed "incorrect format of amount", input)
      | Some amt =>
          let '(comment, input, _) := Scanln input in
          match co_transfer tick addr amt comment with
          | Ok hash => (Transferred addr amt comment hash, input)
          | _ => (Failed "failed to transfer", input)
          end
      end
  end.

(** One turn of the loop, but for ["speed"]: the reply to a command, if it is one,
    and the input that is left. *)
Definition command (tick : nat) (payments : bool) (stats : gmap bytes SectionStats) (input : list ascii)
    : option reply * list ascii :=
  let '(val, input, ok) := Scanln input in
  let cmd s := bool_decide (val = chars s) in
  if negb ok then (Some (Failed "input failure"), input)
  else if cmd "stats" then (Some (Stats stats), input)
  else if cmd "balance" || cmd "capacity" then (Some (balanceCommand tick payments (cmd "capacity")), input)
  else if cmd "wallet-ton-balance" then (Some (walletBalanceCommand tick payments), input)
  else if cmd "wallet-ton-transfer" then
    let '(r, input) := walletTransferCommand tick payments input in (Some r, input)
  else (None, input).

(** Money leaves the wallet only on a node with payments, to an address and with
    an amount that were parsed from lines of the input. *)
Lemma command_transfers tick payments stats input input' addr amt comment hash :
  command tick payments stats input = (Some (Transferred addr amt comment hash), input') ->
  payments = true /\ exists addrStr strAmt, co_parseAddr addrStr = Some addr /\ co_fromTON strAmt = Some amt /\
    co_transfer tick addr amt comment = Ok hash.
Proof using Type.
  unfold command. destruct (Scanln input) as [[val rest] ok]. destruct (negb ok); [done|].
  destruct (bool_decide _); [done|]. destruct (_ || _).
  { unfold balanceCommand. destruct payments; [|done]. cbn [negb]. destruct (co_listChannels tick); done. }
  destruct (bool_decide _).
  { unfold walletBalanceCommand. destruct payments; [|done]. cbn [negb].
    destruct (co_masterchainInfo tick); [done|]. destruct (co_walletBalance tick); done. }
  destruct (bool_decide _); [|done]. unfold walletTransferCommand. destruct payments; [|done]. cbn [negb].
  destruct (Scanln rest) as [[addrStr rest1] ?]. destruct (co_parseAddr addrStr) as [a|] eqn:Ea; [|done].
  destruct (Scanln rest1) as [[strAmt rest2] ?]. destruct (co_fromTON strAmt) as [m|] eqn:Em; [|done].
  destruct (Scanln rest2) as [[c rest3] ?]. destruct (co_transfer tick a m c) as [h|e|w] eqn:Et; [|done..].
  intros [= <- <- <- <- _]. split; [done|]. by exists addrStr, strAmt.
Qed.
End Commands.

(** ** The printer of speeds *)

(** The difference of two tables, for the sections that are in both. *)
Definition perSecond (prev stats : gmap bytes SectionStats) : gmap bytes (Z * Z * Z) :=
  map_imap (fun s st => p ← prev !! s;
    Some (uint64 (Routed st - Routed p), uint64 (Sent st - Sent p), uint64 (Received st - Received p))) stats.

(** Where a printer is: in front of the select, where it reads the variable
    [speedPrinterCtx], or in the select with the context it read; one that
    returned is gone. *)
Inductive printerPc : Type := PLoop | PSelect (ctx : nat).

(** Contexts are numbered; the variable holds [cn_ctx]. *)
Record console := mkConsole { cn_ctx : nat; cn_canceled : gset nat; cn_printers : gmap nat printerPc }.

Definition consoleStart : console := mkConsole 0 {[ 0%nat ]} ∅.

Inductive printerStep : console -> console -> Prop :=
| printer_start c done ps p : c ∈ done -> ps !! p = None ->
    printerStep (mkConsole c done ps) (mkConsole (S c) done (<[p := PLoop]> ps))
| printer_cancel c done ps : c ∉ done -> printerStep (mkConsole c done ps) (mkConsole c ({[c]} ∪ done) ps)
| printer_select c done ps p : ps !! p = Some PLoop ->
    printerStep (mkConsole c done ps) (mkConsole c done (<[p := PSelect c]> ps))
| printer_tick c done ps p c' : ps !! p = Some (PSelect c') ->
    printerStep (mkConsole c done ps) (mkConsole c done (<[p := PLoop]> ps))
| printer_return c done ps p c' : ps !! p = Some (PSelect c') -> c' ∈ done ->
    printerStep (mkConsole c done ps) (mkConsole c done (delete p ps)).

(** Every context is read from the variable, so none is newer than it, and all
    older ones are canceled. *)
Definition printersOk (s : console) : Prop :=
  (forall c, (c < cn_ctx s)%nat -> c ∈ cn_canceled s) /\
  (forall c, c ∈ cn_canceled s -> (c <= cn_ctx s)%nat) /\
  (forall p c, cn_printers s !! p = Some (PSelect c) -> (c <= cn_ctx s)%nat).

Lemma printerStep_ok s s' : printerStep s s' -> printersOk s -> printersOk s'.
Proof.
  intros H (Ha & Hb & Hc).
  destruct H as [c done ps p Hin Hp|c done ps Hin|c done ps p Hp|c done ps p c' Hp|c done ps p c' Hp Hin];
    cbn [cn_ctx cn_canceled cn_printers] in *; (split_and!; cbn [cn_ctx cn_canceled cn_printers]);
    try set_solver; intros; try (rewrite lookup_insert_Some in * || rewrite lookup_delete_Some in * ); try solve [naive_solver lia].
  all: try (destruct (decide (c0 = c)) as [->|]; [done|]; apply Ha; lia).
  all: naive_solver (auto with lia).
Qed.

(** After ["speed"] has turned the printing off, every printer can return: none is
    left waiting for a context that nobody cancels. *)
Lemma printers_stop s :
  printersOk s -> cn_ctx s ∈ cn_canceled s -> rtc printerStep s (mkConsole (cn_ctx s) (cn_canceled s) ∅).
Proof.
  destruct s as [c canceled ps]. cbn [cn_ctx cn_canceled]. intros (Ha & _ & Hc) Hin. cbn [cn_ctx cn_canceled cn_printers] in *.
  revert Hc. induction ps as [|p pc ps Hp IH] using map_ind; intros Hc; [done|].
  assert (forall c', c' ∈ canceled -> printerStep (mkConsole c canceled (<[p := PSelect c']> ps)) (mkConsole c canceled ps)) as Hret.
  { intros c' Hc'. rewrite <- (delete_insert_id ps p (PSelect c')) at 2 by done.
    apply printer_return with c'; [apply lookup_insert_eq|done]. }
  assert (rtc printerStep (mkConsole c canceled ps) (mkConsole c canceled ∅)) as Hps.
  { apply IH. intros p' c' Hp'. apply (Hc p'). rewrite lookup_insert_ne by congruence. done. }
  destruct pc as [|c'].
  - eapply rtc_l; [apply (printer_select _ _ _ p), lookup_insert_eq|]. rewrite insert_insert_eq. eapply rtc_l; [by apply Hret|done].
  - eapply rtc_l; [apply Hret|done]. pose proof (Hc p c' (lookup_insert_eq _ _ _)) as Hle.
    destruct (decide (c' = c)) as [->|]; [done|]. apply Ha. lia.
Qed.

(** The printer reads the variable, not the context it was started with: turned
    off and on again while it prints, it goes on beside the new one. *)
Lemma two_printers :
  rtc printerStep consoleStart (mkConsole 2 {[ 1%nat; 0%nat ]} {[ 0%nat := PSelect 2; 1%nat := PSelect 2 ]}).
Proof.
  eapply rtc_l; [apply (printer_start _ _ _ 0); set_solver|].
  eapply rtc_l; [apply (printer_select _ _ _ 0); reflexivity|].
  eapply rtc_l; [eapply (printer_tick _ _ _ 0); reflexivity|].
  eapply rtc_l; [apply printer_cancel; set_solver|].
  eapply rtc_l; [apply (printer_start _ _ _ 1); [set_solver|reflexivity]|].
  eapply rtc_l; [apply (printer_select _ _ _ 0); reflexivity|].
  eapply rtc_l; [apply (printer_select _ _ _ 1); reflexivity|].
  match goal with |- rtc _ ?a ?b => replace a with b; [done|] end. f_equal.
Qed.

(** ** Input *)
Section Input.
#[local] Instance toyConsole : ConsoleWorld := {|
  co_listChannels := fun _ => Ok [fun _ => Ok 5; fun _ => Err (Errorf "no state"); fun capacity => Ok (if (capacity : bool) then 1 else 7)];
  co_masterchainInfo := fun _ => None;
  co_walletBalance := fun _ => Ok 3;
  co_parseAddr := fun s => Some (String.string_of_list_ascii s);
  co_fromTON := fun _ => Some 1;
  co_transfer := fun _ _ _ _ => Ok [];
|}.

Definition lines (l : list string) : list ascii := concat (map (fun s => chars s ++ [newline]) l).

(** A comment of two words is cut after the first, and the rest of the line, but
    for its first character, is the next command. *)
Example comment_cut :
  command 0 true ∅ (lines ["wallet-ton-transfer"; "EQab"; "1"; "for xstats"]%string)
  = (Some (Transferred "EQab" 1 (chars "for") []), lines ["stats"%string]).
Proof. vm_compute. reflexivity. Qed.

Example balances :
  (command 0 true ∅ (lines ["balance"%string])).1 = Some (Amount false 12) /\
  (command 0 true ∅ (lines [" capacity "%string])).1 = Some (Amount true 6) /\
  (command 0 false ∅ (lines ["balance"%string])).1 = Some (Failed "payments are not enabled") /\
  (command 0 true ∅ (lines [""%string])).1 = Some (Failed "input failure").
Proof. vm_compute. auto. Qed.
End Input.
