(* ===== verification/Print.v ===== *)
(** * Numbers and levels on the console of a node ([formatNum], [formatNumInt] and
    the verbosity of [cmd/node/main.go])

    Which lines are printed depends on the verbosity.  The statistics of a section are shown in thousands, millions or billions with
    two decimals.  The code divides a [float64]; binary64 is the Standard
    Library's [SpecFloat] with 53 bits of precision, and [%.2f] prints the exact
    value of a float rounded to the nearest hundredth, ties to even. *)

From Stdlib Require Import SpecFloat.
From stdpp Require Import pretty.
From S2P Require Import Prelude Hoare State Gateway Console.

(** ** Floats *)

Definition prec64 : Z := 53.
Definition emax64 : Z := 1024.
(** [float64(n)], rounded to nearest. *)
Definition toFloat64 (n : Z) : spec_float := binary_normalize prec64 emax64 n 0 false.
Definition div64 (x y : spec_float) : spec_float := SFdiv prec64 emax64 x y.

(** [n / d] to the nearest, ties to even. *)
Definition nearest (n d : Z) : Z :=
  let q := n / d in
  let r := n mod d in
  if (2 * r <? d) || ((2 * r =? d) && Z.even q) then q else q + 1.

(** The hundredths of [m * 2 ^ e]. *)
Definition hundredths (m e : Z) : Z :=
  if 0 <=? e then 100 * m * 2 ^ e else nearest (100 * m) (2 ^ (- e)).

Definition twoDecimals (h : Z) : string :=
  (pretty (h / 100) ++ "." ++ pretty (h mod 100 / 10) ++ pretty (h mod 10))%string.

(** [fmt.Sprintf("%.2f", x)]. *)
Definition fixed2 (x : spec_float) : string :=
  let signed (s : bool) (t : string) := if s then ("-" ++ t)%string else t in
  match x with
  | S754_zero s => signed s "0.00"
  | S754_infinity s => if s then "-Inf" else "+Inf"
  | S754_nan => "NaN"
  | S754_finite s m e => signed s (twoDecimals (hundredths (Zpos m) e))
  end.

(** ** [formatNum] *)

Definition sizes : list string := [""; " K"; " M"; " B"]%string.

(** The loop: at most [len(sizes)-1] divisions. *)
Fixpoint scale (fuel : nat) (sizeFloat : spec_float) (sizeIndex : nat) : spec_float * nat :=
  match fuel with
  | O => (sizeFloat, sizeIndex)
  | S fuel =>
      if SFleb (toFloat64 1000) sizeFloat && bool_decide (sizeIndex < length sizes - 1)%nat
      then scale fuel (div64 sizeFloat (toFloat64 1000)) (S sizeIndex)
      else (sizeFloat, sizeIndex)
  end.

Definition formatNum (packets : Z) : string :=
  let '(sizeFloat, sizeIndex) := scale (length sizes) (toFloat64 packets) 0 in
  (fixed2 sizeFloat ++ sizes !!! sizeIndex)%string.

(** The same lines for an [int64]. *)
Definition formatNumInt (packets : Z) : string :=
  let '(sizeFloat, sizeIndex) := scale (length sizes) (toFloat64 packets) 0 in
  (fixed2 sizeFloat ++ sizes !!! sizeIndex)%string.

(** What the console prints of a section: for the command [stats], and each second
    while the speed is shown. *)
Record statsLine := mkStatsLine {
  routed : string; sent : string; received : string;
  prepaid_routes : list Z; prepaid_out : string; prepaid_in : string;
}.
Definition printStats (st : SectionStats) : statsLine :=
  mkStatsLine (formatNum (Routed st)) (formatNum (Sent st)) (formatNum (Received st))
    (PrepaidPacketsRoute st) (formatNumInt (st_PrepaidPacketsOut st)) (formatNumInt (st_PrepaidPacketsIn st)).
Definition printSpeed (prev st : SectionStats) : string * string * string :=
  let perSec a b := (formatNum (uint64 (a - b)) ++ "/s")%string in
  (perSec (Routed st) (Routed prev), perSec (Sent st) (Sent prev), perSec (Received st) (Received prev)).

(** Four rounds are enough: the loop was left by its own condition, with an index
    that is in [sizes]. *)
Lemma scale_enough fuel x i x' i' :
  (length sizes - i <= fuel)%nat -> (i < length sizes)%nat -> scale fuel x i = (x', i') ->
  (i' < length sizes)%nat /\ (SFleb (toFloat64 1000) x' = false \/ i' = (length sizes - 1)%nat).
Proof.
  revert x i. induction fuel as [|fuel IH]; intros x i Hf Hi; [lia|]. cbn [scale].
  destruct (SFleb _ x) eqn:E; cbn [andb]; [|by intros [= <- <-]; auto].
  case_bool_decide as Hb; [apply IH; lia|]. intros [= <- <-]. split; [done|right; lia].
Qed.

(** A float of a negative number is negative. *)
Lemma round_negative m e l : SFleb (toFloat64 1000) (binary_round_aux prec64 emax64 true m e l) = false.
Proof.
  unfold binary_round_aux. destruct (shr_fexp prec64 emax64 m e l) as [mrs e'].
  destruct (shr_fexp _ _ _ e' _) as [mrs' e'']. destruct (shr_m mrs') as [|p|p]; [done| |done].
  by destruct (_ <=? _).
Qed.

Lemma append_empty s : (s ++ "")%string = s.
Proof. induction s as [|c s IH]; [done|]. change (String c (s ++ "") = String c s). by rewrite IH. Qed.

(** Every number below a thousand is shown in full: the numbers that are
    negative, whatever their size, and those of three digits. *)
Lemma formatNumInt_negative packets : packets < 0 -> formatNumInt packets = fixed2 (toFloat64 packets).
Proof.
  destruct packets as [|p|p]; [done|done|]. intros _. unfold formatNumInt. cbn [scale length sizes].
  assert (SFleb (toFloat64 1000) (toFloat64 (Zneg p)) = false) as ->.
  { change (toFloat64 (Zneg p)) with (binary_round prec64 emax64 true p 0). unfold binary_round.
    destruct (shl_align p 0 _) as [mz ez]. apply round_negative. }
  apply append_empty.
Qed.

Lemma formatNum_small packets : 0 <= packets < 1000 -> formatNum packets = (pretty packets ++ ".00")%string.
Proof.
  intros H. assert (forallb (fun n => String.eqb (formatNum n) (pretty n ++ ".00")) (Z.of_nat <$> seq 0 1000) = true) as Hall
    by (vm_compute; reflexivity).
  rewrite forallb_forall in Hall. apply String.eqb_eq, Hall, list_elem_of_In, list_elem_of_fmap.
  exists (Z.to_nat packets). split; [lia|]. apply elem_of_seq. lia.
Qed.

(** Ties of the exact value go to the even hundredth; 999999 is below a million
    and its thousands round up to a thousand; a counter that ran backwards. *)
Example formatted :
  map formatNum [1125; 1375; 999999; 1000000; 1234567890; uint64 (3 - 5)] =
    ["1.12 K"; "1.38 K"; "1000.00 K"; "1.00 M"; "1.23 B"; "18446744073.71 B"]%string /\
  map formatNumInt [-1500; 2500000] = ["-1500.00"; "2.50 M"]%string.
Proof. split; vm_compute; reflexivity. Qed.

(** ** Verbosity *)

(** The levels of zerolog, by their numbers. *)
Inductive Level : Type := DebugLevel | InfoLevel | WarnLevel | ErrorLevel | FatalLevel.
Definition levelNum (l : Level) : Z :=
  match l with DebugLevel => 0 | InfoLevel => 1 | WarnLevel => 2 | ErrorLevel => 3 | FatalLevel => 4 end.
(** A logger prints the lines at its level and above. *)
Definition prints (logger line : Level) : bool := levelNum logger <=? levelNum line.

Record logFlags := mkLogFlags { Verbosity : Z; LogDisableFile : bool; ProfileAddr : string; MetricsAddr : string }.

(** [log.Logger] of the program. *)
Definition rootLevel (Verbosity : Z) : Level :=
  if 3 <=? Verbosity then DebugLevel
  else if Verbosity =? 2 then InfoLevel
  else if Verbosity =? 1 then WarnLevel
  else if Verbosity =? 0 then ErrorLevel
  else FatalLevel.

(** The logger handed to [NewGateway]. *)
Definition gatewayLevel (Verbosity : Z) : Level := if 3 <=? Verbosity then DebugLevel else InfoLevel.

(** [scanLog] of [preparePayments]. *)
Definition scanLevel (Verbosity : Z) : Level := if 4 <=? Verbosity then DebugLevel else rootLevel Verbosity.

(** Whether the loggers of the dht and the adnl package print. *)
Definition dhtLogs (Verbosity : Z) : bool := 5 <=? Verbosity.
Definition adnlLogs (Verbosity : Z) : bool := 6 <=? Verbosity.

Inductive logWriter : Type := ConsoleWriter | FileWriter.
Definition logWriters (fl : logFlags) : list logWriter :=
  ConsoleWriter :: if LogDisableFile fl then [] else [FileWriter].

(** The servers beside the tunnel: profiles, then the metrics, which are
    registered first. *)
Inductive sideServer : Type := ProfileServer (addr : string) | MetricsServer (addr : string).
Definition sideServers (fl : logFlags) : M registry (list sideServer) :=
  let profile := if String.eqb (ProfileAddr fl) "" then [] else [ProfileServer (ProfileAddr fl)] in
  if String.eqb (MetricsAddr fl) "" then mret profile
  else RegisterMetrics ;; mret (profile ++ [MetricsServer (MetricsAddr fl)]).

(** More verbosity never hides a line. *)
Lemma rootLevel_mono v v' line : v <= v' -> prints (rootLevel v) line = true -> prints (rootLevel v') line = true.
Proof.
  unfold prints. rewrite !Z.leb_le. intros Hv H. etransitivity; [|exact H]. unfold rootLevel.
  repeat case_match; simpl; lia.
Qed.

(** Below the default the program is quiet and its gateway is not; the scanner
    is never louder than the program. *)
Lemma gateway_not_quiet v line : v < 2 ->
  prints (gatewayLevel v) InfoLevel = true /\ prints (rootLevel v) InfoLevel = false /\
  prints (scanLevel v) line = prints (rootLevel v) line.
Proof. intros H. unfold gatewayLevel, scanLevel, rootLevel. repeat case_match; try lia; done. Qed.
Lemma scanLevel_root v : scanLevel v = rootLevel v.
Proof. unfold scanLevel, rootLevel. repeat case_match; try done; lia. Qed.

(** With an address for the metrics all of them are registered and served,
    without one none is registered. *)
Lemma sideServers_start fl :
  let served := MetricsServer (MetricsAddr fl) in
  exists r l, sideServers fl (mkRegistry false []) = (r, Ok l) /\
    if String.eqb (MetricsAddr fl) "" then collectors r = [] /\ served ∉ l
    else length (collectors r) = 5%nat /\ served ∈ l.
Proof.
  unfold sideServers. destruct (String.eqb (MetricsAddr fl) "").
  - eexists _, _. split; [reflexivity|]. split; [done|]. destruct (String.eqb (ProfileAddr fl) "").
    + apply not_elem_of_nil.
    + by rewrite list_elem_of_singleton.
  - eexists _, _. split; [reflexivity|]. split; [done|]. rewrite elem_of_app, list_elem_of_singleton. auto.
Qed.
