(* ===== verification/Worlds.v ===== *)
(** * A concrete world to run the gateway in

    Instances of the parameters of the gateway: a clock that stands still,
    connections that accept everything, a bucket that counts down, a payment
    service with one channel and a payload codec.  Packets for the gateway are
    built with the sender's own functions. *)

From S2P Require Import Prelude Seqno Stream Wire Samples Keys State Peers Node Payments OutGate Gateway.

(** ** A payload codec: a tag and the fields *)

Definition putFields (tag n : Z) (ip : bytes) (port : Z) (data : bytes) : outcome bytes :=
  of_option "tl serialize" (
    t ← putWord 1 tag; s ← putWord 8 n; i ← putBytes ip; p ← putWord 4 port; d ← putBytes data;
    Some (t ++ s ++ i ++ p ++ d)).

Definition samplePut (p : payload) : outcome bytes :=
  match p with
  | PSendOut x => putFields 1 (so_Seqno x) (so_IP x) (so_Port x) (so_Payload x)
  | PDeliverUDP x => putFields 2 (du_Seqno x) (du_IP x) (du_Port x) (du_Payload x)
  | POutBindDone x => putFields 3 (ob_Seqno x) (ob_IP x) (ob_Port x) []
  end.

Definition sampleGet (d : bytes) : outcome payload :=
  of_option "tl parse" (
    '(t, d) ← getWord 1 d; '(n, d) ← getWord 8 d; '(ip, d) ← getBytes d;
    '(port, d) ← getWord 4 d; '(data, d) ← getBytes d;
    if bool_decide (t = 1) then Some (PSendOut (mkSendOutPayload n ip port data))
    else if bool_decide (t = 2) then Some (PDeliverUDP (mkDeliverUDPPayload n ip port data))
    else if bool_decide (t = 3) then Some (POutBindDone (mkOutBindDonePayload n ip port))
    else None).

Lemma samplePut_get p bs : samplePut p = Ok bs -> sampleGet bs = Ok p.
Proof.
  unfold samplePut, putFields, sampleGet, of_option. intros H.
  destruct p as [[] | [] | []]; cbn in H |- *;
    match type of H with match ?x with _ => _ end = _ => destruct x as [b|] eqn:E; [|done] end;
    apply Ok_inj in H as <-; rewrite <- (app_nil_r b); run_codec; reflexivity.
Qed.

(** ** The world *)

(** [sendFails t] is the error of the [t]-th call, when it is a send. *)
Definition worldOf (sendFails : nat -> option error) : World := {|
  w_now := fun _ => 1000 * 10 ^ 9;
  w_rand := fun _ => Some [1; 2; 3; 4; 5; 6; 7; 8];
  w_connSend := fun t _ _ => sendFails t;
  w_findAddresses := fun _ id => Ok ([("10.0.0.1"%string, 9000)], id);
  w_registerClient := fun _ addr key => Ok (mkConn (le_decode key) addr);
  w_addressList := fun _ => [[1; 2; 3; 4]];
  w_tryLock := fun _ => true;
  w_listenPacket := fun _ => Ok (mkSock 1 5000);
  w_writeTo := fun _ _ _ _ _ => None;
  w_serializePayload := samplePut;
  w_parsePayload := sampleGet;
  Bucket := Z;
  w_newBucket := fun rate burst => burst;
  w_bucketAdd := fun _ b n => if n <=? b then (b - n, n) else (b, 0);
  w_loadState := fun cell => Ok (mkVirtualChannelState (Z.max 0 (le_decode cell)) []);
  w_fromBOC := fun boc => Ok boc;
  w_verify := fun _ _ => true;
  w_fromTON := fun _ => Ok (10 ^ 9);
  w_channelMeta := fun _ _ => Ok (mkVirtualChannelMeta [] (Some (mkVirtualChannelSide "1" (9000 * 10 ^ 9))) None true);
  w_addResolve := fun _ _ _ => None;
  w_closeVirtual := fun _ _ => None;
|}.

Definition sampleWorld : World := worldOf (fun _ => None).

(** A tunnel that takes everything delivered to it. *)
Definition sampleTunnel {W : World} : Tunnel (W := W) unit := fun _ payload_ _ => mret payload_.
Lemma sampleTunnel_ok {W : World} : TunnelOk (W := W) (TP := sampleTunnel) unit.
Proof. by intros t payload_ meta g. Qed.

(** ** Packets and states *)

Definition nodeKey : bytes := [11; 12; 13; 14].
Definition senderKey : bytes := [1; 1; 1; 1].

(** The packet a sender makes for this node with its [n]-th counter value. *)
Definition packetBody (sender : bytes) (n : Z) (l : list instruction) (payload_ : bytes) : EncryptedMessage :=
  (EncryptInstructionsMessage (C := toyCipher) (T := sampleTL) (Some [8; 7; 6; 5; 4; 3; 2; 1])
    (setSeqno (sampleKeysFor sender nodeKey) (n - 1)) (mkEncryptedMessage [] [] payload_) l).1.2.
Definition packetOf (sender : bytes) (n : Z) (l : list instruction) (payload_ : bytes) : message :=
  MsgEncrypted (packetBody sender n l payload_).
Definition packet := packetOf senderKey.

Section Runs.
Context (W : World) (pay : PaymentConfig).

Abbreviation run_handler := (messageHandler (C := toyCipher) (T := sampleTL) (K := sampleKA) (W := W)
  (TP := sampleTunnel)).

(** A gateway with one connected peer, at location 0. *)
Definition startGateway : Gateway (W := W) unit :=
  (connHandler (Tun := unit) [77] (mkConn 77 "10.0.0.7:1") (NewGateway nodeKey pay)).1.

(** The outcome of each message of a list, and the state they leave. *)
Fixpoint handleAll (msgs : list message) (g : Gateway (W := W) unit) : Gateway (W := W) unit * list (outcome unit) :=
  match msgs with
  | [] => (g, [])
  | m :: msgs =>
      let '(g, o) := run_handler 0%nat m g in
      let '(g, os) := handleAll msgs g in (g, o :: os)
  end.
End Runs.

(** What is at a location of a run, for states known to have something there. *)
Section Known.
Context {W : World} {Tun : Type} (g : Gateway Tun).

Definition sectionOf (s : nat) : SectionState :=
  default (mkSection 0 [] [] 0 ∅ None [] 0 ∅ zeroSeqno zeroSeqno) (g_sections g !! s).
Definition peerOf (l : nat) : Peer := default (newPeer [] 0) (g_peers g !! l).
Definition routeOf (s : nat) (id : Z) : RouteState :=
  default (mkRoute 0 (mkRouteTarget 0 [] [] 0) 0 false 0 (w_newBucket 0 0)) (s_routes (sectionOf s) !! id).

Definition known_b {A} (o : option A) : bool := if o then true else false.

Lemma sectionOf_known s : known_b (g_sections g !! s) = true -> g_sections g !! s = Some (sectionOf s).
Proof. unfold sectionOf. by destruct (g_sections g !! s). Qed.
Lemma peerOf_known l : known_b (g_peers g !! l) = true -> g_peers g !! l = Some (peerOf l).
Proof. unfold peerOf. by destruct (g_peers g !! l). Qed.
Lemma routeOf_known s id :
  known_b (s_routes (sectionOf s) !! id) = true -> s_routes (sectionOf s) !! id = Some (routeOf s id).
Proof. unfold routeOf. by destruct (s_routes (sectionOf s) !! id). Qed.
End Known.

Lemma run_ok {S A} (m : M S A) (g : S) (a : A) : (m g).2 = Ok a -> m g = ((m g).1, Ok a).
Proof. destruct (m g) as [g' o]. cbn. congruence. Qed.

Definition freeConfig : PaymentConfig := mkPaymentConfig false 0 0.
Definition paidConfig : PaymentConfig := mkPaymentConfig true 5 5.

Definition buildRouteTo (adnl : bytes) (price : Z) : instruction :=
  BuildRoute (mkBuildRoute adnl [2; 2; 2; 2] 1 price).

Example handleAll_builds :
  (handleAll sampleWorld [packet 1 [buildRouteTo [21] 0] [9]; packet 2 [Route 1] [9]; packet 1 [Route 1] [9]]
    (startGateway sampleWorld freeConfig)).2
  = [Ok tt; Err (Errorw "execute instruction error" (Errorw "route message failed" ErrNotConnected));
     Err (Errorf "repeating instructions packet")].
Proof. vm_compute. reflexivity. Qed.
