(* ===== verification/Traffic.v ===== *)
(** * Forwarding and its accounting

    What [Route.Route] does to a route on every branch: the packet that is
    paid for, the one that spends from the free rate, the one refused, and the
    refund when the next node can not be reached. *)

From S2P Require Import Prelude Seqno Stream Wire Samples Keys Hoare State Peers Node Payments OutGate Gateway Worlds.

(** ** Sections and configuration are out of reach of the peer operations *)
Section Frames.
Context {W : World} {Tun : Type}.

(** All a node keeps besides its peers and its log of calls. *)
Definition sectionView (g : Gateway Tun) :=
  (g_sections g, g_payments g, g_inboundSections g, g_channels g, g_tunnels g,
   (g_key g, g_allowRouting g, g_allowOut g)).

Lemma preserves_deref {A} (P : Gateway Tun -> Prop) (h : Gateway Tun -> gmap nat A) l :
  preserves P (deref h l).
Proof. intros g Hg. unfold deref. by destruct (h g !! l). Qed.

Lemma deref_run {A} (h : Gateway Tun -> gmap nat A) l g x :
  h g !! l = Some x -> deref h l g = (g, Ok x).
Proof. intros H. unfold deref. by rewrite H. Qed.
Lemma ask_run {A} (f : nat -> A) (g : Gateway Tun) :
  ask f g = (set_g_tick (S (g_tick g)) g, Ok (f (g_tick g))).
Proof. done. Qed.
Lemma nowUnix_run (g : Gateway Tun) :
  nowUnix g = (set_g_tick (S (g_tick g)) g, Ok (w_now (g_tick g) / 10 ^ 9)).
Proof. done. Qed.

Lemma preserves_nilDeref {A} (P : Gateway Tun -> Prop) : preserves P (nilDeref (A := A)).
Proof. apply preserves_panic. Qed.

(** A property that reads nothing else is preserved by every operation on
    peers: they change the peers, the table of active peers, the clock, the
    trace and the tasks only. *)
Definition onSections (P : Gateway Tun -> Prop) : Prop :=
  forall g g', sectionView g = sectionView g' -> P g -> P g'.

Context (P : Gateway Tun -> Prop) (HP : onSections P).

Lemma preserves_nowUnix : preserves P nowUnix.
Proof using HP. intros g Hg. by apply (HP g). Qed.
Lemma preserves_ask {A} (f : nat -> A) : preserves P (ask f).
Proof using HP. intros g Hg. by apply (HP g). Qed.
Lemma preserves_emit e : preserves P (emit e).
Proof using HP. intros g Hg. by apply (HP g). Qed.
Lemma preserves_spawn t : preserves P (spawn t).
Proof using HP. intros g Hg. by apply (HP g). Qed.
Lemma preserves_updPeer l f : preserves P (updPeer l f).
Proof using HP. intros g Hg. by apply (HP g). Qed.
Lemma preserves_updGauges f : preserves P (updGauges f).
Proof using HP. intros g Hg. by apply (HP g). Qed.
Lemma preserves_activePeers f : preserves P (modify (fun g => set_g_activePeers (f g) g)).
Proof using HP. intros g Hg. by apply (HP g). Qed.
Lemma preserves_allocPeer p : preserves P (allocPeer p).
Proof using HP. intros g Hg. by apply (HP g). Qed.
End Frames.

#[export] Hint Rewrite @ask_run @nowUnix_run : run.
#[export] Hint Resolve preserves_deref preserves_nilDeref preserves_nowUnix preserves_ask preserves_emit preserves_spawn
  preserves_updPeer preserves_updGauges preserves_activePeers preserves_allocPeer : pres.

Section PeerOps.
Context {W : World} {Tun : Type} (P : Gateway Tun -> Prop) (HP : onSections P).

Lemma preserves_addPeer id conn : preserves P (addPeer id conn).
Proof using HP. unfold addPeer. pres. Qed.
Lemma preserves_discover peer : preserves P (discover peer).
Proof using HP. unfold discover. pres. Qed.
Lemma preserves_closeConn peer cmp : preserves P (closeConn peer cmp).
Proof using HP. unfold closeConn. pres. Qed.
Lemma preserves_AddReference peer : preserves P (AddReference peer).
Proof using HP. unfold AddReference. pres. Qed.
Lemma preserves_removePeer peer : preserves P (removePeer peer).
Proof using HP. unfold removePeer. pres. Qed.
Lemma preserves_Dereference peer : preserves P (Dereference peer).
Proof using HP. pose proof preserves_closeConn. pose proof preserves_removePeer. unfold Dereference. pres. Qed.
Lemma preserves_kill peer : preserves P (kill peer).
Proof using HP. pose proof preserves_closeConn. pose proof preserves_removePeer. unfold kill. pres. Qed.
Lemma preserves_SendCustomMessage peer req : preserves P (SendCustomMessage peer req).
Proof using HP. unfold SendCustomMessage. pres. Qed.
End PeerOps.

#[export] Hint Resolve preserves_addPeer preserves_discover preserves_closeConn preserves_AddReference
  preserves_removePeer preserves_Dereference preserves_kill preserves_SendCustomMessage : pres.

(** ** What a route does with a packet *)

(** The packet is covered by a payment: one was received and the balance is
    above the credit limit. *)
Definition covered {W : World} (r : RouteState) : bool :=
  r_PaymentReceived r && (- LossAcceptableStartup <? r_PrepaidPackets r).

(** The branches of [Route.Route]: the route before and after, and the result
    of handing the message to the next node ([None] when it is not reached). *)
Inductive routeStep {W : World} (r : RouteState) : RouteState -> option (option error) -> Prop :=
| free_sent :
    rt_PricePerPacket (r_Target r) = 0 ->
    routeStep r (set_r_PacketsRouted (uint64 (r_PacketsRouted r + 1)) r) (Some None)
| free_failed e :
    rt_PricePerPacket (r_Target r) = 0 -> routeStep r r (Some (Some e))
| paid_sent :
    0 < rt_PricePerPacket (r_Target r) -> covered r = true ->
    routeStep r (set_r_PacketsRouted (uint64 (r_PacketsRouted r + 1))
      (set_r_PrepaidPackets (r_PrepaidPackets r - 1) r)) (Some None)
| paid_refunded e :
    0 < rt_PricePerPacket (r_Target r) -> covered r = true -> routeStep r r (Some (Some e))
| unpaid_refused rate added t :
    0 < rt_PricePerPacket (r_Target r) -> covered r = false ->
    w_bucketAdd t (r_rate r) 1 = (rate, added) -> added <= 0 -> routeStep r (set_r_rate rate r) None
| unpaid_sent rate added t :
    0 < rt_PricePerPacket (r_Target r) -> covered r = false ->
    w_bucketAdd t (r_rate r) 1 = (rate, added) -> 0 < added ->
    routeStep r (set_r_PacketsRouted (uint64 (r_PacketsRouted r + 1)) (set_r_rate rate r)) (Some None)
| unpaid_failed rate added t e :
    0 < rt_PricePerPacket (r_Target r) -> covered r = false ->
    w_bucketAdd t (r_rate r) 1 = (rate, added) -> 0 < added -> routeStep r (set_r_rate rate r) (Some (Some e)).

Definition routeResult (sent : option (option error)) : outcome unit :=
  match sent with
  | Some None => Ok tt
  | Some (Some e) => Err (Errorw "route message failed" e)
  | None => Err (Errorf "free packets exceeds rate limit for route")
  end.

Definition prepaidRange (x : Z) : Prop := - LossAcceptableStartup <= x <= MaxInt64.

Lemma maxCredit_startup packets : - int64 (maxCredit packets) = - LossAcceptableStartup.
Proof.
  unfold maxCredit, LossAcceptablePercent. rewrite Z.mul_0_r.
  reflexivity.
Qed.

Section Route.
Context {W : World} {Tun : Type}.

(** A message handed to a connection: only the peer, the clock and the trace
    change, and the message is the last call made. *)
Lemma SendCustomMessage_spec peer req (g : Gateway Tun) p :
  g_peers g !! peer = Some p ->
  exists g' res, SendCustomMessage peer req g = (g', match res with None => Ok tt | Some e => Err e end) /\
    sectionView g' = sectionView g /\ g_statsRouted g' = g_statsRouted g /\
    match getConn p with
    | Some conn => g_trace g' = g_trace g ++ [EvSend conn req res]
    | None => g' = g /\ res = Some ErrNotConnected
    end.
Proof.
  intros Hp. unfold SendCustomMessage. run. rewrite (deref_run _ _ _ _ Hp). run.
  destruct (getConn p) as [conn|] eqn:E; [|by exists g, (Some ErrNotConnected)].
  run. unfold updPeer, emit. run.
  match goal with |- context [w_connSend ?t conn req] => set (res := w_connSend t conn req) end.
  clearbody res. destruct res as [e|]; [eexists _, (Some e)|eexists _, None]; (split; [reflexivity|done]).
Qed.

(** The state with one route of one section replaced. *)
Definition setRoute (g : Gateway Tun) (s : nat) (sec : SectionState) (id : Z) (r : RouteState) : Gateway Tun :=
  set_g_sections (<[s := set_s_routes (<[id := r]> (s_routes sec)) sec]> (g_sections g)) g.

Lemma updRoute_run s id f (g : Gateway Tun) sec r :
  g_sections g !! s = Some sec -> s_routes sec !! id = Some r ->
  updRoute s id f g = (setRoute g s sec id (f r), Ok tt).
Proof.
  intros Hs Hr. unfold updRoute, updSection. run. rewrite (alter_Some _ _ _ _ Hs).
  by rewrite (alter_Some _ _ _ _ Hr).
Qed.

(** The route of a section whose entry was just written. *)
Lemma updRoute_set s id f (g g' : Gateway Tun) sec r :
  g_sections g' = <[s := set_s_routes (<[id := r]> (s_routes sec)) sec]> (g_sections g) ->
  exists g'', updRoute s id f g' = (g'', Ok tt) /\
    g_sections g'' = <[s := set_s_routes (<[id := f r]> (s_routes sec)) sec]> (g_sections g) /\
    g'' = set_g_sections (g_sections g'') g'.
Proof.
  intros Hg. eexists. split; [eapply updRoute_run; rewrite ?Hg; apply lookup_insert_eq|].
  unfold setRoute. cbn. rewrite Hg, !insert_insert_eq. done.
Qed.

Section Spec.
Context (s : nat) (id : Z) (g : Gateway Tun) (sec : SectionState) (r : RouteState).
Context (Hs : g_sections g !! s = Some sec) (Hr : s_routes sec !! id = Some r).
Context (Hprice : 0 <= rt_PricePerPacket (r_Target r)) (Hpre : prepaidRange (r_PrepaidPackets r)).

Lemma setRoute_same :
  <[s := set_s_routes (<[id := r]> (s_routes sec)) sec]> (g_sections g) = g_sections g.
Proof using Hs Hr.
  rewrite (insert_id (s_routes sec) id r Hr). replace (set_s_routes (s_routes sec) sec) with sec by by destruct sec.
  by rewrite insert_id.
Qed.

(** The decision before the packet is sent: free, covered, on the free rate or
    refused. *)
Lemma payForPacket_spec :
  exists g' r' o, payForPacket s id r g = (g', o) /\
    g_sections g' = <[s := set_s_routes (<[id := r']> (s_routes sec)) sec]> (g_sections g) /\
    g' = set_g_tick (g_tick g') (set_g_sections (g_sections g') g) /\
    (   (rt_PricePerPacket (r_Target r) = 0 /\ r' = r /\ o = Ok false)
     \/ (0 < rt_PricePerPacket (r_Target r) /\ covered r = true /\
         r' = set_r_PrepaidPackets (r_PrepaidPackets r - 1) r /\ o = Ok true)
     \/ (exists t rate added, 0 < rt_PricePerPacket (r_Target r) /\ covered r = false /\
         w_bucketAdd t (r_rate r) 1 = (rate, added) /\ r' = set_r_rate rate r /\
         o = if added <=? 0 then Err (Errorf "free packets exceeds rate limit for route") else Ok false)).
Proof using Hs Hr Hprice Hpre.
  unfold payForPacket. destruct (Z.ltb_spec 0 (rt_PricePerPacket (r_Target r))) as [Hp|Hp].
  2:{ exists g, r, (Ok false). split; [done|]. split; [by rewrite setRoute_same|].
      split; [by destruct g|]. left. split; [lia|done]. }
  rewrite maxCredit_startup. run. destruct (covered r) eqn:Hc.
  - unfold covered in Hc. apply andb_prop in Hc as [Hrec Hlt]. rewrite Hrec, Hlt. run.
    rewrite (updRoute_run _ _ _ _ _ _ Hs Hr). run. apply Z.ltb_lt in Hlt.
    assert (int64 (r_PrepaidPackets r - 1) = r_PrepaidPackets r - 1) as ->.
    { apply int64_id. unfold prepaidRange, MaxInt64, LossAcceptableStartup, in_int64 in *. lia. }
    rewrite (proj2 (Z.leb_le _ _)) by lia. run.
    eexists _, _, _. split; [reflexivity|]. split; [reflexivity|]. split; [by destruct g|]. right. left. done.
  - destruct (w_bucketAdd (g_tick g) (r_rate r) 1) as [rate added] eqn:Hb.
    assert ((if r_PaymentReceived r then if - LossAcceptableStartup <? r_PrepaidPackets r then
        updRoute s id (set_r_PrepaidPackets (int64 (r_PrepaidPackets r - 1))) ;;
        mret (- LossAcceptableStartup <=? int64 (r_PrepaidPackets r - 1)) else mret false else mret false) g
      = (g, Ok false)) as ->.
    { unfold covered in Hc. destruct (r_PaymentReceived r); [|done]. simpl in Hc. by rewrite Hc. }
    run. rewrite Hb. run. rewrite (updRoute_run _ _ _ (set_g_tick _ g) _ _ Hs Hr). run.
    eexists _, (set_r_rate rate r), (if added <=? 0 then _ else Ok false).
    split; [destruct (added <=? 0); reflexivity|]. split; [reflexivity|]. split; [by destruct g|].
    right. right. by exists (g_tick g), rate, added.
Qed.

End Spec.

(** The send, from a state whose section holds the route [r1]. *)
Lemma forward_spec s id (g g1 : Gateway Tun) sec r1 target msg paid p :
  g_sections g1 = <[s := set_s_routes (<[id := r1]> (s_routes sec)) sec]> (g_sections g) ->
  g_peers g1 !! rt_Peer target = Some p ->
  exists g' res, forward s id target msg paid g1 = (g', routeResult (Some res)) /\
    g_sections g' = <[s := set_s_routes (<[id :=
      match res with
      | None => set_r_PacketsRouted (uint64 (r_PacketsRouted r1 + 1)) r1
      | Some _ => if paid then set_r_PrepaidPackets (int64 (r_PrepaidPackets r1 + 1)) r1 else r1
      end]> (s_routes sec)) sec]> (g_sections g) /\
    (g_payments g', g_inboundSections g', g_channels g', g_tunnels g')
      = (g_payments g1, g_inboundSections g1, g_channels g1, g_tunnels g1) /\
    g_statsRouted g' = match res with None => uint64 (g_statsRouted g1 + 1) | _ => g_statsRouted g1 end /\
    match getConn p with
    | Some conn => g_trace g' = g_trace g1 ++ [EvSend conn msg res]
    | None => g_trace g' = g_trace g1
    end.
Proof.
  intros Hg1 Hp. unfold forward. run. rewrite attempt_run.
  destruct (SendCustomMessage_spec (rt_Peer target) msg g1 p Hp) as (g2 & res & -> & Hview & Hst & Htr).
  injection Hview as Hsec Hpay Hin Hch Htun _ _ _.
  assert (match getConn p with Some conn => g_trace g2 = g_trace g1 ++ [EvSend conn msg res]
          | None => g_trace g2 = g_trace g1 end) as Htr'.
  { destruct (getConn p); [done|]. by destruct Htr as [-> _]. }
  clear Htr. destruct res as [e|]; run.
  - assert (exists g', (if paid then updRoute s id (fun r => set_r_PrepaidPackets (int64 (r_PrepaidPackets r + 1)) r)
      else mret tt) g2 = (g', Ok tt) /\ g' = set_g_sections (g_sections g') g2 /\
      g_sections g' = <[s := set_s_routes (<[id :=
        if paid then set_r_PrepaidPackets (int64 (r_PrepaidPackets r1 + 1)) r1 else r1]> (s_routes sec)) sec]> (g_sections g))
      as (g3 & -> & Eg3 & Hg3).
    { destruct paid.
      - destruct (updRoute_set s id (fun r => set_r_PrepaidPackets (int64 (r_PrepaidPackets r + 1)) r) g g2 sec r1)
          as (g3 & H1 & H2 & H3); [by rewrite Hsec|]. by exists g3.
      - exists g2. split; [done|]. split; [by destruct g2|]. by rewrite Hsec. }
    run. exists g3, (Some e). split; [done|]. split; [done|]. rewrite Eg3. cbn.
    split_and!; congruence.
  - destruct (updRoute_set s id (fun r => set_r_PacketsRouted (uint64 (r_PacketsRouted r + 1)) r) g g2 sec r1)
      as (g3 & -> & H2 & H3); [by rewrite Hsec|]. run.
    eexists _, None. split; [reflexivity|]. cbn. split; [done|]. rewrite H3. cbn.
    split_and!; congruence.
Qed.

(** All of [Route.Route]: the route steps as [routeStep] says, nothing else in
    the section changes, and what is sent is the message of the target. *)
Lemma Route_Route_spec s id (g : Gateway Tun) sec r p payload_ cached instructions seqno :
  g_sections g !! s = Some sec -> s_routes sec !! id = Some r ->
  0 <= rt_PricePerPacket (r_Target r) -> prepaidRange (r_PrepaidPackets r) ->
  g_peers g !! rt_Peer (r_Target r) = Some p ->
  exists g' r' sent, Route_Route s id payload_ cached instructions seqno g = (g', routeResult sent) /\
    routeStep r r' sent /\
    g_sections g' = <[s := set_s_routes (<[id := r']> (s_routes sec)) sec]> (g_sections g) /\
    (g_payments g', g_inboundSections g', g_channels g', g_tunnels g')
      = (g_payments g, g_inboundSections g, g_channels g, g_tunnels g) /\
    g_statsRouted g' = match sent with Some None => uint64 (g_statsRouted g + 1) | _ => g_statsRouted g end /\
    match sent, getConn p with
    | Some res, Some conn =>
        g_trace g' = g_trace g ++ [EvSend conn (routedMessage (r_Target r) payload_ cached instructions seqno) res]
    | _, _ => g_trace g' = g_trace g
    end.
Proof.
  intros Hs Hr Hprice Hpre Hpeer.
  destruct (payForPacket_spec s id g sec r Hs Hr Hprice Hpre) as (g1 & r1 & o & Hpay & Hg1 & Eg1 & Hcase).
  unfold Route_Route. run. rewrite (deref_run _ _ _ _ Hs). run. rewrite Hr. run. rewrite Hpay.
  set (msg := routedMessage _ _ _ _ _).
  assert (g_peers g1 !! rt_Peer (r_Target r) = Some p) as Hp1 by by rewrite Eg1.
  pose proof (fun b => forward_spec s id g g1 sec r1 (r_Target r) msg b p Hg1 Hp1) as Hf.
  assert ((g_payments g1, g_inboundSections g1, g_channels g1, g_tunnels g1)
    = (g_payments g, g_inboundSections g, g_channels g, g_tunnels g)) as Hv by by rewrite Eg1.
  assert (g_statsRouted g1 = g_statsRouted g) as Hstats by by rewrite Eg1.
  assert (g_trace g1 = g_trace g) as Htrace by by rewrite Eg1.
  rewrite Hv, Hstats, Htrace in Hf. clear Eg1.
  destruct Hcase as [(Hz & -> & ->)|[(Hpos & Hcov & -> & ->)|(t & rate & added & Hpos & Hcov & Hb & -> & ->)]].
  - destruct (Hf false) as (g' & res & -> & Hf'). eexists g', _, (Some res). split; [done|].
    split; [|exact Hf']. destruct res; by constructor.
  - destruct (Hf true) as (g' & res & -> & Hf'). eexists g', _, (Some res). split; [done|].
    split; [|exact Hf']. destruct res; cbn; [|by constructor].
    replace (set_r_PrepaidPackets _ _) with r; [by constructor|].
    rewrite Z.sub_add, int64_id; [by destruct r|].
    unfold prepaidRange, MaxInt64, LossAcceptableStartup, in_int64 in *. lia.
  - destruct (Z.leb_spec added 0) as [Ha|Ha].
    + exists g1, (set_r_rate rate r), None. split; [done|]. split; [by econstructor|].
      split; [done|]. by split_and!.
    + destruct (Hf false) as (g' & res & -> & Hf'). eexists g', _, (Some res). split; [done|].
      split; [|exact Hf']. destruct res; [by eapply unpaid_failed|by apply (unpaid_sent r rate added t)].
Qed.
End Route.

(** C15: [Route.Route] does one of seven things to a route and nothing else to
    the section: a free route forwards; on a priced one a packet covered by a
    payment takes exactly one from the balance and gives it back when the next
    node is not reached, and a packet that is not covered needs a token of the
    free rate, without which nothing is sent.  The counters move exactly on the
    packets that were sent, the balance never below the credit limit, and what
    is sent is the payload unchanged, to the section of the target. *)
Theorem Route_accounting {W : World} {Tun : Type} s id (g : Gateway Tun) sec r p payload_ cached instructions seqno :
  g_sections g !! s = Some sec -> s_routes sec !! id = Some r ->
  0 <= rt_PricePerPacket (r_Target r) -> prepaidRange (r_PrepaidPackets r) ->
  g_peers g !! rt_Peer (r_Target r) = Some p ->
  exists g' r' sent, Route_Route s id payload_ cached instructions seqno g = (g', routeResult sent) /\
    routeStep r r' sent /\
    g_sections g' = <[s := set_s_routes (<[id := r']> (s_routes sec)) sec]> (g_sections g) /\
    (g_payments g', g_inboundSections g', g_channels g', g_tunnels g')
      = (g_payments g, g_inboundSections g, g_channels g, g_tunnels g) /\
    g_statsRouted g' = match sent with Some None => uint64 (g_statsRouted g + 1) | _ => g_statsRouted g end /\
    match sent, getConn p with
    | Some res, Some conn =>
        g_trace g' = g_trace g ++ [EvSend conn (routedMessage (r_Target r) payload_ cached instructions seqno) res]
    | _, _ => g_trace g' = g_trace g
    end.
Proof. apply Route_Route_spec. Qed.

(** A connected node 21 with a route at price 5, paid for 1000 packets. *)
Definition paidGateway (W : World) : Gateway (W := W) unit :=
  (handleAll W [packet 1 [buildRouteTo [21] 5;
     Payment (mkPayment [66] (PutUint64 5000) (Z.shiftl PaymentPurposeRoute 32 + 1) false)] [9]]
   (connHandler [21] (mkConn 21 "10.0.0.21:1") (startGateway W paidConfig)).1).1.

Lemma Route_accounting_witness :
  let g := paidGateway sampleWorld in
  r_PrepaidPackets (routeOf g 0 1) = 1000 /\
  exists g' r' sent, Route_Route 0%nat 1 [9] true [] 3 g = (g', routeResult sent) /\
    routeStep (routeOf g 0 1) r' sent.
Proof.
  assert (rt_Peer (r_Target (routeOf (paidGateway sampleWorld) 0 1)) = 1%nat) as Ep by (vm_compute; reflexivity).
  pose proof (Route_accounting 0%nat 1 (paidGateway sampleWorld) (sectionOf (paidGateway sampleWorld) 0)
    (routeOf (paidGateway sampleWorld) 0 1) (peerOf (paidGateway sampleWorld) 1) [9] true [] 3) as H.
  rewrite Ep in H.
  specialize (H (sectionOf_known (paidGateway sampleWorld) 0 ltac:(vm_compute; reflexivity))).
  specialize (H (routeOf_known (paidGateway sampleWorld) 0 1 ltac:(vm_compute; reflexivity))).
  specialize (H ltac:(vm_compute; congruence) ltac:(vm_compute; split; congruence)).
  specialize (H (peerOf_known (paidGateway sampleWorld) 1 ltac:(vm_compute; reflexivity))).
  split; [vm_compute; reflexivity|]. destruct H as (g' & r' & sent & Hrun & Hstep & _).
  exists g', r', sent. split; [exact Hrun|exact Hstep].
Defined.
