(* ===== verification/Invariants.v ===== *)
(** * The invariant of a node

    Whatever messages arrive, a section never has more than three routes, no
    route and no out gateway is cheaper than the configured minimum, the unpaid
    credit stays within its limit, balances never wrap around, and a cached
    route action always finds its route. *)

From S2P Require Import Prelude Seqno Stream Wire Samples Keys Hoare State Peers Node Payments OutGate Gateway Worlds Traffic.

Section Invariant.
Context {C : CipherCtr} {T : TL} {K : KeyAgreement} {W : World} {Tun : Type} {TP : Tunnel Tun}.
Implicit Types (g : Gateway Tun) (pay : PaymentConfig).

Record routeOk pay (id : Z) (r : RouteState) : Prop := {
  ro_id : r_ID r = id;
  ro_price : MinPricePerPacketRoute pay <= rt_PricePerPacket (r_Target r);
  ro_prepaid : prepaidRange (r_PrepaidPackets r);
}.

(** [floor] is how far the balance of incoming packets may go down. *)
Record outOk pay (floor : Z) (o : Out) : Prop := {
  oo_free : 0 <= o_PricePerPacket o;
  oo_price : Service pay = true -> MinPricePerPacketInOut pay <= o_PricePerPacket o;
  oo_in : floor <= o_PrepaidPacketsIn o <= MaxInt64;
  oo_out : 0 <= o_PrepaidPacketsOut o <= MaxInt64;
  oo_crc : o_PayloadCipherKeyCRC o = Checksum (o_PayloadCipherKey o);
}.

Record sectionOk pay (floor : Z) (sec : SectionState) : Prop := {
  so_size : Z.of_nat (size (s_routes sec)) <= MaxActiveRoutesPerSection;
  so_routes : map_Forall (routeOk pay) (s_routes sec);
  so_out : forall o, s_out sec = Some o -> outOk pay floor o;
  so_cache : forall id, RouteCachedAction id ∈ s_cachedActions sec -> is_Some (s_routes sec !! id);
}.

Definition nodeOk pay (floor : nat -> Z) g : Prop :=
  g_payments g = pay /\ map_Forall (fun s sec => sectionOk pay (floor s) sec) (g_sections g).

(** The prices of the configuration are unsigned. *)
Context (pay : PaymentConfig) (Hmin : 0 <= MinPricePerPacketRoute pay) (Hmin' : 0 <= MinPricePerPacketInOut pay).

Context (floor : nat -> Z) (Hfloor : forall s, - 2 ^ 63 < floor s <= 0).

Abbreviation nodeInv := (nodeOk pay floor).

Lemma nodeInv_view g g' :
  (g_sections g, g_payments g) = (g_sections g', g_payments g') -> nodeInv g -> nodeInv g'.
Proof. unfold nodeOk. intros [= -> ->]. done. Qed.

Lemma nodeInv_onSections : onSections nodeInv.
Proof. intros g g' [= H1 H2 _ _ _ _ _ _]. apply nodeInv_view. congruence. Qed.

Lemma nodeInv_section g s sec : nodeInv g -> g_sections g !! s = Some sec -> sectionOk pay (floor s) sec.
Proof. intros (_ & H) Hs. by apply (H s). Qed.

(** ** Changing one section *)

Lemma nodeInv_set g g' s sec :
  nodeInv g -> g_payments g' = g_payments g -> sectionOk pay (floor s) sec ->
  g_sections g' = <[s := sec]> (g_sections g) -> nodeInv g'.
Proof.
  intros (H1 & H) Hp Hsec Hs. unfold nodeOk. rewrite Hp, Hs. split; [done|].
  by apply map_Forall_insert_2.
Qed.

Lemma preserves_updSection s f :
  (forall sec, sectionOk pay (floor s) sec -> sectionOk pay (floor s) (f sec)) ->
  preserves nodeInv (updSection s f).
Proof.
  intros Hf g Hg. unfold updSection. run. destruct (g_sections g !! s) as [sec|] eqn:E; cbn [fst].
  - rewrite (alter_Some _ _ _ _ E). eapply (nodeInv_set g _ s (f sec)); [done|done| |done].
    apply Hf. by eapply nodeInv_section.
  - apply (nodeInv_view g); [|done]. cbn. by rewrite alter_None.
Qed.

Lemma sectionOk_setRoute fl sec id r r' :
  sectionOk pay fl sec -> s_routes sec !! id = Some r -> routeOk pay id r' ->
  sectionOk pay fl (set_s_routes (<[id := r']> (s_routes sec)) sec).
Proof.
  intros [Hsz Hr Ho Hc] Hid Hr'. constructor; cbn; [|by apply map_Forall_insert_2|done|].
  - by rewrite map_size_insert_Some by eauto.
  - intros id' Hin. destruct (decide (id = id')) as [<-|]; [rewrite lookup_insert_eq; eauto|].
    rewrite lookup_insert_ne by done. by apply Hc.
Qed.

Lemma preserves_updRoute s id f :
  (forall r, routeOk pay id r -> routeOk pay id (f r)) ->
  preserves nodeInv (updRoute s id f).
Proof.
  intros Hf. apply preserves_updSection. intros sec Hsec.
  destruct (s_routes sec !! id) as [r|] eqn:E.
  - rewrite (alter_Some _ _ _ _ E). eapply sectionOk_setRoute; [done|done|]. apply Hf. by apply (so_routes pay (floor s) sec).
  - replace (alter f id (s_routes sec)) with (s_routes sec); [by destruct sec|].
    by rewrite alter_None.
Qed.

Lemma preserves_updOut s f :
  (forall o, outOk pay (floor s) o -> outOk pay (floor s) (f o)) -> preserves nodeInv (updOut s f).
Proof.
  intros Hf. apply preserves_updSection. intros sec [Hsz Hr Ho Hc].
  constructor; cbn; [done|done| |done]. intros o. destruct (s_out sec) as [o'|] eqn:E; cbn; [|done].
  intros [= <-]. by apply Hf, Ho.
Qed.

(** ** The balances *)

Lemma addPrepaid_spec at_ num :
  - 2 ^ 63 < at_ < 2 ^ 63 -> 0 <= num -> addPrepaid at_ num = Z.min MaxInt64 (at_ + num).
Proof.
  intros Hat Hnum. unfold addPrepaid, BitLen, MaxInt64. rewrite (Z.add_comm num).
  destruct (Z.eqb_spec (at_ + num) 0) as [E|E]; [rewrite (proj2 (Z.leb_gt _ _)) by lia|].
  - rewrite E. assert (int64 (at_ + int64 num) = 0) as ->; [|lia].
    rewrite (int64_id num), E by (unfold in_int64; lia). done.
  - destruct (Z.leb_spec 64 (Z.log2 (Z.abs (at_ + num)) + 1)) as [H|H].
    + assert (2 ^ 63 <= Z.abs (at_ + num)) by (apply Z.log2_le_pow2; lia). lia.
    + assert (Z.abs (at_ + num) < 2 ^ 63) by (apply Z.log2_lt_pow2; lia).
      assert (int64 (at_ + int64 num) = at_ + num) as ->; [|lia].
      unfold int64 at 2. replace (at_ + ((num + 2 ^ 63) mod 2 ^ 64 - 2 ^ 63))
        with (at_ + num - 2 ^ 64 * ((num + 2 ^ 63) / 2 ^ 64))
        by (pose proof (Z.div_mod (num + 2 ^ 63) (2 ^ 64)); lia).
      unfold int64. replace (at_ + num - 2 ^ 64 * ((num + 2 ^ 63) / 2 ^ 64) + 2 ^ 63)
        with (at_ + num + 2 ^ 63 + (- ((num + 2 ^ 63) / 2 ^ 64)) * 2 ^ 64) by lia.
      rewrite Z.mod_add, Z.mod_small by lia. lia.
Qed.

Lemma addPrepaid_range fl at_ num :
  - 2 ^ 63 < fl <= 0 -> fl <= at_ <= MaxInt64 -> 0 <= num -> fl <= addPrepaid at_ num <= MaxInt64.
Proof. unfold MaxInt64. intros. rewrite addPrepaid_spec by lia. unfold MaxInt64. lia. Qed.

Lemma routeStep_ok id r r' sent : routeStep r r' sent -> routeOk pay id r -> routeOk pay id r'.
Proof.
  intros Hstep [Hid Hprice Hpre]. destruct Hstep; constructor; cbn; try done.
  unfold covered in *. unfold prepaidRange in *. destruct (r_PaymentReceived r); simpl in *; lia.
Qed.

(** ** Operations *)

Hint Resolve nodeInv_onSections : pres.

Lemma preserves_updChannel ch f : preserves nodeInv (updChannel ch f).
Proof. intros g Hg. by apply (nodeInv_view g). Qed.
Lemma preserves_allocChannel c : preserves nodeInv (@allocChannel W Tun c).
Proof. intros g Hg. by apply (nodeInv_view g). Qed.
Hint Resolve preserves_updChannel preserves_allocChannel : pres.

Lemma preserves_routingAllowed P : preserves P (@routingAllowed W Tun).
Proof. unfold routingAllowed. pres. Qed.
Lemma preserves_outAllowed P : preserves P (@outAllowed W Tun).
Proof. unfold outAllowed. pres. Qed.
Lemma preserves_closePaymentChannel ch : preserves nodeInv (closePaymentChannel ch).
Proof. unfold closePaymentChannel. pres. Qed.
Lemma preserves_Route_Close r : preserves nodeInv (Route_Close r).
Proof. unfold Route_Close, updActiveRoutes. pres. Qed.
Lemma preserves_Out_Close s o : preserves nodeInv (Out_Close s o).
Proof.
  unfold Out_Close, updActiveOut. pres. apply preserves_updOut. by intros o' [].
Qed.
Hint Resolve preserves_routingAllowed preserves_outAllowed preserves_closePaymentChannel
  preserves_Route_Close preserves_Out_Close : pres.

Lemma preserves_closeIfNotLocked s : preserves nodeInv (closeIfNotLocked s).
Proof. unfold closeIfNotLocked, updActiveSections. pres. Qed.
Lemma preserves_dropSection s : preserves nodeInv (dropSection s).
Proof. unfold dropSection. pres. intros g Hg. by apply (nodeInv_view g). Qed.
Hint Resolve preserves_closeIfNotLocked preserves_dropSection : pres.
Lemma preserves_Destroy s : preserves nodeInv (Destroy_Execute s).
Proof. unfold Destroy_Execute. pres. Qed.
Hint Resolve preserves_Destroy : pres.

(** The invariant with the section at hand. *)
Definition known (s : nat) (sec : SectionState) g : Prop := nodeInv g /\ g_sections g !! s = Some sec.

Lemma known_onSections s sec : onSections (known s sec).
Proof.
  intros g g' Hv [H1 H2]. split; [by apply (nodeInv_onSections g)|]. by injection Hv as <- _.
Qed.
Hint Resolve known_onSections : pres.

Lemma known_inv s sec g : known s sec g -> nodeInv g.
Proof. by intros []. Qed.

Lemma preserves_section {A} s (k : SectionState -> GM Tun A) :
  (forall sec, triple (known s sec) (k sec) (fun _ => nodeInv) nodeInv) ->
  preserves nodeInv (deref g_sections s ≫= k).
Proof.
  intros Hk g Hg. rewrite bind_run. unfold deref. destruct (g_sections g !! s) as [sec|] eqn:E; [|done].
  specialize (Hk sec g (conj Hg E)). by destruct (k sec g) as [g' []].
Qed.

Lemma triple_setSection s sec sec' :
  (sectionOk pay (floor s) sec -> sectionOk pay (floor s) sec') ->
  forall g g' : Gateway Tun, known s sec g -> g_payments g' = g_payments g ->
    g_sections g' = <[s := sec']> (g_sections g) -> nodeInv g'.
Proof.
  intros Hf g g' [Hg Hs] Hp Hs'. eapply nodeInv_set; [done|done| |done]. apply Hf.
  by eapply nodeInv_section.
Qed.

Lemma cacheActions_spec s l g :
  match cacheActions s l g with
  | (g', Ok list) => g' = g /\ forall id, RouteCachedAction id ∈ list ->
      exists sec, g_sections g !! s = Some sec /\ is_Some (s_routes sec !! id)
  | (g', _) => g' = g
  end.
Proof.
  induction l as [|i l IH]; [by split; [|intros ? []%elem_of_nil]|]. cbn [cacheActions]. run.
  assert (forall a, (forall id, RouteCachedAction id = a ->
      exists sec, g_sections g !! s = Some sec /\ is_Some (s_routes sec !! id)) ->
    match (list ← cacheActions s l; mret (a :: list)) g with
    | (g', Ok list) => g' = g /\ forall id, RouteCachedAction id ∈ list ->
        exists sec, g_sections g !! s = Some sec /\ is_Some (s_routes sec !! id)
    | (g', _) => g' = g
    end) as Hcons.
  { intros a Ha. run. destruct (cacheActions s l g) as [g' [list| |]]; [|done|done].
    destruct IH as [-> IH]. run. split; [done|]. intros id [<-|Hin]%elem_of_cons; [by apply Ha|by apply IH]. }
  destruct i; try done; [run|by apply Hcons|run].
  - unfold deref. destruct (g_sections g !! s) as [sec|] eqn:Es; [|done].
    destruct (s_routes sec !! RouteID) eqn:Er; [|done]. apply Hcons. intros id [= ->]. exists sec. eauto.
  - destruct (g_tunnels g !! From); [|done]. by apply Hcons.
Qed.

Lemma preserves_Cache s v l : preserves nodeInv (Cache_Execute s v l).
Proof.
  unfold Cache_Execute. apply preserves_bind; [pres|intros sec]. destruct (v <=? _); [pres|].
  intros g Hg. rewrite bind_run. pose proof (cacheActions_spec s l g) as Hc.
  destruct (cacheActions s l g) as [g' [list|e|w]]; [|by subst|by subst]. destruct Hc as [-> Hc].
  unfold updSection. run. cbn [fst].
  destruct (g_sections g !! s) as [sec'|] eqn:Es; [|apply (nodeInv_view g); [cbn; by rewrite alter_None|done]].
  rewrite (alter_Some _ _ _ _ Es). eapply nodeInv_set; [done|done| |done].
  pose proof (nodeInv_section _ _ _ Hg Es) as [H1 H2 H3 H4].
  destruct (_ <? v); [|done]. constructor; cbn; [done|done|done|].
  intros id Hin. destruct (Hc id Hin) as (sec'' & [= <-] & Hr). done.
Qed.
Hint Resolve preserves_Cache : pres.

Lemma preserves_movePaid a b : preserves nodeInv (movePaid a b).
Proof. unfold movePaid, updActiveRoutes. pres. Qed.

Lemma sectionOk_addRoute fl sec r :
  sectionOk pay fl sec -> s_routes sec !! r_ID r = None -> routeOk pay (r_ID r) r ->
  Z.of_nat (size (s_routes sec)) < MaxActiveRoutesPerSection ->
  sectionOk pay fl (set_s_routes (<[r_ID r := r]> (s_routes sec)) sec).
Proof.
  intros [Hsz Hr Ho Hc] Hid Hr' Hlt. constructor; cbn; [|by apply map_Forall_insert_2|done|].
  - rewrite map_size_insert_None by done. lia.
  - intros id' Hin. destruct (decide (r_ID r = id')) as [<-|]; [rewrite lookup_insert_eq; eauto|].
    rewrite lookup_insert_ne by done. by apply Hc.
Qed.

Lemma triple_keep_known {A B} s sec (m : GM Tun A) (k : A -> GM Tun B) :
  preserves (known s sec) m -> (forall a, triple (known s sec) (k a) (fun _ => nodeInv) nodeInv) ->
  triple (known s sec) (m ≫= k) (fun _ => nodeInv) nodeInv.
Proof. intros Hm. apply triple_keep; [done|apply known_inv]. Qed.

Lemma triple_known {A} s sec (m : GM Tun A) :
  preserves nodeInv m -> triple (known s sec) m (fun _ => nodeInv) nodeInv.
Proof. apply triple_weaken, known_inv. Qed.

Lemma nodeInv_payments g : nodeInv g -> g_payments g = pay.
Proof. by intros []. Qed.

Lemma preserves_retarget s id target :
  MinPricePerPacketRoute pay <= rt_PricePerPacket target -> preserves nodeInv (updRoute s id (set_r_Target target)).
Proof. intros Hp. apply preserves_updRoute. by intros r []. Qed.

Lemma preserves_BuildRoute s ins : preserves nodeInv (BuildRoute_Execute s ins).
Proof.
  unfold BuildRoute_Execute. apply preserves_bind; [pres|intros _].
  apply preserves_get_bind. intros g0 Hpay%nodeInv_payments. rewrite Hpay.
  apply preserves_guard_bind. intros Hprice%Z.ltb_ge.
  apply preserves_bind; [pres|intros peer]. set (target := mkRouteTarget _ _ _ _).
  apply preserves_section. intros sec. destruct (s_routes sec !! br_RouteID ins) as [route|] eqn:Er.
  - apply triple_known. unfold retarget. pose proof preserves_movePaid. pose proof (preserves_retarget s (br_RouteID ins) target Hprice).
    pres.
  - unfold addRoute. apply triple_guard_bind; [apply known_inv|intros Hsize%Z.leb_gt].
    apply triple_keep_known; [pres|intros _]. set (route := mkRoute _ _ _ _ _ _).
    apply (triple_bind _ _ _ (fun _ => nodeInv)); [|intros _; apply triple_preserves; unfold updActiveRoutes; pres].
    apply triple_modify. intros g Hg. eapply (triple_setSection s sec); [|exact Hg|done|].
    2:{ cbn. rewrite (alter_Some _ _ _ sec); [reflexivity|by destruct Hg]. }
    intros Hsec. apply (sectionOk_addRoute _ sec route); [done|done| |done].
    constructor; [done|done|]. unfold prepaidRange, LossAcceptableStartup, MaxInt64. cbn. lia.
Qed.

(** Forwarding, also when the target's peer is gone. *)
Lemma preserves_Route_Route s id payload_ cached instructions seqno :
  preserves nodeInv (Route_Route s id payload_ cached instructions seqno).
Proof using Hmin Hfloor.
  unfold Route_Route. apply preserves_section. intros sec g [Hg Hs].
  destruct (s_routes sec !! id) as [r|] eqn:Er; [|done].
  pose proof (nodeInv_section _ _ _ Hg Hs) as Hsec. pose proof (so_routes _ _ _ Hsec _ _ Er) as Hr.
  assert (0 <= rt_PricePerPacket (r_Target r)) as Hp by (pose proof (ro_price _ _ _ Hr); lia).
  pose proof (ro_prepaid _ _ _ Hr) as Hpre.
  assert (forall g' r', routeOk pay id r' -> g_payments g' = g_payments g ->
    g_sections g' = <[s := set_s_routes (<[id := r']> (s_routes sec)) sec]> (g_sections g) -> nodeInv g') as Hset.
  { intros g' r' Hr' Hpay Hg'. eapply nodeInv_set; [done|done| |done]. by eapply sectionOk_setRoute. }
  destruct (g_peers g !! rt_Peer (r_Target r)) as [p|] eqn:Ep.
  - destruct (Route_Route_spec s id g sec r p payload_ cached instructions seqno Hs Er Hp Hpre Ep)
      as (g' & r' & sent & Hrun & Hstep & Hg' & Hv & _).
    unfold Route_Route in Hrun. rewrite bind_run, (deref_run _ _ _ _ Hs), Er in Hrun. rewrite Hrun.
    enough (nodeInv g') by (by destruct (routeResult sent)).
    injection Hv as Hpay _ _ _. by apply (Hset g' r' (routeStep_ok _ _ _ _ Hstep Hr)).
  - destruct (payForPacket_spec s id g sec r Hs Er Hp Hpre) as (g1 & r1 & o & Hpay & Hg1 & Eg1 & Hcase).
    assert (routeOk pay id r1) as Hr1.
    { destruct Hcase as [(_ & -> & _)|[(Hpos & Hcov & -> & _)|(t & rate & added & _ & _ & _ & -> & _)]];
        [done| |destruct Hr; by constructor].
      eapply routeStep_ok in Hr; [|apply paid_sent; done]. destruct Hr; by constructor. }
    assert (nodeInv g1) as Hinv by (apply (Hset g1 r1 Hr1); [by rewrite Eg1|done]).
    rewrite bind_run, Hpay. destruct o as [paid|e|w]; [|done|done].
    unfold forward. rewrite bind_run, attempt_run. unfold SendCustomMessage. rewrite bind_run.
    unfold deref. assert (g_peers g1 !! rt_Peer (r_Target r) = None) as -> by by rewrite Eg1. done.
Qed.
Hint Resolve preserves_BuildRoute preserves_Route_Route : pres.

Lemma preserves_Route s id msg rest : preserves nodeInv (Route_Execute s id msg rest).
Proof using Hmin Hfloor. unfold Route_Execute. pres. Qed.
Lemma preserves_RouteCached s id msg : preserves nodeInv (RouteCachedAction_Execute s id msg).
Proof using Hmin Hfloor. unfold RouteCachedAction_Execute. pres. Qed.
Hint Resolve preserves_Route preserves_RouteCached : pres.

(** ** Payments *)

Lemma preserves_creditRoute s id num : 0 <= num -> preserves nodeInv (creditRoute s id num).
Proof.
  intros Hnum. apply preserves_updRoute. intros r [H1 H2 H3]. constructor; [done|done|].
  by apply addPrepaid_range.
Qed.

Lemma preserves_creditOut s amt : 0 < amt -> preserves nodeInv (creditOut s amt).
Proof.
  intros Hamt. unfold creditOut. apply preserves_section. intros sec g [Hg Hs].
  destruct (s_out sec) as [o|] eqn:Eo; [|done]. destruct (Z.eqb_spec (o_PricePerPacket o) 0); [done|].
  pose proof (so_out _ _ _ (nodeInv_section _ _ _ Hg Hs) o Eo) as Ho.
  assert (0 <= amt / o_PricePerPacket o) by (apply Z.div_pos; [lia|]; pose proof (oo_free _ _ _ Ho); lia).
  clear Hs. revert g Hg. apply triple_preserves, preserves_updOut.
  intros o' [H1 H2 H3 H4 H5]. constructor; cbn; [done|done|by apply addPrepaid_range| |done].
  rewrite addPrepaid_spec by (unfold MaxInt64 in *; lia). unfold MaxInt64 in *. lia.
Qed.

Lemma paymentMutation_ok s v amt :
  0 < amt -> triple nodeInv (paymentMutation s v amt) (fun m g => nodeInv g /\ preserves nodeInv m) nodeInv.
Proof using Hmin Hfloor.
  intros Hamt g Hg. unfold paymentMutation. rewrite bind_run. unfold deref.
  destruct (g_sections g !! s) as [sec|] eqn:Es; [|done].
  destruct (_ =? PaymentPurposeOut).
  - destruct (s_out sec) as [o|]; [|done]. rewrite bind_run, guard_run. destruct (_ && _); [done|].
    split; [done|]. by apply preserves_creditOut.
  - destruct (_ =? PaymentPurposeRoute); [|done].
    destruct (s_routes sec !! _) as [r|] eqn:Er; [|done]. rewrite bind_run, guard_run.
    destruct (Z.eqb_spec (rt_PricePerPacket (r_Target r)) 0); [done|]. rewrite bind_run, guard_run.
    destruct (_ && _); [done|]. split; [done|]. apply preserves_creditRoute.
    pose proof (so_routes _ _ _ (nodeInv_section _ _ _ Hg Es) _ _ Er) as Hr.
    apply Z.div_pos; [lia|]. pose proof (ro_price _ _ _ Hr). lia.
Qed.

Lemma preserves_applyPayment s ins st ch fresh : preserves nodeInv (applyPayment s ins st ch fresh).
Proof using Hmin Hfloor.
  unfold applyPayment. apply preserves_bind; [pres|intros v]. apply preserves_bind; [pres|intros _].
  set (amt := Amount st - _). destruct (Z.leb_spec amt 0) as [|Hamt]; [pres|].
  apply preserves_bind; [pres|intros _]. apply preserves_bind; [pres|intros now].
  apply preserves_bind; [pres|intros _]. apply triple_preserves.
  eapply triple_bind; [by apply paymentMutation_ok|]. intros m.
  intros g [Hg Hm]. revert g Hg. apply triple_preserves. pres.
Qed.

Lemma preserves_loadPaymentState ins : preserves nodeInv (loadPaymentState ins).
Proof. unfold loadPaymentState. pres. Qed.
Lemma preserves_fetchChannel ins : preserves nodeInv (fetchChannel ins).
Proof. unfold fetchChannel, lastKnown. pres. Qed.
Lemma preserves_installChannel s ins v : preserves nodeInv (installChannel s ins v).
Proof. unfold installChannel. pres. apply preserves_updSection. by intros sec []. Qed.
Hint Resolve preserves_applyPayment preserves_loadPaymentState preserves_fetchChannel
  preserves_installChannel : pres.
Lemma preserves_Payment s ins : preserves nodeInv (Payment_Execute s ins).
Proof using Hmin Hfloor. unfold Payment_Execute, findChannel. pres. Qed.
Hint Resolve preserves_Payment : pres.

(** ** The out gateway *)

Lemma preserves_getOut P s : preserves P (@getOut W Tun s).
Proof. unfold getOut. pres. Qed.
Hint Resolve preserves_getOut : pres.
Lemma preserves_sendBack s obj b : preserves nodeInv (sendBack s obj b).
Proof. unfold sendBack. pres. apply preserves_updOut. by intros o []. Qed.
Lemma preserves_nextSentIn s : preserves nodeInv (nextSentIn s).
Proof. unfold nextSentIn. pres. apply preserves_updOut. by intros o []. Qed.
Hint Resolve preserves_sendBack preserves_nextSentIn : pres.

Definition outPrice (ins : BindOutInstruction) : Z := if Service pay then bo_PricePerPacket ins else 0.

Lemma preserves_reconfigureOut s o key ins price :
  0 <= price -> (Service pay = true -> MinPricePerPacketInOut pay <= price) ->
  preserves nodeInv (reconfigureOut s o key ins price).
Proof.
  intros H0 Hp. unfold reconfigureOut. pres.
  all: apply preserves_updOut; intros o' []; by constructor.
Qed.

Lemma preserves_openOut s peer conn key ins price :
  0 <= price -> (Service pay = true -> MinPricePerPacketInOut pay <= price) ->
  preserves nodeInv (updSection s (set_s_out (Some (newOut peer conn key ins price)))).
Proof.
  intros H0 Hp. apply preserves_updSection. intros sec [H1 H2 H3 H4].
  constructor; cbn; [done|done| |done]. intros o [= <-].
  specialize (Hfloor s). constructor; cbn; unfold MaxInt64; (done || lia).
Qed.

Lemma preserves_BindOut s ins : preserves nodeInv (BindOut_Execute s ins).
Proof using Hmin' Hfloor.
  unfold BindOut_Execute. apply preserves_bind; [pres|intros _].
  apply preserves_get_bind. intros g0 Hpay%nodeInv_payments. rewrite Hpay. clear Hpay.
  apply preserves_bind; [pres|intros addrs]. destruct addrs as [|ip addrs]; [pres|].
  apply preserves_bind; [pres|intros key].
  apply preserves_guard_bind. intros Hprice. fold (outPrice ins).
  assert (0 <= outPrice ins /\ (Service pay = true -> MinPricePerPacketInOut pay <= outPrice ins)) as [H0 Hp].
  { unfold outPrice. destruct (Service pay); simpl in Hprice; [|by split].
    apply Z.ltb_ge in Hprice. split; [lia|done]. }
  pose proof (preserves_reconfigureOut s). pose proof (preserves_openOut s).
  unfold openOut, updActiveOut. pres.
Qed.

Lemma preserves_payForOut s o : outOk pay (floor s) o ->
  triple (fun g => nodeInv g /\ exists sec, g_sections g !! s = Some sec /\ s_out sec = Some o)
    (payForOut s o) (fun _ => nodeInv) nodeInv.
Proof.
  intros Ho g (Hg & sec & Hs & Eo). unfold payForOut. destruct (0 <? _); [|done].
  rewrite bind_run, guard_run. destruct (_ <? _); [done|]. rewrite bind_run, guard_run.
  destruct (Z.leb_spec (o_PrepaidPacketsOut o) 0); [done|]. unfold updOut, updSection. run.
  rewrite (alter_Some _ _ _ _ Hs), Eo. eapply nodeInv_set; [done|done| |done].
  pose proof (nodeInv_section _ _ _ Hg Hs) as [H1 H2 H3 H4]. constructor; cbn; [done|done| |done].
  intros o' [= <-]. destruct Ho. constructor; cbn; try done.
  rewrite int64_id by (unfold in_int64, MaxInt64 in *; lia). lia.
Qed.

Lemma preserves_Out_Send s payload_ : preserves nodeInv (Out_Send s payload_).
Proof.
  unfold Out_Send. intros g Hg. rewrite bind_run. unfold getOut, deref. rewrite bind_run.
  destruct (g_sections g !! s) as [sec|] eqn:Es; [|done]. destruct (s_out sec) as [o|] eqn:Eo; [|done].
  pose proof (so_out _ _ _ (nodeInv_section _ _ _ Hg Es) o Eo) as Ho. run.
  destruct (decryptStream _ _ _) as [buf res]. rewrite bind_run, wrapM_run, lift_run. cbn [fst snd].
  destruct (wrapErr _ _) as [data| |]; [|done|done]. rewrite bind_run, wrapM_run, lift_run. cbn [fst snd].
  destruct (wrapErr _ _) as [pl| |]; [|done|done]. destruct (so_Payload pl); [done|].
  rewrite bind_run, guard_run. destruct (negb _); [done|].
  rewrite bind_run. pose proof (preserves_payForOut s o Ho g) as Hpay.
  specialize (Hpay (conj Hg (ex_intro _ sec (conj Es Eo)))).
  destruct (payForOut s o g) as [g1 [[]|e|w]]; [|done|done].
  revert g1 Hpay. clear. intros g1 Hg1. revert g1 Hg1.
  match goal with |- forall g1, _ -> nodeOk _ _ ((?m) g1).1 => change (preserves nodeInv m) end.
  pres; [apply preserves_updOut; by intros o' []|]. intros g Hg. by apply (nodeInv_view g).
Qed.
Hint Resolve preserves_BindOut preserves_Out_Send : pres.

(** A worker alone takes no more than the credit. *)
Lemma preserves_Listen_worker s buf ip port :
  floor s <= - LossAcceptableStartup -> preserves nodeInv (Listen_worker s buf ip port).
Proof.
  intros Hlow. specialize (Hfloor s).
  unfold Listen_worker. intros g Hg. rewrite bind_run. unfold getOut, deref. rewrite bind_run.
  destruct (g_sections g !! s) as [sec|] eqn:Es; [|done]. destruct (s_out sec) as [o|] eqn:Eo; [|done].
  run. destruct (o_closed o); [done|].
  assert (preserves nodeInv (modify (fun g => set_g_statsReceived (uint64 (g_statsReceived g + 1)) g) ;;
    seqno ← nextSentIn s; ignore (sendBack s (PDeliverUDP (mkDeliverUDPPayload seqno ip port buf)) true))) as Hrest.
  { pres. intros g' Hg'. by apply (nodeInv_view g'). }
  rewrite bind_run. destruct (0 <? _); [|by apply Hrest].
  rewrite maxCredit_startup. destruct (Z.leb_spec (o_PrepaidPacketsIn o) (- LossAcceptableStartup)) as [|Hlt]; [done|].
  unfold updOut, updSection. run. apply Hrest. rewrite (alter_Some _ _ _ _ Es), Eo.
  eapply nodeInv_set; [done|done| |done].
  pose proof (nodeInv_section _ _ _ Hg Es) as Hsec. pose proof (so_out _ _ _ Hsec o Eo) as [H1 H2 H3 H4 H5].
  destruct Hsec. constructor; cbn; [done|done| |done]. intros o' [= <-]. constructor; cbn; try done.
  unfold prepaidRange, LossAcceptableStartup, MaxInt64 in *.
  rewrite int64_id by (unfold in_int64, MaxInt64 in *; lia). lia.
Qed.
Lemma preserves_Listen_datagram s datagram ip port :
  floor s <= - LossAcceptableStartup -> preserves nodeInv (Listen_datagram s datagram ip port).
Proof.
  intros Hlow. unfold Listen_datagram. destruct (Listen_read datagram); [by apply preserves_Listen_worker|apply preserves_ret].
Qed.

(** ** The gateway *)

Context {TOk : TunnelOk Tun}.

Lemma preserves_Process t payload_ meta : preserves nodeInv (Process t payload_ meta).
Proof using TOk. intros g Hg. apply (nodeInv_onSections g); [|done]. symmetry. apply (Process_peers t payload_ meta g). Qed.
Hint Resolve preserves_Process : pres.

Lemma preserves_Execute s i msg rest : preserves nodeInv (Execute s i msg rest).
Proof using All.
  unfold Execute, keeping, ReportStats_Execute, Deliver_Execute, SendOut_Execute, DeliverInitiator_Execute.
  destruct i; pres.
Qed.
Lemma preserves_CachedAction s a msg : preserves nodeInv (CachedAction_Execute s a msg).
Proof using All.
  unfold CachedAction_Execute, keeping, SendOutCachedAction_Execute, DeliverInitiatorCachedAction_Execute.
  destruct a; pres.
Qed.
Hint Resolve preserves_Execute preserves_CachedAction : pres.

Lemma preserves_executeAll s l msg rest : preserves nodeInv (executeAll s l msg rest).
Proof using All. revert msg. induction l as [|i l IH]; intros msg; cbn [executeAll]; pres. Qed.
Lemma preserves_executeCached s l msg : preserves nodeInv (executeCached s l msg).
Proof using All. revert msg. induction l as [|a l IH]; intros msg; cbn [executeCached]; pres. Qed.
Hint Resolve preserves_executeAll preserves_executeCached : pres.

Lemma preserves_checkSectionSeqno s n b : preserves nodeInv (checkSectionSeqno s n b).
Proof. unfold checkSectionSeqno. pres. all: apply preserves_updSection; by intros sec []. Qed.
Lemma preserves_stampSection s : preserves nodeInv (stampSection s).
Proof. unfold stampSection. pres. apply preserves_updSection; by intros sec []. Qed.

Lemma preserves_newSection peer key : preserves nodeInv (newSection peer key).
Proof.
  unfold newSection, updActiveSections. pres; [|intros g Hg; by apply (nodeInv_view g)].
  intros g Hg. eapply nodeInv_set; [done|done| |done].
  constructor; cbn; [rewrite map_size_empty; done|apply map_Forall_empty|done|by intros id []%elem_of_nil].
Qed.
Hint Resolve preserves_checkSectionSeqno preserves_stampSection preserves_newSection : pres.

Lemma preserves_messageHandler peer msg : preserves nodeInv (messageHandler peer msg).
Proof using All. unfold messageHandler, handleCached, handleEncrypted. pres. Qed.

Lemma preserves_keepAlivePeer tm peer : preserves nodeInv (keepAlivePeer tm peer).
Proof. unfold keepAlivePeer. pres. Qed.
Lemma preserves_expiredChannels tm s l : preserves nodeInv (expiredChannels tm s l).
Proof.
  induction l as [|[k ch] l IH]; cbn [expiredChannels]; pres. apply preserves_updSection; by intros sec [].
Qed.
Hint Resolve preserves_keepAlivePeer preserves_expiredChannels : pres.
Lemma preserves_keepAliveSections tm l : preserves nodeInv (keepAliveSections tm l).
Proof. induction l as [|s l IH]; cbn [keepAliveSections]; pres. Qed.
Hint Resolve preserves_keepAliveSections : pres.

(** ** A node over time: any interleaving of whole handlers *)

Inductive gateStep g : Gateway Tun -> Prop :=
| step_message peer msg : gateStep g (messageHandler peer msg g).1
| step_keepAlive : gateStep g (keepAliveTick g).1
| step_task t : t ∈ g_tasks g -> gateStep g (runTask t g).1
| step_connect id client : gateStep g (connHandler id client g).1
| step_disconnect peer client : gateStep g (disconnectHandler peer client g).1.

Inductive nodeStep g : Gateway Tun -> Prop :=
| step_gate g' : gateStep g g' -> nodeStep g g'
| step_datagram s datagram ip port : nodeStep g (Listen_datagram s datagram ip port g).1.

Inductive reachable (key : bytes) : Gateway Tun -> Prop :=
| reach_start : reachable key (NewGateway key pay)
| reach_step g g' : reachable key g -> nodeStep g g' -> reachable key g'.

(** A start with peers is a sequence of connections. *)
Lemma bootstrap_reachable key peers g : reachable key g -> reachable key (bootstrapPeers peers g).1.
Proof using Type.
  revert g. unfold bootstrapPeers. induction peers as [|peer peers IH]; intros g Hg; cbn [for_each]; [done|].
  assert (reachable key (connHandler peer.1 peer.2 g).1) as Hr by (eapply reach_step; [done|]; apply step_gate, step_connect).
  rewrite bind_run. unfold ignore. destruct (connHandler peer.1 peer.2 g) as [g' [u|e|w]]; [by apply IH..|done].
Qed.

Lemma gateStep_preserves g g' : gateStep g g' -> nodeInv g -> nodeInv g'.
Proof using All.
  intros Hstep Hg. destruct Hstep.
  - by apply preserves_messageHandler.
  - revert g Hg. change (preserves nodeInv keepAliveTick). unfold keepAliveTick. pres.
  - revert g Hg H. intros g Hg _. revert g Hg. change (preserves nodeInv (runTask t)). unfold runTask. pres.
  - revert g Hg. change (preserves nodeInv (connHandler id client)). unfold connHandler. pres.
  - revert g Hg. change (preserves nodeInv (disconnectHandler peer client)). unfold disconnectHandler. pres.
Qed.

Lemma NewGateway_inv key : nodeInv (NewGateway key pay).
Proof. split; [done|]. apply map_Forall_empty. Qed.

Lemma reachable_inv key g : (forall s, floor s <= - LossAcceptableStartup) -> reachable key g -> nodeInv g.
Proof using All.
  intros Hlow. induction 1 as [|g g' _ IH Hstep]; [apply NewGateway_inv|].
  destruct Hstep; [by eapply gateStep_preserves|by apply preserves_Listen_datagram].
Qed.
End Invariant.

(** Messages of a run are steps of the node. *)
Lemma handleAll_reachable (W : World) pay msgs g :
  reachable (C := toyCipher) (T := sampleTL) (K := sampleKA) (TP := sampleTunnel) pay nodeKey g ->
  reachable (C := toyCipher) (T := sampleTL) (K := sampleKA) (TP := sampleTunnel) pay nodeKey (handleAll W msgs g).1.
Proof.
  revert g. induction msgs as [|m msgs IH]; intros g Hg; [done|]. cbn [handleAll].
  destruct (messageHandler 0%nat m g) as [g1 o] eqn:E.
  assert (reachable (C := toyCipher) (T := sampleTL) (K := sampleKA) (TP := sampleTunnel) pay nodeKey g1) as Hg1.
  { eapply reach_step; [exact Hg|]. replace g1 with (messageHandler (C := toyCipher) (T := sampleTL) (K := sampleKA)
      (TP := sampleTunnel) 0%nat m g).1 by (by rewrite E). apply step_gate, step_message. }
  specialize (IH g1 Hg1). by destruct (handleAll W msgs g1).
Qed.

Lemma startGateway_reachable (W : World) pay :
  reachable (C := toyCipher) (T := sampleTL) (K := sampleKA) (TP := sampleTunnel) pay nodeKey (startGateway W pay).
Proof. eapply reach_step; [apply reach_start|]. unfold startGateway. apply step_gate, step_connect. Qed.


