(* ===== verification/Listen.v ===== *)
(** * The listener of an out gateway ([Out.Listen], [tunnel/instructions.go])

    One goroutine reads datagrams into buffers and queues them, eight others take
    them from the queue, charge them and send them back; the buffers go round
    through a pool that all listeners of the gateway share.  The goroutines are
    modelled step by step: every access to shared memory is a step of its own and
    the steps of all goroutines, and of the rest of the node, interleave freely.
    [Listen_datagram] of [OutGate] is the special case in which nothing comes
    between. *)

From S2P Require Import Prelude Seqno Stream Wire Samples Keys Hoare State Peers Node Payments OutGate Gateway Worlds Traffic Invariants.

(** A datagram in a buffer: the sender, the buffer and how much of it is used. *)
Record inPacket := mkInPacket { ip_from : bytes * Z; ip_buf : nat; ip_n : nat }.

(** Where the reader is: about to take a buffer, in [ReadFrom], about to queue. *)
Inductive readerPc : Type :=
| RGet
| RRead (b : nat)
| RQueue (p : inPacket)
| REnd.

(** Where a worker is in the body of its loop: it has a packet, found that the out
    gateway is not free, found credit, has to count the packet, to number it, to
    send it, and to give the buffer back. *)
Inductive workerPc : Type :=
| WIdle
| WTook (p : inPacket)
| WLoad (p : inPacket)
| WCharge (p : inPacket)
| WCount (p : inPacket)
| WNumber (p : inPacket)
| WSend (p : inPacket) (seqno : Z)
| WPut (p : inPacket)
| WEnd.

Record Listener := mkListener {
  l_section : nat;
  l_reader : readerPc;
  l_queue : list inPacket;
  l_workers : list workerPc;
}.

(** [make(chan inPacket, 256*1024)], [s.out.Listen(8)]. *)
Definition queueCap : nat := 256 * 1024.
Definition listenThreads : nat := 8.

(** A packet as it arrived at a section, or was sent back from it. *)
Definition datagramAt : Type := nat * (bytes * Z) * bytes.

Section Listen.
Context {C : CipherCtr} {T : TL} {K : KeyAgreement} {W : World} {Tun : Type} {TP : Tunnel Tun}.

(** What the goroutines share: the gateway, the buffers, the pool, and as a record
    of what happened the packets that arrived and that were sent. *)
Record shared := mkShared {
  sh_g : Gateway Tun;
  sh_bufs : gmap nat bytes;
  sh_pool : list nat;
  sh_arrived : list datagramAt;
  sh_sent : list datagramAt;
}.

Definition set_sh_g (g : Gateway Tun) (sh : shared) : shared :=
  mkShared g (sh_bufs sh) (sh_pool sh) (sh_arrived sh) (sh_sent sh).
Definition set_sh_pool (l : list nat) (sh : shared) : shared :=
  mkShared (sh_g sh) (sh_bufs sh) l (sh_arrived sh) (sh_sent sh).

Definition outAt (g : Gateway Tun) (s : nat) : option Out := g_sections g !! s ≫= s_out.

(** [conn.ReadFrom(buf)]: what does not fit is lost, the rest of the buffer stays. *)
Definition readInto (buf datagram : bytes) : bytes :=
  take (length buf) datagram ++ drop (length datagram) buf.

(** The packet a buffer holds. *)
Definition held (bufs : gmap nat bytes) (s : nat) (p : inPacket) : datagramAt :=
  (s, ip_from p, take (ip_n p) (bufs !!! ip_buf p)).

(** [sync.Pool]: [Get] returns some buffer of the pool or a new one. *)
Definition put (b : nat) (sh : shared) : shared := set_sh_pool (b :: sh_pool sh) sh.

Inductive reader_step (s : nat) (sh : shared) (q : list inPacket) : readerPc -> shared -> readerPc -> list inPacket -> Prop :=
| r_get b pool : sh_pool sh ≡ₚ b :: pool ->
    reader_step s sh q RGet (set_sh_pool pool sh) (RRead b) q
| r_new b : sh_bufs sh !! b = None ->
    reader_step s sh q RGet
      (mkShared (sh_g sh) (<[b := replicate bufSize 0]> (sh_bufs sh)) (sh_pool sh) (sh_arrived sh) (sh_sent sh)) (RRead b) q
| r_read b buf datagram from : sh_bufs sh !! b = Some buf ->
    reader_step s sh q (RRead b)
      (mkShared (sh_g sh) (<[b := readInto buf datagram]> (sh_bufs sh)) (sh_pool sh)
         (sh_arrived sh ++ [(s, from, take (length buf) datagram)]) (sh_sent sh))
      (RQueue (mkInPacket from b (Nat.min (length buf) (length datagram)))) q
| r_failed b o : outAt (sh_g sh) s = Some o -> o_closed o = false ->
    reader_step s sh q (RRead b) sh RGet q
| r_closed b o : outAt (sh_g sh) s = Some o -> o_closed o = true ->
    reader_step s sh q (RRead b) sh REnd q
| r_small p : (ip_n p < 64)%nat ->
    reader_step s sh q (RQueue p) (put (ip_buf p) sh) RGet q
| r_queue p : (64 <= ip_n p)%nat -> (length q < queueCap)%nat ->
    reader_step s sh q (RQueue p) sh RGet (q ++ [p])
| r_overflow p : (64 <= ip_n p)%nat -> (queueCap <= length q)%nat ->
    reader_step s sh q (RQueue p) (put (ip_buf p) sh) RGet q.

(** The packet a worker sends back. *)
Definition sendPacket (s : nat) (p : inPacket) (seqno : Z) (bufs : gmap nat bytes) : GM Tun unit :=
  ignore (sendBack s (PDeliverUDP (mkDeliverUDPPayload seqno (fst (ip_from p)) (snd (ip_from p))
    (take (ip_n p) (bufs !!! ip_buf p)))) true).

Definition charge (s : nat) : GM Tun unit :=
  updOut s (fun o => set_o_PrepaidPacketsIn (int64 (o_PrepaidPacketsIn o - 1)) o).
Definition countDatagram : GM Tun unit :=
  modify (fun g => set_g_statsReceived (uint64 (g_statsReceived g + 1)) g).

Inductive worker_step (s : nat) (sh : shared) : list inPacket -> workerPc -> shared -> workerPc -> list inPacket -> Prop :=
| w_stop q o : outAt (sh_g sh) s = Some o -> o_closed o = true ->
    worker_step s sh q WIdle sh WEnd q
| w_take q p : worker_step s sh (p :: q) WIdle sh (WTook p) q
| w_paid q p o : outAt (sh_g sh) s = Some o -> 0 < o_PricePerPacket o ->
    worker_step s sh q (WTook p) sh (WLoad p) q
| w_free q p o : outAt (sh_g sh) s = Some o -> o_PricePerPacket o <= 0 ->
    worker_step s sh q (WTook p) sh (WCount p) q
| w_unpaid q p o : outAt (sh_g sh) s = Some o -> o_PrepaidPacketsIn o <= - int64 (maxCredit (o_PacketsSentIn o)) ->
    worker_step s sh q (WLoad p) sh WIdle q
| w_credit q p o : outAt (sh_g sh) s = Some o -> - int64 (maxCredit (o_PacketsSentIn o)) < o_PrepaidPacketsIn o ->
    worker_step s sh q (WLoad p) sh (WCharge p) q
| w_charge q p : worker_step s sh q (WCharge p) (set_sh_g (charge s (sh_g sh)).1 sh) (WCount p) q
| w_count q p : worker_step s sh q (WCount p) (set_sh_g (countDatagram (sh_g sh)).1 sh) (WNumber p) q
| w_number q p g' seqno : nextSentIn s (sh_g sh) = (g', Ok seqno) ->
    worker_step s sh q (WNumber p) (set_sh_g g' sh) (WSend p seqno) q
| w_send q p seqno :
    worker_step s sh q (WSend p seqno)
      (mkShared (sendPacket s p seqno (sh_bufs sh) (sh_g sh)).1 (sh_bufs sh) (sh_pool sh) (sh_arrived sh)
         (sh_sent sh ++ [held (sh_bufs sh) s p])) (WPut p) q
| w_put q p : worker_step s sh q (WPut p) (put (ip_buf p) sh) WIdle q.

(** A node with its listeners. *)
Record listening := mkListening { ln_shared : shared; ln_listeners : list Listener }.

(** A listener is started once, by the instruction that opens the out gateway of a
    section; the pool may forget buffers. *)
Inductive listenStep : listening -> listening -> Prop :=
| l_gate sh ls g' : gateStep (sh_g sh) g' ->
    listenStep (mkListening sh ls) (mkListening (set_sh_g g' sh) ls)
| l_start sh ls s : TListen s ∈ g_tasks (sh_g sh) -> s ∉ map l_section ls ->
    listenStep (mkListening sh ls) (mkListening sh (ls ++ [mkListener s RGet [] (replicate listenThreads WIdle)]))
| l_forget sh ls b pool : sh_pool sh ≡ₚ b :: pool ->
    listenStep (mkListening sh ls) (mkListening (set_sh_pool pool sh) ls)
| l_read sh a l b sh' r' q' : reader_step (l_section l) sh (l_queue l) (l_reader l) sh' r' q' ->
    listenStep (mkListening sh (a ++ l :: b))
      (mkListening sh' (a ++ mkListener (l_section l) r' q' (l_workers l) :: b))
| l_work sh a s r q ws w ws' b sh' w' q' : worker_step s sh q w sh' w' q' ->
    listenStep (mkListening sh (a ++ mkListener s r q (ws ++ w :: ws') :: b))
      (mkListening sh' (a ++ mkListener s r q' (ws ++ w' :: ws') :: b)).

(** From a new gateway. *)
Definition listenStart (key : bytes) (pay : PaymentConfig) : listening :=
  mkListening (mkShared (NewGateway key pay) ∅ [] [] []) [].
End Listen.

(** ** How far the credit is overdrawn *)

Section Overdraft.
Context {C : CipherCtr} {T : TL} {K : KeyAgreement} {W : World} {Tun : Type} {TP : Tunnel Tun} {TOk : TunnelOk Tun}.
Context (pay : PaymentConfig) (Hmin : 0 <= MinPricePerPacketRoute pay) (Hmin' : 0 <= MinPricePerPacketInOut pay).
Implicit Types (st : listening (Tun := Tun)) (g : Gateway Tun).

(** Workers that found credit and have not charged their packet yet. *)
Definition charging (w : workerPc) : Z := match w with WCharge _ => 1 | _ => 0 end.
Definition sumZ (l : list Z) : Z := foldr Z.add 0 l.
Definition pendingOf (l : Listener) : Z := sumZ (map charging (l_workers l)).
Definition pending (ls : list Listener) (s : nat) : Z :=
  sumZ (map (fun l => if decide (l_section l = s) then pendingOf l else 0) ls).

Definition overdraft : Z := LossAcceptableStartup + Z.of_nat listenThreads - 1.

(** The lowest balance, when the charges that are due are made as well. *)
Definition floorOf (ls : list Listener) (s : nat) : Z := pending ls s - overdraft.

Record listenInv st : Prop := {
  li_node : nodeOk pay (floorOf (ln_listeners st)) (sh_g (ln_shared st));
  li_threads : Forall (fun l => length (l_workers l) = listenThreads) (ln_listeners st);
  li_sections : NoDup (map l_section (ln_listeners st));
}.

Lemma sumZ_app l k : sumZ (l ++ k) = sumZ l + sumZ k.
Proof. induction l as [|x l IH]; simpl; [done|]. rewrite IH. lia. Qed.

Lemma charging_range ws : 0 <= sumZ (map charging ws) <= Z.of_nat (length ws).
Proof. induction ws as [|w ws IH]; simpl; [lia|]. destruct w; simpl; lia. Qed.

Lemma pending_other ls s : s ∉ map l_section ls -> pending ls s = 0.
Proof.
  unfold pending. induction ls as [|l ls IH]; simpl; [done|]. rewrite not_elem_of_cons. intros [Hl Hls].
  rewrite decide_False by done. by rewrite IH.
Qed.

Lemma pending_app a b s : pending (a ++ b) s = pending a s + pending b s.
Proof. unfold pending. by rewrite map_app, sumZ_app. Qed.

(** A section has one listener. *)
Lemma pending_mid a l b s : NoDup (map l_section (a ++ l :: b)) ->
  pending (a ++ l :: b) s = if decide (l_section l = s) then pendingOf l else pending (a ++ b) s.
Proof.
  rewrite map_app. simpl. intros Hn. rewrite !pending_app. change (l :: b) with ([l] ++ b). rewrite pending_app.
  unfold pending at 2. simpl. apply list.NoDup_app in Hn as (_ & Ha & Hb). apply stdpp.list_relations.list.NoDup_cons in Hb as [Hb _].
  destruct (decide (l_section l = s)) as [<-|]; [|lia].
  rewrite (pending_other a) by (intros Hin; apply (Ha _ Hin); left). rewrite (pending_other b) by done. lia.
Qed.

Lemma nodeOk_mono fl fl' g : (forall s, fl' s <= fl s) -> nodeOk pay fl g -> nodeOk pay fl' g.
Proof.
  intros Hle [Hp Hs]. split; [done|]. intros s sec E. destruct (Hs s sec E) as [H1 H2 H3 H4].
  constructor; try done. intros o Ho. destruct (H3 o Ho) as [A B D F G]. specialize (Hle s). constructor; try done. lia.
Qed.

Lemma pending_range ls s :
  Forall (fun l => length (l_workers l) = listenThreads) ls -> NoDup (map l_section ls) ->
  0 <= pending ls s <= Z.of_nat listenThreads.
Proof.
  intros Hw. induction Hw as [|l ls Hl _ IH]; intros Hn; [unfold pending; simpl; lia|].
  change (l :: ls) with ([] ++ l :: ls) in *. rewrite (pending_mid [] l ls s Hn). simpl. unfold pendingOf. pose proof (charging_range (l_workers l)) as Hc.
  rewrite Hl in Hc. destruct (decide _); [done|]. apply IH. simpl in Hn. by apply stdpp.list_relations.list.NoDup_cons in Hn as [_ Hn].
Qed.

(** A floor may rise to the balance. *)
Lemma nodeOk_raise fl fl' g s o :
  nodeOk pay fl g -> outAt g s = Some o -> fl' s <= o_PrepaidPacketsIn o ->
  (forall s', s' <> s -> fl' s' = fl s') -> nodeOk pay fl' g.
Proof.
  intros [Hp Hs] Ho Hle Heq. split; [done|]. intros s' sec E. destruct (Hs s' sec E) as [H1 H2 H3 H4].
  constructor; try done. intros o' Ho'. destruct (H3 o' Ho') as [A B D F G]. constructor; try done.
  destruct (decide (s' = s)) as [->|Hne]; [|by rewrite Heq].
  unfold outAt in Ho. rewrite E in Ho. simpl in Ho. simplify_eq. lia.
Qed.

Lemma nodeOk_charge fl fl' g s :
  nodeOk pay fl g -> - 2 ^ 63 < fl s -> fl' s = fl s - 1 -> (forall s', s' <> s -> fl' s' = fl s') ->
  nodeOk pay fl' (charge s g).1.
Proof.
  intros Hg Hlow Hs Heq. assert (nodeOk pay fl' g) as Hg'.
  { eapply nodeOk_mono; [|exact Hg]. intros s'. destruct (decide (s' = s)) as [->|Hne]; [lia|]. by rewrite Heq. }
  unfold charge, updOut, updSection. run. cbn [fst].
  destruct (g_sections g !! s) as [sec|] eqn:Es; [|eapply nodeInv_view; [|exact Hg']; cbn; by rewrite alter_None].
  eapply nodeInv_set; [exact Hg'|done| |cbn; by rewrite (alter_Some _ _ _ _ Es)].
  destruct (nodeInv_section pay _ g s sec Hg Es) as [H1 H2 H3 H4]. constructor; cbn; [done|done| |done].
  intros o. destruct (s_out sec) as [o'|] eqn:Eo; [|done]. intros [= <-]. destruct (H3 o' eq_refl) as [A B D F G].
  constructor; cbn; try done. unfold MaxInt64 in *. rewrite int64_id by (unfold in_int64; lia). lia.
Qed.

Lemma worker_inv fl fl' s (sh : shared (Tun := Tun)) q w sh' w' q' :
  worker_step s sh q w sh' w' q' -> nodeOk pay fl (sh_g sh) -> (forall s', - 2 ^ 63 < fl s' <= 0) ->
  fl s - charging w <= - LossAcceptableStartup -> fl' s = fl s - charging w + charging w' ->
  (forall s', s' <> s -> fl' s' = fl s') -> nodeOk pay fl' (sh_g sh').
Proof using Hmin Hmin'.
  intros Hstep Hg Hfl Hlow Hs Heq.
  assert (charging w = charging w' -> forall g' : Gateway Tun, nodeOk pay fl g' -> nodeOk pay fl' g') as Hsame.
  { intros E g'. apply nodeOk_mono. intros s'. destruct (decide (s' = s)) as [->|Hne]; [lia|]. by rewrite Heq. }
  destruct Hstep; cbn [charging] in *; try (by apply Hsame).
  - rewrite maxCredit_startup in *. eapply nodeOk_raise; [exact Hg|exact H| |done]. lia.
  - apply (nodeOk_charge fl); [done|apply Hfl|lia|done].
  - apply Hsame; [done|]. pose proof (preserves_nextSentIn pay fl s (sh_g sh) Hg) as Hn. by rewrite H in Hn.
  - apply Hsame; [done|]. cbn [sh_g]. unfold sendPacket. apply preserves_ignore; [|done]. apply preserves_sendBack.
Qed.

(** The reader leaves the gateway alone. *)
Lemma reader_gateway s (sh : shared (Tun := Tun)) q r sh' r' q' : reader_step s sh q r sh' r' q' -> sh_g sh' = sh_g sh.
Proof. by intros []. Qed.

Lemma listenInv_step st st' : listenStep st st' -> listenInv st -> listenInv st'.
Proof using Hmin Hmin' TOk.
  intros Hstep [Hg Ht Hn].
  assert (forall s, - 2 ^ 63 < floorOf (ln_listeners st) s <= 0) as Hfl.
  { intros s. unfold floorOf, overdraft, LossAcceptableStartup. pose proof (pending_range _ s Ht Hn). unfold listenThreads in *. lia. }
  destruct Hstep as [sh ls g' Hgate|sh ls s Htask Hs|sh ls b pool Hpool|sh a l b sh' r' q' Hr|sh a s r q ws w ws' b sh' w' q' Hw];
    cbn [ln_shared ln_listeners] in *.
  - split; cbn [ln_shared ln_listeners]; [|done|done]. by eapply gateStep_preserves.
  - split; cbn [ln_shared ln_listeners].
    + eapply nodeOk_mono; [|exact Hg]. intros s'. unfold floorOf. rewrite pending_app. unfold pending at 2. simpl.
      destruct (decide (s = s')); unfold pendingOf; simpl; lia.
    + apply Forall_app. split; [done|]. by constructor.
    + rewrite map_app. apply list.NoDup_app. split; [done|]. simpl.
      split; [|apply NoDup_singleton]. intros x Hx ->%list_elem_of_singleton. done.
  - by split.
  - split; cbn [ln_shared ln_listeners].
    + rewrite (reader_gateway _ _ _ _ _ _ _ Hr). eapply nodeOk_mono; [|exact Hg]. intros s'. unfold floorOf, pending.
      rewrite !map_app. simpl. unfold pendingOf. simpl. lia.
    + apply Forall_app in Ht as [Ha Hb]. apply Forall_cons_iff in Hb as [Hl Hb]. apply Forall_app. split; [done|]. by constructor.
    + by rewrite map_app in *.
  - set (l := mkListener s r q (ws ++ w :: ws')) in *. set (l' := mkListener s r q' (ws ++ w' :: ws')).
    assert (NoDup (map l_section (a ++ l' :: b))) as Hn' by (by rewrite map_app in *).
    assert (length (ws ++ w :: ws') = listenThreads) as Hlen.
    { apply Forall_app in Ht as [_ Hb]. by apply Forall_cons_iff in Hb as [Hl _]. }
    split; cbn [ln_shared ln_listeners]; [|apply Forall_app in Ht as [Ha Hb]; apply Forall_cons_iff in Hb as [_ Hb]|done].
    + eapply (worker_inv (floorOf (a ++ l :: b))); [exact Hw|done|done|unfold floorOf|unfold floorOf|].
      * rewrite (pending_mid a l b s Hn). cbn [l_section l]. rewrite decide_True by done. unfold pendingOf. cbn [l_workers l].
        rewrite map_app, sumZ_app. simpl. pose proof (charging_range ws). pose proof (charging_range ws').
        rewrite length_app in Hlen. simpl in Hlen. unfold overdraft, listenThreads in *. lia.
      * rewrite (pending_mid a l b s Hn), (pending_mid a l' b s Hn'). cbn [l_section l l']. rewrite !decide_True by done.
        unfold pendingOf. cbn [l_workers l l']. rewrite !map_app, !sumZ_app. simpl. lia.
      * intros s' Hne. unfold floorOf. rewrite (pending_mid a l b s' Hn), (pending_mid a l' b s' Hn'). cbn [l_section l l'].
        by rewrite !decide_False.
    + apply Forall_app. split; [done|]. constructor; [|done]. cbn [l_workers l']. rewrite length_app in *. simpl in *. done.
Qed.

Lemma listenInv_rtc st st' : rtc listenStep st st' -> listenInv st -> listenInv st'.
Proof using Hmin Hmin' TOk. induction 1 as [|st1 st2 st3 Hstep _ IH]; [done|]. intros H. by eapply IH, listenInv_step. Qed.

(** C9: with the eight workers of a listener running at once, the balance of the
    incoming packets of an out gateway falls at most seven packets below the
    credit of 20000, whatever the interleaving with each other, with payments and
    with everything else the node does; it does not wrap around. *)
Theorem Listen_overdraft key st s sec o :
  rtc listenStep (listenStart key pay) st ->
  g_sections (sh_g (ln_shared st)) !! s = Some sec -> s_out sec = Some o ->
  - LossAcceptableStartup - (Z.of_nat listenThreads - 1) <= o_PrepaidPacketsIn o <= MaxInt64.
Proof using Hmin Hmin' TOk.
  intros Hst Hs Ho. assert (listenInv st) as [Hg Ht Hn].
  { apply (listenInv_rtc _ _ Hst). split; [apply NewGateway_inv|constructor|constructor]. }
  destruct (so_out _ _ _ (nodeInv_section pay _ _ _ _ Hg Hs) o Ho) as [_ _ Hin _ _].
  pose proof (pending_range _ s Ht Hn). unfold floorOf, overdraft in Hin. lia.
Qed.
End Overdraft.

(** ** What is sent back *)

Section Delivered.
Context {C : CipherCtr} {T : TL} {K : KeyAgreement} {W : World} {Tun : Type} {TP : Tunnel Tun}.
Implicit Types (sh : shared (Tun := Tun)) (st : listening (Tun := Tun)) (fl : list (nat * inPacket)).

(** Packets that were read and are not sent, and buffers taken without a packet. *)
Definition readerFlight (r : readerPc) : list inPacket := match r with RQueue p => [p] | _ => [] end.
Definition readerIdle (r : readerPc) : list nat := match r with RRead b => [b] | _ => [] end.
Definition workerFlight (w : workerPc) : list inPacket :=
  match w with
  | WTook p | WLoad p | WCharge p | WCount p | WNumber p | WSend p _ => [p]
  | _ => []
  end.
Definition workerIdle (w : workerPc) : list nat := match w with WPut p => [ip_buf p] | _ => [] end.

Definition flightsOf (l : Listener) : list (nat * inPacket) :=
  map (pair (l_section l)) (readerFlight (l_reader l) ++ l_queue l ++ concat (map workerFlight (l_workers l))).
Definition idleOf (l : Listener) : list nat := readerIdle (l_reader l) ++ concat (map workerIdle (l_workers l)).

Definition contents (bufs : gmap nat bytes) fl : list datagramAt := map (fun x => held bufs (fst x) (snd x)) fl.
Definition buffers fl : list nat := map (fun x => ip_buf (snd x)) fl.

(** No buffer is in two places, and what was sent or is on its way arrived. *)
Record bufInv sh (idle : list nat) fl : Prop := {
  bi_nodup : NoDup (sh_pool sh ++ idle ++ buffers fl);
  bi_known : Forall (fun b => is_Some (sh_bufs sh !! b)) (sh_pool sh ++ idle ++ buffers fl);
  bi_sent : sh_sent sh ++ contents (sh_bufs sh) fl ⊆+ sh_arrived sh;
}.

Lemma bufInv_shrink sh sh' idle idle' fl fl' :
  sh_bufs sh' = sh_bufs sh -> sh_arrived sh' = sh_arrived sh ->
  sh_pool sh' ++ idle' ++ buffers fl' ⊆+ sh_pool sh ++ idle ++ buffers fl ->
  sh_sent sh' ++ contents (sh_bufs sh) fl' ⊆+ sh_sent sh ++ contents (sh_bufs sh) fl ->
  bufInv sh idle fl -> bufInv sh' idle' fl'.
Proof.
  intros Hb Ha Hsub Hsent [Hn Hk Hs]. split.
  - apply submseteq_Permutation in Hsub as [rest Hp]. rewrite Hp in Hn. by apply list.NoDup_app in Hn as [Hn _].
  - rewrite Hb. apply Forall_forall. intros b Hin%list_elem_of_In. rewrite Forall_forall in Hk. apply Hk, list_elem_of_In.
    by eapply elem_of_submseteq.
  - rewrite Hb, Ha. by etransitivity.
Qed.

Lemma contents_app bufs fl fl' : contents bufs (fl ++ fl') = contents bufs fl ++ contents bufs fl'.
Proof. apply map_app. Qed.
Lemma buffers_app fl fl' : buffers (fl ++ fl') = buffers fl ++ buffers fl'.
Proof. apply map_app. Qed.

(** Writing to a buffer that no packet is in. *)
Lemma contents_write bufs b x fl : b ∉ buffers fl -> contents (<[b := x]> bufs) fl = contents bufs fl.
Proof.
  intros Hb. unfold contents. apply map_ext_in. intros [s p] Hin. unfold held. simpl. do 2 f_equal.
  apply lookup_total_insert_ne. intros ->. apply Hb. apply list_elem_of_In. apply in_map_iff. by exists (s, p).
Qed.

(** What [ReadFrom] puts in front of a buffer is the packet. *)
Lemma readInto_taken buf datagram :
  take (Nat.min (length buf) (length datagram)) (readInto buf datagram) = take (length buf) datagram.
Proof.
  unfold readInto. rewrite <- length_take. apply take_app_length.
Qed.

Ltac shrink H :=
  eapply bufInv_shrink; [| | | |exact H]; try reflexivity;
  cbn [sh_pool sh_sent sh_bufs sh_arrived put set_sh_pool set_sh_g readerIdle readerFlight workerIdle workerFlight app];
  rewrite ?map_app, ?buffers_app, ?contents_app, ?map_app; cbn [map buffers contents fst snd app];
  try solve_submseteq.

Lemma bufInv_fresh sh idle fl b :
  sh_bufs sh !! b = None -> bufInv sh idle fl -> b ∉ sh_pool sh ++ idle ++ buffers fl.
Proof. intros Hb [_ Hk _] Hin%list_elem_of_In. rewrite Forall_forall in Hk. destruct (Hk b Hin). congruence. Qed.

(** [make([]byte, 2048)]. *)
Lemma bufInv_new sh idle fl b x :
  sh_bufs sh !! b = None -> bufInv sh idle fl ->
  bufInv (mkShared (sh_g sh) (<[b := x]> (sh_bufs sh)) (sh_pool sh) (sh_arrived sh) (sh_sent sh)) (b :: idle) fl.
Proof.
  intros Hb H. pose proof (bufInv_fresh _ _ _ _ Hb H) as Hf. destruct H as [Hn Hk Hs].
  assert (sh_pool sh ++ (b :: idle) ++ buffers fl ≡ₚ b :: sh_pool sh ++ idle ++ buffers fl) as Hp by solve_Permutation.
  split; cbn [sh_pool sh_bufs sh_sent sh_arrived].
  - rewrite Hp. by constructor.
  - rewrite Hp. constructor; [rewrite lookup_insert_eq; eauto|]. eapply List.Forall_impl; [|exact Hk].
    intros b' [y Hy]. destruct (decide (b = b')) as [<-|]; [congruence|]. rewrite lookup_insert_ne; eauto.
  - rewrite contents_write; [done|]. intros Hin. apply Hf. rewrite !elem_of_app. auto.
Qed.

(** A datagram read into a buffer that was idle. *)
Lemma bufInv_read s sh idle fl b buf datagram from :
  sh_bufs sh !! b = Some buf -> bufInv sh (b :: idle) fl ->
  bufInv (mkShared (sh_g sh) (<[b := readInto buf datagram]> (sh_bufs sh)) (sh_pool sh)
            (sh_arrived sh ++ [(s, from, take (length buf) datagram)]) (sh_sent sh)) idle
    ((s, mkInPacket from b (Nat.min (length buf) (length datagram))) :: fl).
Proof.
  intros Hb [Hn Hk Hs]. set (p := mkInPacket _ _ _).
  assert (sh_pool sh ++ idle ++ buffers ((s, p) :: fl) ≡ₚ sh_pool sh ++ (b :: idle) ++ buffers fl) as Hp.
  { cbn [buffers map snd p ip_buf]. fold (buffers fl). solve_Permutation. }
  split; cbn [sh_pool sh_bufs sh_sent sh_arrived].
  - by rewrite Hp.
  - rewrite Hp. eapply List.Forall_impl; [|exact Hk]. intros b' Hb'.
    destruct (decide (b = b')) as [<-|]; [rewrite lookup_insert_eq; eauto|]. by rewrite lookup_insert_ne.
  - assert (b ∉ buffers fl) as Hnb.
    { assert (sh_pool sh ++ (b :: idle) ++ buffers fl ≡ₚ b :: sh_pool sh ++ idle ++ buffers fl) as Hq by solve_Permutation.
      rewrite Hq in Hn. apply stdpp.list_relations.list.NoDup_cons in Hn as [Hn _]. rewrite !elem_of_app in Hn. naive_solver. }
    change ((s, p) :: fl) with ([(s, p)] ++ fl). rewrite contents_app, (contents_write _ _ _ fl) by done.
    assert (contents (<[b:=readInto buf datagram]> (sh_bufs sh)) [(s, p)] = [(s, from, take (length buf) datagram)]) as ->.
    { unfold contents, held. cbn [map fst snd p ip_from ip_buf ip_n]. by rewrite lookup_total_insert_eq, readInto_taken. }
    trans (sh_arrived sh ++ [(s, from, take (length buf) datagram)]); [|done].
    trans ((sh_sent sh ++ contents (sh_bufs sh) fl) ++ [(s, from, take (length buf) datagram)]); [solve_submseteq|].
    by apply submseteq_app.
Qed.

(** A step of the reader or of a worker, beside everything else. *)
Lemma reader_buffers s sh q r sh' r' q' idle fl :
  reader_step s sh q r sh' r' q' ->
  bufInv sh (readerIdle r ++ idle) (map (pair s) (readerFlight r ++ q) ++ fl) ->
  bufInv sh' (readerIdle r' ++ idle) (map (pair s) (readerFlight r' ++ q') ++ fl).
Proof.
  intros Hstep H. destruct Hstep.
  - shrink H. rewrite H0. solve_submseteq.
  - by apply bufInv_new.
  - by apply bufInv_read.
  - shrink H.
  - shrink H.
  - shrink H.
  - shrink H.
  - shrink H.
Qed.

Lemma worker_buffers s sh q w sh' w' q' idle fl :
  worker_step s sh q w sh' w' q' ->
  bufInv sh (workerIdle w ++ idle) (map (pair s) (workerFlight w ++ q) ++ fl) ->
  bufInv sh' (workerIdle w' ++ idle) (map (pair s) (workerFlight w' ++ q') ++ fl).
Proof. intros Hstep H. destruct Hstep; shrink H. Qed.

(** All listeners together. *)
Definition allFlights (ls : list Listener) : list (nat * inPacket) := concat (map flightsOf ls).
Definition allIdle (ls : list Listener) : list nat := concat (map idleOf ls).

Lemma bufInv_perm sh idle idle' fl fl' : idle ≡ₚ idle' -> fl ≡ₚ fl' -> bufInv sh idle fl -> bufInv sh idle' fl'.
Proof.
  intros Hi Hf. apply bufInv_shrink; try done.
  - unfold buffers. by rewrite Hi, Hf.
  - unfold contents. by rewrite Hf.
Qed.

Lemma allFlights_mid a l b : allFlights (a ++ l :: b) ≡ₚ flightsOf l ++ allFlights (a ++ b).
Proof. unfold allFlights. rewrite !map_app, !concat_app. simpl. solve_Permutation. Qed.
Lemma allIdle_mid a l b : allIdle (a ++ l :: b) ≡ₚ idleOf l ++ allIdle (a ++ b).
Proof. unfold allIdle. rewrite !map_app, !concat_app. simpl. solve_Permutation. Qed.

Definition deliverInv st : Prop := bufInv (ln_shared st) (allIdle (ln_listeners st)) (allFlights (ln_listeners st)).

Lemma deliverInv_step st st' : listenStep st st' -> deliverInv st -> deliverInv st'.
Proof.
  intros Hstep H. unfold deliverInv in *.
  destruct Hstep as [sh ls g' Hgate|sh ls s Htask Hs|sh ls b pool Hpool|sh a l b sh' r' q' Hr|sh a s r q ws w ws' b sh' w' q' Hw];
    cbn [ln_shared ln_listeners] in *.
  - by destruct H.
  - eapply bufInv_perm; [| |exact H]; unfold allIdle, allFlights; rewrite map_app, concat_app; by rewrite app_nil_r.
  - shrink H. rewrite Hpool. solve_submseteq.
  - eapply bufInv_perm in H; [|apply allIdle_mid|apply allFlights_mid].
    eapply bufInv_perm; [symmetry; apply allIdle_mid|symmetry; apply allFlights_mid|].
    unfold idleOf, flightsOf in *. cbn [l_section l_reader l_queue l_workers] in *.
    eapply bufInv_perm; [| |eapply (reader_buffers _ _ _ _ _ _ _ (concat (map workerIdle (l_workers l)) ++ allIdle (a ++ b))
      (map (pair (l_section l)) (concat (map workerFlight (l_workers l))) ++ allFlights (a ++ b)) Hr)];
      [| |eapply bufInv_perm; [| |exact H]]; rewrite ?map_app; solve_Permutation.
  - eapply bufInv_perm in H; [|apply allIdle_mid|apply allFlights_mid].
    eapply bufInv_perm; [symmetry; apply allIdle_mid|symmetry; apply allFlights_mid|].
    unfold idleOf, flightsOf in *. cbn [l_section l_reader l_queue l_workers] in *.
    rewrite !map_app, !concat_app in *. cbn [map concat] in *.
    eapply bufInv_perm; [| |eapply (worker_buffers _ _ _ _ _ _ _
      (readerIdle r ++ concat (map workerIdle ws) ++ concat (map workerIdle ws') ++ allIdle (a ++ b))
      (map (pair s) (readerFlight r ++ concat (map workerFlight ws) ++ concat (map workerFlight ws')) ++ allFlights (a ++ b)) Hw)];
      [| |eapply bufInv_perm; [| |exact H]]; rewrite ?map_app; solve_Permutation.
Qed.

(** C10: what the listeners send back is what arrived: every packet sent by a
    worker carries the first 2048 bytes and the sender of a datagram that arrived
    at the same section, and no datagram is sent twice, although the buffers are
    used again and again and any worker may take any packet at any time. *)
Theorem Listen_delivers key pay st :
  rtc listenStep (listenStart key pay) st -> sh_sent (ln_shared st) ⊆+ sh_arrived (ln_shared st).
Proof.
  intros Hst. assert (deliverInv st) as [_ _ Hs].
  { assert (deliverInv (listenStart key pay)) as H0 by (split; [constructor|constructor|done]). revert H0.
    induction Hst as [|st1 st2 st3 Hstep _ IH]; [done|]. intros H. by eapply IH, deliverInv_step. }
  etransitivity; [|exact Hs]. apply submseteq_inserts_r. done.
Qed.
End Delivered.

(** ** A datagram alone *)

Section Alone.
Context {C : CipherCtr} {T : TL} {K : KeyAgreement} {W : World} {Tun : Type} {TP : Tunnel Tun}.
Implicit Types (sh : shared (Tun := Tun)) (g : Gateway Tun).

(** One worker runs. *)
Inductive workerRun (s : nat) : shared (Tun := Tun) -> list inPacket -> workerPc -> shared (Tun := Tun) -> list inPacket -> workerPc -> Prop :=
| run_end sh q w : workerRun s sh q w sh q w
| run_step sh q w sh1 q1 w1 sh2 q2 w2 :
    worker_step s sh q w sh1 w1 q1 -> workerRun s sh1 q1 w1 sh2 q2 w2 -> workerRun s sh q w sh2 q2 w2.
Hint Constructors worker_step : listen.

Lemma workerRun_steps s a r ws ws' b sh q w sh' q' w' : workerRun s sh q w sh' q' w' ->
  rtc listenStep (mkListening sh (a ++ mkListener s r q (ws ++ w :: ws') :: b))
    (mkListening sh' (a ++ mkListener s r q' (ws ++ w' :: ws') :: b)).
Proof. induction 1 as [|sh q w sh1 q1 w1 sh2 q2 w2 Hstep _ IH]; [done|]. eapply rtc_l; [by apply l_work|done]. Qed.

Lemma getOut_outAt g s o : outAt g s = Some o -> getOut s g = (g, Ok o).
Proof.
  unfold outAt, getOut, deref. destruct (g_sections g !! s) as [sec|] eqn:E; [|done]. simpl. intros Ho. run.
  rewrite E. run. by rewrite Ho.
Qed.

Lemma outAt_upd g s o f : outAt g s = Some o -> outAt (updOut s f g).1 s = Some (f o).
Proof.
  unfold outAt, updOut, updSection. run. cbn [fst g_sections set_g_sections].
  destruct (g_sections g !! s) as [sec|] eqn:E; [|done]. simpl. intros Ho.
  rewrite (alter_Some _ _ _ _ E), lookup_insert_eq. simpl. by rewrite Ho.
Qed.

(** From the count to the end of the loop. *)
Lemma run_counted s sh q p o : outAt (sh_g sh) s = Some o ->
  exists sh', workerRun s sh q (WCount p) sh' q WIdle /\
    sh_g sh' = ((countDatagram ;; seqno ← nextSentIn s; sendPacket s p seqno (sh_bufs sh)) (sh_g sh)).1 /\
    sh_sent sh' = sh_sent sh ++ [held (sh_bufs sh) s p].
Proof.
  intros Ho. unfold countDatagram. rewrite bind_run, modify_run. set (g1 := set_g_statsReceived _ _).
  assert (nextSentIn s g1 = ((nextSentIn s g1).1, Ok (uint64 (o_PacketsSentIn o + 1)))) as Hn.
  { unfold nextSentIn. rewrite bind_run, (getOut_outAt g1 s o Ho). unfold updOut, updSection. by run. }
  rewrite bind_run, Hn. eexists. split.
  - eapply run_step; [apply w_count|]. eapply run_step; [apply w_number; exact Hn|].
    eapply run_step; [apply w_send|]. eapply run_step; [apply w_put|]. apply run_end.
  - done.
Qed.

(** The packet is free or there is credit for it. *)
Definition creditLeft (o : Out) : Prop := o_PricePerPacket o <= 0 \/ - LossAcceptableStartup < o_PrepaidPacketsIn o.

(** A worker that nothing interrupts does what [Listen_worker] does. *)
Lemma worker_alone s sh q p o : outAt (sh_g sh) s = Some o -> o_closed o = false ->
  exists sh', workerRun s sh q (WTook p) sh' q WIdle /\
    sh_g sh' = (Listen_worker s (take (ip_n p) (sh_bufs sh !!! ip_buf p)) (fst (ip_from p)) (snd (ip_from p)) (sh_g sh)).1 /\
    (creditLeft o -> sh_sent sh' = sh_sent sh ++ [held (sh_bufs sh) s p]).
Proof.
  intros Ho Hc. unfold Listen_worker. rewrite bind_run, (getOut_outAt _ s o Ho), Hc, bind_run.
  destruct (Z.ltb_spec 0 (o_PricePerPacket o)) as [Hp|Hp].
  2: { destruct (run_counted s sh q p o Ho) as (sh' & Hr & Eg & Es). exists sh'.
       split; [by eapply run_step; [eapply w_free|]|]. by rewrite Eg. }
  destruct (Z.leb_spec (o_PrepaidPacketsIn o) (- int64 (maxCredit (o_PacketsSentIn o)))) as [Hcr|Hcr].
  - exists sh. split; [eapply run_step; [by eapply w_paid|]; eapply run_step; [by eapply w_unpaid|]; apply run_end|].
    split; [done|]. rewrite maxCredit_startup in Hcr. unfold creditLeft. lia.
  - set (sh1 := set_sh_g (charge s (sh_g sh)).1 sh).
    destruct (run_counted s sh1 q p _ (outAt_upd (sh_g sh) s o _ Ho)) as (sh' & Hr & Eg & Es).
    exists sh'. split; [|by rewrite Eg].
    eapply run_step; [by eapply w_paid|]. eapply run_step; [by eapply w_credit|]. by eapply run_step; [apply w_charge|].
Qed.

(** [Listen_datagram], the step by which the rest of the development takes a
    datagram, is a run of the goroutines: from a listener that waits, the reader
    reads the datagram and one worker deals with it, and the gateway is left as
    [Listen_datagram] leaves it. *)
Lemma Listen_datagram_run s sh a ws ws' b datagram ip port o :
  outAt (sh_g sh) s = Some o -> o_closed o = false ->
  exists sh',
    rtc listenStep (mkListening sh (a ++ mkListener s RGet [] (ws ++ WIdle :: ws') :: b))
      (mkListening sh' (a ++ mkListener s RGet [] (ws ++ WIdle :: ws') :: b)) /\
    sh_g sh' = (Listen_datagram s datagram ip port (sh_g sh)).1 /\
    ((64 <= length datagram)%nat -> creditLeft o -> sh_sent sh' = sh_sent sh ++ [(s, (ip, port), take bufSize datagram)]).
Proof.
  intros Ho Hc. set (l := mkListener s RGet [] (ws ++ WIdle :: ws')).
  set (buf := fresh (dom (sh_bufs sh))).
  assert (sh_bufs sh !! buf = None) as Hb by (apply not_elem_of_dom, is_fresh).
  set (sh1 := mkShared (sh_g sh) (<[buf := replicate bufSize 0]> (sh_bufs sh)) (sh_pool sh) (sh_arrived sh) (sh_sent sh)).
  set (p := mkInPacket (ip, port) buf (Nat.min bufSize (length datagram))).
  set (sh2 := mkShared (sh_g sh) (<[buf := readInto (replicate bufSize 0) datagram]> (sh_bufs sh1)) (sh_pool sh)
    (sh_arrived sh ++ [(s, (ip, port), take bufSize datagram)]) (sh_sent sh)).
  assert (rtc listenStep (mkListening sh (a ++ l :: b)) (mkListening sh2 (a ++ mkListener s (RQueue p) [] (ws ++ WIdle :: ws') :: b)))
    as Hread.
  { eapply rtc_l; [apply (l_read sh a l b sh1 (RRead buf) []); by apply r_new|].
    pose proof (r_read s sh1 [] buf (replicate bufSize 0) datagram (ip, port) (lookup_insert_eq _ _ _)) as Hr.
    rewrite length_replicate in Hr.
    eapply rtc_l; [|apply rtc_refl]. by apply (l_read sh1 a (mkListener s (RRead buf) [] (ws ++ WIdle :: ws')) b). }
  assert (take (ip_n p) (sh_bufs sh2 !!! ip_buf p) = take bufSize datagram) as Hdata.
  { unfold sh2, p. cbn [sh_bufs ip_n ip_buf]. rewrite lookup_total_insert_eq.
    pose proof (readInto_taken (replicate bufSize 0) datagram) as H. by rewrite length_replicate in H. }
  unfold Listen_datagram, Listen_read. unfold len. rewrite length_take.
  change (Nat.min bufSize (length datagram)) with (ip_n p).
  destruct (Z.ltb_spec (Z.of_nat (ip_n p)) 64) as [Hsmall|Hbig].
  - exists (put buf sh2). split; [|split; [done|unfold p, bufSize in *; cbn [ip_n] in *; lia]]. eapply rtc_r; [exact Hread|].
    apply (l_read sh2 a (mkListener s (RQueue p) [] (ws ++ WIdle :: ws')) b). apply r_small. lia.
  - destruct (worker_alone s sh2 [] p o Ho Hc) as (sh' & Hrun & Eg & Es). exists sh'.
    unfold held in Es. rewrite Hdata in Eg, Es. split; [|split; [exact Eg|intros _ Hpay; exact (Es Hpay)]].
    etransitivity; [exact Hread|]. eapply rtc_l.
    + apply (l_read sh2 a (mkListener s (RQueue p) [] (ws ++ WIdle :: ws')) b). apply r_queue; [lia|unfold queueCap; cbn [l_queue length]; lia].
    + cbn [app l_section l_workers]. eapply rtc_l; [apply l_work, w_take|]. by apply workerRun_steps.
Qed.
End Alone.

(** ** A listener that runs *)

Section Runs.
#[local] Existing Instances toyCipher sampleTL sampleKA sampleWorld.
#[local] Instance unitTunnel : Tunnel unit := sampleTunnel.

(** A node with a priced out gateway, after its first packet. *)
Definition boundGateway : Gateway unit :=
  (messageHandler 0%nat (packet 1 [BindOut (mkBindOut [31] [5; 5] [] [4; 4; 4; 4] 5)] [9]) (startGateway sampleWorld paidConfig)).1.
Definition boundOut : Out := default (newOut 0 (mkSock 0 0) [] (mkBindOut [] [] [] [] 0) 0) (outAt boundGateway 0).

Definition sampleDatagram : bytes := replicate 70 7.
Definition idleListener : Listener := mkListener 0 RGet [] ([] ++ WIdle :: replicate 7 WIdle).

Example boundOut_charged :
  o_PricePerPacket boundOut = 5 /\
  (o_PrepaidPacketsIn <$> outAt (Listen_datagram 0 sampleDatagram [1; 2; 3; 4] 53 boundGateway).1 0) = Some (-1).
Proof using Type. split; vm_compute; reflexivity. Qed.

Lemma boundOut_known : outAt boundGateway 0 = Some boundOut.
Proof using Type.
  assert (known_b (outAt boundGateway 0) = true) as H by (vm_compute; reflexivity).
  unfold boundOut. by destruct (outAt boundGateway 0).
Qed.

Lemma spawned_In s l : existsb (fun t => match t with TListen s' => (s' =? s)%nat | _ => false end) l = true -> TListen s ∈ l.
Proof using Type.
  intros (t & Hin & Ht)%existsb_exists. apply list_elem_of_In. destruct t as [| | |s']; try done. by apply Nat.eqb_eq in Ht as ->.
Qed.

Lemma gate_alone (g g' : Gateway unit) : gateStep g g' ->
  listenStep (mkListening (mkShared g ∅ [] [] []) []) (mkListening (mkShared g' ∅ [] [] []) []).
Proof using Type. exact (l_gate (mkShared g ∅ [] [] []) [] g'). Qed.

Lemma idleListener_reached :
  rtc listenStep (listenStart nodeKey paidConfig) (mkListening (mkShared boundGateway ∅ [] [] []) [idleListener]).
Proof using Type.
  assert (gateStep (NewGateway nodeKey paidConfig) (startGateway sampleWorld paidConfig)) as H1
    by (unfold startGateway; apply step_connect).
  assert (gateStep (startGateway sampleWorld paidConfig) boundGateway) as H2 by (unfold boundGateway; apply step_message).
  unfold listenStart. apply (rtc_l _ _ _ _ (gate_alone _ _ H1)), (rtc_l _ _ _ _ (gate_alone _ _ H2)), rtc_once.
  apply (l_start (mkShared boundGateway ∅ [] [] []) [] 0%nat); [|apply not_elem_of_nil].
  apply spawned_In. vm_compute. reflexivity.
Qed.

Lemma boundOut_open : o_closed boundOut = false.
Proof using Type. vm_compute. reflexivity. Qed.

(** The gateway after one datagram. *)
Definition chargedGateway : Gateway unit := (Listen_datagram 0 sampleDatagram [1; 2; 3; 4] 53 boundGateway).1.

(** The run to that state, from the start. *)
Lemma charged_reached :
  exists sh', rtc listenStep (listenStart nodeKey paidConfig) (mkListening sh' [idleListener]) /\ sh_g sh' = chargedGateway /\
    sh_sent sh' = [(0%nat, ([1; 2; 3; 4], 53), sampleDatagram)].
Proof using Type.
  destruct (Listen_datagram_run 0 (mkShared boundGateway ∅ [] [] []) [] [] (replicate 7 WIdle) [] sampleDatagram [1; 2; 3; 4] 53 boundOut
    boundOut_known boundOut_open) as (sh' & Hr & Eg & Es).
  exists sh'. split; [|split; [exact Eg|apply Es; [simpl; lia|right; vm_compute; reflexivity]]]. exact (rtc_trans _ _ _ idleListener_reached Hr).
Qed.

Lemma chargedSection_known :
  exists o, g_sections chargedGateway !! 0%nat = Some (sectionOf chargedGateway 0) /\
    s_out (sectionOf chargedGateway 0) = Some o /\ o_PrepaidPacketsIn o = -1.
Proof using Type.
  assert (known_b (s_out (sectionOf chargedGateway 0)) = true) as Ho by (vm_compute; reflexivity).
  assert ((o_PrepaidPacketsIn <$> s_out (sectionOf chargedGateway 0)) = Some (-1)) as Hp by (vm_compute; reflexivity).
  destruct (s_out (sectionOf chargedGateway 0)) as [o|] eqn:E; [|discriminate Ho]. exists o. split; [|split; [reflexivity|]].
  - apply sectionOf_known. vm_compute. reflexivity.
  - simpl in Hp. congruence.
Qed.

Lemma Listen_overdraft_witness :
  exists st o, rtc listenStep (listenStart nodeKey paidConfig) st /\ o_PrepaidPacketsIn o = -1 /\
    - LossAcceptableStartup - 7 <= o_PrepaidPacketsIn o <= MaxInt64.
Proof using Type.
  destruct charged_reached as (sh' & Hr & Eg & Es). destruct chargedSection_known as (o & Hs & Ho & Hp).
  exists (mkListening sh' [idleListener]), o. split; [exact Hr|]. split; [exact Hp|].
  assert (0 <= MinPricePerPacketRoute paidConfig) as H1 by (vm_compute; congruence).
  assert (0 <= MinPricePerPacketInOut paidConfig) as H2 by (vm_compute; congruence).
  refine (Listen_overdraft (TOk := sampleTunnel_ok) paidConfig H1 H2 nodeKey (mkListening sh' [idleListener]) 0 (sectionOf chargedGateway 0) o Hr _ Ho).
  cbn [ln_shared]. rewrite Eg. exact Hs.
Defined.

Lemma Listen_delivers_witness :
  exists st : listening (Tun := unit), rtc listenStep (listenStart nodeKey paidConfig) st /\
    sh_sent (ln_shared st) = [(0%nat, ([1; 2; 3; 4], 53), sampleDatagram)] /\
    sh_sent (ln_shared st) ⊆+ sh_arrived (ln_shared st).
Proof using Type.
  destruct charged_reached as (sh' & Hr & Eg & Es). exists (mkListening sh' [idleListener]). split; [exact Hr|]. split; [exact Es|].
  exact (Listen_delivers nodeKey paidConfig (mkListening sh' [idleListener]) Hr).
Defined.
End Runs.
