(* ===== verification/Types.v ===== *)
(** * Every number keeps its width

    The counters, checksums, windows and balances of a node are integers of [Z]
    in the model and machine words in the code.  In every state a node reaches
    they are in the range of their Go type, so that the model's arithmetic is the
    code's; and every checksum kept beside a key is the checksum of that key. *)

From S2P Require Import Prelude Seqno Stream Wire Samples Keys Hoare State Peers Node Payments OutGate Gateway Worlds Traffic Invariants.

(** [tl] removes the identifier in front of the bytes of a message. *)
Class TLBytes (T : TL) : Prop :=
  unbox_bytes : forall data body, tl_unbox data = Some body -> is_bytes data -> is_bytes body.

(** A message as [tonutils-go] parses it from the network. *)
Definition messageTyped (m : message) : Prop :=
  match m with
  | MsgCached m => in_uint 32 (emc_Seqno m)
  | MsgEncrypted m => is_bytes (em_Instructions m)
  | _ => True
  end.

Section Records.
Context {W : World}.

Record routeTyped (r : RouteState) : Prop := {
  rt_routed : in_uint 64 (r_PacketsRouted r);
  rt_prepaid : in_int64 (r_PrepaidPackets r);
}.

Record outTyped (o : Out) : Prop := {
  ot_crc : o_PayloadCipherKeyCRC o = Checksum (o_PayloadCipherKey o);
  ot_sentOut : in_uint 64 (o_PacketsSentOut o);
  ot_sentIn : in_uint 64 (o_PacketsSentIn o);
  ot_prepaidIn : in_int64 (o_PrepaidPacketsIn o);
  ot_prepaidOut : in_int64 (o_PrepaidPacketsOut o);
  ot_back : in_uint 32 (o_backSeqno o);
}.

Record sectionTyped (sec : SectionState) : Prop := {
  st_crc : s_cipherKeyCrc sec = Checksum (s_cipherKey sec);
  st_seqno : wf (s_seqno sec);
  st_cached : wf (s_seqnoCached sec);
  st_routes : map_Forall (fun _ => routeTyped) (s_routes sec);
  st_out : forall o, s_out sec = Some o -> outTyped o;
}.
End Records.

Section Types.
Context {C : CipherCtr} {T : TL} {K : KeyAgreement} {W : World} {Tun : Type} {TP : Tunnel Tun}.
Context {COk : CipherCtrOk C} {TBy : TLBytes T} {TOk : TunnelOk Tun}.
Implicit Types (g : Gateway Tun).

Definition typed g : Prop := map_Forall (fun _ => sectionTyped) (g_sections g).

Lemma typed_view g g' : g_sections g = g_sections g' -> typed g -> typed g'.
Proof. unfold typed. by intros ->. Qed.
Lemma typed_onSections : onSections typed.
Proof. intros g g' Hv. apply typed_view. unfold sectionView in Hv. congruence. Qed.
Hint Resolve typed_onSections : pres.

Lemma typed_set g g' s sec :
  typed g -> sectionTyped sec -> g_sections g' = <[s := sec]> (g_sections g) -> typed g'.
Proof. unfold typed. intros Hg Hsec ->. by apply map_Forall_insert_2. Qed.

(** ** Changing a section, a route, the out gateway *)

Lemma typed_updSection s f :
  (forall sec, sectionTyped sec -> sectionTyped (f sec)) -> preserves typed (updSection s f).
Proof.
  intros Hf g Hg. unfold updSection. run. cbn [fst]. destruct (g_sections g !! s) as [sec|] eqn:E.
  - eapply (typed_set g _ s (f sec)); [done| |cbn; by rewrite (alter_Some _ _ _ _ E)]. apply Hf. by apply (Hg s).
  - apply (typed_view g); [|done]. cbn. by rewrite alter_None.
Qed.

Lemma typed_updRoute s id f :
  (forall r, routeTyped r -> routeTyped (f r)) -> preserves typed (updRoute s id f).
Proof.
  intros Hf. apply typed_updSection. intros sec [H1 H2 H3 H4 H5]. constructor; cbn; try done.
  destruct (s_routes sec !! id) as [r|] eqn:E; [rewrite (alter_Some _ _ _ _ E)|by rewrite alter_None].
  apply map_Forall_insert_2; [|done]. by apply Hf, (H4 id).
Qed.

Lemma typed_updOut s f : (forall o, outTyped o -> outTyped (f o)) -> preserves typed (updOut s f).
Proof.
  intros Hf. apply typed_updSection. intros sec [H1 H2 H3 H4 H5]. constructor; cbn; try done.
  intros o. destruct (s_out sec) as [o'|] eqn:E; [|done]. intros [= <-]. by apply Hf, H5.
Qed.

(** Fields that keep their type: all but one as before, one wrapped. *)
Ltac fields := intros ? []; constructor; cbn; try done; try (apply uint_range; lia); try apply int64_range.
Hint Extern 2 (preserves typed (updSection _ _)) => apply typed_updSection; by fields : pres.
Hint Extern 2 (preserves typed (updRoute _ _ _)) => apply typed_updRoute; by fields : pres.
Hint Extern 2 (preserves typed (updOut _ _)) => apply typed_updOut; by fields : pres.
Hint Extern 2 (preserves typed (modify _)) => apply preserves_modify; intros ? ?; by eapply typed_view : pres.

(** ** The instructions *)

Lemma typed_updChannel ch f : preserves typed (updChannel ch f).
Proof. intros g Hg. by apply (typed_view g). Qed.
Lemma typed_allocChannel c : preserves typed (@allocChannel W Tun c).
Proof. intros g Hg. by apply (typed_view g). Qed.
Hint Resolve typed_updChannel typed_allocChannel preserves_routingAllowed preserves_outAllowed preserves_getOut : pres.

Lemma typed_closePaymentChannel ch : preserves typed (closePaymentChannel ch).
Proof. unfold closePaymentChannel. pres. Qed.
Lemma typed_Route_Close r : preserves typed (Route_Close r).
Proof. unfold Route_Close, updActiveRoutes. pres. Qed.
Lemma typed_Out_Close s o : preserves typed (Out_Close s o).
Proof. unfold Out_Close, updActiveOut. pres. Qed.
Hint Resolve typed_closePaymentChannel typed_Route_Close typed_Out_Close : pres.
Lemma typed_closeIfNotLocked s : preserves typed (closeIfNotLocked s).
Proof. unfold closeIfNotLocked, updActiveSections. pres. Qed.
Hint Resolve typed_closeIfNotLocked : pres.
Lemma typed_Destroy s : preserves typed (Destroy_Execute s).
Proof. unfold Destroy_Execute, dropSection. pres. Qed.

Lemma typed_cacheActions s l : preserves typed (cacheActions s l).
Proof. induction l as [|i l IH]; cbn [cacheActions]; pres. Qed.
Hint Resolve typed_cacheActions : pres.
Lemma typed_Cache s v l : preserves typed (Cache_Execute s v l).
Proof.
  unfold Cache_Execute. pres. apply typed_updSection. intros sec H. destruct (_ <? v); [|done].
  destruct H. constructor; cbn; try done. apply zeroSeqno_wf.
Qed.

Lemma typed_addRoute s sec id target : preserves typed (addRoute s sec id target).
Proof.
  unfold addRoute, updActiveRoutes. pres. apply typed_updSection. intros sec' [H1 H2 H3 H4 H5].
  constructor; cbn; try done. apply map_Forall_insert_2; [|done]. by constructor; vm_compute.
Qed.
Lemma typed_retarget s id a b : preserves typed (retarget s id a b).
Proof. unfold retarget, movePaid, updActiveRoutes. pres. Qed.
Hint Resolve typed_addRoute typed_retarget : pres.
Lemma typed_BuildRoute s ins : preserves typed (BuildRoute_Execute s ins).
Proof. unfold BuildRoute_Execute. pres. Qed.

Lemma typed_Route_Route s id payload_ cached instructions seqno :
  preserves typed (Route_Route s id payload_ cached instructions seqno).
Proof. unfold Route_Route, payForPacket, forward. pres. Qed.
Hint Resolve typed_Route_Route : pres.

Lemma addPrepaid_typed at_ num : in_int64 (addPrepaid at_ num).
Proof. unfold addPrepaid. destruct (64 <=? _); [by vm_compute|apply int64_range]. Qed.
Hint Resolve addPrepaid_typed : core.
Lemma typed_creditOut s amt : preserves typed (creditOut s amt).
Proof. unfold creditOut. pres. Qed.
Lemma typed_creditRoute s id num : preserves typed (creditRoute s id num).
Proof. unfold creditRoute. pres. Qed.
Lemma typed_applyPayment s ins st ch fresh : preserves typed (applyPayment s ins st ch fresh).
Proof.
  pose proof typed_creditOut. pose proof typed_creditRoute. unfold applyPayment.
  do 2 (apply preserves_bind; [pres|intros ?]). cbv zeta. destruct (_ <=? 0); [pres|].
  do 3 (apply preserves_bind; [pres|intros ?]). apply triple_preserves.
  eapply (triple_bind _ _ _ (fun m g => typed g /\ preserves typed m)).
  - intros g Hg. unfold paymentMutation. rewrite bind_run. unfold deref. destruct (g_sections g !! s); [|done].
    destruct (_ =? PaymentPurposeOut); [|destruct (_ =? PaymentPurposeRoute); [|done]].
    + destruct (s_out _); [|done]. rewrite bind_run, guard_run. by destruct (_ && _).
    + destruct (s_routes _ !! _); [|done]. rewrite bind_run, guard_run. destruct (_ =? 0); [done|].
      rewrite bind_run, guard_run. by destruct (_ && _).
  - intros m g [Hg Hm]. revert g Hg. apply triple_preserves. pres.
Qed.
Hint Resolve typed_applyPayment : pres.
Lemma typed_Payment s ins : preserves typed (Payment_Execute s ins).
Proof. unfold Payment_Execute, loadPaymentState, findChannel, fetchChannel, lastKnown, installChannel. pres. Qed.

Lemma typed_sendBack s obj b : preserves typed (sendBack s obj b).
Proof. unfold sendBack. pres. Qed.
Lemma typed_nextSentIn s : preserves typed (nextSentIn s).
Proof. unfold nextSentIn. pres. Qed.
Lemma typed_openOut s key ins price : preserves typed (openOut s key ins price).
Proof.
  unfold openOut, updActiveOut. pres. apply typed_updSection. intros sec [H1 H2 H3 H4 H5]. constructor; cbn; try done.
  intros o [= <-]. by constructor; vm_compute.
Qed.
Lemma typed_reconfigureOut s o key ins price : preserves typed (reconfigureOut s o key ins price).
Proof. unfold reconfigureOut. pres. Qed.
Hint Resolve typed_sendBack typed_nextSentIn typed_openOut typed_reconfigureOut : pres.
Lemma typed_BindOut s ins : preserves typed (BindOut_Execute s ins).
Proof. unfold BindOut_Execute. pres. Qed.
Lemma typed_Out_Send s payload_ : preserves typed (Out_Send s payload_).
Proof. unfold Out_Send, payForOut. pres. Qed.
Lemma typed_Listen_datagram s datagram ip port : preserves typed (Listen_datagram s datagram ip port).
Proof. unfold Listen_datagram, Listen_worker. pres. Qed.
Hint Resolve typed_Cache typed_Destroy typed_BuildRoute typed_Payment typed_BindOut typed_Out_Send : pres.

(** ** The gateway *)

Lemma typed_Process t payload_ meta : preserves typed (Process t payload_ meta).
Proof using TOk. intros g Hg. apply (typed_onSections g); [|done]. symmetry. apply (Process_peers t payload_ meta g). Qed.
Hint Resolve typed_Process : pres.

Lemma typed_Execute s i msg rest : preserves typed (Execute s i msg rest).
Proof using TOk.
  unfold Execute, keeping, ReportStats_Execute, Deliver_Execute, SendOut_Execute, DeliverInitiator_Execute, Route_Execute.
  destruct i; pres.
Qed.
Lemma typed_CachedAction s a msg : preserves typed (CachedAction_Execute s a msg).
Proof using TOk.
  unfold CachedAction_Execute, keeping, SendOutCachedAction_Execute, DeliverInitiatorCachedAction_Execute, RouteCachedAction_Execute.
  destruct a; pres.
Qed.
Hint Resolve typed_Execute typed_CachedAction : pres.
Lemma typed_executeAll s l msg rest : preserves typed (executeAll s l msg rest).
Proof using TOk. revert msg. induction l as [|i l IH]; intros msg; cbn [executeAll]; pres. Qed.
Lemma typed_executeCached s l msg : preserves typed (executeCached s l msg).
Proof using TOk. revert msg. induction l as [|a l IH]; intros msg; cbn [executeCached]; pres. Qed.
Hint Resolve typed_executeAll typed_executeCached : pres.

Lemma typed_checkSectionSeqno s n b : in_uint 32 n -> preserves typed (checkSectionSeqno s n b).
Proof.
  intros Hn g Hg. unfold checkSectionSeqno. rewrite bind_run. unfold deref.
  destruct (g_sections g !! s) as [sec|] eqn:E; [|done]. pose proof (Hg s sec E) as Hsec.
  destruct b; [pose proof (checkSeqno_wf (s_seqnoCached sec) n (st_cached _ Hsec) Hn)|pose proof (checkSeqno_wf (s_seqno sec) n (st_seqno _ Hsec) Hn)];
    destruct (checkSeqno _ n) as [w ok]; apply preserves_bind; try done; try (intros; apply preserves_ret);
    apply typed_updSection; intros sec' []; by constructor.
Qed.
Lemma typed_stampSection s : preserves typed (stampSection s).
Proof. unfold stampSection. pres. Qed.
Hint Resolve typed_stampSection : pres.

Lemma typed_newSection peer key : preserves typed (newSection peer key).
Proof.
  unfold newSection, updActiveSections. pres. intros g Hg. eapply typed_set; [done| |done].
  constructor; cbn; [done|apply zeroSeqno_wf|apply zeroSeqno_wf|apply map_Forall_empty|done].
Qed.
Hint Resolve typed_newSection : pres.

(** The number of a packet, read from its bytes. *)
Lemma Uint32_typed data n : is_bytes data -> Uint32 data = Ok n -> in_uint 32 n.
Proof.
  unfold Uint32. destruct (Z.ltb_spec (len data) 4) as [|Hlen]; [done|]. intros Hd [= <-].
  pose proof (le_decode_range (take 4 data) (Forall_take _ _ _ Hd)) as H. unfold len in *. rewrite length_take in H.
  replace (Nat.min 4 (length data)) with 4%nat in H by lia. exact H.
Qed.

Lemma decryptMessage_typed crc key m c rest :
  is_bytes (em_Instructions m) -> (decryptMessage crc key m).2 = Ok (c, rest) -> in_uint 32 (ic_Seqno c).
Proof using COk TBy.
  intros Hm. unfold decryptMessage, decryptStream. destruct (_ <=? 16); [done|].
  destruct (NewCipherCtr _ _) as [ks|] eqn:Ek; [|done]. destruct (_ =? _); [|done].
  assert (is_bytes (XORKeyStream ks (drop 16 (em_Instructions m)))) as Hpl.
  { apply XORKeyStream_bytes; [exact (keystream_bytes _ _ _ Ek)|]. by apply Forall_drop. }
  cbv zeta. destruct (_ <? 12); [done|]. cbn [snd]. unfold hideErr.
  destruct (parseContainer _) as [x|[]|] eqn:Ep; try done. intros [= ->]. revert Ep. unfold parseContainer. simpl.
  destruct (tl_unbox _) as [body|] eqn:Eu; [|done]. simpl. unfold InstructionsContainer_Parse.
  destruct (Uint32 body) as [n| |] eqn:En; [|done|done]. simpl. intros Hc.
  assert (ic_Seqno c = n) as ->.
  { unfold mbind, outcome_bind, mret, outcome_ret in Hc. by repeat (case_match; simplify_eq/=). }
  eapply Uint32_typed; [|exact En]. by eapply unbox_bytes.
Qed.

Lemma typed_messageHandler peer msg : messageTyped msg -> preserves typed (messageHandler peer msg).
Proof using COk TBy TOk.
  intros Hm. unfold messageHandler. apply preserves_bind; [|pres]. destruct msg as [n|n|m|m|]; [pres|pres| | |pres].
  - unfold handleCached. simpl in Hm. pose proof (typed_checkSectionSeqno). pres.
  - unfold handleEncrypted. simpl in Hm. do 3 (apply preserves_bind; [pres|intros ?]).
    pose proof (decryptMessage_typed (s_cipherKeyCrc a1) (s_cipherKey a1) m) as Hd.
    destruct (decryptMessage _ _ m) as [m' [[c rest]|e|w]];
      [|intros g Hg; rewrite bind_run, wrapM_run, lift_run; by try destruct e..].
    specialize (Hd c rest Hm eq_refl). intros g Hg. rewrite bind_run, wrapM_run, lift_run. cbn [fst snd wrapErr].
    revert g Hg. match goal with |- forall g, _ -> typed (?m g).1 => change (preserves typed m) end.
    apply preserves_bind; [by apply typed_checkSectionSeqno|pres].
Qed.

Lemma typed_expiredChannels tm s l : preserves typed (expiredChannels tm s l).
Proof. induction l as [|[k ch] l IH]; cbn [expiredChannels]; pres. Qed.
Hint Resolve typed_expiredChannels : pres.
Lemma typed_keepAliveSections tm l : preserves typed (keepAliveSections tm l).
Proof. induction l as [|s l IH]; cbn [keepAliveSections]; pres. Qed.
Hint Resolve typed_keepAliveSections : pres.

(** The steps of a node, with messages as they are parsed. *)
Inductive typedStep g : Gateway Tun -> Prop :=
| ts_message peer msg : messageTyped msg -> typedStep g (messageHandler peer msg g).1
| ts_datagram s datagram ip port : typedStep g (Listen_datagram s datagram ip port g).1
| ts_keepAlive : typedStep g (keepAliveTick g).1
| ts_task t : t ∈ g_tasks g -> typedStep g (runTask t g).1
| ts_connect id client : typedStep g (connHandler id client g).1
| ts_disconnect peer client : typedStep g (disconnectHandler peer client g).1.

Lemma typedStep_typed g g' : typedStep g g' -> typed g -> typed g'.
Proof using COk TBy TOk.
  intros [peer msg Hm|s datagram ip port| |t _|id client|peer client]; revert g.
  - by apply typed_messageHandler.
  - apply typed_Listen_datagram.
  - change (preserves typed keepAliveTick). unfold keepAliveTick, keepAlivePeer, dropSection. pres.
  - change (preserves typed (runTask t)). unfold runTask. pres.
  - change (preserves typed (connHandler id client)). unfold connHandler. pres.
  - change (preserves typed (disconnectHandler peer client)). unfold disconnectHandler. pres.
Qed.

End Types.

(** ** A run *)

#[global] Instance sampleTL_bytes : TLBytes sampleTL.
Proof.
  intros data body. unfold tl_unbox, sampleTL. case_bool_decide; [|done]. intros [= <-] Hd. by apply Forall_drop.
Qed.

Section Runs.
#[local] Existing Instances toyCipher sampleTL sampleKA sampleWorld.
#[local] Instance unitTunnel : Tunnel unit := sampleTunnel.

Definition bindPacket : message := packet 1 [BindOut (mkBindOut [31] [5; 5] [] [4; 4; 4; 4] 5); buildRouteTo [21] 5] [9].
Definition typedGateway : Gateway unit := (messageHandler 0%nat bindPacket (startGateway sampleWorld paidConfig)).1.

Lemma bindPacket_typed : messageTyped bindPacket.
Proof using Type. apply (bool_decide_unpack (is_bytes _)). vm_compute. exact I. Qed.

End Runs.
