(* ===== verification/PaymentFacts.v ===== *)
(** * What a payment buys

    The balance after a payment, on every branch of the arithmetic, and that the
    same payment is not credited again. *)

From S2P Require Import Prelude Seqno Stream Wire Samples Keys Hoare State Peers Node Payments OutGate Gateway Worlds Traffic Invariants.

Section Facts.
Context {W : World} {Tun : Type}.
Implicit Types (g : Gateway Tun) (v : PaymentChannel) (st : VirtualChannelState).

(** ** The checks on the instruction *)

(** The instruction carries the state [st], good for this gateway. *)
Definition carries g (ins : PaymentInstruction) st : Prop :=
  g_allowRouting g = true /\ Service (g_payments g) = true /\
  w_loadState (pi_PaymentChannelState ins) = Ok st /\ 0 < Amount st /\ w_verify st (pi_Key ins) = true.

Lemma loadPaymentState_ok ins g st : carries g ins st -> loadPaymentState ins g = (g, Ok st).
Proof.
  intros (H1 & H2 & H3 & H4 & H5). unfold loadPaymentState, routingAllowed. run. rewrite H1. run. rewrite H2. run.
  rewrite wrapM_run, lift_run, H3. cbn [fst snd wrapErr]. run.
  rewrite (proj2 (Z.leb_gt _ _)) by lia. by rewrite H5.
Qed.

Lemma loadPaymentState_inv ins g g1 st : loadPaymentState ins g = (g1, Ok st) -> g1 = g /\ carries g ins st.
Proof.
  unfold loadPaymentState, routingAllowed, carries. run. destruct (g_allowRouting g); cbn [negb]; [|done]. run.
  destruct (Service (g_payments g)); cbn [negb]; [|done]. run. rewrite wrapM_run, lift_run. cbn [fst snd].
  destruct (w_loadState _) as [st'| |]; cbn [wrapErr]; [|done|done]. run.
  destruct (Z.leb_spec (Amount st') 0); [done|]. destruct (w_verify st' (pi_Key ins)) eqn:E; cbn [negb]; [|done].
  intros H'. injection H' as <- <-. done.
Qed.

(** ** The amount that is new *)

Definition newAmount v st (fresh : bool) : Z :=
  Amount st - match pc_LatestState v with
              | Some last => if negb fresh then Amount last else 0
              | None => 0
              end.

(** A channel the section keeps, with what the gateway is configured to. *)
Definition keeps g s key ch v : Prop :=
  exists sec, g_sections g !! s = Some sec /\ s_payments sec !! key = Some ch /\ g_channels g !! ch = Some v.

(** A payment that was accepted before: the state kept is at least as large. *)
Definition processed g s (ins : PaymentInstruction) st : Prop :=
  carries g ins st /\ exists ch v last, keeps g s (pi_Key ins) ch v /\ pc_Purpose v = pi_Purpose ins /\
    pc_LatestState v = Some last /\ Amount st <= Amount last.

(** Once processed, a payment changes nothing: no balance, no call to the
    payment service, not even the clock is read. *)
Lemma processed_replay g s ins st : processed g s ins st -> Payment_Execute s ins g = (g, Ok tt).
Proof.
  intros (Hc & ch & v & last & (sec & Hs & Hk & Hch) & Hp & Hl & Hle).
  unfold Payment_Execute. run. rewrite (loadPaymentState_ok _ _ _ Hc). run.
  unfold findChannel. run. rewrite (deref_run _ _ _ _ Hs). run. rewrite Hk. run.
  unfold applyPayment. run. rewrite (deref_run _ _ _ _ Hch). run.
  rewrite Hp, Z.eqb_refl. cbn [negb]. rewrite Hl. cbn [negb]. by rewrite (proj2 (Z.leb_le _ _)) by lia.
Qed.

(** ** The mutation *)

Lemma paymentMutation_pure s v amt g g1 o : paymentMutation s v amt g = (g1, o) -> g1 = g.
Proof.
  unfold paymentMutation. run. unfold deref. destruct (g_sections g !! s) as [sec|]; [|by intros [= <- _]].
  destruct (_ =? PaymentPurposeOut).
  - destruct (s_out sec); [|by intros [= <- _]]. run. destruct (_ && _); by intros [= <- _].
  - destruct (_ =? PaymentPurposeRoute); [|by intros [= <- _]].
    destruct (s_routes sec !! _); [|by intros [= <- _]]. run.
    destruct (_ =? 0); [by intros [= <- _]|]. run. destruct (_ && _); by intros [= <- _].
Qed.

Lemma paymentMutation_inv s v amt g m :
  paymentMutation s v amt g = (g, Ok m) -> m = creditOut s amt \/ exists id num, m = creditRoute s id num.
Proof.
  unfold paymentMutation. run. unfold deref. destruct (g_sections g !! s) as [sec|]; [|done].
  destruct (_ =? PaymentPurposeOut).
  - destruct (s_out sec); [|done]. run. destruct (_ && _); [done|]. intros [= <-]. by left.
  - destruct (_ =? PaymentPurposeRoute); [|done].
    destruct (s_routes sec !! _); [|done]. run.
    destruct (_ =? 0); [done|]. run. destruct (_ && _); [done|]. intros [= <-]. right. eauto.
Qed.

(** Neither credit touches the channels of the section. *)
Definition keepsAt s key ch v g : Prop := keeps g s key ch v.

Lemma keeps_updSection s f s' key ch v :
  (forall sec, s_payments (f sec) = s_payments sec) -> preserves (keepsAt s key ch v) (@updSection W Tun s' f).
Proof.
  intros Hf g (sec & Hs & Hk & Hc). unfold updSection. run. cbn. destruct (decide (s' = s)) as [->|Hne].
  - exists (f sec). cbn. rewrite (alter_Some _ _ _ _ Hs), lookup_insert_eq, Hf. done.
  - exists sec. cbn. by rewrite lookup_alter_ne by done.
Qed.

Lemma keeps_mutation s' v' amt g0 m s key ch v :
  paymentMutation s' v' amt g0 = (g0, Ok m) -> preserves (keepsAt s key ch v) m.
Proof.
  intros [->|(id & num & ->)]%paymentMutation_inv.
  - unfold creditOut. pres. by apply keeps_updSection.
  - by apply keeps_updSection.
Qed.

Lemma carries_mutation s' v' amt g0 m ins st :
  paymentMutation s' v' amt g0 = (g0, Ok m) -> preserves (fun g => carries g ins st) m.
Proof.
  intros [->|(id & num & ->)]%paymentMutation_inv; [unfold creditOut; pres|]; by intros g Hg.
Qed.

(** A payment that ends well is processed from then on. *)
Lemma applyPayment_processed s ins st ch v fresh g g1 :
  carries g ins st -> keeps g s (pi_Key ins) ch v ->
  applyPayment s ins st ch fresh g = (g1, Ok tt) -> processed g1 s ins st.
Proof.
  intros Hc Hk. pose proof Hk as (sec & Hs & Hkey & Hch). unfold applyPayment. run.
  rewrite (deref_run _ _ _ _ Hch). run. destruct (Z.eqb_spec (pc_Purpose v) (pi_Purpose ins)) as [Hp|]; [|done].
  cbn [negb]. fold (newAmount v st fresh). destruct (Z.leb_spec (newAmount v st fresh) 0) as [Hle|Hgt].
  { intros [= <-]. split; [done|]. unfold newAmount in Hle. destruct Hc as (_ & _ & _ & Hpos & _).
    destruct (pc_LatestState v) as [last|] eqn:El; [|lia]. destruct fresh; cbn [negb] in Hle; [lia|].
    exists ch, v, last. split_and!; [done|done|done|lia]. }
  run. destruct (_ && _); [done|]. run. destruct (_ <? _); [done|]. run.
  set (g2 := set_g_tick _ g). destruct (paymentMutation s v (newAmount v st fresh) g2) as [g3 o] eqn:Em.
  pose proof (paymentMutation_pure _ _ _ _ _ _ Em) as ->. destruct o as [m| |]; [|done|done].
  run. destruct (w_addResolve _ _ _); [done|]. unfold emit. run. set (g4 := set_g_trace _ _).
  pose proof (keeps_mutation _ _ _ _ _ s (pi_Key ins) ch v Em g4) as Hm.
  pose proof (carries_mutation _ _ _ _ _ ins st Em g4 Hc) as Hc4.
  specialize (Hm Hk). destruct (m g4) as [g5 [[]|e|w]]; [|done|done]. cbn [fst] in *.
  unfold updChannel. run. intros Hend.
  assert (exists n, g1 = set_g_tasks n (set_g_channels (alter (set_pc_LatestState (Some st)) ch (g_channels g5)) g5)) as [n ->].
  { destruct (pi_Final ins); unfold spawn in Hend; injection Hend as <-; [eauto|].
    exists (g_tasks g5). by destruct g5. }
  split; [done|]. destruct Hm as (sec5 & Hs5 & Hk5 & Hch5).
  exists ch, (set_pc_LatestState (Some st) v), st. split; [|by split_and!].
  exists sec5. cbn. by rewrite (alter_Some _ _ _ _ Hch5), lookup_insert_eq.
Qed.

(** ** Finding and installing the channel *)

Lemma freshLoc_None {A} (h : gmap nat A) : h !! freshLoc h = None.
Proof.
  enough (forall l x, h !! l = Some x -> (l < freshLoc h)%nat) as H.
  { destruct (h !! freshLoc h) eqn:E; [|done]. apply H in E. lia. }
  unfold freshLoc. induction h as [|l x h Hl IH] using map_ind; intros l' x' Hl'; [done|].
  rewrite map_fold_insert_L by (done || (intros; lia)).
  destruct (decide (l = l')) as [<-|Hne]; [lia|]. rewrite lookup_insert_ne in Hl' by done.
  specialize (IH _ _ Hl'). lia.
Qed.

Lemma fetchChannel_tick ins g : exists n, (fetchChannel ins g).1 = set_g_tick n g.
Proof.
  unfold fetchChannel. run. rewrite wrapM_run, lift_run. cbn [fst snd].
  destruct (wrapErr _ _) as [vc| |]; [|by eexists|by eexists]. run. unfold lastKnown.
  assert (forall m : GM Tun (option VirtualChannelState), (forall g, (m g).1 = g) ->
    exists n, ((m ≫= fun last => match Incoming vc with
      | None => throw (Errorf "payment channel direction is incorrect")
      | Some incoming => match Outgoing vc with
        | Some _ => throw (Errorf "payment channel should not have outgoing direction")
        | None => capacity ← wrapM "incorrect capacity" (lift (w_fromTON (vs_Capacity incoming)));
          now ← ask w_now;
          mret (mkPaymentChannel (pi_Key ins) (StatusActive vc && (MinChannelTimeoutSec * 10 ^ 9 <=? SafeDeadline incoming - now))
                  (SafeDeadline incoming / 10 ^ 9) capacity last (pi_Purpose ins),
                MinChannelTimeoutSec * 10 ^ 9 <=? SafeDeadline incoming - now)
        end
      end) (set_g_tick (S (g_tick g)) g)).1 = set_g_tick n g) as Hrest.
  { intros m Hm. run. specialize (Hm (set_g_tick (S (g_tick g)) g)). destruct (m _) as [g' [last| |]]; cbn [fst] in Hm; subst g';
      [|by eexists|by eexists]. destruct (Incoming vc) as [i|]; [|by eexists]. destruct (Outgoing vc); [by eexists|].
    run. rewrite wrapM_run, lift_run. cbn [fst snd]. destruct (wrapErr _ _); run; by eexists. }
  apply Hrest. intros g'. destruct (LastKnownResolve vc); [done|]. run. rewrite wrapM_run, lift_run. cbn [fst snd].
  destruct (wrapErr _ _); [|done|done]. run. rewrite wrapM_run, lift_run. cbn [fst snd].
  by destruct (wrapErr _ _).
Qed.

Lemma installChannel_keeps s ins c g g1 ch :
  installChannel s ins c g = (g1, Ok ch) ->
  (exists sec, g_sections g !! s = Some sec /\ s_payments sec !! pi_Key ins = Some ch /\ g1 = g) \/
  (keeps g1 s (pi_Key ins) ch c /\ (forall st, carries g ins st -> carries g1 ins st)).
Proof.
  unfold installChannel. run. unfold deref. destruct (g_sections g !! s) as [sec|] eqn:Es; [|done].
  destruct (s_payments sec !! pi_Key ins) as [ov|] eqn:Ek.
  { intros [= <- <-]. left. by exists sec. }
  run. unfold allocChannel, updSection. run. intros [= <- <-]. right. split; [|done].
  eexists. cbn. rewrite (alter_Some _ _ _ _ Es), !lookup_insert_eq. split; [done|]. cbn.
  by rewrite lookup_insert_eq.
Qed.

(** All of the method, when it ends well. *)
Lemma Payment_Execute_processed s ins g g1 :
  Payment_Execute s ins g = (g1, Ok tt) -> exists st, processed g1 s ins st.
Proof.
  unfold Payment_Execute. run. destruct (loadPaymentState ins g) as [g0 [st| |]] eqn:El; [|done|done].
  apply loadPaymentState_inv in El as [-> Hc]. unfold findChannel. run. unfold deref.
  destruct (g_sections g !! s) as [sec|] eqn:Es; [|done].
  assert (forall g ch fresh, carries g ins st ->
    (exists sec, g_sections g !! s = Some sec /\ s_payments sec !! pi_Key ins = Some ch) ->
    applyPayment s ins st ch fresh g = (g1, Ok tt) -> processed g1 s ins st) as Happly.
  { clear. intros g ch fresh Hc (sec & Hs & Hk) Ha. destruct (g_channels g !! ch) as [v|] eqn:Ev.
    - eapply applyPayment_processed; [done| |done]. by exists sec.
    - unfold applyPayment in Ha. rewrite bind_run in Ha. unfold deref in Ha. by rewrite Ev in Ha. }
  destruct (s_payments sec !! pi_Key ins) as [ch|] eqn:Ek; run.
  { intros Ha. exists st. apply (Happly g ch false); [done| |done]. by exists sec. }
  destruct (fetchChannel_tick ins g) as [n En]. destruct (fetchChannel ins g) as [g2 [[c fresh]| |]]; [|done|done].
  cbn [fst] in En. subst g2. run.
  destruct (installChannel s ins c (set_g_tick n g)) as [g3 [ch| |]] eqn:Ei; [|done|done]. run.
  intros Ha. exists st. apply installChannel_keeps in Ei as [(sec' & Hs' & Hk' & ->)|[(sec' & Hs' & Hk' & _) Hcs]].
  - apply (Happly (set_g_tick n g) ch fresh); [done| |done]. by exists sec'.
  - apply (Happly g3 ch fresh); [by apply Hcs| |done]. by exists sec'.
Qed.
End Facts.

(** C16: once a payment has gone through, it and every other payment of the same
    channel for no larger an amount is accepted without any effect: the state is
    exactly what it was, nothing is credited and the payment service is not
    called.  A payment packet can be repeated without buying packets twice. *)
Theorem Payment_replay {W : World} {Tun : Type} s ins ins' st' (g g1 : Gateway Tun) :
  Payment_Execute s ins g = (g1, Ok tt) ->
  pi_Key ins' = pi_Key ins -> pi_Purpose ins' = pi_Purpose ins -> carries g1 ins' st' ->
  (forall st, w_loadState (pi_PaymentChannelState ins) = Ok st -> Amount st' <= Amount st) ->
  Payment_Execute s ins' g1 = (g1, Ok tt).
Proof.
  intros H Hk Hp Hc Hle. destruct (Payment_Execute_processed _ _ _ _ H) as (st & Hst & ch & v & last & Hkeep & Hpur & Hl & Ham).
  apply (processed_replay g1 s ins' st'). split; [done|]. exists ch, v, last. rewrite Hk, Hp. split_and!; [done|done|done|].
  destruct Hst as (_ & _ & Hload & _). specialize (Hle st Hload). lia.
Qed.

(** C23: an accepted payment for a route adds the floor of the new amount over
    the price to the balance, stopping at the largest 64-bit number, marks the
    route as paid, records the state with the payment service exactly once and
    keeps it as the channel's latest; nothing else of the section changes. *)
Theorem applyPayment_credits_route {W : World} {Tun : Type} s ins st ch fresh (g : Gateway Tun) sec v id r :
  g_sections g !! s = Some sec -> g_channels g !! ch = Some v -> s_routes sec !! id = Some r ->
  pc_Purpose v = pi_Purpose ins -> Z.shiftr (pi_Purpose ins) 32 = PaymentPurposeRoute ->
  id = uint32 (Z.land (pi_Purpose ins) MaxUint32) ->
  0 < rt_PricePerPacket (r_Target r) -> prepaidRange (r_PrepaidPackets r) ->
  0 < newAmount v st fresh -> pc_Active v || fresh = true ->
  MinChannelTimeoutSec <= int64 (pc_Deadline v - w_now (g_tick g) / 10 ^ 9) ->
  (pc_LatestState v = None -> rt_PricePerPacket (r_Target r) * 1000 <= pc_Capacity v) ->
  w_addResolve (S (g_tick g)) (pi_Key ins) st = None ->
  exists g1, applyPayment s ins st ch fresh g = (g1, Ok tt) /\
    let prepaid := Z.min MaxInt64 (r_PrepaidPackets r + newAmount v st fresh / rt_PricePerPacket (r_Target r)) in
    let r' := set_r_PrepaidPackets prepaid (set_r_PaymentReceived true r) in
    g_sections g1 = <[s := set_s_routes (<[id := r']> (s_routes sec)) sec]> (g_sections g) /\
    g_channels g1 = <[ch := set_pc_LatestState (Some st) v]> (g_channels g) /\
    g_trace g1 = g_trace g ++ [EvResolve (pi_Key ins) st].
Proof.
  intros Hs Hch Hr Hpur Hroute -> Hprice Hpre Hamt Hact Hdl Hcap Hres.
  unfold applyPayment. run. rewrite (deref_run _ _ _ _ Hch). run. rewrite Hpur, Z.eqb_refl. cbn [negb].
  fold (newAmount v st fresh). rewrite (proj2 (Z.leb_gt _ _)) by done. run.
  assert (negb (pc_Active v) && negb fresh = false) as -> by (destruct (pc_Active v), fresh; done). run.
  rewrite (proj2 (Z.ltb_ge _ _)) by done. run.
  unfold paymentMutation. rewrite bind_run. rewrite (deref_run g_sections s (set_g_tick _ g) sec Hs). cbv iota beta.
  rewrite Hpur, Hroute, Z.eqb_refl. change (PaymentPurposeRoute =? PaymentPurposeOut) with false. cbv iota.
  rewrite Hr. run. rewrite (proj2 (Z.eqb_neq _ _)) by lia. run.
  match goal with |- context [bool_decide ?P && ?b] => assert (bool_decide P && b = false) as -> end.
  { apply andb_false_iff. destruct (pc_LatestState v); [left; by apply bool_decide_eq_false|right].
    apply Z.ltb_ge. by apply Hcap. }
  run. cbn [g_tick set_g_tick]. rewrite Hres. unfold emit. run. unfold creditRoute, updChannel.
  erewrite (updRoute_run s _ _ _ sec r); [|exact Hs|exact Hr]. run.
  assert (addPrepaid (r_PrepaidPackets r) (newAmount v st fresh / rt_PricePerPacket (r_Target r))
    = Z.min MaxInt64 (r_PrepaidPackets r + newAmount v st fresh / rt_PricePerPacket (r_Target r))) as Hadd.
  { apply addPrepaid_spec; [unfold prepaidRange, LossAcceptableStartup, MaxInt64 in *; lia|].
    apply Z.div_pos; lia. }
  rewrite Hadd. unfold spawn.
  destruct (pi_Final ins); run; eexists; (split; [reflexivity|]); cbn; split_and!; try done;
    by rewrite (alter_Some _ _ _ _ Hch).
Qed.

(** The saturating addition of balances: for every balance and every number
    of packets bought it is the sum, or the largest 64-bit number when the sum
    is beyond it; it never wraps around, even when the number itself does not fit
    into 64 bits. *)
Theorem addPrepaid_saturates at_ num :
  - 2 ^ 63 < at_ < 2 ^ 63 -> 0 <= num -> addPrepaid at_ num = Z.min MaxInt64 (at_ + num).
Proof. apply addPrepaid_spec. Qed.

Lemma addPrepaid_saturates_witness : addPrepaid (-20000) (2 ^ 63 + 5) = 2 ^ 63 - 19995.
Proof.
  rewrite (addPrepaid_saturates (-20000) (2 ^ 63 + 5)); [reflexivity|split; reflexivity|discriminate].
Defined.

(** A route at price 5 on a connected node, before and after the payment of
    5000 for it. *)
Definition unpaidGateway : Gateway (W := sampleWorld) unit :=
  (handleAll sampleWorld [packet 1 [buildRouteTo [21] 5] [9]]
   (connHandler [21] (mkConn 21 "10.0.0.21:1") (startGateway sampleWorld paidConfig)).1).1.
Definition payment (amount : Z) : PaymentInstruction :=
  mkPayment [66] (PutUint64 amount) (Z.shiftl PaymentPurposeRoute 32 + 1) false.
Definition afterPayment : Gateway (W := sampleWorld) unit := (Payment_Execute 0%nat (payment 5000) unpaidGateway).1.

Lemma Payment_replay_witness :
  r_PrepaidPackets (routeOf afterPayment 0 1) = 1000 /\
  Payment_Execute 0%nat (payment 4000) afterPayment = (afterPayment, Ok tt).
Proof.
  split; [vm_compute; reflexivity|].
  assert ((Payment_Execute 0%nat (payment 5000) unpaidGateway).2 = Ok tt) as H by (vm_compute; reflexivity).
  apply run_ok in H. change ((Payment_Execute 0%nat (payment 5000) unpaidGateway).1) with afterPayment in H.
  assert (carries afterPayment (payment 4000) (mkVirtualChannelState 4000 [])) as Hc
    by (split_and!; vm_compute; reflexivity).
  apply (Payment_replay 0%nat (payment 5000) (payment 4000) (mkVirtualChannelState 4000 []) unpaidGateway afterPayment
    H eq_refl eq_refl Hc).
  intros st Hst. vm_compute in Hst. injection Hst as <-. vm_compute. discriminate.
Defined.

(** The channel the gateway keeps for that payment. *)
Definition paidChannel : PaymentChannel :=
  mkPaymentChannel [66] true 9000 (10 ^ 9) (Some (mkVirtualChannelState 5000 [])) (Z.shiftl PaymentPurposeRoute 32 + 1).

Lemma applyPayment_credits_route_witness :
  exists g1, applyPayment 0%nat (payment 9000) (mkVirtualChannelState 9000 []) 0%nat false afterPayment = (g1, Ok tt) /\
    g_trace g1 = g_trace afterPayment ++ [EvResolve [66] (mkVirtualChannelState 9000 [])].
Proof.
  assert (g_channels afterPayment !! 0%nat = Some paidChannel) as Hch by (vm_compute; reflexivity).
  pose proof (applyPayment_credits_route 0%nat (payment 9000) (mkVirtualChannelState 9000 []) 0%nat false afterPayment
    (sectionOf afterPayment 0) paidChannel 1 (routeOf afterPayment 0 1)
    (sectionOf_known afterPayment 0 ltac:(vm_compute; reflexivity)) Hch
    (routeOf_known afterPayment 0 1 ltac:(vm_compute; reflexivity))) as H.
  repeat match type of H with
  | ?P -> _ => specialize (H ltac:(vm_compute; first [split; discriminate | discriminate]))
  end.
  destruct H as (g1 & Hrun & _ & _ & Htr).
  exists g1. split; [exact Hrun|exact Htr].
Defined.
