(* ===== verification/Ledger.v ===== *)
(** * What a node is owed

    Every packet a node has been paid for, whether it is still to be carried or
    was written to the network already, is covered by the states of payment
    channels it was handed: at the minimum prices of the configuration the sum of
    all balances never exceeds the sum of the signed amounts.  This composes the
    payments, the routes and the out gateways over all sections of a node. *)

From S2P Require Import Prelude Seqno Stream Wire Samples Keys Hoare State Peers Node Payments OutGate Gateway Worlds Traffic Invariants PaymentFacts.

(** Amounts are coins, which are unsigned. *)
Class CoinsOk (W : World) : Prop :=
  loaded_nonneg : forall cell st, w_loadState cell = Ok st -> 0 <= Amount st.

(** ** The two sides of the book *)
Section Book.
Context {W : World} {Tun : Type} (pay : PaymentConfig).
Implicit Types (g : Gateway Tun).

Definition routeOwed (r : RouteState) : Z := Z.max 0 (r_PrepaidPackets r).
(** Packets written to the network and those that still may be. *)
Definition outOwed (o : Out) : Z := uint64 (o_PacketsSentOut o) + Z.max 0 (o_PrepaidPacketsOut o).
Definition sectionOwed (sec : SectionState) : Z :=
  MinPricePerPacketRoute pay * sumMap routeOwed (s_routes sec) +
  MinPricePerPacketInOut pay * from_option outOwed 0 (s_out sec).
Definition owed g : Z := sumMap sectionOwed (g_sections g).

Definition signed (c : PaymentChannel) : Z := from_option Amount 0 (pc_LatestState c).
Definition funds g : Z := sumMap signed (g_channels g).
(** The amounts that are kept are unsigned. *)
Definition signedOk g : Prop := map_Forall (fun _ c => 0 <= signed c) (g_channels g).

Context (Hmin : 0 <= MinPricePerPacketRoute pay) (Hmin' : 0 <= MinPricePerPacketInOut pay).

Lemma sumMap_nonneg {A} `{Countable Key} (f : A -> Z) (m : gmap Key A) : (forall a, 0 <= f a) -> 0 <= sumMap f m.
Proof using Type. intros Hf. induction m as [|k a m Hk IH] using map_ind; [done|]. rewrite sumMap_insert by done. specialize (Hf a). lia. Qed.

Lemma from_option_nonneg {A} (f : A -> Z) o : (forall a, 0 <= f a) -> 0 <= from_option f 0 o.
Proof using Type. intros Hf. destruct o; simpl; [apply Hf|lia]. Qed.

Lemma routeOwed_nonneg r : 0 <= routeOwed r.
Proof using Type. unfold routeOwed. lia. Qed.
Lemma outOwed_nonneg o : 0 <= outOwed o.
Proof using Type. unfold outOwed, uint64. pose proof (Z.mod_pos_bound (o_PacketsSentOut o) (2 ^ 64)). lia. Qed.
Lemma sectionOwed_nonneg sec : 0 <= sectionOwed sec.
Proof using Hmin Hmin'.
  unfold sectionOwed. pose proof (sumMap_nonneg routeOwed (s_routes sec) routeOwed_nonneg).
  pose proof (from_option_nonneg outOwed (s_out sec) outOwed_nonneg). nia.
Qed.

(** Replacing a value, or adding one. *)
Lemma sumMap_set {A} `{Countable Key} (f : A -> Z) (m : gmap Key A) k b :
  sumMap f (<[k := b]> m) = sumMap f m - from_option f 0 (m !! k) + f b.
Proof using Type.
  destruct (m !! k) as [a|] eqn:E; simpl; [by rewrite (sumMap_update f m k a)|rewrite sumMap_insert by done; lia].
Qed.

(** ** Steps that add nothing to what is owed and take nothing from the funds *)

Definition within (w f : Z) g : Prop := owed g <= w /\ f <= funds g /\ signedOk g.
Definition neutral {A} (m : GM Tun A) : Prop := forall w f, preserves (within w f) m.

Lemma within_view w f g g' :
  g_sections g = g_sections g' -> g_channels g = g_channels g' -> within w f g -> within w f g'.
Proof using Type. unfold within, owed, funds, signedOk. by intros -> ->. Qed.
Lemma within_onSections w f : onSections (within w f).
Proof using Type. intros g g' Hv. unfold sectionView in Hv. apply within_view; congruence. Qed.

Lemma owed_set g s sec : owed (set_g_sections (<[s := sec]> (g_sections g)) g)
  = owed g - from_option sectionOwed 0 (g_sections g !! s) + sectionOwed sec.
Proof using Type. apply sumMap_set. Qed.

Lemma neutral_updSection s f : (forall sec, sectionOwed (f sec) <= sectionOwed sec) -> neutral (updSection s f).
Proof using Type.
  intros Hf w f' g (Hw & Hu & Hs). unfold updSection. run. cbn [fst]. destruct (g_sections g !! s) as [sec|] eqn:E.
  - rewrite (alter_Some _ _ _ _ E). split; [|by split]. rewrite owed_set, E. simpl. specialize (Hf sec). lia.
  - rewrite alter_None by done. by destruct g.
Qed.

Lemma sectionOwed_routes sec routes :
  sumMap routeOwed routes <= sumMap routeOwed (s_routes sec) -> sectionOwed (set_s_routes routes sec) <= sectionOwed sec.
Proof using Hmin. intros H. unfold sectionOwed. cbn. nia. Qed.
Lemma sectionOwed_out sec o :
  from_option outOwed 0 o <= from_option outOwed 0 (s_out sec) -> sectionOwed (set_s_out o sec) <= sectionOwed sec.
Proof using Hmin'. intros H. unfold sectionOwed. cbn. nia. Qed.

Lemma neutral_updRoute s id f : (forall r, routeOwed (f r) <= routeOwed r) -> neutral (updRoute s id f).
Proof using Hmin.
  intros Hf. apply neutral_updSection. intros sec. apply sectionOwed_routes.
  destruct (s_routes sec !! id) as [r|] eqn:E; [|by rewrite alter_None].
  rewrite (alter_Some _ _ _ _ E), (sumMap_update _ _ _ r) by done. specialize (Hf r). lia.
Qed.
Lemma neutral_updOut s f : (forall o, outOwed (f o) <= outOwed o) -> neutral (updOut s f).
Proof using Hmin'.
  intros Hf. apply neutral_updSection. intros sec. apply sectionOwed_out. destruct (s_out sec); [apply Hf|done].
Qed.
Lemma neutral_updChannel ch f : (forall c, pc_LatestState (f c) = pc_LatestState c) -> neutral (updChannel ch f).
Proof using Type.
  intros Hf w f' g (Hw & Hu & Hs). unfold updChannel. run. cbn [fst]. split; [done|]. unfold funds, signedOk in *. cbn.
  destruct (g_channels g !! ch) as [c|] eqn:E; [|by rewrite alter_None].
  assert (signed (f c) = signed c) as Hc by (unfold signed; by rewrite Hf).
  rewrite (alter_Some _ _ _ _ E), (sumMap_update _ _ _ c), Hc by done. split; [lia|].
  apply map_Forall_insert_2; [|done]. rewrite Hc. by apply (Hs ch).
Qed.
End Book.

(** ** The operations that are neutral *)
Section Neutral.
Context {C : CipherCtr} {T : TL} {K : KeyAgreement} {W : World} {Tun : Type} {TP : Tunnel Tun}.
Context (pay : PaymentConfig) (Hmin : 0 <= MinPricePerPacketRoute pay) (Hmin' : 0 <= MinPricePerPacketInOut pay).
Context (w f : Z).

Abbreviation kept := (within (Tun := Tun) pay w f).

Lemma kept_onSections : onSections kept.
Proof. apply within_onSections. Qed.
Hint Resolve kept_onSections preserves_routingAllowed preserves_outAllowed preserves_getOut : pres.

(** Updates of fields the book does not read. *)
Ltac unread := intros ?; first [reflexivity | unfold sectionOwed, outOwed, routeOwed; cbn; lia].
Hint Extern 2 (preserves (within pay w f) (updSection _ _)) => apply neutral_updSection; by unread : pres.
Hint Extern 2 (preserves (within pay w f) (updRoute _ _ _)) => apply (neutral_updRoute pay Hmin); by unread : pres.
Hint Extern 2 (preserves (within pay w f) (updOut _ _)) => apply (neutral_updOut pay Hmin'); by unread : pres.
Hint Extern 2 (preserves (within pay w f) (updChannel _ _)) => apply neutral_updChannel; by unread : pres.
Hint Extern 2 (preserves (within pay w f) (modify _)) => apply preserves_modify; intros ? ?; by eapply within_view : pres.

Lemma kept_closePaymentChannel ch : preserves kept (closePaymentChannel ch).
Proof. unfold closePaymentChannel. pres. Qed.
Lemma kept_Route_Close r : preserves kept (Route_Close r).
Proof. unfold Route_Close, updActiveRoutes. pres. Qed.
Lemma kept_Out_Close s o : preserves kept (Out_Close s o).
Proof using Hmin'. unfold Out_Close, updActiveOut. pres. Qed.
Hint Resolve kept_closePaymentChannel kept_Route_Close kept_Out_Close : pres.
Lemma kept_Destroy s : preserves kept (Destroy_Execute s).
Proof using Hmin'. unfold Destroy_Execute, dropSection, closeIfNotLocked, updActiveSections. pres. Qed.

Lemma kept_Cache s v l : preserves kept (Cache_Execute s v l).
Proof.
  unfold Cache_Execute. apply preserves_bind; [pres|intros sec]. destruct (_ <=? _); [pres|].
  apply preserves_bind.
  - intros g Hg. pose proof (cacheActions_spec s l g) as Hc. destruct (cacheActions s l g) as [g' [| |]]; by (destruct Hc as [-> _] || subst).
  - intros list. apply neutral_updSection. intros sec'. by destruct (_ <? v).
Qed.

Lemma kept_BuildRoute s ins : preserves kept (BuildRoute_Execute s ins).
Proof using Hmin.
  unfold BuildRoute_Execute, addRoute, retarget, movePaid, updActiveRoutes. pres.
  apply neutral_updSection. intros sec. apply (sectionOwed_routes pay Hmin). rewrite sumMap_set.
  pose proof (from_option_nonneg routeOwed (s_routes sec !! br_RouteID ins) routeOwed_nonneg).
  unfold routeOwed at 3. cbn. lia.
Qed.

Lemma kept_sendBack s obj b : preserves kept (sendBack s obj b).
Proof using Hmin'. unfold sendBack. pres. Qed.
Lemma kept_nextSentIn s : preserves kept (nextSentIn s).
Proof using Hmin'. unfold nextSentIn. pres. Qed.
Hint Resolve kept_sendBack kept_nextSentIn : pres.
Lemma kept_BindOut s ins : preserves kept (BindOut_Execute s ins).
Proof using Hmin'.
  unfold BindOut_Execute, openOut, reconfigureOut, updActiveOut. pres.
  apply neutral_updSection. intros sec. apply (sectionOwed_out pay Hmin'). simpl.
  unfold outOwed at 1. cbn. apply from_option_nonneg, outOwed_nonneg.
Qed.
Lemma kept_Listen_datagram s datagram ip port : preserves kept (Listen_datagram s datagram ip port).
Proof using Hmin'. unfold Listen_datagram, Listen_worker. pres. Qed.

Lemma kept_checkSectionSeqno s n b : preserves kept (checkSectionSeqno s n b).
Proof. unfold checkSectionSeqno. pres. Qed.
Lemma kept_stampSection s : preserves kept (stampSection s).
Proof. unfold stampSection. pres. Qed.
Lemma kept_newSection peer key : preserves kept (newSection peer key).
Proof.
  unfold newSection, updActiveSections. pres. intros g (Hw & Hf & Hs). split; [|by split].
  cbn [fst allocSection]. rewrite owed_set, freshLoc_None. cbn [from_option].
  match goal with |- _ + sectionOwed pay ?sec <= _ => assert (sectionOwed pay sec = 0) as -> by (unfold sectionOwed; cbn; rewrite sumMap_empty; lia) end.
  lia.
Qed.
Lemma kept_expiredChannels tm s l : preserves kept (expiredChannels tm s l).
Proof. induction l as [|[k ch] l IH]; cbn [expiredChannels]; pres. Qed.
End Neutral.

(** ** Routing, sending and paying *)
Section Paid.
Context {C : CipherCtr} {T : TL} {K : KeyAgreement} {W : World} {Tun : Type} {TP : Tunnel Tun}.
Context {TOk : TunnelOk Tun} {CO : CoinsOk W}.
Context (pay : PaymentConfig) (Hmin : 0 <= MinPricePerPacketRoute pay) (Hmin' : 0 <= MinPricePerPacketInOut pay).
Context (Hserv : Service pay = true).
Implicit Types (g : Gateway Tun).

Definition creditFloor (s : nat) : Z := - LossAcceptableStartup.
Lemma creditFloor_range s : - 2 ^ 63 < creditFloor s <= 0.
Proof using Type. unfold creditFloor, LossAcceptableStartup. lia. Qed.

Abbreviation nodeInv := (nodeOk pay creditFloor).
Abbreviation owedBy := (owed (Tun := Tun) pay).

Definition solvent g : Prop := nodeInv g /\ signedOk g /\ owedBy g <= funds g.

Lemma solvent_neutral {A} (m : GM Tun A) : preserves nodeInv m -> neutral pay m -> preserves solvent m.
Proof using Type.
  intros Hn Hm g (Hg & Hs & Hle). split; [by apply Hn|]. destruct (Hm (owedBy g) (funds g) g) as (H1 & H2 & H3); [done|]. split; [done|lia].
Qed.
Lemma solvent_onSections : onSections solvent.
Proof using Type.
  intros g g' Hv (Hg & Hs & Hle). split; [by apply (nodeInv_onSections pay creditFloor g)|].
  unfold sectionView in Hv. unfold owed, funds, signedOk in *. injection Hv as <- _ _ <- _ _ _ _. done.
Qed.

(** The section of a state that was changed in one place. *)
Lemma owed_section g g' s sec sec' :
  g_sections g !! s = Some sec -> g_sections g' = <[s := sec']> (g_sections g) ->
  owedBy g' = owedBy g - sectionOwed pay sec + sectionOwed pay sec'.
Proof using Type. intros Hs Hs'. unfold owed. by rewrite Hs', (sumMap_update _ _ _ sec). Qed.

Lemma owed_route g g' s sec id r r' :
  g_sections g !! s = Some sec -> s_routes sec !! id = Some r ->
  g_sections g' = <[s := set_s_routes (<[id := r']> (s_routes sec)) sec]> (g_sections g) ->
  owedBy g' = owedBy g + MinPricePerPacketRoute pay * (routeOwed r' - routeOwed r).
Proof using Type.
  intros Hs Hr Hg. rewrite (owed_section g g' s sec _ Hs Hg). unfold sectionOwed. cbn. rewrite (sumMap_update _ _ _ r) by done. lia.
Qed.
Lemma owed_out g g' s sec o o' :
  g_sections g !! s = Some sec -> s_out sec = Some o ->
  g_sections g' = <[s := set_s_out (Some o') sec]> (g_sections g) ->
  owedBy g' = owedBy g + MinPricePerPacketInOut pay * (outOwed o' - outOwed o).
Proof using Type.
  intros Hs Ho Hg. rewrite (owed_section g g' s sec _ Hs Hg). unfold sectionOwed. cbn. rewrite Ho. simpl. lia.
Qed.

(** A packet on a route takes from its balance, or gives back what it took. *)
Lemma routeStep_owed r r' sent : routeStep r r' sent -> routeOwed r' <= routeOwed r.
Proof using Type. intros []; unfold routeOwed; cbn; lia. Qed.

Lemma solvent_Route_Route s id payload_ cached instructions seqno :
  preserves solvent (Route_Route s id payload_ cached instructions seqno).
Proof using Hmin.
  intros g (Hg & Hsg & Hle). split; [by apply (preserves_Route_Route pay Hmin creditFloor creditFloor_range)|].
  unfold Route_Route. rewrite bind_run. unfold deref. destruct (g_sections g !! s) as [sec|] eqn:Hs; [|done].
  destruct (s_routes sec !! id) as [r|] eqn:Er; [|done].
  destruct (so_routes _ _ _ (nodeInv_section _ _ _ _ _ Hg Hs) _ _ Er) as [_ Hp Hpre].
  assert (0 <= rt_PricePerPacket (r_Target r)) as Hp0 by lia.
  assert (forall g' r', routeOwed r' <= routeOwed r -> g_channels g' = g_channels g ->
    g_sections g' = <[s := set_s_routes (<[id := r']> (s_routes sec)) sec]> (g_sections g) -> signedOk g' /\ owedBy g' <= funds g') as Hset.
  { intros g' r' Hr' Hch Hg'. unfold signedOk. rewrite Hch. split; [done|]. rewrite (owed_route g g' s sec id r r') by done. unfold funds in *. rewrite Hch. nia. }
  destruct (g_peers g !! rt_Peer (r_Target r)) as [p|] eqn:Ep.
  - destruct (Route_Route_spec s id g sec r p payload_ cached instructions seqno Hs Er Hp0 Hpre Ep)
      as (g' & r' & sent & Hrun & Hstep & Hg' & Hv & _).
    unfold Route_Route in Hrun. rewrite bind_run, (deref_run _ _ _ _ Hs), Er in Hrun. rewrite Hrun.
    injection Hv as _ _ Hch _. by eapply Hset; [eapply routeStep_owed|..].
  - destruct (payForPacket_spec s id g sec r Hs Er Hp0 Hpre) as (g1 & r1 & o & Hpay & Hg1 & Eg1 & Hcase).
    assert (signedOk g1 /\ owedBy g1 <= funds g1) as H1.
    { apply (Hset g1 r1); [|by rewrite Eg1|done].
      destruct Hcase as [(_ & -> & _)|[(_ & _ & -> & _)|(t & rate & added & _ & _ & _ & -> & _)]]; unfold routeOwed; cbn; lia. }
    rewrite bind_run, Hpay. destruct o as [paid|e|w]; [|done|done].
    unfold forward. rewrite bind_run, attempt_run. unfold SendCustomMessage. rewrite bind_run.
    unfold deref. assert (g_peers g1 !! rt_Peer (r_Target r) = None) as -> by by rewrite Eg1. done.
Qed.

(** ** A packet written to the network *)

(** One more packet counted is one less that was prepaid. *)
Lemma payForOut_owed s o g sec :
  nodeInv g -> signedOk g -> g_sections g !! s = Some sec -> s_out sec = Some o ->
  match payForOut s o g with
  | (g', Ok _) => within pay (owedBy g - MinPricePerPacketInOut pay) (funds g) g'
  | (g', _) => g' = g
  end.
Proof using Hmin' Hserv.
  intros Hg Hsg Hs Ho. destruct (so_out _ _ _ (nodeInv_section _ _ _ _ _ Hg Hs) o Ho) as [H0 Hprice _ _ _].
  specialize (Hprice Hserv). unfold payForOut. destruct (Z.ltb_spec 0 (o_PricePerPacket o)) as [Hpos|].
  - rewrite bind_run, guard_run. destruct (_ <? _); [done|]. rewrite bind_run, guard_run.
    destruct (Z.leb_spec (o_PrepaidPacketsOut o) 0) as [|Hpre]; [done|]. unfold updOut, updSection. run.
    split; [|done]. rewrite (alter_Some _ _ _ _ Hs), Ho.
    rewrite (owed_out g _ s sec o (set_o_PrepaidPacketsOut (int64 (o_PrepaidPacketsOut o - 1)) o)) by done.
    assert (int64 (o_PrepaidPacketsOut o - 1) <= o_PrepaidPacketsOut o - 1).
    { unfold int64. pose proof (Z.mod_le (o_PrepaidPacketsOut o - 1 + 2 ^ 63) (2 ^ 64)). lia. }
    unfold outOwed. cbn. nia.
  - rewrite ret_run. split; [|done]. replace (MinPricePerPacketInOut pay) with 0 by lia. lia.
Qed.

Lemma countSent_owed w f s :
  triple (within (Tun := Tun) pay (w - MinPricePerPacketInOut pay) f)
    (updOut s (fun o => set_o_PacketsSentOut (uint64 (o_PacketsSentOut o + 1)) o)) (fun _ => within pay w f) (within pay w f).
Proof using Hmin'.
  intros g (Hw & Hf & Hsg). unfold updOut, updSection. run. split; [|by split].
  destruct (g_sections g !! s) as [sec|] eqn:Hs; 
    [rewrite (alter_Some _ _ _ _ Hs)|rewrite alter_None by done; change (owedBy g <= w); lia].
  destruct (s_out sec) as [o|] eqn:Ho.
  - rewrite (owed_out g _ s sec o (set_o_PacketsSentOut (uint64 (o_PacketsSentOut o + 1)) o)) by done.
    assert (outOwed (set_o_PacketsSentOut (uint64 (o_PacketsSentOut o + 1)) o) <= outOwed o + 1); [|nia].
    unfold outOwed, uint64. cbn [set_o_PacketsSentOut o_PacketsSentOut o_PrepaidPacketsOut]. rewrite Z.mod_mod by lia.
    rewrite <- Z.add_mod_idemp_l by lia. pose proof (Z.mod_pos_bound (o_PacketsSentOut o) (2 ^ 64)).
    pose proof (Z.mod_le (o_PacketsSentOut o mod 2 ^ 64 + 1) (2 ^ 64)). lia.
  - rewrite (owed_section g _ s sec (set_s_out None sec) Hs) by done. unfold sectionOwed. cbn. rewrite Ho. simpl. lia.
Qed.

Lemma solvent_Out_Send s payload_ : preserves solvent (Out_Send s payload_).
Proof using Hmin' Hserv.
  intros g (Hg & Hsg & Hle). split; [by apply (preserves_Out_Send pay creditFloor)|].
  unfold Out_Send. rewrite bind_run. unfold getOut, deref. rewrite bind_run.
  destruct (g_sections g !! s) as [sec|] eqn:Es; [|done]. destruct (s_out sec) as [o|] eqn:Eo; [|done]. run.
  destruct (decryptStream _ _ _) as [buf res]. rewrite bind_run, wrapM_run, lift_run. cbn [fst snd].
  destruct (wrapErr _ _) as [data| |]; [|done|done]. rewrite bind_run, wrapM_run, lift_run. cbn [fst snd].
  destruct (wrapErr _ _) as [pl| |]; [|done|done]. destruct (so_Payload pl); [done|].
  rewrite bind_run, guard_run. destruct (negb _); [done|]. rewrite bind_run.
  pose proof (payForOut_owed s o g sec Hg Hsg Es Eo) as Hpay. destruct (payForOut s o g) as [g1 [[]|e|w]]; [|by subst|by subst].
  enough (forall m : GM Tun bytes, triple (within pay (owedBy g - MinPricePerPacketInOut pay) (funds g)) m
    (fun _ => within pay (owedBy g) (funds g)) (within pay (owedBy g) (funds g)) -> signedOk (m g1).1 /\ owedBy (m g1).1 <= funds (m g1).1) as Hm.
  - match goal with |- signedOk (?m g1).1 /\ _ => apply (Hm m) end. clear Hm. set (P := within pay (owedBy g - MinPricePerPacketInOut pay) (funds g)).
    assert (onSections P) as HP by apply within_onSections.
    assert (forall g', P g' -> within pay (owedBy g) (funds g) g') as Hweak by (intros g' [H1 H2]; split; [lia|done]).
    apply triple_keep; [pres|done|intros res']. apply triple_keep; [pres|done|intros _].
    destruct res'; [apply (triple_weaken _ _ _ Hweak); pres|].
    apply (triple_bind _ _ _ (fun _ => within pay (owedBy g) (funds g))); [apply countSent_owed|intros _]. apply triple_preserves.
    pose proof (within_onSections (Tun := Tun) pay (owedBy g) (funds g)). pres.
    apply preserves_modify. intros g' Hg'. by eapply within_view.
  - intros m Hm. specialize (Hm g1 Hpay). destruct (m g1) as [g2 [b|e|w]]; destruct Hm as (H1 & H2 & H3); cbn [fst]; (split; [done|lia]).
Qed.

(** ** A payment *)

Lemma bought_le price least amt : 0 <= least <= price -> 0 < price -> 0 < amt -> 0 <= amt / price /\ least * (amt / price) <= amt.
Proof using Type. intros H1 H2 H3. pose proof (Z.mul_div_le amt price H2). pose proof (Z.div_pos amt price). nia. Qed.

(** What is credited costs at least the minimum price. *)
Lemma mutation_owed s v amt g m g' :
  nodeInv g -> 0 < amt -> paymentMutation s v amt g = (g, Ok m) -> g_sections g' = g_sections g ->
  owedBy (m g').1 <= owedBy g' + amt /\ g_channels (m g').1 = g_channels g' /\ (forall e, (m g').2 <> Err e) /\
  (forall w, (m g').2 = Panic w -> (m g').1 = g').
Proof using Hmin Hmin' Hserv.
  intros Hg Hamt. unfold paymentMutation. run. unfold deref. destruct (g_sections g !! s) as [sec|] eqn:Es; [|done].
  pose proof (nodeInv_section _ _ _ _ _ Hg Es) as Hsec. destruct (_ =? PaymentPurposeOut).
  - destruct (s_out sec) as [o|] eqn:Eo; [|done]. run. destruct (_ && _); [done|]. intros [= <-] Hg'.
    destruct (so_out _ _ _ Hsec o Eo) as [H0 Hprice _ Hout _]. specialize (Hprice Hserv). unfold creditOut. run.
    rewrite (deref_run g_sections s g' sec) by (by rewrite Hg'). run. rewrite Eo.
    destruct (Z.eqb_spec (o_PricePerPacket o) 0); [split_and!; [simpl; lia|done|done|done]|].
    unfold updOut, updSection. run. rewrite Hg', (alter_Some _ _ _ _ Es), Eo. cbn [fst snd].
    destruct (bought_le (o_PricePerPacket o) (MinPricePerPacketInOut pay) amt) as [Hn Hb]; [lia..|].
    split_and!; [|done|done|done]. set (num := amt / o_PricePerPacket o) in *.
    pose (o' := set_o_PrepaidPacketsIn (addPrepaid (o_PrepaidPacketsIn o) num)
      (set_o_PrepaidPacketsOut (addPrepaid (o_PrepaidPacketsOut o) num) o)).
    rewrite (owed_out g' _ s sec o o') by (rewrite ?Hg'; done).
    assert (outOwed o' <= outOwed o + num); [|nia]. unfold outOwed, o'. cbn.
    rewrite addPrepaid_spec by (unfold MaxInt64 in *; lia). lia.
  - destruct (_ =? PaymentPurposeRoute); [|done]. destruct (s_routes sec !! _) as [r|] eqn:Er; [|done]. run.
    destruct (Z.eqb_spec (rt_PricePerPacket (r_Target r)) 0); [done|]. run. destruct (_ && _); [done|]. intros [= <-] Hg'.
    destruct (so_routes _ _ _ Hsec _ _ Er) as [_ Hprice Hpre]. unfold creditRoute.
    rewrite (updRoute_run _ _ _ g' sec r) by (rewrite ?Hg'; done). cbn [fst snd].
    destruct (bought_le (rt_PricePerPacket (r_Target r)) (MinPricePerPacketRoute pay) amt) as [Hn Hb]; [lia..|].
    split_and!; [|done|done|done]. set (num := amt / rt_PricePerPacket (r_Target r)) in *.
    pose (r' := set_r_PrepaidPackets (addPrepaid (r_PrepaidPackets r) num) (set_r_PaymentReceived true r)).
    rewrite (owed_route g' _ s sec (uint32 (Z.land (pc_Purpose v) MaxUint32)) r r') by first [done | by rewrite Hg'].
    assert (routeOwed r' <= routeOwed r + num); [|nia]. unfold routeOwed, r'. cbn.
    unfold prepaidRange, LossAcceptableStartup, MaxInt64 in Hpre. rewrite addPrepaid_spec by lia. lia.
Qed.

(** The state that is kept covers what was credited: a channel that was just
    loaded counts from nothing, and nothing was credited for it before. *)
Lemma applyPayment_solvent s ins st ch fresh g v :
  nodeInv g -> signedOk g -> 0 <= Amount st -> g_channels g !! ch = Some v ->
  owedBy g + (if fresh : bool then signed v else 0) <= funds g ->
  let g' := (applyPayment s ins st ch fresh g).1 in signedOk g' /\ owedBy g' <= funds g'.
Proof using Hmin Hmin' Hserv.
  intros Hg Hsg Hst Hch Hle. assert (0 <= signed v) as Hv by by apply (Hsg ch).
  assert (signedOk g /\ owedBy g <= funds g) as H0 by (split; [done|destruct fresh; lia]). cbv zeta.
  unfold applyPayment. rewrite bind_run, (deref_run _ _ _ _ Hch). cbv iota beta. rewrite bind_run, guard_run.
  destruct (negb _); [done|]. fold (newAmount v st fresh).
  assert (newAmount v st fresh = Amount st - if fresh then 0 else signed v) as Hamt
    by (unfold newAmount, signed; destruct (pc_LatestState v), fresh; simpl; lia).
  destruct (Z.leb_spec (newAmount v st fresh) 0) as [|Hpos]; [done|]. rewrite bind_run, guard_run. destruct (_ && _); [done|].
  rewrite bind_run, nowUnix_run. cbv iota beta. set (g1 := set_g_tick _ g). assert (signedOk g1 /\ owedBy g1 <= funds g1) as H1 by done.
  rewrite bind_run, guard_run. destruct (_ <? _); [done|]. rewrite bind_run.
  destruct (paymentMutation s v (newAmount v st fresh) g1) as [g2 o] eqn:Em.
  pose proof (paymentMutation_pure _ _ _ _ _ _ Em) as ->. destruct o as [m|e|w]; [|done|done].
  rewrite bind_run, ask_run. cbv iota beta. destruct (w_addResolve _ _ _); [done|]. unfold emit. rewrite bind_run, modify_run. cbv iota beta.
  set (g4 := set_g_trace _ _). assert (nodeInv g1) as Hg1 by (by apply (nodeInv_view pay creditFloor g)).
  destruct (mutation_owed s v _ g1 m g4 Hg1 Hpos Em eq_refl) as (Ho & Hc & He & Hp). rewrite bind_run.
  destruct (m g4) as [g5 [[]|e|w]]; cbn [fst snd] in *; [|by destruct (He e)|by rewrite (Hp w)].
  unfold updChannel. rewrite bind_run, modify_run. cbv iota beta. set (g6 := set_g_channels _ g5).
  assert (signedOk g6 /\ owedBy g6 <= funds g6) as H6; [|by destruct (pi_Final ins)].
  change (owedBy g6) with (owedBy g5). unfold funds, signedOk, g6. cbn [g_channels set_g_channels]. rewrite Hc.
  change (g_channels g4) with (g_channels g). rewrite (alter_Some _ _ _ _ Hch), (sumMap_update _ _ _ v) by done.
  change (signed (set_pc_LatestState (Some st) v)) with (Amount st). unfold funds in Hle.
  change (owedBy g4) with (owedBy g) in Ho. split; [by apply map_Forall_insert_2|destruct fresh; lia].
Qed.

(** A channel the payment service describes has an unsigned amount. *)
Lemma lastKnown_nonneg vc g g' last : lastKnown vc g = (g', Ok last) -> 0 <= from_option Amount 0 last.
Proof using CO.
  unfold lastKnown. destruct (LastKnownResolve vc); [by intros [= _ <-]|]. run. rewrite wrapM_run, lift_run. cbn [fst snd].
  destruct (wrapErr _ _) as [cl| |]; [|done|done]. run. rewrite wrapM_run, lift_run. cbn [fst snd].
  destruct (w_loadState cl) as [st|e|w] eqn:El; cbn [wrapErr]; [|done|done]. run. intros [= _ <-]. simpl. by eapply loaded_nonneg.
Qed.
Lemma fetchChannel_signed ins g g' v fresh : fetchChannel ins g = (g', Ok (v, fresh)) -> 0 <= signed v.
Proof using CO.
  unfold fetchChannel. run. rewrite wrapM_run, lift_run. cbn [fst snd]. destruct (wrapErr _ _) as [vc| |]; [|done|done]. run.
  destruct (lastKnown vc _) as [g1 [last|e|w]] eqn:El; [|done|done]. apply lastKnown_nonneg in El.
  destruct (Incoming vc); [|done]. destruct (Outgoing vc); [done|]. run. rewrite wrapM_run, lift_run. cbn [fst snd].
  destruct (wrapErr _ _); [|done|done]. run. by intros [= _ <- _].
Qed.

Lemma loadPaymentState_pure ins g : (loadPaymentState ins g).1 = g.
Proof using Type.
  unfold loadPaymentState, routingAllowed. run. destruct (negb _); [done|]. run. destruct (negb _); [done|]. run.
  rewrite wrapM_run, lift_run. cbn [fst snd]. destruct (wrapErr _ _); [|done|done]. run. destruct (_ <=? _); [done|]. run.
  by destruct (negb _).
Qed.

Lemma Payment_solvent s ins g :
  nodeInv g -> signedOk g -> owedBy g <= funds g ->
  let g' := (Payment_Execute s ins g).1 in signedOk g' /\ owedBy g' <= funds g'.
Proof using Hmin Hmin' Hserv CO.
  intros Hg Hsg Hle. cbv zeta. unfold Payment_Execute. rewrite bind_run.
  destruct (loadPaymentState ins g) as [g0 [st|e|w]] eqn:El.
  2,3: pose proof (loadPaymentState_pure ins g) as Hpure; rewrite El in Hpure; cbn [fst] in Hpure; by subst g0.
  apply loadPaymentState_inv in El as [-> (_ & _ & _ & Hst & _)]. apply Z.lt_le_incl in Hst. unfold findChannel. rewrite !bind_run. unfold deref.
  destruct (g_sections g !! s) as [sec|] eqn:Es; [|done]. rewrite ret_run. cbv iota beta.
  destruct (s_payments sec !! pi_Key ins) as [ch|] eqn:Ek.
  - rewrite bind_run, ret_run. cbv iota beta. destruct (g_channels g !! ch) as [v|] eqn:Ech.
    + apply (applyPayment_solvent s ins st ch false g v); [done|done|done|done|lia].
    + unfold applyPayment. rewrite bind_run. unfold deref. by rewrite Ech.
  - rewrite !bind_run. destruct (fetchChannel_tick ins g) as [n En].
    destruct (fetchChannel ins g) as [g2 [[v fresh]|e|w]] eqn:Ef; cbn [fst] in En; subst g2; [|done|done].
    apply fetchChannel_signed in Ef. rewrite bind_run. unfold installChannel. rewrite bind_run.
    rewrite (deref_run g_sections s (set_g_tick n g) sec Es), Ek. cbv iota beta. rewrite bind_run.
    unfold allocChannel, updSection. rewrite bind_run, modify_run, ret_run. cbv iota beta. rewrite ret_run. cbv iota beta.
    set (ch := freshLoc _). set (g3 := set_g_sections _ _).
    assert (g_channels g3 = <[ch := v]> (g_channels g)) as Hch3 by done.
    assert (owedBy g3 = owedBy g) as Ho3.
    { unfold g3. cbn [g_sections set_g_tick set_g_channels]. rewrite (alter_Some _ _ _ _ Es).
      erewrite (owed_section g); [|exact Es|done]. unfold sectionOwed. cbn. lia. }
    assert (funds g3 = funds g + signed v) as Hf3.
    { unfold funds. rewrite Hch3, sumMap_insert; [lia|]. apply freshLoc_None. }
    apply (applyPayment_solvent s ins st ch fresh g3 v);
      [|by unfold signedOk; rewrite Hch3; apply map_Forall_insert_2|done|by rewrite Hch3, lookup_insert_eq|destruct fresh; lia].
    unfold g3. pose proof (preserves_updSection (Tun := Tun) pay creditFloor s (fun sec => set_s_payments (<[pi_Key ins := ch]> (s_payments sec)) sec)) as Hp.
    apply (Hp ltac:(by intros ? []) (set_g_channels (<[ch := v]> (g_channels g)) (set_g_tick n g))).
    by apply (nodeInv_view pay creditFloor g).
Qed.

(** ** Every step of a node *)

Lemma solvent_Payment s ins : preserves solvent (Payment_Execute s ins).
Proof using Hmin Hmin' Hserv CO.
  intros g (Hg & Hsg & Hle). split; [by apply (preserves_Payment pay Hmin creditFloor creditFloor_range)|]. by apply Payment_solvent.
Qed.

(** The operations that are neutral keep a node solvent. *)
Tactic Notation "neutrally" uconstr(H) := apply solvent_neutral; [apply H; auto using creditFloor_range|].
Lemma solvent_Destroy s : preserves solvent (Destroy_Execute s).
Proof using Hmin'. neutrally preserves_Destroy. intros w f. by apply kept_Destroy. Qed.
Lemma solvent_Cache s v l : preserves solvent (Cache_Execute s v l).
Proof using Type. neutrally preserves_Cache. intros w f. by apply kept_Cache. Qed.
Lemma solvent_BuildRoute s ins : preserves solvent (BuildRoute_Execute s ins).
Proof using Hmin. neutrally preserves_BuildRoute. intros w f. by apply kept_BuildRoute. Qed.
Lemma solvent_BindOut s ins : preserves solvent (BindOut_Execute s ins).
Proof using Hmin'. neutrally preserves_BindOut. intros w f. by apply kept_BindOut. Qed.
Lemma solvent_Listen_datagram s datagram ip port : preserves solvent (Listen_datagram s datagram ip port).
Proof using Hmin'.
  neutrally preserves_Listen_datagram; [done|]. intros w f. by apply kept_Listen_datagram.
Qed.
Lemma solvent_checkSectionSeqno s n b : preserves solvent (checkSectionSeqno s n b).
Proof using Type. neutrally preserves_checkSectionSeqno. intros w f. by apply kept_checkSectionSeqno. Qed.
Lemma solvent_stampSection s : preserves solvent (stampSection s).
Proof using Type. neutrally preserves_stampSection. intros w f. by apply kept_stampSection. Qed.
Lemma solvent_newSection peer key : preserves solvent (newSection peer key).
Proof using Type. neutrally preserves_newSection. intros w f. by apply kept_newSection. Qed.
Lemma solvent_closePaymentChannel ch : preserves solvent (closePaymentChannel ch).
Proof using Type. neutrally preserves_closePaymentChannel. intros w f. by apply kept_closePaymentChannel. Qed.
Lemma solvent_expiredChannels tm s l : preserves solvent (expiredChannels tm s l).
Proof using Type. neutrally preserves_expiredChannels. intros w f. by apply kept_expiredChannels. Qed.
Lemma solvent_Process t payload_ meta : preserves solvent (Process t payload_ meta).
Proof using TOk. intros g Hg. apply (solvent_onSections g); [|done]. symmetry. apply (Process_peers t payload_ meta g). Qed.

Hint Resolve solvent_onSections solvent_Route_Route solvent_Out_Send solvent_Payment solvent_Destroy solvent_Cache
  solvent_BuildRoute solvent_BindOut solvent_checkSectionSeqno solvent_stampSection solvent_newSection
  solvent_closePaymentChannel solvent_expiredChannels solvent_Process preserves_routingAllowed preserves_outAllowed : pres.

Lemma solvent_executeAll s l msg rest : preserves solvent (executeAll s l msg rest).
Proof using All.
  revert msg. induction l as [|i l IH]; intros msg; cbn [executeAll]; [pres|].
  apply preserves_bind; [|done]. apply preserves_wrapM.
  unfold Execute, keeping, ReportStats_Execute, Deliver_Execute, SendOut_Execute, DeliverInitiator_Execute, Route_Execute.
  destruct i; pres.
Qed.
Lemma solvent_executeCached s l msg : preserves solvent (executeCached s l msg).
Proof using All.
  revert msg. induction l as [|a l IH]; intros msg; cbn [executeCached]; [pres|]. apply preserves_bind; [|done]. apply preserves_wrapM.
  unfold CachedAction_Execute, keeping, SendOutCachedAction_Execute, DeliverInitiatorCachedAction_Execute, RouteCachedAction_Execute.
  destruct a; pres.
Qed.
Hint Resolve solvent_executeAll solvent_executeCached : pres.
Lemma solvent_keepAliveSections tm l : preserves solvent (keepAliveSections tm l).
Proof using Type. induction l as [|s l IH]; cbn [keepAliveSections]; pres. Qed.
Hint Resolve solvent_keepAliveSections : pres.

Lemma nodeStep_solvent g g' : nodeStep g g' -> solvent g -> solvent g'.
Proof using All.
  intros [g1 [peer msg| |t _|id client|peer client]|s datagram ip port]; revert g.
  - change (preserves solvent (messageHandler peer msg)). unfold messageHandler, handleCached, handleEncrypted. pres.
  - change (preserves solvent keepAliveTick). unfold keepAliveTick, keepAlivePeer. pres.
  - change (preserves solvent (runTask t)). unfold runTask. pres.
  - change (preserves solvent (connHandler id client)). unfold connHandler. pres.
  - change (preserves solvent (disconnectHandler peer client)). unfold disconnectHandler. pres.
  - apply solvent_Listen_datagram.
Qed.

Lemma reachable_solvent key g : reachable pay key g -> solvent g.
Proof using All.
  induction 1 as [|g g' _ IH Hstep]; [|by eapply nodeStep_solvent].
  split; [apply NewGateway_inv|]. split; [apply map_Forall_empty|]. unfold owed, funds. cbn. by rewrite !sumMap_empty.
Qed.
End Paid.


(** ** Runs *)
Section Runs.
#[local] Existing Instances toyCipher sampleTL sampleKA sampleWorld.
#[local] Instance unitTunnel' : Tunnel unit := sampleTunnel.

#[local] Instance sampleCoins : CoinsOk sampleWorld.
Proof. intros cell st [= <-]. simpl. lia. Qed.

(** One state of 5000, good for a route at five each. *)
Definition statePayment : instruction :=
  Payment (mkPayment [66] (PutUint64 5000) (Z.shiftl PaymentPurposeRoute 32 + 1) false).
Definition payerPackets (key : bytes) : list message :=
  [packetOf key 1 [buildRouteTo [21] 5; statePayment] [9]].
Definition paidOnce : Gateway unit := (handleAll sampleWorld (payerPackets [1; 1; 1; 1]) (startGateway sampleWorld paidConfig)).1.


(** The prepaid packets of all routes of a node. *)
Definition prepaidPackets (g : Gateway unit) : Z := sumMap (fun sec => sumMap r_PrepaidPackets (s_routes sec)) (g_sections g).

(** The book counts a channel once for every section that was shown it: the mark
    for channels loaded after a restart is given to the first payment of every
    section, so one signed state buys its packets again in each. *)
Example state_counts_per_section :
  let g := (handleAll sampleWorld (payerPackets [2; 2; 2; 2]) paidOnce).1 in
  prepaidPackets paidOnce = 1000 /\ prepaidPackets g = 2000 /\
  List.map pc_Key (map_to_list (g_channels g)).*2 = [[66]; [66]].
Proof using Type. vm_compute. auto. Qed.
End Runs.
