(* ===== verification/Replay.v ===== *)
(** * Replay protection of the gateway

    The window of [checkSeqno] in its place: a packet whose number was seen is
    refused before anything is executed and leaves no trace in the state, and a
    cached packet runs its actions once, however often and in whatever order it
    is repeated. *)

From S2P Require Import Prelude Seqno Stream Wire Samples Keys Hoare State Peers Node Payments OutGate Gateway Worlds Traffic.

Lemma checkSeqno_refuses obj n w : checkSeqno obj n = (w, false) -> w = obj.
Proof.
  unfold checkSeqno. destruct (overflows obj n); [done|]. destruct (_ <? n); [by destruct (_ <=? _)|].
  destruct (n =? _); [by intros [= <-]|]. destruct (_ <=? _); [by intros [= <-]|].
  destruct (negb _); [by intros [= <-]|done].
Qed.

Section Replay.
Context {C : CipherCtr} {T : TL} {K : KeyAgreement} {W : World} {Tun : Type} {TP : Tunnel Tun} {TOk : TunnelOk Tun}.
Implicit Types (g : Gateway Tun).

(** ** The cached window is out of reach of the cached actions *)

Definition windowAt (key : bytes) (s : nat) (w : SeqnoWindow) g : Prop :=
  g_inboundSections g !! key = Some s /\ exists sec, g_sections g !! s = Some sec /\ s_seqnoCached sec = w.

Lemma windowAt_onSections key s w : onSections (windowAt key s w).
Proof.
  intros g g' Hv (H1 & sec & H2 & H3). injection Hv as E1 _ E3 _ _ _ _ _. unfold windowAt. rewrite <- E1, <- E3.
  split; [done|]. by exists sec.
Qed.
Hint Resolve windowAt_onSections : pres.

Section Window.
Context (key : bytes) (s : nat) (w : SeqnoWindow).
Abbreviation P := (windowAt key s w).

Lemma window_updSection s' f :
  (forall sec, s_seqnoCached (f sec) = s_seqnoCached sec) -> preserves P (updSection s' f).
Proof.
  intros Hf g (H1 & sec & H2 & H3). split; [done|]. unfold updSection. run. cbn.
  destruct (decide (s' = s)) as [->|Hne].
  - exists (f sec). rewrite (alter_Some _ _ _ _ H2), lookup_insert_eq, Hf. done.
  - exists sec. by rewrite lookup_alter_ne.
Qed.
Lemma window_updRoute s' id f : preserves P (updRoute s' id f).
Proof. by apply window_updSection. Qed.
Lemma window_updOut s' f : preserves P (updOut s' f).
Proof. by apply window_updSection. Qed.
Lemma window_statsRouted f : preserves P (modify (fun g => set_g_statsRouted (f g) g)).
Proof. by intros g Hg. Qed.
Lemma window_statsSent f : preserves P (modify (fun g => set_g_statsSent (f g) g)).
Proof. by intros g Hg. Qed.
Lemma window_Process t payload_ meta : preserves P (Process t payload_ meta).
Proof using TOk. intros g Hg. apply (windowAt_onSections key s w g); [|done]. symmetry. apply (Process_peers t payload_ meta g). Qed.
Hint Resolve window_updRoute window_updOut window_statsRouted window_statsSent window_Process : pres.

Lemma window_CachedAction s' a msg : preserves P (CachedAction_Execute s' a msg).
Proof using TOk.
  unfold CachedAction_Execute, keeping, RouteCachedAction_Execute, Route_Route, payForPacket, forward, routingAllowed,
    SendOutCachedAction_Execute, outAllowed, Out_Send, getOut, payForOut, DeliverInitiatorCachedAction_Execute.
  pres.
Qed.
Lemma window_executeCached s' l msg : preserves P (executeCached s' l msg).
Proof using TOk.
  revert msg. induction l as [|a l IH]; intros msg; cbn [executeCached]; [pres|].
  apply preserves_bind; [|done]. apply preserves_wrapM, window_CachedAction.
Qed.
End Window.

(** ** One packet *)

(** Whether a cached packet gets past the window. *)
Definition startsActions (m : EncryptedMessageCached) g : bool :=
  match g_inboundSections g !! emc_SectionPubKey m ≫= fun s => g_sections g !! s with
  | Some sec => (checkSeqno (s_seqnoCached sec) (emc_Seqno m)).2
  | None => false
  end.

Lemma set_window_same g s sec w (f : SeqnoWindow -> SectionState -> SectionState) :
  g_sections g !! s = Some sec -> f w sec = sec -> updSection s (f w) g = (g, Ok tt).
Proof.
  intros Hs Hf. unfold updSection. run. rewrite alter_id; [by destruct g|]. intros x Hx. congruence.
Qed.

(** A packet of a known section that is refused changes nothing. *)
Lemma cached_refused peer m g s sec :
  g_inboundSections g !! emc_SectionPubKey m = Some s -> g_sections g !! s = Some sec ->
  (checkSeqno (s_seqnoCached sec) (emc_Seqno m)).2 = false ->
  messageHandler peer (MsgCached m) g = (g, Err (Errorf "repeating cached packet")).
Proof.
  intros Hin Hs Hc. unfold messageHandler, handleCached. run. rewrite Hin. run.
  unfold checkSectionSeqno. run. rewrite (deref_run _ _ _ _ Hs). run.
  destruct (checkSeqno _ _) as [w ok] eqn:E. cbn in Hc. subst ok. apply checkSeqno_refuses in E as ->. run.
  rewrite (set_window_same g s sec _ set_s_seqnoCached Hs) by by destruct sec. by run.
Qed.

Lemma checkSectionSeqno_cached s n key w :
  let Q := windowAt key s (checkSeqno w n).1 in
  triple (windowAt key s w) (checkSectionSeqno s n true) (fun _ => Q) Q.
Proof.
  intros Q g (Hin & sec & Hs & <-). unfold checkSectionSeqno. run. rewrite (deref_run _ _ _ _ Hs). run.
  subst Q. destruct (checkSeqno _ _) as [w' ok]. unfold updSection. run. split; [done|].
  exists (set_s_seqnoCached w' sec). cbn. by rewrite (alter_Some _ _ _ _ Hs), lookup_insert_eq.
Qed.

Lemma window_stampSection key s w s' : preserves (windowAt key s w) (stampSection s').
Proof. unfold stampSection. pres. by apply window_updSection. Qed.
Hint Resolve window_stampSection window_executeCached : pres.

Lemma cached_window peer m g key s w :
  windowAt key s w g -> emc_SectionPubKey m = key ->
  windowAt key s (checkSeqno w (emc_Seqno m)).1 (messageHandler peer (MsgCached m) g).1 /\
  startsActions m g = (checkSeqno w (emc_Seqno m)).2.
Proof using TOk.
  intros Hw <-. split.
  2:{ destruct Hw as (Hin & sec & Hs & <-). unfold startsActions. rewrite Hin. cbn [mbind option_bind]. by rewrite Hs. }
  set (Q := windowAt _ _ _). assert (onSections Q) as HQ by apply windowAt_onSections.
  assert (triple (windowAt (emc_SectionPubKey m) s w)
    (fresh ← checkSectionSeqno s (emc_Seqno m) true;
     guard_err (negb fresh) "repeating cached packet" ;;
     sec ← deref g_sections s;
     guard_err (bool_decide (s_cachedActions sec = [])) "cache is empty" ;;
     stampSection s ;;
     executeCached s (s_cachedActions sec) m) (fun _ => Q) Q) as H.
  { apply (triple_bind _ _ _ (fun _ => Q)); [apply checkSectionSeqno_cached|]. intros fresh.
    apply triple_preserves. subst Q. pres. }
  specialize (H g Hw). unfold messageHandler, handleCached. rewrite bind_run. rewrite (bind_run get), get_run.
  destruct Hw as (Hin & _). rewrite Hin.
  match type of H with (let (_, _) := ?x in _) => destruct x as [g' [[]|e|w0]]; [|done|done] end.
  assert (preserves Q (now ← nowUnix; updPeer peer (set_p_LastPacketFromAt now))) as Hp by pres. by apply Hp.
Qed.

(** ** Any sequence of cached packets of a section *)

(** The packets handled one after the other: the numbers of those that got past
    the window, in order. *)
Fixpoint cachedRun (peer : nat) (ms : list EncryptedMessageCached) g : list Z :=
  match ms with
  | [] => []
  | m :: ms =>
      let rest := cachedRun peer ms (messageHandler peer (MsgCached m) g).1 in
      if startsActions m g then emc_Seqno m :: rest else rest
  end.

Lemma cachedRun_acceptAll peer ms g key s w :
  windowAt key s w g -> Forall (fun m => emc_SectionPubKey m = key) ms ->
  cachedRun peer ms g = (acceptAll w (emc_Seqno <$> ms)).2.
Proof using TOk.
  revert g w. induction ms as [|m ms IH]; intros g w Hw Hms; [done|].
  apply Forall_cons_1 in Hms as [Hm Hms]. destruct (cached_window peer m g key s w Hw Hm) as [Hw' Hst].
  cbn [cachedRun fmap list_fmap acceptAll]. rewrite Hst. specialize (IH _ _ Hw' Hms). rewrite IH.
  destruct (checkSeqno w (emc_Seqno m)) as [w' ok]. cbn [fst snd].
  by destruct (acceptAll w' _).
Qed.
End Replay.


(** A route on a connected node with its packets cached. *)
Definition cachedGateway : Gateway (W := sampleWorld) unit :=
  (handleAll sampleWorld [packet 1 [buildRouteTo [21] 0; Cache 7 [Route 1]] [9]]
   (connHandler [21] (mkConn 21 "10.0.0.21:1") (startGateway sampleWorld freeConfig)).1).1.
Definition cachedPackets : list EncryptedMessageCached :=
  (fun n => mkEncryptedMessageCached senderKey n [9]) <$> [1; 2; 1; 2; 3; 1; 5; 4; 3].

