(* ===== verification/Refs.v ===== *)
(** * Reference counting of peers

    A peer is shared by the routes and out gateways that name it, of all live
    sections, and by the tunnels of this node.  The invariant: the count of a
    peer is exactly the number of its users, and a peer with users is in the
    table of active peers, connected or being discovered.  [held] stands for the
    references taken by others (the tunnels) and, inside an operation, for the
    ones it has in hand. *)

From S2P Require Import Prelude Seqno Stream Wire Samples Keys Hoare State Peers Node Payments OutGate Gateway Worlds Traffic Invariants PaymentFacts.

(** ** What counts *)

(** The users of a section: routes and out gateway, each with the location of
    its peer and the id it was built for. *)
Record secView := mkSecView {
  sv_key : bytes;
  sv_routes : gmap Z (nat * bytes);
  sv_out : option (nat * bytes);
}.

Record refView := mkRefView {
  rv_peers : gmap nat (bytes * Z);
  rv_active : gmap bytes nat;
  rv_secs : gmap nat secView;
}.

Definition uses (p : nat) (u : nat * bytes) : Z := if decide (u.1 = p) then 1 else 0.

Definition secCount (p : nat) (sv : secView) : Z :=
  sumMap (uses p) (sv_routes sv) + match sv_out sv with Some u => uses p u | None => 0 end.

(** The users of a peer in the live sections. *)
Definition count (v : refView) (live : gmap bytes nat) (p : nat) : Z :=
  sumMap (fun l => match rv_secs v !! l with Some sv => secCount p sv | None => 0 end) live.

Definition usesPeer (v : refView) (u : nat * bytes) : Prop := exists r, rv_peers v !! u.1 = Some (u.2, r).

Record refsInv (n : Z) (held : nat -> Z) (live : gmap bytes nat) (v : refView) : Prop := {
  ri_live : forall k l, live !! k = Some l -> exists sv, rv_secs v !! l = Some sv /\ sv_key sv = k;
  ri_active : forall id l, rv_active v !! id = Some l -> exists r, rv_peers v !! l = Some (id, r);
  ri_count : forall l id r, rv_peers v !! l = Some (id, r) -> r = count v live l + held l;
  ri_kept : forall l id r, rv_peers v !! l = Some (id, r) -> 0 < r -> rv_active v !! id = Some l;
  ri_none : forall l, rv_peers v !! l = None -> count v live l = 0 /\ held l = 0;
  ri_routes : forall k l sv id u, live !! k = Some l -> rv_secs v !! l = Some sv ->
    sv_routes sv !! id = Some u -> usesPeer v u;
  ri_out : forall k l sv u, live !! k = Some l -> rv_secs v !! l = Some sv -> sv_out sv = Some u -> usesPeer v u;
  ri_held : forall l, 0 <= held l;
  ri_bound : forall l, count v live l + held l <= n;
}.

(** ** Counting *)

Lemma uses_range p u : 0 <= uses p u <= 1.
Proof. unfold uses. destruct (decide _); lia. Qed.

Lemma secCount_nonneg p sv : 0 <= secCount p sv.
Proof.
  unfold secCount. pose proof (sumMap_bound (uses p) (sv_routes sv) 0 1 (fun _ u _ => uses_range p u)).
  destruct (sv_out sv) as [u|]; [pose proof (uses_range p u)|]; lia.
Qed.

Lemma count_nonneg v live p : 0 <= count v live p.
Proof.
  unfold count. induction live as [|k l live Hk IH] using map_ind; [by rewrite sumMap_empty|].
  rewrite sumMap_insert by done. destruct (rv_secs v !! l) as [sv|]; [pose proof (secCount_nonneg p sv)|]; lia.
Qed.

Lemma count_extract v live k l sv p :
  live !! k = Some l -> rv_secs v !! l = Some sv -> count v live p = secCount p sv + count v (delete k live) p.
Proof. intros Hk Hl. unfold count. rewrite (sumMap_extract _ live k l Hk). by rewrite Hl. Qed.

(** Sections are found under their own key, so no two keys share one. *)
Lemma live_inj n held live v k k' l :
  refsInv n held live v -> live !! k = Some l -> live !! k' = Some l -> k = k'.
Proof.
  intros H Hk Hk'. destruct (ri_live _ _ _ _ H k l Hk) as (sv & Hs & <-).
  destruct (ri_live _ _ _ _ H k' l Hk') as (sv' & Hs' & <-). congruence.
Qed.

Definition setSec (l : nat) (sv : secView) (v : refView) : refView :=
  mkRefView (rv_peers v) (rv_active v) (<[l := sv]> (rv_secs v)).

Lemma count_setSec n held live v k l sv sv' p :
  refsInv n held live v -> live !! k = Some l -> rv_secs v !! l = Some sv ->
  count (setSec l sv' v) live p = count v live p - secCount p sv + secCount p sv'.
Proof.
  intros H Hk Hl. rewrite (count_extract v live k l sv p Hk Hl).
  rewrite (count_extract (setSec l sv' v) live k l sv' p Hk) by apply lookup_insert_eq.
  enough (count (setSec l sv' v) (delete k live) p = count v (delete k live) p) by lia.
  apply sumMap_ext. intros k' l' Hk'. cbn. rewrite lookup_insert_ne; [done|].
  intros <-. apply lookup_delete_Some in Hk' as [Hne Hk']. by apply Hne, (live_inj n held live v k k' l).
Qed.

(** ** The steps of the abstract counter *)

Definition plus (held : nat -> Z) (l : nat) : nat -> Z := fun x => held x + uses x (l, []).

Lemma plus_self held l : plus held l l = held l + 1.
Proof. unfold plus, uses. simpl. by destruct (decide (l = l)). Qed.
Lemma plus_other held l x : x <> l -> plus held l x = held x.
Proof. intros. unfold plus, uses. simpl. destruct (decide (l = x)); [congruence|lia]. Qed.

Lemma refsInv_weaken n n' held live v : n <= n' -> refsInv n held live v -> refsInv n' held live v.
Proof. intros Hn []. constructor; eauto. intros l. specialize (ri_bound0 l). lia. Qed.

Lemma refsInv_ext n held held' live v :
  (forall l, held l = held' l) -> refsInv n held live v -> refsInv n held' live v.
Proof.
  intros He []. constructor; eauto; intros.
  - rewrite <- He. eauto.
  - rewrite <- He. eauto.
  - rewrite <- He. eauto.
  - rewrite <- He. eauto.
Qed.

Section Steps.
Context (n : Z) (held : nat -> Z) (live : gmap bytes nat) (v : refView).

Definition setPeers (peers : gmap nat (bytes * Z)) (active : gmap bytes nat) : refView :=
  mkRefView peers active (rv_secs v).

(** A change of counts only: the ids of the peers stay. *)
Lemma usesPeer_keep peers active u :
  (forall l id r, rv_peers v !! l = Some (id, r) -> exists r', peers !! l = Some (id, r')) ->
  usesPeer v u -> usesPeer (setPeers peers active) u.
Proof. intros H [r Hr]. apply H in Hr as [r' Hr']. by exists r'. Qed.

Lemma step_newPeer l id :
  refsInv n held live v -> rv_peers v !! l = None -> rv_active v !! id = None ->
  refsInv n held live (setPeers (<[l := (id, 0)]> (rv_peers v)) (<[id := l]> (rv_active v))).
Proof.
  intros H Hl Hid.
  assert (forall l' id' r, rv_peers v !! l' = Some (id', r) ->
    exists r', (<[l := (id, 0)]> (rv_peers v)) !! l' = Some (id', r')) as Hkeep.
  { intros l' id' r Hl'. exists r. rewrite lookup_insert_ne; [done|congruence]. }
  destruct H as [H1 H2 H3 H4 H5 H6 H7 H8 H9]. constructor; cbn; try done.
  - intros id' l' Ha. destruct (decide (id = id')) as [<-|Hne].
    + rewrite lookup_insert_eq in Ha. injection Ha as <-. exists 0. apply lookup_insert_eq.
    + rewrite lookup_insert_ne in Ha by done. destruct (H2 _ _ Ha) as [r Hr]. eauto.
  - intros l' id' r Hp. destruct (decide (l = l')) as [<-|Hne].
    + rewrite lookup_insert_eq in Hp. injection Hp as <- <-. destruct (H5 l Hl) as [Hc Hh].
      change (count (setPeers _ _) live l) with (count v live l). lia.
    + rewrite lookup_insert_ne in Hp by done. by apply (H3 l' id').
  - intros l' id' r Hp Hr. destruct (decide (l = l')) as [<-|Hne].
    + rewrite lookup_insert_eq in Hp. injection Hp as <- <-. lia.
    + rewrite lookup_insert_ne in Hp by done. pose proof (H4 _ _ _ Hp Hr) as Ha.
      rewrite lookup_insert_ne; [done|congruence].
  - intros l' Hl'. apply lookup_insert_None in Hl' as [Hl' _]. by apply H5.
  - intros k l' sv i u Hk Hs Hu. eapply usesPeer_keep; [done|by eapply H6].
  - intros k l' sv u Hk Hs Hu. eapply usesPeer_keep; [done|by eapply H7].
Qed.

Lemma peers_keep l id r r' l' id' x :
  rv_peers v !! l = Some (id, r) -> rv_peers v !! l' = Some (id', x) ->
  exists y, (<[l := (id, r')]> (rv_peers v)) !! l' = Some (id', y).
Proof.
  intros Hl Hl'. destruct (decide (l = l')) as [<-|Hne]; [|exists x; by rewrite lookup_insert_ne].
  rewrite lookup_insert_eq. exists r'. congruence.
Qed.

Lemma step_addRef l id r :
  refsInv n held live v -> rv_peers v !! l = Some (id, r) -> rv_active v !! id = Some l ->
  refsInv (n + 1) (plus held l) live (setPeers (<[l := (id, r + 1)]> (rv_peers v)) (rv_active v)).
Proof.
  intros H Hl Hid. pose proof (fun l' id' x => peers_keep l id r (r + 1) l' id' x Hl) as Hkeep.
  destruct H as [H1 H2 H3 H4 H5 H6 H7 H8 H9]. constructor; cbn; try done.
  - intros id' l' Ha. destruct (H2 _ _ Ha) as [x Hx]. by apply (Hkeep _ _ x).
  - intros l' id' x Hp. change (count (setPeers _ _) live l') with (count v live l').
    destruct (decide (l = l')) as [<-|Hne].
    + rewrite lookup_insert_eq in Hp. injection Hp as <- <-. rewrite plus_self, (H3 _ _ _ Hl). lia.
    + rewrite lookup_insert_ne in Hp by done. rewrite plus_other by done. by apply (H3 l' id').
  - intros l' id' x Hp Hx. destruct (decide (l = l')) as [<-|Hne].
    + rewrite lookup_insert_eq in Hp. injection Hp as <- <-. done.
    + rewrite lookup_insert_ne in Hp by done. by apply (H4 _ _ x).
  - intros l' Hl'. apply lookup_insert_None in Hl' as [Hl' Hne]. rewrite plus_other by done. by apply H5.
  - intros k l' sv i u Hk Hs Hu. eapply usesPeer_keep; [done|by eapply H6].
  - intros k l' sv u Hk Hs Hu. eapply usesPeer_keep; [done|by eapply H7].
  - intros l'. unfold plus. pose proof (uses_range l' (l, [])). specialize (H8 l'). lia.
  - intros l'. change (count (setPeers _ _) live l') with (count v live l').
    unfold plus. pose proof (uses_range l' (l, [])). specialize (H9 l'). lia.
Qed.

(** The last user to go removes the peer from the table. *)
Lemma step_deref l id r :
  refsInv n (plus held l) live v -> (forall x, 0 <= held x) -> rv_peers v !! l = Some (id, r) ->
  refsInv n held live (setPeers (<[l := (id, r - 1)]> (rv_peers v))
    (if r - 1 <=? 0 then delete id (rv_active v) else rv_active v)).
Proof.
  intros H Hheld Hl. pose proof (fun l' id' x => peers_keep l id r (r - 1) l' id' x Hl) as Hkeep.
  destruct H as [H1 H2 H3 H4 H5 H6 H7 H8 H9]. pose proof (H3 _ _ _ Hl) as Hr. rewrite plus_self in Hr.
  pose proof (count_nonneg v live l) as Hnn. pose proof (Hheld l) as Hh.
  assert (rv_active v !! id = Some l) as Hact by (apply (H4 _ _ r Hl); lia).
  constructor; cbn; try done.
  - intros id' l' Ha.
    assert (rv_active v !! id' = Some l') as Ha'.
    { destruct (_ <=? 0); [|done]. by apply lookup_delete_Some in Ha as [_ Ha]. }
    destruct (H2 _ _ Ha') as [x Hx]. by apply (Hkeep _ _ x).
  - intros l' id' x Hp. change (count (setPeers _ _) live l') with (count v live l').
    destruct (decide (l = l')) as [<-|Hne].
    + rewrite lookup_insert_eq in Hp. injection Hp as <- <-. lia.
    + rewrite lookup_insert_ne in Hp by done. rewrite (H3 _ _ _ Hp), plus_other by done. done.
  - intros l' id' x Hp Hx. destruct (decide (l = l')) as [<-|Hne].
    + rewrite lookup_insert_eq in Hp. injection Hp as <- <-. by rewrite (proj2 (Z.leb_gt _ _)) by lia.
    + rewrite lookup_insert_ne in Hp by done. pose proof (H4 _ _ _ Hp Hx) as Ha.
      destruct (_ <=? 0); [|done]. rewrite lookup_delete_ne; [done|congruence].
  - intros l' Hl'. apply lookup_insert_None in Hl' as [Hl' Hne]. destruct (H5 l' Hl') as [Hc Hh'].
    rewrite plus_other in Hh' by done. done.
  - intros k l' sv i u Hk Hs Hu. eapply usesPeer_keep; [done|by eapply H6].
  - intros k l' sv u Hk Hs Hu. eapply usesPeer_keep; [done|by eapply H7].
  - intros l'. change (count (setPeers _ _) live l') with (count v live l').
    specialize (H9 l'). unfold plus in H9. pose proof (uses_range l' (l, [])). lia.
Qed.
End Steps.

(** References move between the hand and a section. *)
Lemma step_setSec n held held' live v k l sv sv' :
  refsInv n held live v -> live !! k = Some l -> rv_secs v !! l = Some sv -> sv_key sv' = k ->
  (forall p, 0 <= held' p) -> (forall p, secCount p sv' + held' p = secCount p sv + held p) ->
  (forall id u, sv_routes sv' !! id = Some u -> usesPeer v u) -> (forall u, sv_out sv' = Some u -> usesPeer v u) ->
  refsInv n held' live (setSec l sv' v).
Proof.
  intros H Hk Hl Hkey Hheld Hsum Hr Ho.
  assert (forall p, count (setSec l sv' v) live p + held' p = count v live p + held p) as Hc.
  { intros p. rewrite (count_setSec n held live v k l sv sv' p H Hk Hl). specialize (Hsum p). lia. }
  destruct H as [H1 H2 H3 H4 H5 H6 H7 H8 H9].
  constructor; cbn; try done.
  - intros k' l' Hk'. destruct (decide (l = l')) as [<-|Hne]; [|rewrite lookup_insert_ne by done; by apply H1].
    rewrite lookup_insert_eq. exists sv'. split; [done|]. destruct (H1 _ _ Hk') as (? & ? & <-).
    destruct (H1 _ _ Hk) as (? & ? & ?). congruence.
  - intros l' id r Hp. rewrite Hc. by apply (H3 l' id).
  - intros l' Hp. specialize (Hc l'). destruct (H5 l' Hp) as [E1 E2].
    pose proof (count_nonneg (setSec l sv' v) live l'). specialize (Hheld l'). lia.
  - intros k' l' sv0 id u Hk' Hs Hu. destruct (decide (l = l')) as [<-|Hne].
    + rewrite lookup_insert_eq in Hs. injection Hs as <-. by apply (Hr id).
    + rewrite lookup_insert_ne in Hs by done. by eapply H6.
  - intros k' l' sv0 u Hk' Hs Hu. destruct (decide (l = l')) as [<-|Hne].
    + rewrite lookup_insert_eq in Hs. injection Hs as <-. by apply Ho.
    + rewrite lookup_insert_ne in Hs by done. by eapply H7.
  - intros l'. rewrite Hc. apply H9.
Qed.

(** A section that dies leaves its references in the hand. *)
Lemma step_drop n held live v k l sv :
  refsInv n held live v -> live !! k = Some l -> rv_secs v !! l = Some sv ->
  refsInv n (fun p => held p + secCount p sv) (delete k live) v.
Proof.
  intros [H1 H2 H3 H4 H5 H6 H7 H8 H9] Hk Hl.
  assert (forall p, count v (delete k live) p + (held p + secCount p sv) = count v live p + held p) as Hc.
  { intros p. rewrite (count_extract v live k l sv p Hk Hl). lia. }
  constructor; try done.
  - intros k' l' Hk'. apply lookup_delete_Some in Hk' as [_ Hk']. by apply H1.
  - intros l' id r Hp. rewrite Hc. by apply (H3 l' id).
  - intros l' Hp. specialize (Hc l'). destruct (H5 l' Hp) as [E1 E2].
    pose proof (count_nonneg v (delete k live) l'). pose proof (secCount_nonneg l' sv). specialize (H8 l'). lia.
  - intros k' l' sv0 id u Hk' Hs Hu. apply lookup_delete_Some in Hk' as [_ Hk']. by eapply H6.
  - intros k' l' sv0 u Hk' Hs Hu. apply lookup_delete_Some in Hk' as [_ Hk']. by eapply H7.
  - intros p. specialize (H8 p). pose proof (secCount_nonneg p sv). lia.
  - intros l'. rewrite Hc. apply H9.
Qed.

(** A new section has no users. *)
Lemma step_newSection n held live v k l :
  refsInv n held live v -> live !! k = None -> rv_secs v !! l = None ->
  refsInv n held (<[k := l]> live) (setSec l (mkSecView k ∅ None) v).
Proof.
  intros H Hk Hl.
  assert (forall p, count (setSec l (mkSecView k ∅ None) v) (<[k := l]> live) p = count v live p) as Hc.
  { intros p. unfold count. rewrite sumMap_insert by done. cbn. rewrite lookup_insert_eq.
    unfold secCount at 1. cbn. rewrite sumMap_empty, !Z.add_0_l. apply sumMap_ext. intros k' l' Hk'.
    rewrite lookup_insert_ne; [done|]. intros <-. destruct (ri_live _ _ _ _ H _ _ Hk') as (? & ? & _). congruence. }
  destruct H as [H1 H2 H3 H4 H5 H6 H7 H8 H9].
  assert (forall k' l', (<[k := l]> live) !! k' = Some l' ->
    (k' = k /\ l' = l) \/ (l' <> l /\ live !! k' = Some l')) as Hlive.
  { intros k' l' Hk'. destruct (decide (k = k')) as [<-|Hne].
    - rewrite lookup_insert_eq in Hk'. injection Hk' as <-. by left.
    - rewrite lookup_insert_ne in Hk' by done. right. split; [|done]. intros ->.
      destruct (H1 _ _ Hk') as (? & ? & _). congruence. }
  constructor; cbn; try done.
  - intros k' l' Hk'. destruct (Hlive _ _ Hk') as [[-> ->]|[Hne Hk'']].
    + rewrite lookup_insert_eq. eauto.
    + rewrite lookup_insert_ne by done. by apply H1.
  - intros l' id r Hp. rewrite Hc. by apply (H3 l' id).
  - intros l' Hp. rewrite Hc. by apply H5.
  - intros k' l' sv id u Hk' Hs Hu. destruct (Hlive _ _ Hk') as [[-> ->]|[Hne Hk'']].
    + rewrite lookup_insert_eq in Hs. injection Hs as <-. done.
    + rewrite lookup_insert_ne in Hs by done. by eapply H6.
  - intros k' l' sv u Hk' Hs Hu. destruct (Hlive _ _ Hk') as [[-> ->]|[Hne Hk'']].
    + rewrite lookup_insert_eq in Hs. injection Hs as <-. done.
    + rewrite lookup_insert_ne in Hs by done. by eapply H7.
  - intros l'. rewrite Hc. apply H9.
Qed.

(** ** The counter of the code *)

Section Code.
Context {C : CipherCtr} {T : TL} {K : KeyAgreement} {W : World} {Tun : Type} {TP : Tunnel Tun}.
Implicit Types (g : Gateway Tun).

Definition peerView (p : Peer) : bytes * Z := (p_id p, p_references p).
Definition targetView (r : RouteState) : nat * bytes := (rt_Peer (r_Target r), rt_ADNL (r_Target r)).
Definition outView (o : Out) : nat * bytes := (o_inboundPeer o, o_InboundADNL o).
Definition secViewOf (sec : SectionState) : secView :=
  mkSecView (s_key sec) (targetView <$> s_routes sec) (outView <$> s_out sec).
(** The peers of a gateway beside any sections: operations on peers do not look
    at sections, so inside an operation the sections may be taken as they will
    be. *)
Definition viewWith (secs : gmap nat secView) g : refView :=
  mkRefView (peerView <$> g_peers g) (g_activePeers g) secs.
Definition secsOf g : gmap nat secView := secViewOf <$> g_sections g.
Definition viewOf g : refView := viewWith (secsOf g) g.

Definition refs n held live secs g : Prop := refsInv n held live (viewWith secs g).

(** The references of a gateway: the live sections are those it can find. *)
Definition refsOk n held g : Prop := refs n held (g_inboundSections g) (secsOf g) g.

(** Steps that change neither users nor counts. *)
Definition onRefs (P : Gateway Tun -> Prop) : Prop :=
  forall g g', viewOf g = viewOf g' -> g_inboundSections g = g_inboundSections g' -> P g -> P g'.

Lemma onRefs_refsOk n held : onRefs (refsOk n held).
Proof.
  intros g g' Hv Hi. unfold refsOk, refs. change (viewWith (secsOf g) g) with (viewOf g).
  change (viewWith (secsOf g') g') with (viewOf g'). by rewrite Hv, Hi.
Qed.

Lemma fmap_alter_same {A B} (f : A -> B) (h : A -> A) (m : gmap nat A) l :
  (forall x, f (h x) = f x) -> f <$> alter h l m = f <$> m.
Proof.
  intros Hh. apply map_eq. intros l'. rewrite !lookup_fmap. destruct (decide (l = l')) as [<-|Hne].
  - rewrite lookup_alter_eq. destruct (m !! l); [cbn; by rewrite Hh|done].
  - by rewrite lookup_alter_ne.
Qed.

Section Same.
Context (P : Gateway Tun -> Prop) (HP : onRefs P).

Lemma same_updPeer l f : (forall p, peerView (f p) = peerView p) -> preserves P (updPeer l f).
Proof using HP.
  intros Hf g Hg. apply (HP g); [|done|done]. unfold viewOf, viewWith, secsOf. cbn. by rewrite (fmap_alter_same _ _ _ _ Hf).
Qed.
Lemma same_updSection s f : (forall sec, secViewOf (f sec) = secViewOf sec) -> preserves P (updSection s f).
Proof using HP.
  intros Hf g Hg. apply (HP g); [|done|done]. unfold viewOf, viewWith, secsOf. cbn. by rewrite (fmap_alter_same _ _ _ _ Hf).
Qed.
Lemma same_updRoute s id f : (forall r, targetView (f r) = targetView r) -> preserves P (updRoute s id f).
Proof using HP.
  intros Hf. apply same_updSection. intros sec. unfold secViewOf. cbn. f_equal. apply map_eq. intros i.
  rewrite !lookup_fmap. destruct (decide (id = i)) as [<-|Hne].
  - rewrite lookup_alter_eq. destruct (s_routes sec !! id); [cbn; by rewrite Hf|done].
  - by rewrite lookup_alter_ne.
Qed.
Lemma same_updOut s f : (forall o, outView (f o) = outView o) -> preserves P (updOut s f).
Proof using HP.
  intros Hf. apply same_updSection. intros sec. unfold secViewOf. cbn. f_equal.
  destruct (s_out sec); [cbn; by rewrite Hf|done].
Qed.
Lemma same_modify f :
  (forall g, viewOf (f g) = viewOf g /\ g_inboundSections (f g) = g_inboundSections g) -> preserves P (modify f).
Proof using HP. intros Hf g Hg. destruct (Hf g). by apply (HP g). Qed.
Lemma same_ask {A} (f : nat -> A) : preserves P (ask f).
Proof using HP. intros g Hg. by apply (HP g). Qed.
Lemma same_nowUnix : preserves P nowUnix.
Proof using HP. intros g Hg. by apply (HP g). Qed.
Lemma same_emit e : preserves P (emit e).
Proof using HP. intros g Hg. by apply (HP g). Qed.
Lemma same_spawn t : preserves P (spawn t).
Proof using HP. intros g Hg. by apply (HP g). Qed.
Lemma same_updGauges f : preserves P (updGauges f).
Proof using HP. intros g Hg. by apply (HP g). Qed.
Lemma same_updChannel ch f : preserves P (updChannel ch f).
Proof using HP. intros g Hg. by apply (HP g). Qed.
Lemma same_allocChannel c : preserves P (allocChannel c).
Proof using HP. intros g Hg. by apply (HP g). Qed.
Hint Resolve same_ask same_nowUnix same_emit same_spawn same_updGauges same_updChannel same_allocChannel : pres.

Lemma same_closeConn l cmp : preserves P (closeConn l cmp).
Proof using HP. unfold closeConn. pres. by apply same_updPeer. Qed.
Lemma same_SendCustomMessage l req : preserves P (SendCustomMessage l req).
Proof using HP. unfold SendCustomMessage. pres. by apply same_updPeer. Qed.
Hint Resolve same_closeConn same_SendCustomMessage : pres.

Lemma same_closePaymentChannel ch : preserves P (closePaymentChannel ch).
Proof using HP. unfold closePaymentChannel. pres. Qed.
Lemma same_Route_Route s id payload_ cached instructions seqno :
  preserves P (Route_Route s id payload_ cached instructions seqno).
Proof using HP.
  unfold Route_Route, payForPacket, forward. pres.
  all: first [by apply same_updRoute | by apply same_modify].
Qed.
Lemma same_cacheActions s l : preserves P (cacheActions s l).
Proof using HP. induction l as [|i l IH]; cbn [cacheActions]; pres. Qed.
Lemma same_Cache s v l : preserves P (Cache_Execute s v l).
Proof using HP.
  pose proof same_cacheActions. unfold Cache_Execute. pres. apply same_updSection. intros sec.
  by destruct (_ <? v).
Qed.
Lemma same_applyPayment s ins st ch fresh : preserves P (applyPayment s ins st ch fresh).
Proof using HP.
  unfold applyPayment. apply preserves_bind; [pres|intros v]. apply preserves_bind; [pres|intros _].
  match goal with |- context [if ?b then _ else _] => destruct b end; [pres|].
  apply preserves_bind; [pres|intros _]. apply preserves_bind; [pres|intros now]. apply preserves_bind; [pres|intros _].
  intros g Hg. rewrite bind_run. destruct (paymentMutation _ _ _ g) as [g' o] eqn:Em.
  pose proof (paymentMutation_pure _ _ _ _ _ _ Em) as ->. destruct o as [m| |]; [|done|done].
  assert (preserves P m) as Hm.
  { apply paymentMutation_inv in Em as [->|(id & num & ->)]; [|by apply same_updRoute].
    unfold creditOut. pres. by apply same_updOut. }
  revert g Hg Em. intros g Hg _. revert g Hg.
  match goal with |- forall g, P g -> P (?c g).1 => change (preserves P c) end. pres.
Qed.
Lemma same_Payment s ins : preserves P (Payment_Execute s ins).
Proof using HP.
  pose proof same_applyPayment.
  unfold Payment_Execute, loadPaymentState, routingAllowed, findChannel, fetchChannel, lastKnown, installChannel. pres.
  by apply same_updSection.
Qed.
Lemma same_nextSentIn s : preserves P (nextSentIn s).
Proof using HP. unfold nextSentIn, getOut. pres. by apply same_updOut. Qed.
Lemma same_sendBack s obj b : preserves P (sendBack s obj b).
Proof using HP. unfold sendBack, getOut. pres. by apply same_updOut. Qed.
Lemma same_Out_Send s payload_ : preserves P (Out_Send s payload_).
Proof using HP.
  unfold Out_Send, getOut, payForOut. pres. all: first [by apply same_updOut | by apply same_modify].
Qed.
End Same.

(** ** Taking and releasing references *)

Lemma viewOf_peer secs g l p : g_peers g !! l = Some p -> rv_peers (viewWith secs g) !! l = Some (peerView p).
Proof. intros H. cbn. by rewrite lookup_fmap, H. Qed.

Lemma viewOf_peer_inv secs g l id r :
  rv_peers (viewWith secs g) !! l = Some (id, r) -> exists p, g_peers g !! l = Some p /\ p_id p = id /\ p_references p = r.
Proof.
  cbn. rewrite lookup_fmap. destruct (g_peers g !! l) as [p|]; [|done]. intros [= <- <-]. by exists p.
Qed.

Lemma addPeer_refs n held live secs id g :
  refs n held live secs g ->
  exists g' l, addPeer id None g = (g', Ok l) /\ sectionView g' = sectionView g /\ refs n held live secs g' /\
    g_activePeers g' !! id = Some l.
Proof.
  intros Hg. unfold addPeer. run. destruct (g_activePeers g !! id) as [l|] eqn:Ea.
  - run. unfold spawn. run. eexists _, l. split; [reflexivity|]. by split_and!.
  - run. unfold allocPeer. cbv iota beta. run. unfold spawn. run.
    set (l := freshLoc _). assert (g_peers g !! l = None) as Hl by apply freshLoc_None.
    eexists _, l. split; [reflexivity|]. split; [done|]. split; [|apply lookup_insert_eq].
    unfold refs, viewWith. cbn. rewrite fmap_insert.
    apply (step_newPeer n held live (viewWith secs g) l id Hg); [|done]. cbn. by rewrite lookup_fmap, Hl.
Qed.

Lemma refs_peer_range n held live secs g l p :
  refs n held live secs g -> g_peers g !! l = Some p -> 0 <= p_references p <= n.
Proof.
  intros Hg Hl. pose proof (ri_count _ _ _ _ Hg l _ _ (viewOf_peer _ _ _ _ Hl)) as Hr. cbn in Hr.
  pose proof (count_nonneg (viewWith secs g) live l). pose proof (ri_held _ _ _ _ Hg l). pose proof (ri_bound _ _ _ _ Hg l). lia.
Qed.

Lemma AddReference_refs n held live secs id l g :
  refs n held live secs g -> g_activePeers g !! id = Some l -> n + 1 < 2 ^ 63 ->
  exists g', AddReference l g = (g', Ok tt) /\ sectionView g' = sectionView g /\ refs (n + 1) (plus held l) live secs g' /\
    g_activePeers g' = g_activePeers g /\ usesPeer (viewWith secs g') (l, id).
Proof.
  intros Hg Ha Hn. destruct (ri_active _ _ _ _ Hg id l Ha) as [r Hr].
  apply viewOf_peer_inv in Hr as (p & Hp & <- & <-). pose proof (refs_peer_range _ _ _ _ _ _ _ Hg Hp).
  unfold AddReference, updPeer. run. eexists. split; [reflexivity|]. split; [done|].
  assert (viewWith secs (set_g_peers (alter (fun p => set_p_references (int64 (p_references p + 1)) p) l (g_peers g)) g)
    = setPeers (viewWith secs g) (<[l := (p_id p, p_references p + 1)]> (rv_peers (viewWith secs g))) (rv_active (viewWith secs g))) as Hv.
  { unfold viewWith, setPeers. cbn. f_equal. rewrite (alter_Some _ _ _ _ Hp), fmap_insert. f_equal.
    unfold peerView. cbn. rewrite int64_id; [done|]. unfold in_int64. lia. }
  unfold refs. rewrite Hv. split; [|split; [done|]].
  - by apply (step_addRef n held live (viewWith secs g) l (p_id p) (p_references p) Hg (viewOf_peer _ _ _ _ Hp)).
  - exists (p_references p + 1). cbn. apply lookup_insert_eq.
Qed.

Lemma closeConn_runs l cmp g p :
  g_peers g !! l = Some p ->
  exists g', closeConn l cmp g = (g', Ok tt) /\ sectionView g' = sectionView g /\ (forall secs, viewWith secs g' = viewWith secs g).
Proof.
  intros Hp.
  assert (sectionView (closeConn l cmp g).1 = sectionView g) as Hs.
  { assert (onSections (fun g' => sectionView g' = sectionView g)) as Ho by (intros g1 g2 E <-; done).
    by apply (preserves_closeConn _ Ho). }
  assert (viewOf (closeConn l cmp g).1 = viewOf g) as Hv.
  { assert (onRefs (fun g' => viewOf g' = viewOf g)) as Ho by (intros g1 g2 E _ <-; done).
    by apply (same_closeConn _ Ho). }
  exists (closeConn l cmp g).1. split; [|split; [done|]; intros secs; injection Hv as E1 E2 _; unfold viewWith; by rewrite E1, E2]. apply run_ok.
  unfold closeConn. run. rewrite (deref_run _ _ _ _ Hp). run. destruct (getConn p); [|done].
  by case_bool_decide.
Qed.

Lemma Dereference_refs n held live secs l g :
  refs n (plus held l) live secs g -> (forall x, 0 <= held x) -> n < 2 ^ 63 ->
  exists g', Dereference l g = (g', Ok tt) /\ sectionView g' = sectionView g /\ refs n held live secs g'.
Proof.
  intros Hg Hheld Hn.
  destruct (rv_peers (viewWith secs g) !! l) as [[id r]|] eqn:Er.
  2:{ apply (ri_none _ _ _ _ Hg) in Er as [_ Hz]. rewrite plus_self in Hz. specialize (Hheld l). lia. }
  apply viewOf_peer_inv in Er as (p & Hp & <- & <-). pose proof (refs_peer_range _ _ _ _ _ _ _ Hg Hp) as Hrange.
  pose proof (step_deref n held live (viewWith secs g) l (p_id p) (p_references p) Hg Hheld (viewOf_peer _ _ _ _ Hp)) as Hstep.
  unfold Dereference. run. rewrite (deref_run _ _ _ _ Hp). run. unfold updPeer at 1. run.
  rewrite int64_id by (unfold in_int64; lia). rewrite (alter_Some _ _ _ _ Hp).
  set (p' := set_p_references (p_references p - 1) p). set (g1 := set_g_peers _ g).
  assert (g_peers g1 !! l = Some p') as Hp1 by apply lookup_insert_eq.
  assert (viewWith secs g1 = setPeers (viewWith secs g) (<[l := (p_id p, p_references p - 1)]> (rv_peers (viewWith secs g))) (g_activePeers g)) as Hv1.
  { unfold viewWith, setPeers. cbn. by rewrite fmap_insert. }
  destruct (_ <=? 0).
  - run. destruct (closeConn_runs l None g1 p' Hp1) as (g2 & -> & Hs2 & Hv2). run.
    assert (rv_peers (viewWith secs g2) !! l = Some (peerView p')) as Hp2 by (rewrite Hv2; by apply viewOf_peer).
    destruct (viewOf_peer_inv secs g2 l (p_id p) (p_references p - 1) Hp2) as (p2 & Hg2 & Hid & _).
    unfold removePeer. run. rewrite (deref_run _ _ _ _ Hg2). run. unfold updPeer. run.
    eexists. split; [reflexivity|]. split; [exact Hs2|]. unfold refs.
    match goal with |- refsInv _ _ _ (viewWith _ ?x) => assert (viewWith secs x
      = setPeers (viewWith secs g) (<[l := (p_id p, p_references p - 1)]> (rv_peers (viewWith secs g))) (delete (p_id p) (g_activePeers g))) as -> end;
      [|exact Hstep].
    specialize (Hv2 secs). rewrite Hv1 in Hv2. injection Hv2 as E1 E2. unfold viewWith, setPeers. cbn.
    rewrite fmap_alter_same by done. by rewrite E1, E2, Hid.
  - exists g1. split; [done|]. split; [done|]. unfold refs. by rewrite Hv1.
Qed.

(** ** Instructions *)

Lemma secCount_add p k routes o id u :
  routes !! id = None -> secCount p (mkSecView k (<[id := u]> routes) o) = uses p u + secCount p (mkSecView k routes o).
Proof. intros H. unfold secCount. cbn. rewrite sumMap_insert by done. lia. Qed.
Lemma secCount_set p k routes o id u u0 :
  routes !! id = Some u0 ->
  secCount p (mkSecView k (<[id := u]> routes) o) + uses p u0 = uses p u + secCount p (mkSecView k routes o).
Proof. intros H. unfold secCount. cbn. rewrite (sumMap_update _ _ _ u0) by done. lia. Qed.

Lemma uses_plus p l id held : uses p (l, id) + held p = plus held l p.
Proof. unfold plus, uses. cbn. lia. Qed.

Lemma secsOf_upd g s sec f :
  g_sections g !! s = Some sec -> secsOf (updSection s f g).1 = <[s := secViewOf (f sec)]> (secsOf g).
Proof. intros H. unfold updSection. run. unfold secsOf. cbn. by rewrite (alter_Some _ _ _ _ H), fmap_insert. Qed.

Lemma secsOf_lookup g s sec : g_sections g !! s = Some sec -> secsOf g !! s = Some (secViewOf sec).
Proof. intros H. unfold secsOf. by rewrite lookup_fmap, H. Qed.

Lemma live_section n held live secs g k s :
  refs n held live secs g -> live !! k = Some s -> exists sv, secs !! s = Some sv /\ sv_key sv = k.
Proof. intros H Hk. exact (ri_live _ _ _ _ H k s Hk). Qed.

Lemma refsOk_section n held g k s :
  refsOk n held g -> g_inboundSections g !! k = Some s -> exists sec, g_sections g !! s = Some sec /\ s_key sec = k.
Proof.
  intros H Hk. destruct (live_section _ _ _ _ _ _ _ H Hk) as (sv & Hs & Hkey). unfold secsOf in Hs.
  rewrite lookup_fmap in Hs. destruct (g_sections g !! s) as [sec|]; [|done]. injection Hs as <-. by exists sec.
Qed.

Lemma refs_weaken n n' held live secs g : n <= n' -> refs n held live secs g -> refs n' held live secs g.
Proof. apply refsInv_weaken. Qed.

(** Peers named by a live section exist under the id they were built for, and
    are in the table. *)
Lemma used_active n held live secs g k s sv id u :
  refs n held live secs g -> live !! k = Some s -> secs !! s = Some sv -> sv_routes sv !! id = Some u ->
  g_activePeers g !! u.2 = Some u.1.
Proof.
  intros H Hk Hs Hu. destruct (ri_routes _ _ _ _ H k s sv id u Hk Hs Hu) as [r Hr].
  apply (ri_kept _ _ _ _ H _ _ _ Hr). rewrite (ri_count _ _ _ _ H _ _ _ Hr).
  rewrite (count_extract (viewWith secs g) _ _ _ _ _ Hk Hs). unfold secCount. rewrite (sumMap_extract _ _ _ _ Hu).
  assert (uses u.1 u = 1) as -> by (unfold uses; by destruct (decide _)).
  pose proof (count_nonneg (viewWith secs g) (delete k live) u.1). pose proof (ri_held _ _ _ _ H u.1).
  pose proof (sumMap_bound (uses u.1) (delete id (sv_routes sv)) 0 1 (fun _ x _ => uses_range u.1 x)).
  destruct (sv_out sv) as [x|]; [pose proof (uses_range u.1 x)|]; lia.
Qed.

Lemma gauges_refs n held f : preserves (refsOk n held) (updGauges f).
Proof. apply same_updGauges, onRefs_refsOk. Qed.

Lemma addRoute_refs n held s sec id target g k :
  refsOk n held g -> g_inboundSections g !! k = Some s -> g_sections g !! s = Some sec -> s_key sec = k ->
  s_routes sec !! id = None -> g_activePeers g !! rt_ADNL target = Some (rt_Peer target) -> n + 1 < 2 ^ 63 ->
  refsOk (n + 1) held (addRoute s sec id target g).1.
Proof.
  intros Hg Hk Hs Hkey Hr Ha Hn. assert (refsOk (n + 1) held g) as Hweak by (eapply refs_weaken; [|exact Hg]; lia).
  unfold addRoute. rewrite bind_run, guard_run. destruct (_ <=? _); [done|].
  destruct (AddReference_refs n held _ _ _ _ g Hg Ha Hn) as (g1 & E1 & Hv1 & Hg1 & _ & Hu).
  rewrite bind_run, E1. injection Hv1 as Es1 _ Ei1 _ _ _ _ _.
  set (route := mkRoute _ _ _ _ _ _). rewrite bind_run.
  pose proof (secsOf_upd g1 s sec (fun sec => set_s_routes (<[id := route]> (s_routes sec)) sec)) as Hupd.
  rewrite Es1 in Hupd. specialize (Hupd Hs). unfold updSection in *. rewrite modify_run in *. cbn [fst] in *.
  apply gauges_refs. set (g2 := set_g_sections _ g1) in *. unfold refsOk. rewrite Hupd. cbn [g_inboundSections g2 set_g_sections].
  rewrite Ei1. assert (secsOf g1 = secsOf g) as Esecs by (unfold secsOf; by rewrite Es1). rewrite Esecs.
  apply (step_setSec (n + 1) (plus held (rt_Peer target)) held _ _ k s (secViewOf sec) _ Hg1 Hk); cbn.
  - by apply secsOf_lookup.
  - done.
  - apply (ri_held _ _ _ _ Hg).
  - intros p. unfold secViewOf at 1. cbn. rewrite fmap_insert, secCount_add by by rewrite lookup_fmap, Hr.
    change (targetView route) with (rt_Peer target, rt_ADNL target).
    rewrite <- (uses_plus p (rt_Peer target) (rt_ADNL target) held). unfold secViewOf. lia.
  - intros id' u. rewrite fmap_insert. destruct (decide (id = id')) as [<-|Hne].
    + rewrite lookup_insert_eq. intros [= <-]. exact Hu.
    + rewrite lookup_insert_ne by done. intros Hid'.
      exact (ri_routes _ _ _ _ Hg1 k s (secViewOf sec) id' u Hk (secsOf_lookup _ _ _ Hs) Hid').
  - intros u Ho. exact (ri_out _ _ _ _ Hg1 k s (secViewOf sec) u Hk (secsOf_lookup _ _ _ Hs) Ho).
Qed.

Lemma movePaid_refs n held a b : preserves (refsOk n held) (movePaid a b).
Proof. unfold movePaid, updActiveRoutes. pres; apply gauges_refs. Qed.

(** The section with the target of a route replaced. *)
Lemma secViewOf_retarget sec id target :
  is_Some (s_routes sec !! id) ->
  secViewOf (set_s_routes (alter (set_r_Target target) id (s_routes sec)) sec)
  = mkSecView (s_key sec) (<[id := (rt_Peer target, rt_ADNL target)]> (targetView <$> s_routes sec)) (outView <$> s_out sec).
Proof.
  intros [r Hr]. unfold secViewOf. cbn. by rewrite (alter_Some _ _ _ _ Hr), fmap_insert.
Qed.

Lemma retarget_refs n held s sec id route target g k :
  refsOk n held g -> g_inboundSections g !! k = Some s -> g_sections g !! s = Some sec -> s_key sec = k ->
  s_routes sec !! id = Some route -> g_activePeers g !! rt_ADNL target = Some (rt_Peer target) -> n + 1 < 2 ^ 63 ->
  refsOk (n + 1) held (retarget s id (r_Target route) target g).1.
Proof.
  intros Hg Hk Hs Hkey Hr Ha Hn. assert (refsOk (n + 1) held g) as Hweak by (eapply refs_weaken; [|exact Hg]; lia).
  pose proof (secsOf_lookup _ _ _ Hs) as Hsv.
  assert (sv_routes (secViewOf sec) !! id = Some (targetView route)) as Hroute by (cbn; by rewrite lookup_fmap, Hr).
  unfold retarget. case_bool_decide as Eadnl; cbn [negb andb].
  - (* same node: the peer is the same one *)
    destruct (sameTarget _ _); [done|]. rewrite bind_run, ret_run. cbv iota beta.
    pose proof (used_active n held _ _ g k s _ id _ Hg Hk Hsv Hroute) as Hact. cbn in Hact. rewrite Eadnl, Ha in Hact.
    injection Hact as Hpeer.
    assert (preserves (fun g => refsOk (n + 1) held g /\ g_sections g !! s = Some sec)
      (movePaid (0 <? rt_PricePerPacket (r_Target route)) (0 <? rt_PricePerPacket target))) as Hmove.
    { unfold movePaid, updActiveRoutes. pres; intros g' [H1 H2]; (split; [by apply gauges_refs|done]). }
    specialize (Hmove g (conj Hweak Hs)). rewrite bind_run.
    destruct (movePaid _ _ g) as [g1 [[]| |]]; [|by destruct Hmove|by destruct Hmove]. cbn [fst] in Hmove.
    destruct Hmove as [Hg1 Hs1]. apply (onRefs_refsOk (n + 1) held g1); [|done|done].
    unfold viewOf. assert (secsOf (updRoute s id (set_r_Target target) g1).1 = secsOf g1) as ->; [|done].
    unfold updRoute. rewrite (secsOf_upd g1 s sec _ Hs1).
    rewrite secViewOf_retarget by eauto. apply insert_id. rewrite (secsOf_lookup _ _ _ Hs1).
    unfold secViewOf. do 2 f_equal. symmetry. apply insert_id. rewrite lookup_fmap, Hr. cbn. unfold targetView. congruence.
  - destruct (AddReference_refs n held _ _ _ _ g Hg Ha Hn) as (g1 & E1 & Hv1 & Hg1 & _ & Hu).
    rewrite bind_run. rewrite (bind_run (AddReference _)), E1. injection Hv1 as Es1 _ Ei1 _ _ _ _ _.
    set (sv' := mkSecView (s_key sec) (<[id := (rt_Peer target, rt_ADNL target)]> (targetView <$> s_routes sec)) (outView <$> s_out sec)).
    assert (refs (n + 1) (plus held (rt_Peer (r_Target route))) (g_inboundSections g) (<[s := sv']> (secsOf g)) g1) as Hg1'.
    { apply (step_setSec (n + 1) (plus held (rt_Peer target)) _ _ _ k s (secViewOf sec) sv' Hg1 Hk Hsv Hkey).
      - intros p. unfold plus. pose proof (uses_range p (rt_Peer (r_Target route), [])). pose proof (ri_held _ _ _ _ Hg p). lia.
      - intros p. pose proof (secCount_set p (s_key sec) (targetView <$> s_routes sec) (outView <$> s_out sec) id
          (rt_Peer target, rt_ADNL target) (targetView route) Hroute) as Hc.
        rewrite <- (uses_plus p (rt_Peer target) (rt_ADNL target) held).
        rewrite <- (uses_plus p (rt_Peer (r_Target route)) (rt_ADNL (r_Target route)) held).
        change (targetView route) with (rt_Peer (r_Target route), rt_ADNL (r_Target route)) in Hc.
        match type of Hc with ?a + _ = _ + ?b =>
          change (secCount p sv') with a; change (secCount p (secViewOf sec)) with b end. lia.
      - intros id' u. cbn. destruct (decide (id = id')) as [<-|Hne].
        + rewrite lookup_insert_eq. intros [= <-]. exact Hu.
        + rewrite lookup_insert_ne by done. intros Hid'.
          exact (ri_routes _ _ _ _ Hg1 k s (secViewOf sec) id' u Hk Hsv Hid').
      - intros u Ho. exact (ri_out _ _ _ _ Hg1 k s (secViewOf sec) u Hk Hsv Ho). }
    destruct (Dereference_refs (n + 1) held _ _ _ g1 Hg1' (ri_held _ _ _ _ Hg) Hn) as (g2 & -> & Hv2 & Hg2).
    injection Hv2 as Es2 _ Ei2 _ _ _ _ _.
    set (P := fun g' => refs (n + 1) held (g_inboundSections g) (<[s := sv']> (secsOf g)) g' /\
      g_sections g' = g_sections g /\ g_inboundSections g' = g_inboundSections g).
    assert (P g2) as HP2 by (split_and!; [done|congruence|congruence]).
    assert (preserves P (movePaid (0 <? rt_PricePerPacket (r_Target route)) (0 <? rt_PricePerPacket target))) as Hmove.
    { unfold movePaid, updActiveRoutes. pres; by intros g'. }
    specialize (Hmove g2 HP2). rewrite bind_run.
    destruct (movePaid _ _ g2) as [g3 [[]|e|w]] eqn:Em; cbn [fst] in Hmove.
    2-3: unfold movePaid in Em; destruct (eqb _ _); done.
    destruct Hmove as (Hg3 & Es3 & Ei3). unfold refsOk, updRoute.
    rewrite (secsOf_upd g3 s sec _ (eq_trans (f_equal (lookup s) Es3) Hs)). rewrite secViewOf_retarget by eauto.
    assert (secsOf g3 = secsOf g) as -> by (unfold secsOf; by rewrite Es3). cbn [g_inboundSections updSection modify fst set_g_sections].
    rewrite Ei3. exact Hg3.
Qed.

Lemma BuildRoute_refs n held s ins g k :
  refsOk n held g -> g_inboundSections g !! k = Some s -> n + 1 < 2 ^ 63 ->
  refsOk (n + 1) held (BuildRoute_Execute s ins g).1.
Proof.
  intros Hg Hk Hn. assert (refsOk (n + 1) held g) as Hweak by (eapply refs_weaken; [|exact Hg]; lia).
  unfold BuildRoute_Execute, routingAllowed. run. destruct (negb _); [done|]. run. destruct (_ <? _); [done|]. run.
  destruct (addPeer_refs n held _ _ (br_TargetADNL ins) g Hg) as (g1 & l & -> & Hv1 & Hg1 & Ha1). run.
  injection Hv1 as Es1 _ Ei1 _ _ _ _ _.
  destruct (refsOk_section n held g k s Hg Hk) as (sec & Hs & Hkey). rewrite <- Es1 in Hs.
  assert (refsOk n held g1) as Hok.
  { unfold refsOk, secsOf. rewrite Es1, Ei1. exact Hg1. }
  rewrite (deref_run _ _ _ _ Hs). run. set (target := mkRouteTarget l _ _ _). rewrite <- Ei1 in Hk.
  destruct (s_routes sec !! br_RouteID ins) as [route|] eqn:Er.
  - by apply (retarget_refs n held s sec _ route target g1 k).
  - by apply (addRoute_refs n held s sec _ target g1 k).
Qed.

(** ** Out gateways *)

Lemma AddReference_only_peers l g :
  exists peers, AddReference l g = (set_g_peers peers g, Ok tt).
Proof. unfold AddReference, updPeer. run. by eexists. Qed.

Lemma openOut_refs n held s sec key ins price g k :
  refsOk n held g -> g_inboundSections g !! k = Some s -> g_sections g !! s = Some sec -> s_key sec = k ->
  s_out sec = None -> n + 1 < 2 ^ 63 -> refsOk (n + 1) held (openOut s key ins price g).1.
Proof.
  intros Hg Hk Hs Hkey Ho Hn. assert (refsOk (n + 1) held g) as Hweak by (eapply refs_weaken; [|exact Hg]; lia).
  unfold openOut. run. rewrite wrapM_run, lift_run. cbn [fst snd]. destruct (wrapErr _ _) as [conn| |]; [|done|done]. run.
  set (g0 := set_g_tick _ g). assert (refs n held (g_inboundSections g) (secsOf g) g0) as Hg0 by exact Hg.
  destruct (addPeer_refs n held _ _ (bo_InboundNodeADNL ins) g0 Hg0) as (g1 & l & -> & Hv1 & Hg1 & Ha1). run.
  injection Hv1 as Es1 _ Ei1 _ _ _ _ _. change (g_sections g0) with (g_sections g) in Es1.
  change (g_inboundSections g0) with (g_inboundSections g) in Ei1.
  set (o := newOut _ _ _ _ _). unfold updSection, updActiveOut, updGauges. run.
  set (g2 := set_g_gauges _ _).
  assert (refs n held (g_inboundSections g) (secsOf g) g2) as Hg2 by exact Hg1.
  destruct (AddReference_refs n held _ _ _ _ g2 Hg2 Ha1 Hn) as (g3 & E3 & _ & Hg3 & _ & Hu).
  destruct (AddReference_only_peers l g2) as [peers E3']. rewrite E3 in E3' |- *. injection E3' as ->. run.
  unfold spawn. run. unfold refsOk. cbn [g_inboundSections set_g_tasks set_g_peers fst].
  match goal with |- refs _ _ ?live ?secs _ => assert (secs = <[s := mkSecView k (targetView <$> s_routes sec) (Some (outView o))]> (secsOf g)) as ->;
    [|assert (live = g_inboundSections g) as -> by exact Ei1] end.
  { unfold secsOf. cbn. rewrite Es1, (alter_Some _ _ _ _ Hs), fmap_insert. unfold secViewOf. cbn. by rewrite Hkey. }
  pose proof (secsOf_lookup _ _ _ Hs) as Hsv.
  apply (step_setSec (n + 1) (plus held l) held _ _ k s (secViewOf sec) _ Hg3 Hk Hsv); cbn.
  - done.
  - apply (ri_held _ _ _ _ Hg).
  - intros p. rewrite <- (uses_plus p l (bo_InboundNodeADNL ins) held). unfold secCount. cbn. rewrite Ho. cbn. unfold outView. cbn. lia.
  - intros id u Hid. exact (ri_routes _ _ _ _ Hg3 k s (secViewOf sec) id u Hk Hsv Hid).
  - intros u [= <-]. exact Hu.
Qed.

Lemma reconfigureOut_refs n held s sec o key ins price g k :
  refsOk n held g -> g_inboundSections g !! k = Some s -> g_sections g !! s = Some sec -> s_key sec = k ->
  s_out sec = Some o -> n + 1 < 2 ^ 63 -> refsOk (n + 1) held (reconfigureOut s o key ins price g).1.
Proof.
  intros Hg Hk Hs Hkey Ho Hn. assert (refsOk (n + 1) held g) as Hweak by (eapply refs_weaken; [|exact Hg]; lia).
  pose proof (secsOf_lookup _ _ _ Hs) as Hsv. pose proof (ri_held _ _ _ _ Hg) as Hh.
  unfold reconfigureOut. set (upd := fun o => _ : Out). case_bool_decide as Eadnl; cbn [negb].
  - rewrite bind_run, ret_run. cbv iota beta. apply (onRefs_refsOk (n + 1) held g); [|done|done].
    unfold viewOf. assert (secsOf (updOut s upd g).1 = secsOf g) as ->; [|done].
    unfold updOut. rewrite (secsOf_upd g s sec _ Hs). apply insert_id. rewrite Hsv. unfold secViewOf. cbn. rewrite Ho. cbn.
    unfold outView. cbn. by rewrite Eadnl.
  - set (sv0 := mkSecView k (targetView <$> s_routes sec) None).
    assert (refs n (plus held (o_inboundPeer o)) (g_inboundSections g) (<[s := sv0]> (secsOf g)) g) as Hg0.
    { apply (step_setSec n held _ _ _ k s (secViewOf sec) sv0 Hg Hk Hsv); cbn.
      - done.
      - intros p. unfold plus. pose proof (uses_range p (o_inboundPeer o, [])). specialize (Hh p). lia.
      - intros p. rewrite <- (uses_plus p (o_inboundPeer o) (o_InboundADNL o) held). unfold secCount. cbn. rewrite Ho. cbn.
        unfold outView. lia.
      - intros id u Hid. exact (ri_routes _ _ _ _ Hg k s (secViewOf sec) id u Hk Hsv Hid).
      - done. }
    assert (n < 2 ^ 63) as Hn' by lia.
    destruct (Dereference_refs n held _ _ _ g Hg0 Hh Hn') as (g1 & E1 & Hv1 & Hg1).
    rewrite bind_run. rewrite (bind_run (Dereference _)), E1. cbv iota beta. injection Hv1 as Es1 _ Ei1 _ _ _ _ _.
    destruct (addPeer_refs n held _ _ (bo_InboundNodeADNL ins) g1 Hg1) as (g2 & l & E2 & Hv2 & Hg2 & Ha2).
    rewrite (bind_run (addPeer _ _)), E2. cbv iota beta. injection Hv2 as Es2 _ Ei2 _ _ _ _ _.
    rewrite (bind_run (updOut _ _)). unfold updOut at 1, updSection at 1. rewrite modify_run. cbv iota beta.
    set (g3 := set_g_sections _ g2).
    assert (refs n held (g_inboundSections g) (<[s := sv0]> (secsOf g)) g3) as Hg3 by exact Hg2.
    destruct (AddReference_refs n held _ _ _ _ g3 Hg3 Ha2 Hn) as (g4 & E4 & _ & Hg4 & _ & Hu).
    destruct (AddReference_only_peers l g3) as [peers E4']. rewrite E4 in E4' |- *. injection E4' as ->. cbv iota beta.
    assert (g_sections (set_g_peers peers g3) !! s = Some (set_s_out (Some (set_o_inboundPeer l o)) sec)) as Hs4.
    { cbn. rewrite (alter_Some _ _ _ sec) by congruence. rewrite lookup_insert_eq, Ho. done. }
    unfold refsOk, updOut. rewrite (secsOf_upd _ s _ _ Hs4).
    assert (<[s := secViewOf (set_s_out (upd <$> s_out (set_s_out (Some (set_o_inboundPeer l o)) sec)) (set_s_out (Some (set_o_inboundPeer l o)) sec))]>
      (secsOf (set_g_peers peers g3)) = <[s := mkSecView k (targetView <$> s_routes sec) (Some (l, bo_InboundNodeADNL ins))]> (<[s := sv0]> (secsOf g))) as ->.
    { unfold secsOf. cbn. rewrite Es2, Es1, (alter_Some _ _ _ _ Hs), fmap_insert, !insert_insert_eq. f_equal.
      unfold secViewOf. cbn. by rewrite Hkey. }
    match goal with |- refs _ _ ?live _ _ => assert (live = g_inboundSections g) as -> by (cbn; congruence) end.
    assert ((<[s := sv0]> (secsOf g)) !! s = Some sv0) as Hsv0 by apply lookup_insert_eq.
    apply (step_setSec (n + 1) (plus held l) held _ _ k s sv0 _ Hg4 Hk Hsv0); cbn.
    + done.
    + done.
    + intros p. rewrite <- (uses_plus p l (bo_InboundNodeADNL ins) held). unfold secCount. cbn. lia.
    + intros id u Hid. exact (ri_routes _ _ _ _ Hg4 k s sv0 id u Hk Hsv0 Hid).
    + intros u [= <-]. exact Hu.
Qed.

(** Run a part that keeps the invariant, then one that keeps it whatever. *)
Lemma bind_refs {A B} n held (m : GM Tun A) (f : A -> GM Tun B) g :
  refsOk n held (m g).1 -> (forall a, preserves (refsOk n held) (f a)) -> refsOk n held ((m ≫= f) g).1.
Proof. intros Hm Hf. rewrite bind_run. destruct (m g) as [g' [a| |]]; [by apply Hf|done|done]. Qed.

Lemma BindOut_refs n held s ins g k :
  refsOk n held g -> g_inboundSections g !! k = Some s -> n + 1 < 2 ^ 63 ->
  refsOk (n + 1) held (BindOut_Execute s ins g).1.
Proof.
  intros Hg Hk Hn. assert (refsOk (n + 1) held g) as Hweak by (eapply refs_weaken; [|exact Hg]; lia).
  unfold BindOut_Execute, outAllowed. run. destruct (negb _); [done|]. run.
  destruct (w_addressList _) as [|ip rest]; [done|]. run. rewrite wrapM_run, lift_run. cbn [fst snd].
  destruct (wrapErr _ _) as [key| |]; [|done|done]. run. destruct (_ && _); [done|]. cbv iota beta.
  set (g0 := set_g_tick _ g). assert (refsOk n held g0) as Hg0 by exact Hg.
  destruct (refsOk_section n held g0 k s Hg0 Hk) as (sec & Hs & Hkey). rewrite ?(bind_run (deref _ _)), (deref_run _ _ _ _ Hs). cbv iota beta.
  apply bind_refs.
  - destruct (s_out sec) as [o|] eqn:Eo; [|by apply (openOut_refs n held s sec _ _ _ g0 k)].
    destruct (outChanged _ _ _ _); [|done]. by apply (reconfigureOut_refs n held s sec o _ _ _ g0 k).
  - intros _. pose proof (onRefs_refsOk (n + 1) held) as HP. unfold getOut.
    pose proof (same_nextSentIn _ HP). pose proof (same_sendBack _ HP). pres.
Qed.

(** ** Closing a section *)

(** Everything a section holds, in the hand. *)
Fixpoint heldList (held : nat -> Z) (us : list (nat * bytes)) : nat -> Z :=
  match us with
  | [] => held
  | u :: us => plus (heldList held us) u.1
  end.

Lemma heldList_sum held us p : heldList held us p = foldr (fun u acc => uses p u + acc) 0 us + held p.
Proof.
  induction us as [|u us IH]; cbn; [done|]. unfold plus. rewrite IH. unfold uses at 2. cbn. unfold uses. lia.
Qed.

Lemma heldList_nonneg held us x : (forall x, 0 <= held x) -> 0 <= heldList held us x.
Proof.
  intros Hh. induction us as [|u us IH]; cbn; [done|]. unfold plus. pose proof (uses_range x (u.1, [])). lia.
Qed.

Lemma secCount_list p sv :
  secCount p sv = foldr (fun u acc => uses p u + acc) 0 ((map_to_list (sv_routes sv)).*2 ++ option_list (sv_out sv)).
Proof.
  unfold secCount, sumMap. rewrite map_fold_foldr.
  induction (map_to_list (sv_routes sv)) as [|[id u] l IH]; cbn; [destruct (sv_out sv); cbn; lia|]. rewrite <- IH. lia.
Qed.

Lemma heldList_app held us us' : heldList held (us ++ us') = heldList (heldList held us') us.
Proof. induction us as [|u us IH]; cbn; [done|]. by rewrite IH. Qed.

(** The references a dead section leaves behind, as a list. *)
Lemma secCount_heldList held sec p :
  held p + secCount p (secViewOf sec)
  = heldList (heldList held (option_list (outView <$> s_out sec))) (targetView <$> (map_to_list (s_routes sec)).*2) p.
Proof.
  rewrite <- heldList_app, heldList_sum, secCount_list. unfold secViewOf. cbn.
  rewrite map_to_list_fmap, Z.add_comm. f_equal. f_equal. f_equal.
  rewrite <- !list_fmap_compose. by apply list_fmap_ext; intros i [id r] _.
Qed.

Lemma closeRoutes_refs n held live secs rs g :
  refs n (heldList held (targetView <$> rs)) live secs g -> (forall x, 0 <= held x) -> n < 2 ^ 63 ->
  exists g', for_each rs Route_Close g = (g', Ok tt) /\ sectionView g' = sectionView g /\ refs n held live secs g'.
Proof.
  intros Hg Hh Hn. revert g Hg. induction rs as [|r rs IH]; intros g Hg; cbn [for_each]; [by exists g|].
  rewrite bind_run. unfold Route_Close at 1. rewrite bind_run.
  destruct (Dereference_refs n (heldList held (fmap (M := list) targetView rs)) live secs (rt_Peer (r_Target r)) g Hg
    (fun x => heldList_nonneg _ _ x Hh) Hn) as (g1 & -> & Hv1 & Hg1).
  unfold updActiveRoutes, updGauges. run.
  match goal with |- context [for_each rs Route_Close ?x] => destruct (IH x Hg1) as (g2 & -> & Hv2 & Hg2) end.
  exists g2. split; [done|]. split; [|done]. rewrite Hv2. exact Hv1.
Qed.

Lemma closeOut_refs n held live g s o :
  let secs := secsOf g in
  refs n (heldList held [outView o]) live secs g -> (forall x, 0 <= held x) -> n < 2 ^ 63 ->
  exists g', Out_Close s o g = (g', Ok tt) /\ g_inboundSections g' = g_inboundSections g /\ secsOf g' = secs /\
    (forall sec, g_sections g !! s = Some sec -> exists sec', g_sections g' !! s = Some sec' /\ s_key sec' = s_key sec) /\
    refs n held live secs g'.
Proof.
  intros secs Hg Hh Hn. unfold Out_Close. rewrite bind_run.
  assert (secsOf (updOut s (set_o_closed true) g).1 = secs) as Hsecs.
  { pose proof (same_updOut (fun g' => viewOf g' = viewOf g)) as H.
    assert (onRefs (fun g' => viewOf g' = viewOf g)) as Ho by (intros a b E _ <-; done).
    specialize (H Ho s (set_o_closed true) (fun _ => eq_refl) g eq_refl). by apply (f_equal rv_secs) in H. }
  unfold updOut, updSection in *. rewrite modify_run in *. cbv iota beta. cbn [fst] in Hsecs. unfold emit. run.
  set (g1 := set_g_trace _ _).
  destruct (Dereference_refs n held live secs (o_inboundPeer o) g1 Hg Hh Hn) as (g2 & -> & Hv2 & Hg2).
  unfold updActiveOut, updGauges. run. injection Hv2 as Es2 _ Ei2 _ _ _ _ _.
  eexists. split; [reflexivity|]. cbn. split; [exact Ei2|].
  split; [unfold secsOf; cbn; rewrite Es2; exact Hsecs|]. split; [|exact Hg2].
  intros sec Hs. rewrite Es2. eexists. cbn. rewrite (alter_Some _ _ _ _ Hs), lookup_insert_eq. by split.
Qed.

Lemma Destroy_refs n held s g k :
  refsOk n held g -> g_inboundSections g !! k = Some s -> n < 2 ^ 63 -> refsOk n held (Destroy_Execute s g).1.
Proof.
  intros Hg Hk Hn. pose proof (ri_held _ _ _ _ Hg) as Hh.
  unfold Destroy_Execute, closeIfNotLocked. rewrite bind_run. rewrite (bind_run (ask _)), ask_run. cbv iota beta.
  set (g0 := set_g_tick _ g). assert (refsOk n held g0) as Hg0 by exact Hg. destruct (negb _); [done|].
  destruct (refsOk_section n held g0 k s Hg0 Hk) as (sec & Hs & Hkey).
  rewrite (bind_run (deref _ _)), (deref_run _ _ _ _ Hs). cbv iota beta. rewrite (bind_run (for_each _ _)).
  set (P := fun g' => viewOf g' = viewOf g0 /\ g_sections g' = g_sections g0 /\ g_inboundSections g' = g_inboundSections g0).
  assert (preserves P (for_each (map_to_list (s_payments sec)).*2 closePaymentChannel)) as HP.
  { apply preserves_for_each. intros ch _. unfold closePaymentChannel. pres; intros g' Hg'; exact Hg'. }
  specialize (HP g0 (conj eq_refl (conj eq_refl eq_refl))).
  assert (forall g', P g' -> refsOk n held g') as HPi.
  { intros g' (Hv & _ & Hi). by apply (onRefs_refsOk n held g0). }
  destruct (for_each _ closePaymentChannel g0) as [g1 [[]| |]]; [|by apply HPi|by apply HPi]. cbn [fst] in HP.
  pose proof (HPi g1 HP) as Hg1. destruct HP as (_ & Es1 & Ei1). cbv iota beta.
  rewrite <- Es1 in Hs. change (g_inboundSections g0) with (g_inboundSections g) in Ei1.
  assert (g_inboundSections g1 !! k = Some s) as Hk1 by (rewrite Ei1; exact Hk). clear Hg0 HPi P.
  pose proof (secsOf_lookup _ _ _ Hs) as Hsv.
  pose proof (step_drop n held _ _ k s (secViewOf sec) Hg1 Hk1 Hsv) as Hdrop.
  set (outs := option_list (outView <$> s_out sec)).
  assert (forall x, 0 <= heldList held outs x) as Hh' by (intros; by apply heldList_nonneg).
  pose proof (refsInv_ext n _ _ _ _ (fun p => secCount_heldList held sec p) Hdrop) as Hlist.
  destruct (closeRoutes_refs n (heldList held outs) _ (secsOf g1) _ g1 Hlist Hh' Hn) as (g2 & E2 & Hv2 & Hg2).
  rewrite (bind_run (for_each _ _)), E2. cbv iota beta. injection Hv2 as Es2 _ Ei2 _ _ _ _ _.
  assert (secsOf g2 = secsOf g1) as Esecs by (unfold secsOf; by rewrite Es2). rewrite <- Esecs in Hg2.
  assert (exists g3, (match s_out sec with Some out => Out_Close s out | None => mret tt end) g2 = (g3, Ok tt) /\
    g_inboundSections g3 = g_inboundSections g2 /\ secsOf g3 = secsOf g2 /\
    (exists sec', g_sections g3 !! s = Some sec' /\ s_key sec' = k) /\
    refs n held (delete k (g_inboundSections g1)) (secsOf g2) g3) as (g3 & E3 & Ei3 & Es3 & (sec' & Hs3 & Hkey3) & Hg3).
  { destruct (s_out sec) as [o|] eqn:Eo.
    - destruct (closeOut_refs n held _ g2 s o Hg2 Hh Hn) as (g3 & E3 & Ei3 & Es3 & Hsec & Hg3). exists g3.
      split_and!; [done|done|done| |done]. rewrite Es2 in Hsec. destruct (Hsec sec Hs) as (sec' & ? & ?). exists sec'. by subst k.
    - exists g2. split_and!; [done|done|done| |done]. exists sec. by rewrite Es2. }
  rewrite (bind_run (match s_out sec with _ => _ end)), E3. cbv iota beta. unfold updActiveSections, updGauges. run.
  unfold dropSection. run. rewrite (deref_run g_sections s (set_g_gauges _ g3) sec' Hs3). run.
  unfold refsOk. cbn [fst g_inboundSections set_g_inboundSections set_g_gauges]. rewrite Hkey3, Ei3, Ei2.
  match goal with |- refs _ _ _ ?secs _ => assert (secs = secsOf g2) as -> by exact Es3 end. exact Hg3.
Qed.

(** ** Packets *)

Context {TOk : TunnelOk Tun}.

Lemma same_Process P t payload_ meta : onRefs P -> preserves P (Process t payload_ meta).
Proof using TOk.
  intros HP g Hg. destruct (Process_peers t payload_ meta g) as (Hs & Ha & Hp). injection Hs as Es _ Ei _ _ _ _ _.
  apply (HP g); [|done|done]. unfold viewOf, viewWith, secsOf. rewrite Es, Ha. f_equal. symmetry. exact Hp.
Qed.

Definition isDestroy (i : instruction) : bool := if i is Destroy then true else false.

Lemma Execute_refs n held s i msg rest g k :
  isDestroy i = false -> refsOk n held g -> g_inboundSections g !! k = Some s -> n + 1 < 2 ^ 63 ->
  refsOk (n + 1) held (Execute s i msg rest g).1.
Proof using TOk.
  intros Hi Hg Hk Hn. assert (refsOk (n + 1) held g) as Hweak by (eapply refs_weaken; [|exact Hg]; lia).
  pose proof (onRefs_refsOk (n + 1) held) as HP. unfold Execute, keeping.
  destruct i; try done.
  - apply bind_refs; [by apply same_Cache|pres].
  - apply bind_refs; [|pres]. unfold Route_Execute, routingAllowed. pose proof (same_Route_Route _ HP).
    assert (preserves (refsOk (n + 1) held) (routingAllowed ;; sec ← deref g_sections s;
      match s_routes sec !! RouteID with
      | Some _ => Route_Route s RouteID (em_Payload msg) false rest 0
      | None => throw (Errorf "route not exists") end)) as Hp by (unfold routingAllowed; pres). by apply Hp.
  - apply bind_refs; [by apply (BuildRoute_refs n held s ins g k)|pres].
  - apply bind_refs; [by apply same_Payment|pres].
  - apply bind_refs; [by apply (BindOut_refs n held s ins g k)|pres].
  - apply bind_refs; [|pres]. assert (preserves (refsOk (n + 1) held) ReportStats_Execute) as Hp.
    { unfold ReportStats_Execute, routingAllowed. pres. by apply same_emit. }
    by apply Hp.
  - assert (preserves (refsOk (n + 1) held) (SendOut_Execute s msg)) as Hp.
    { unfold SendOut_Execute, outAllowed. pose proof (same_Out_Send _ HP). pres. }
    by apply Hp.
  - assert (preserves (refsOk (n + 1) held) (DeliverInitiator_Execute From Metadata msg)) as Hp.
    { unfold DeliverInitiator_Execute. pose proof (fun t a b => same_Process _ t a b HP). pres. }
    by apply Hp.
Qed.

(** Every instruction but [Destroy] leaves the live sections alone. *)
Lemma live_Execute live s i msg rest :
  isDestroy i = false -> preserves (fun g => g_inboundSections g = live) (Execute s i msg rest).
Proof using TOk.
  intros Hi. set (P := fun g => _).
  assert (onSections P) as HP by (intros g g' Hv; injection Hv as _ _ E _ _ _ _ _; unfold P; by rewrite E).
  assert (forall s f, preserves P (updSection s f)) as H1 by (intros ? ? g Hg; exact Hg).
  assert (forall s f, preserves P (updOut s f)) as H2 by (intros ? ? g Hg; exact Hg).
  assert (forall s id f, preserves P (updRoute s id f)) as H3 by (intros ? ? ? g Hg; exact Hg).
  assert (forall ch f, preserves P (updChannel ch f)) as H4 by (intros ? ? g Hg; exact Hg).
  assert (forall c, preserves P (allocChannel c)) as H5 by (intros ? g Hg; exact Hg).
  assert (forall t a b, preserves P (Process t a b)) as H6.
  { intros t a b g Hg. apply (HP g); [|done]. symmetry. apply (Process_peers t a b g). }
  assert (forall s l, preserves P (cacheActions s l)) as H7.
  { intros s0 l. induction l as [|x l IH]; cbn [cacheActions]; pres. }
  assert (forall s ins st ch fresh, preserves P (applyPayment s ins st ch fresh)) as H8.
  { intros s0 ins st ch fresh. unfold applyPayment. apply preserves_bind; [pres|intros v]. apply preserves_bind; [pres|intros _].
    match goal with |- context [if ?b then _ else _] => destruct b end; [pres|].
    apply preserves_bind; [pres|intros _]. apply preserves_bind; [pres|intros now]. apply preserves_bind; [pres|intros _].
    intros g Hg. rewrite bind_run. destruct (paymentMutation _ _ _ g) as [g' o] eqn:Em.
    pose proof (paymentMutation_pure _ _ _ _ _ _ Em) as ->. destruct o as [m| |]; [|done|done].
    assert (preserves P m) as Hm.
    { apply paymentMutation_inv in Em as [->|(id & num & ->)]; [unfold creditOut; pres|apply H3]. }
    clear Em. revert g Hg. match goal with |- forall g, P g -> P (?c g).1 => change (preserves P c) end. pres. }
  unfold Execute, keeping, Cache_Execute, Route_Execute, Route_Route, payForPacket, forward, BuildRoute_Execute, addRoute, retarget,
    movePaid, updActiveRoutes, Payment_Execute, loadPaymentState, findChannel, fetchChannel, lastKnown, installChannel,
    BindOut_Execute, openOut, reconfigureOut, updActiveOut, nextSentIn, sendBack, ReportStats_Execute,
    SendOut_Execute, Out_Send, getOut, payForOut, Deliver_Execute, DeliverInitiator_Execute, routingAllowed, outAllowed.
  destruct i; try done; pres; intros g Hg; exact Hg.
Qed.

(** [Destroy] only as the last instruction of a packet. *)
Fixpoint destroyLast (l : list instruction) : bool :=
  match l with
  | [] | [_] => true
  | i :: l => negb (isDestroy i) && destroyLast l
  end.

Lemma executeAll_refs n held s l msg rest g k :
  destroyLast l = true -> refsOk n held g -> g_inboundSections g !! k = Some s -> n + Z.of_nat (length l) < 2 ^ 63 ->
  refsOk (n + Z.of_nat (length l)) held (executeAll s l msg rest g).1.
Proof using TOk.
  revert n msg g. induction l as [|i l IH]; intros n msg g Hl Hg Hk Hn.
  { cbn. by rewrite Z.add_0_r. }
  cbn [executeAll]. rewrite bind_run, wrapM_run.
  assert (refsOk (n + 1) held (Execute s i msg rest g).1) as H1.
  { destruct (isDestroy i) eqn:Ei; [|apply (Execute_refs n held s i msg rest g k); [done|done|done|cbn in Hn; lia]].
    destruct i; try done. unfold Execute, keeping. apply bind_refs; [|pres].
    eapply refs_weaken; [|apply (Destroy_refs n held s g k Hg Hk)]; cbn in Hn; lia. }
  assert (forall g', refsOk (n + 1) held g' -> refsOk (n + Z.of_nat (length (i :: l))) held g') as Hw.
  { intros g'. apply refs_weaken. cbn. lia. }
  destruct (wrapErr _ _) as [payload_| |]; [|by apply Hw|by apply Hw].
  destruct l as [|j l]; [by apply Hw|].
  cbn [destroyLast] in Hl. apply andb_prop in Hl as [Hi Hl]. apply negb_true_iff in Hi.
  replace (n + Z.of_nat (length (i :: j :: l))) with (n + 1 + Z.of_nat (length (j :: l))) by (cbn; lia).
  apply IH; [done|done| |cbn in Hn |- *; lia].
  rewrite (live_Execute (g_inboundSections g) s i msg rest Hi g eq_refl). exact Hk.
Qed.

Lemma NewGateway_refs key pay : refsOk 0 (fun _ => 0) (NewGateway (Tun := Tun) key pay).
Proof. by constructor; cbn. Qed.

Lemma connHandler_refs n held id client g : refsOk n held g -> refsOk n held (connHandler id client g).1.
Proof.
  intros Hg. unfold connHandler. apply bind_refs; [|pres]. unfold addPeer. rewrite bind_run, get_run. cbv iota beta.
  apply bind_refs.
  - destruct (g_activePeers g !! id) as [l|] eqn:Ea; [done|]. run. unfold allocPeer. cbv iota beta. run. cbn [fst].
    set (l := freshLoc _). assert (g_peers g !! l = None) as Hl by apply freshLoc_None.
    unfold refsOk, refs, viewWith. cbn. rewrite fmap_insert.
    apply (step_newPeer n held _ (viewOf g) l id Hg); [|done]. cbn. by rewrite lookup_fmap, Hl.
  - intros l. pose proof (onRefs_refsOk n held) as HP. apply preserves_bind; [|pres].
    pose proof (same_emit _ HP). pose proof (same_nowUnix _ HP). pres; by apply same_updPeer.
Qed.

Lemma newSection_refs n held peer key g :
  refsOk n held g -> g_inboundSections g !! key = None ->
  match newSection peer key g with
  | (g', Ok s) => refsOk n held g' /\ g_inboundSections g' !! key = Some s /\
      exists sec shKey, g_sections g' !! s = Some sec /\ SharedKey (g_key g) key = Some shKey /\
        s_cipherKey sec = shKey /\ s_cipherKeyCrc sec = Checksum shKey
  | (g', _) => refsOk n held g'
  end.
Proof.
  intros Hg Hk. unfold newSection. run. destruct (SharedKey (g_key g) key) as [shKey|]; cbn; [|done]. run.
  unfold deref. cbn [g_peers set_g_tick]. destruct (g_peers g !! peer) as [p|]; [|done].
  destruct (getConn p); [|done]. run. unfold allocSection. cbv iota beta. run. unfold updActiveSections, updGauges. run.
  set (l := freshLoc _). assert (g_sections g !! l = None) as Hl by apply freshLoc_None.
  split; [|split; [apply lookup_insert_eq|]].
  - unfold refsOk, refs, viewWith, secsOf. cbn. rewrite fmap_insert.
    apply (step_newSection n held _ (viewOf g) key l Hg Hk). cbn. unfold secsOf. by rewrite lookup_fmap, Hl.
  - eexists _, shKey. split; [apply lookup_insert_eq|]. by split_and!.
Qed.

(** The key a packet will be decrypted with. *)
Definition keyMaterial (m : EncryptedMessage) g : option (Z * bytes) :=
  match g_inboundSections g !! em_SectionPubKey m with
  | Some s => sec ← g_sections g !! s; Some (s_cipherKeyCrc sec, s_cipherKey sec)
  | None => shKey ← SharedKey (g_key g) (em_SectionPubKey m); Some (Checksum shKey, shKey)
  end.

Lemma packet_refs n held peer m g :
  (forall crc key m' c rest, keyMaterial m g = Some (crc, key) ->
     decryptMessage crc key m = (m', Ok (c, rest)) -> destroyLast (ic_List c) = true) ->
  refsOk n held g -> n + 5 < 2 ^ 63 -> refsOk (n + 5) held (messageHandler peer (MsgEncrypted m) g).1.
Proof using TOk.
  intros Hc Hg Hn. pose proof (onRefs_refsOk (n + 5) held) as HP. unfold messageHandler.
  assert (forall g', refsOk n held g' -> refsOk (n + 5) held g') as Hw by (intros g'; apply refs_weaken; lia).
  apply bind_refs; [|intros _; pose proof (same_nowUnix _ HP); pres; by apply same_updPeer].
  unfold handleEncrypted. rewrite bind_run, get_run. cbv iota beta. rewrite bind_run.
  assert (match (match g_inboundSections g !! em_SectionPubKey m with Some s => mret s | None => newSection peer (em_SectionPubKey m) end) g with
    | (g', Ok s) => refsOk n held g' /\ g_inboundSections g' !! em_SectionPubKey m = Some s /\
        exists sec, g_sections g' !! s = Some sec /\ keyMaterial m g = Some (s_cipherKeyCrc sec, s_cipherKey sec)
    | (g', _) => refsOk n held g'
    end) as Hsec.
  { unfold keyMaterial. destruct (g_inboundSections g !! em_SectionPubKey m) as [s|] eqn:Ei.
    - rewrite ret_run. split; [done|]. split; [done|]. destruct (refsOk_section _ _ _ _ _ Hg Ei) as (sec & Hs & _).
      exists sec. by rewrite Hs.
    - pose proof (newSection_refs n held peer (em_SectionPubKey m) g Hg Ei) as H.
      destruct (newSection _ _ g) as [g' [s| |]]; [|done|done]. destruct H as (H1 & H2 & sec & shKey & H3 & H4 & H5 & H6).
      split; [done|]. split; [done|]. exists sec. split; [done|]. rewrite H4, H5, H6. done. }
  destruct (_ g) as [g1 [s| |]]; [|by apply Hw|by apply Hw]. destruct Hsec as (Hg1 & Hk & sec & Hs & Hkey).
  rewrite bind_run, (deref_run _ _ _ _ Hs). cbv iota beta.
  destruct (decryptMessage _ _ m) as [m' res] eqn:Ed. rewrite bind_run, wrapM_run, lift_run. cbn [fst snd].
  destruct res as [[c rest]| |]; cbn [wrapErr]; [|by apply Hw|by apply Hw]. cbv iota beta.
  pose proof (Hc _ _ _ _ _ Hkey Ed) as Hlast.
  set (P := fun g' => refsOk n held g' /\ g_inboundSections g' = g_inboundSections g1).
  assert (onRefs P) as HPr.
  { intros a b Hv Hi [H1 H2]. split; [by apply (onRefs_refsOk n held a)|congruence]. }
  assert (preserves P (checkSectionSeqno s (ic_Seqno c) false)) as Hchk.
  { unfold checkSectionSeqno. pres; by apply same_updSection. }
  assert (preserves P (stampSection s)) as Hst.
  { unfold stampSection. pose proof (same_nowUnix _ HPr). pres; by apply same_updSection. }
  rewrite bind_run. specialize (Hchk g1 (conj Hg1 eq_refl)).
  destruct (checkSectionSeqno _ _ _ g1) as [g2 [fresh| |]]; [|by apply Hw, Hchk|by apply Hw, Hchk].
  rewrite bind_run, guard_run. destruct (negb fresh); [by apply Hw, Hchk|].
  rewrite bind_run, guard_run. destruct (Z.ltb_spec 5 (Z.of_nat (length (ic_List c)))) as [|Hlen]; [by apply Hw, Hchk|].
  rewrite bind_run. specialize (Hst g2 Hchk). destruct (stampSection s g2) as [g3 [[]| |]]; [|by apply Hw, Hst|by apply Hw, Hst].
  destruct Hst as [Hg3 Ei3]. cbn [fst] in Hg3, Ei3.
  eapply refs_weaken; [|apply (executeAll_refs n held s _ _ _ g3 (em_SectionPubKey m) Hlast Hg3)]; [lia| |lia].
  rewrite Ei3. exact Hk.
Qed.
End Code.

(** C8: reference counting is exact: a packet whose [Destroy], if any, is its
    last instruction keeps, whatever happens in it (errors and panics included),
    the count of every peer equal to the number of routes and out gateways of
    live sections that name it plus the references [held] by the tunnels of this
    node, and a peer that is counted stays in the table under its own id.  [n]
    bounds the counts, far below where they would wrap around. *)
Theorem references_exact {C : CipherCtr} {T : TL} {K : KeyAgreement} {W : World} {Tun : Type} {TP : Tunnel Tun}
    {TOk : TunnelOk Tun} n held peer m (g : Gateway Tun) :
  (forall crc key m' c rest, keyMaterial m g = Some (crc, key) ->
     decryptMessage crc key m = (m', Ok (c, rest)) -> destroyLast (ic_List c) = true) ->
  refsOk n held g -> n + 5 < 2 ^ 63 ->
  let g' := (messageHandler peer (MsgEncrypted m) g).1 in
  refsOk (n + 5) held g' /\
  forall l p, g_peers g' !! l = Some p ->
    p_references p = count (viewOf g') (g_inboundSections g') l + held l /\
    (0 < p_references p -> g_activePeers g' !! p_id p = Some l).
Proof.
  intros Hc Hg Hn g'. pose proof (packet_refs n held peer m g Hc Hg Hn) as H. fold g' in H. split; [done|].
  intros l p Hp. pose proof (viewOf_peer (secsOf g') g' l p Hp) as Hv. split.
  - exact (ri_count _ _ _ _ H l _ _ Hv).
  - intros Hr. exact (ri_kept _ _ _ _ H l _ _ Hv Hr).
Qed.

Definition buildAndDestroy : list instruction := [buildRouteTo [21] 0; Route 1; Destroy].

Lemma references_exact_witness :
  let g' := (handleAll sampleWorld [packet 1 buildAndDestroy [9]] (startGateway sampleWorld freeConfig)).1 in
  refsOk 5 (fun _ => 0) g'.
Proof.
  pose proof (references_exact (C := toyCipher) (T := sampleTL) (K := sampleKA) (W := sampleWorld) (TP := sampleTunnel)
    (TOk := sampleTunnel_ok) 0 (fun _ => 0) 0%nat (packetBody senderKey 1 buildAndDestroy [9]) (startGateway sampleWorld freeConfig)) as H.
  assert (refsOk 0 (fun _ => 0) (startGateway sampleWorld freeConfig)) as H0 by apply connHandler_refs, NewGateway_refs.
  assert (0 + 5 < 2 ^ 63) as H1 by reflexivity.
  assert (forall crc key m' c rest,
     keyMaterial (K := sampleKA) (packetBody senderKey 1 buildAndDestroy [9]) (startGateway sampleWorld freeConfig) = Some (crc, key) ->
     decryptMessage (C := toyCipher) (T := sampleTL) crc key (packetBody senderKey 1 buildAndDestroy [9]) = (m', Ok (c, rest)) ->
     destroyLast (ic_List c) = true) as H2.
  { intros crc key m' c rest Hkey. vm_compute in Hkey. injection Hkey as <- <-. intros Hd. vm_compute in Hd.
    injection Hd as _ <- _. reflexivity. }
  specialize (H H2 H0 H1). destruct H as [H _].
  unfold handleAll. change (packet 1 buildAndDestroy [9]) with (MsgEncrypted (packetBody senderKey 1 buildAndDestroy [9])).
  destruct (messageHandler _ _ _) as [g o]. exact H.
Defined.
