(* ===== verification/Findings.v ===== *)
(** * Runs that go wrong

    Concrete runs of the gateway, evaluated, in which the code does something
    other than it means to. *)

From S2P Require Import Prelude Seqno Stream Wire Samples Keys Hoare State Peers Node Payments OutGate Gateway Worlds Traffic.

(** A node that allows out traffic panics when a [SendOut] instruction
    reaches a section that was never bound: [s.out] is nil and is dereferenced
    without a check.  The first packet of an unknown sender is enough. *)
Theorem SendOut_unbound_panics :
  (messageHandler (C := toyCipher) (T := sampleTL) (K := sampleKA) (W := sampleWorld) (TP := sampleTunnel) 0%nat
     (packet 1 [SendOut] [9]) (startGateway sampleWorld freeConfig)).2 = Panic "nil pointer dereference".
Proof. vm_compute. reflexivity. Qed.

(** The peer a gateway has under an id, with its reference count. *)
Definition peerRefs {W : World} {Tun} (g : Gateway Tun) (id : bytes) : option Z :=
  l ← g_activePeers g !! id; p ← g_peers g !! l; Some (p_references p).

(** Two senders build a route to the same node. *)
Definition twoRoutes : Gateway (W := sampleWorld) unit :=
  (handleAll sampleWorld [packetOf [1; 1; 1; 1] 1 [buildRouteTo [21] 0] [9];
     packetOf [2; 2; 2; 2] 1 [buildRouteTo [21] 0] [9]] (startGateway sampleWorld freeConfig)).1.

(** A packet with two [Destroy] instructions releases the references of its
    section twice: with a second section still routing to the same peer, the
    peer goes from two references to none and is removed. *)
Theorem Destroy_twice_drops_shared_peer :
  peerRefs twoRoutes [21] = Some 2 /\
  peerRefs (handleAll sampleWorld [packetOf [1; 1; 1; 1] 2 [Destroy] [9]] twoRoutes).1 [21] = Some 1 /\
  peerRefs (handleAll sampleWorld [packetOf [1; 1; 1; 1] 2 [Destroy; Destroy] [9]] twoRoutes).1 [21] = None.
Proof. vm_compute. auto. Qed.

Definition outConfig : PaymentConfig := mkPaymentConfig true 0 0.
Definition bindOut (price : Z) : instruction := BindOut (mkBindOut [31] [5; 5] [] [4; 4; 4; 4] price).
Definition payOut (amount : Z) : instruction :=
  Payment (mkPayment [66] (PutUint64 amount) (Z.shiftl PaymentPurposeOut 32) false).

(** With payments enabled and no minimum price, an out gateway bound at
    price zero panics with a division by zero on a payment for it, after the
    payment service has already recorded the payment. *)
Theorem Payment_zero_price_panics :
  let r := handleAll sampleWorld [packet 1 [bindOut 0] [9]; packet 2 [payOut 100] [9]]
             (startGateway sampleWorld outConfig) in
  r.2 = [Ok tt; Panic "division by zero"] /\
  exists l, g_trace r.1 = l ++ [EvResolve [66] (mkVirtualChannelState 100 [])].
Proof. vm_compute. split; [reflexivity|]. eexists [_]. reflexivity. Qed.

(** Rebinding an out gateway from a paid to a free price leaves the gauge
    of active out gateways where it was, so that closing the section counts one
    free gateway down that was never counted up. *)
Theorem BindOut_reprice_skews_gauge :
  ActiveOutGateways (g_gauges (handleAll sampleWorld
    [packet 1 [bindOut 5] [9]; packet 2 [bindOut 0] [9]; packet 3 [Destroy] [9]]
    (startGateway sampleWorld outConfig)).1) = (1, -1).
Proof. vm_compute. reflexivity. Qed.

(** ** Races: steps of two goroutines in an order the locks allow *)

Definition payRoute (amount : Z) : PaymentInstruction :=
  mkPayment [66] (PutUint64 amount) (Z.shiftl PaymentPurposeRoute 32 + 1) false.

(** The first payment of a section, received twice at the same time: both
    packets find no channel and query the service before either installs it. *)
Definition racingPayments (s : nat) (ins : PaymentInstruction) (st : VirtualChannelState)
    : M (Gateway (W := sampleWorld) unit) unit :=
  '(v1, fresh1) ← fetchChannel ins;
  '(v2, fresh2) ← fetchChannel ins;
  ch1 ← installChannel s ins v1;
  ch2 ← installChannel s ins v2;
  applyPayment s ins st ch1 fresh1 ;;
  applyPayment s ins st ch2 fresh2.

Definition routePrepaid {W : World} {Tun} (g : Gateway Tun) (key : bytes) (id : Z) : option Z :=
  s ← g_inboundSections g !! key; sec ← g_sections g !! s; r ← s_routes sec !! id; Some (r_PrepaidPackets r).

Definition paidRoute : Gateway (W := sampleWorld) unit :=
  (handleAll sampleWorld [packet 1 [buildRouteTo [21] 5] [9]] (startGateway sampleWorld paidConfig)).1.

(** One payment of 5000 for packets at 5 each buys 1000 packets; two packets
    carrying it that race for the first use of its channel buy 2000, because the
    loser keeps the mark that its channel was just loaded. *)
Theorem Payment_race_credits_twice :
  (findChannel 0%nat (payRoute 5000) paidRoute).2 = Ok None /\
  routePrepaid (Payment_Execute 0%nat (payRoute 5000) paidRoute).1 senderKey 1 = Some 1000 /\
  routePrepaid (racingPayments 0%nat (payRoute 5000) (mkVirtualChannelState 5000 []) paidRoute).1 senderKey 1 = Some 2000.
Proof. vm_compute. auto. Qed.

(** An incoming connection of node 21, the check that finds it unused for more
    than ten seconds, and a route to it built before the goroutine runs. *)
Definition idlePeer : Gateway (W := sampleWorld) unit :=
  (connHandler [21] (mkConn 21 "10.0.0.21:1") (startGateway sampleWorld freeConfig)).1.
Definition checkedPeer : Gateway (W := sampleWorld) unit := (keepAlivePeer 2000 1%nat idlePeer).1.
Definition usedPeer : Gateway (W := sampleWorld) unit :=
  (handleAll sampleWorld [packet 1 [buildRouteTo [21] 0; Route 1] [9]] checkedPeer).1.

(** The periodic check decides to kill a peer while nobody refers to it, and
    kills it later without looking again: a route built in between is left with
    a peer whose connection is closed and which is no longer in the table. *)
Theorem keepAlive_kill_race :
  TKill 1%nat ∈ g_tasks checkedPeer /\
  peerRefs usedPeer [21] = Some 1 /\
  let g := (runTask (TKill 1%nat) usedPeer).1 in
  peerRefs g [21] = None /\
  (handleAll sampleWorld [packet 2 [Route 1] [9]] usedPeer).2 = [Ok tt] /\
  (handleAll sampleWorld [packet 2 [Route 1] [9]] g).2
  = [Err (Errorw "execute instruction error" (Errorw "route message failed" ErrNotConnected))].
Proof.
  split; [|vm_compute; auto].
  assert (g_tasks checkedPeer = [TKill 1%nat]) as -> by (vm_compute; reflexivity). by left.
Qed.
