(* ===== verification/Client.v ===== *)
(** * The tunnel of an initiator ([tunnel/regularOutTunnel.go])

    The client side: a chain of nodes to the exit ([chainTo]) and one back
    ([chainFrom], whose last node is this gateway), the messages that configure,
    keep and close the tunnel, and the datagrams sent and received through it (in [ClientMsg], [ClientPay]
    and [ClientIO]).
    A tunnel lives in the heap [g_tuns] of its gateway and is found by the
    deliveries of [DeliverInitiator] through [g_tunnels]. *)

From S2P Require Import Prelude Seqno Stream Wire Samples Keys PayChain State Peers Node Payments OutGate Gateway.

Definition StateTypeDestroyed : Z := MaxUint32.
Definition StateTypeConfiguring : Z := 1.
Definition StateTypeOptimizingRoutes : Z := 2.
Definition StateTypeOptimized : Z := 3.

Definition ChannelCapacityForNumPayments : Z := 30.
Definition ChannelPacketsToPrepay : Z := 200000.

(** The capacity of the channel [read]. *)
Definition readCapacity : Z := 512 * 1024.

(** Times are in nanoseconds since the epoch. *)
Record VirtualPaymentChannel := mkVirtualPaymentChannel {
  vp_Key : bytes;
  LastAmount : Z;
  vp_Capacity : Z;
  vp_SafeDeadline : Z;
}.

Record Payer := mkPayer {
  py_PaymentTunnel : list PaymentTunnelSection;
  py_PricePerPacket : Z;
  py_JettonMaster : option string;
  py_ExtraCurrencyID : Z;
  py_PaidPackets : Z;
  py_CurrentChannel : option VirtualPaymentChannel;
  py_PaidChannelFee : option Z;
  py_LatestChannelDeadline : Z;
  py_LatestPaidOnSeqno : Z;
  py_LatestInstruction : option PaymentInstruction;
  py_LatestPacketsPaid : Z;
}.

Definition set_py_PaymentTunnel (v : list PaymentTunnelSection) (x : Payer) : Payer :=
  mkPayer v (py_PricePerPacket x) (py_JettonMaster x) (py_ExtraCurrencyID x) (py_PaidPackets x)
    (py_CurrentChannel x) (py_PaidChannelFee x) (py_LatestChannelDeadline x) (py_LatestPaidOnSeqno
    x) (py_LatestInstruction x) (py_LatestPacketsPaid x).
Definition set_py_PricePerPacket (v : Z) (x : Payer) : Payer :=
  mkPayer (py_PaymentTunnel x) v (py_JettonMaster x) (py_ExtraCurrencyID x) (py_PaidPackets x)
    (py_CurrentChannel x) (py_PaidChannelFee x) (py_LatestChannelDeadline x) (py_LatestPaidOnSeqno
    x) (py_LatestInstruction x) (py_LatestPacketsPaid x).
Definition set_py_JettonMaster (v : option string) (x : Payer) : Payer :=
  mkPayer (py_PaymentTunnel x) (py_PricePerPacket x) v (py_ExtraCurrencyID x) (py_PaidPackets x)
    (py_CurrentChannel x) (py_PaidChannelFee x) (py_LatestChannelDeadline x) (py_LatestPaidOnSeqno
    x) (py_LatestInstruction x) (py_LatestPacketsPaid x).
Definition set_py_ExtraCurrencyID (v : Z) (x : Payer) : Payer :=
  mkPayer (py_PaymentTunnel x) (py_PricePerPacket x) (py_JettonMaster x) v (py_PaidPackets x)
    (py_CurrentChannel x) (py_PaidChannelFee x) (py_LatestChannelDeadline x) (py_LatestPaidOnSeqno
    x) (py_LatestInstruction x) (py_LatestPacketsPaid x).
Definition set_py_PaidPackets (v : Z) (x : Payer) : Payer :=
  mkPayer (py_PaymentTunnel x) (py_PricePerPacket x) (py_JettonMaster x) (py_ExtraCurrencyID x) v
    (py_CurrentChannel x) (py_PaidChannelFee x) (py_LatestChannelDeadline x) (py_LatestPaidOnSeqno
    x) (py_LatestInstruction x) (py_LatestPacketsPaid x).
Definition set_py_CurrentChannel (v : option VirtualPaymentChannel) (x : Payer) : Payer :=
  mkPayer (py_PaymentTunnel x) (py_PricePerPacket x) (py_JettonMaster x) (py_ExtraCurrencyID x)
    (py_PaidPackets x) v (py_PaidChannelFee x) (py_LatestChannelDeadline x) (py_LatestPaidOnSeqno x)
    (py_LatestInstruction x) (py_LatestPacketsPaid x).
Definition set_py_PaidChannelFee (v : option Z) (x : Payer) : Payer :=
  mkPayer (py_PaymentTunnel x) (py_PricePerPacket x) (py_JettonMaster x) (py_ExtraCurrencyID x)
    (py_PaidPackets x) (py_CurrentChannel x) v (py_LatestChannelDeadline x) (py_LatestPaidOnSeqno x)
    (py_LatestInstruction x) (py_LatestPacketsPaid x).
Definition set_py_LatestChannelDeadline (v : Z) (x : Payer) : Payer :=
  mkPayer (py_PaymentTunnel x) (py_PricePerPacket x) (py_JettonMaster x) (py_ExtraCurrencyID x)
    (py_PaidPackets x) (py_CurrentChannel x) (py_PaidChannelFee x) v (py_LatestPaidOnSeqno x)
    (py_LatestInstruction x) (py_LatestPacketsPaid x).
Definition set_py_LatestPaidOnSeqno (v : Z) (x : Payer) : Payer :=
  mkPayer (py_PaymentTunnel x) (py_PricePerPacket x) (py_JettonMaster x) (py_ExtraCurrencyID x)
    (py_PaidPackets x) (py_CurrentChannel x) (py_PaidChannelFee x) (py_LatestChannelDeadline x) v
    (py_LatestInstruction x) (py_LatestPacketsPaid x).
Definition set_py_LatestInstruction (v : option PaymentInstruction) (x : Payer) : Payer :=
  mkPayer (py_PaymentTunnel x) (py_PricePerPacket x) (py_JettonMaster x) (py_ExtraCurrencyID x)
    (py_PaidPackets x) (py_CurrentChannel x) (py_PaidChannelFee x) (py_LatestChannelDeadline x)
    (py_LatestPaidOnSeqno x) v (py_LatestPacketsPaid x).
Definition set_py_LatestPacketsPaid (v : Z) (x : Payer) : Payer :=
  mkPayer (py_PaymentTunnel x) (py_PricePerPacket x) (py_JettonMaster x) (py_ExtraCurrencyID x)
    (py_PaidPackets x) (py_CurrentChannel x) (py_PaidChannelFee x) (py_LatestChannelDeadline x)
    (py_LatestPaidOnSeqno x) (py_LatestInstruction x) v.

Record SectionInfo := mkSectionInfo {
  si_Keys : EncryptionKeys;
  si_PaymentInfo : option Payer;
}.

Definition set_si_Keys (v : EncryptionKeys) (x : SectionInfo) : SectionInfo :=
  mkSectionInfo v (si_PaymentInfo x).
Definition set_si_PaymentInfo (v : option Payer) (x : SectionInfo) : SectionInfo :=
  mkSectionInfo (si_Keys x) v.

Record RegularOutTunnel := mkRegularOutTunnel {
  t_localID : Z;
  t_peer : nat;
  t_usePayments : bool;
  t_paymentsConfirmed : Z;
  t_wantDestroy : Z;
  t_tunnelState : Z;
  t_sendControlSignal : bool;
  t_externalAddr : bytes;
  t_externalPort : Z;
  t_addressChanges : option (list (bytes * Z));
  t_chainTo : list SectionInfo;
  t_chainFrom : list SectionInfo;
  t_payloadKeys : EncryptionKeys;
  t_read : list DeliverUDPPayload;
  t_seqnoSend : Z;
  t_seqnoRecv : Z;
  t_packetsRecv : Z;
  t_packetsRecvPaidConsumed : Z;
  t_packetsDropped : Z;
  t_packetsSent : Z;
  t_controlSeqno : Z;
  t_controlSeqnoReceived : Z;
  t_controlPaidSeqnoReceived : Z;
  t_packetsToPrepay : Z;
  t_packetsConsumedIn : Z;
  t_packetsConsumedOut : Z;
  t_packetsMinPaidIn : Z;
  t_packetsMinPaidOut : Z;
  t_lastFullyCheckedAt : Z;
  t_seqnoForward : Z;
  t_wDeadline : Z;
  t_rDeadline : Z;
  t_closed : bool;
}.

Definition set_t_localID (v : Z) (x : RegularOutTunnel) : RegularOutTunnel :=
  mkRegularOutTunnel v (t_peer x) (t_usePayments x) (t_paymentsConfirmed x) (t_wantDestroy x)
    (t_tunnelState x) (t_sendControlSignal x) (t_externalAddr x) (t_externalPort x)
    (t_addressChanges x) (t_chainTo x) (t_chainFrom x) (t_payloadKeys x) (t_read x) (t_seqnoSend x)
    (t_seqnoRecv x) (t_packetsRecv x) (t_packetsRecvPaidConsumed x) (t_packetsDropped x)
    (t_packetsSent x) (t_controlSeqno x) (t_controlSeqnoReceived x) (t_controlPaidSeqnoReceived x)
    (t_packetsToPrepay x) (t_packetsConsumedIn x) (t_packetsConsumedOut x) (t_packetsMinPaidIn x)
    (t_packetsMinPaidOut x) (t_lastFullyCheckedAt x) (t_seqnoForward x) (t_wDeadline x) (t_rDeadline
    x) (t_closed x).
Definition set_t_peer (v : nat) (x : RegularOutTunnel) : RegularOutTunnel :=
  mkRegularOutTunnel (t_localID x) v (t_usePayments x) (t_paymentsConfirmed x) (t_wantDestroy x)
    (t_tunnelState x) (t_sendControlSignal x) (t_externalAddr x) (t_externalPort x)
    (t_addressChanges x) (t_chainTo x) (t_chainFrom x) (t_payloadKeys x) (t_read x) (t_seqnoSend x)
    (t_seqnoRecv x) (t_packetsRecv x) (t_packetsRecvPaidConsumed x) (t_packetsDropped x)
    (t_packetsSent x) (t_controlSeqno x) (t_controlSeqnoReceived x) (t_controlPaidSeqnoReceived x)
    (t_packetsToPrepay x) (t_packetsConsumedIn x) (t_packetsConsumedOut x) (t_packetsMinPaidIn x)
    (t_packetsMinPaidOut x) (t_lastFullyCheckedAt x) (t_seqnoForward x) (t_wDeadline x) (t_rDeadline
    x) (t_closed x).
Definition set_t_usePayments (v : bool) (x : RegularOutTunnel) : RegularOutTunnel :=
  mkRegularOutTunnel (t_localID x) (t_peer x) v (t_paymentsConfirmed x) (t_wantDestroy x)
    (t_tunnelState x) (t_sendControlSignal x) (t_externalAddr x) (t_externalPort x)
    (t_addressChanges x) (t_chainTo x) (t_chainFrom x) (t_payloadKeys x) (t_read x) (t_seqnoSend x)
    (t_seqnoRecv x) (t_packetsRecv x) (t_packetsRecvPaidConsumed x) (t_packetsDropped x)
    (t_packetsSent x) (t_controlSeqno x) (t_controlSeqnoReceived x) (t_controlPaidSeqnoReceived x)
    (t_packetsToPrepay x) (t_packetsConsumedIn x) (t_packetsConsumedOut x) (t_packetsMinPaidIn x)
    (t_packetsMinPaidOut x) (t_lastFullyCheckedAt x) (t_seqnoForward x) (t_wDeadline x) (t_rDeadline
    x) (t_closed x).
Definition set_t_paymentsConfirmed (v : Z) (x : RegularOutTunnel) : RegularOutTunnel :=
  mkRegularOutTunnel (t_localID x) (t_peer x) (t_usePayments x) v (t_wantDestroy x) (t_tunnelState
    x) (t_sendControlSignal x) (t_externalAddr x) (t_externalPort x) (t_addressChanges x) (t_chainTo
    x) (t_chainFrom x) (t_payloadKeys x) (t_read x) (t_seqnoSend x) (t_seqnoRecv x) (t_packetsRecv
    x) (t_packetsRecvPaidConsumed x) (t_packetsDropped x) (t_packetsSent x) (t_controlSeqno x)
    (t_controlSeqnoReceived x) (t_controlPaidSeqnoReceived x) (t_packetsToPrepay x)
    (t_packetsConsumedIn x) (t_packetsConsumedOut x) (t_packetsMinPaidIn x) (t_packetsMinPaidOut x)
    (t_lastFullyCheckedAt x) (t_seqnoForward x) (t_wDeadline x) (t_rDeadline x) (t_closed x).
Definition set_t_wantDestroy (v : Z) (x : RegularOutTunnel) : RegularOutTunnel :=
  mkRegularOutTunnel (t_localID x) (t_peer x) (t_usePayments x) (t_paymentsConfirmed x) v
    (t_tunnelState x) (t_sendControlSignal x) (t_externalAddr x) (t_externalPort x)
    (t_addressChanges x) (t_chainTo x) (t_chainFrom x) (t_payloadKeys x) (t_read x) (t_seqnoSend x)
    (t_seqnoRecv x) (t_packetsRecv x) (t_packetsRecvPaidConsumed x) (t_packetsDropped x)
    (t_packetsSent x) (t_controlSeqno x) (t_controlSeqnoReceived x) (t_controlPaidSeqnoReceived x)
    (t_packetsToPrepay x) (t_packetsConsumedIn x) (t_packetsConsumedOut x) (t_packetsMinPaidIn x)
    (t_packetsMinPaidOut x) (t_lastFullyCheckedAt x) (t_seqnoForward x) (t_wDeadline x) (t_rDeadline
    x) (t_closed x).
Definition set_t_tunnelState (v : Z) (x : RegularOutTunnel) : RegularOutTunnel :=
  mkRegularOutTunnel (t_localID x) (t_peer x) (t_usePayments x) (t_paymentsConfirmed x)
    (t_wantDestroy x) v (t_sendControlSignal x) (t_externalAddr x) (t_externalPort x)
    (t_addressChanges x) (t_chainTo x) (t_chainFrom x) (t_payloadKeys x) (t_read x) (t_seqnoSend x)
    (t_seqnoRecv x) (t_packetsRecv x) (t_packetsRecvPaidConsumed x) (t_packetsDropped x)
    (t_packetsSent x) (t_controlSeqno x) (t_controlSeqnoReceived x) (t_controlPaidSeqnoReceived x)
    (t_packetsToPrepay x) (t_packetsConsumedIn x) (t_packetsConsumedOut x) (t_packetsMinPaidIn x)
    (t_packetsMinPaidOut x) (t_lastFullyCheckedAt x) (t_seqnoForward x) (t_wDeadline x) (t_rDeadline
    x) (t_closed x).
Definition set_t_sendControlSignal (v : bool) (x : RegularOutTunnel) : RegularOutTunnel :=
  mkRegularOutTunnel (t_localID x) (t_peer x) (t_usePayments x) (t_paymentsConfirmed x)
    (t_wantDestroy x) (t_tunnelState x) v (t_externalAddr x) (t_externalPort x) (t_addressChanges x)
    (t_chainTo x) (t_chainFrom x) (t_payloadKeys x) (t_read x) (t_seqnoSend x) (t_seqnoRecv x)
    (t_packetsRecv x) (t_packetsRecvPaidConsumed x) (t_packetsDropped x) (t_packetsSent x)
    (t_controlSeqno x) (t_controlSeqnoReceived x) (t_controlPaidSeqnoReceived x) (t_packetsToPrepay
    x) (t_packetsConsumedIn x) (t_packetsConsumedOut x) (t_packetsMinPaidIn x) (t_packetsMinPaidOut
    x) (t_lastFullyCheckedAt x) (t_seqnoForward x) (t_wDeadline x) (t_rDeadline x) (t_closed x).
Definition set_t_externalAddr (v : bytes) (x : RegularOutTunnel) : RegularOutTunnel :=
  mkRegularOutTunnel (t_localID x) (t_peer x) (t_usePayments x) (t_paymentsConfirmed x)
    (t_wantDestroy x) (t_tunnelState x) (t_sendControlSignal x) v (t_externalPort x)
    (t_addressChanges x) (t_chainTo x) (t_chainFrom x) (t_payloadKeys x) (t_read x) (t_seqnoSend x)
    (t_seqnoRecv x) (t_packetsRecv x) (t_packetsRecvPaidConsumed x) (t_packetsDropped x)
    (t_packetsSent x) (t_controlSeqno x) (t_controlSeqnoReceived x) (t_controlPaidSeqnoReceived x)
    (t_packetsToPrepay x) (t_packetsConsumedIn x) (t_packetsConsumedOut x) (t_packetsMinPaidIn x)
    (t_packetsMinPaidOut x) (t_lastFullyCheckedAt x) (t_seqnoForward x) (t_wDeadline x) (t_rDeadline
    x) (t_closed x).
Definition set_t_externalPort (v : Z) (x : RegularOutTunnel) : RegularOutTunnel :=
  mkRegularOutTunnel (t_localID x) (t_peer x) (t_usePayments x) (t_paymentsConfirmed x)
    (t_wantDestroy x) (t_tunnelState x) (t_sendControlSignal x) (t_externalAddr x) v
    (t_addressChanges x) (t_chainTo x) (t_chainFrom x) (t_payloadKeys x) (t_read x) (t_seqnoSend x)
    (t_seqnoRecv x) (t_packetsRecv x) (t_packetsRecvPaidConsumed x) (t_packetsDropped x)
    (t_packetsSent x) (t_controlSeqno x) (t_controlSeqnoReceived x) (t_controlPaidSeqnoReceived x)
    (t_packetsToPrepay x) (t_packetsConsumedIn x) (t_packetsConsumedOut x) (t_packetsMinPaidIn x)
    (t_packetsMinPaidOut x) (t_lastFullyCheckedAt x) (t_seqnoForward x) (t_wDeadline x) (t_rDeadline
    x) (t_closed x).
Definition set_t_addressChanges (v : option (list (bytes * Z))) (x : RegularOutTunnel) : RegularOutTunnel :=
  mkRegularOutTunnel (t_localID x) (t_peer x) (t_usePayments x) (t_paymentsConfirmed x)
    (t_wantDestroy x) (t_tunnelState x) (t_sendControlSignal x) (t_externalAddr x) (t_externalPort
    x) v (t_chainTo x) (t_chainFrom x) (t_payloadKeys x) (t_read x) (t_seqnoSend x) (t_seqnoRecv x)
    (t_packetsRecv x) (t_packetsRecvPaidConsumed x) (t_packetsDropped x) (t_packetsSent x)
    (t_controlSeqno x) (t_controlSeqnoReceived x) (t_controlPaidSeqnoReceived x) (t_packetsToPrepay
    x) (t_packetsConsumedIn x) (t_packetsConsumedOut x) (t_packetsMinPaidIn x) (t_packetsMinPaidOut
    x) (t_lastFullyCheckedAt x) (t_seqnoForward x) (t_wDeadline x) (t_rDeadline x) (t_closed x).
Definition set_t_chainTo (v : list SectionInfo) (x : RegularOutTunnel) : RegularOutTunnel :=
  mkRegularOutTunnel (t_localID x) (t_peer x) (t_usePayments x) (t_paymentsConfirmed x)
    (t_wantDestroy x) (t_tunnelState x) (t_sendControlSignal x) (t_externalAddr x) (t_externalPort
    x) (t_addressChanges x) v (t_chainFrom x) (t_payloadKeys x) (t_read x) (t_seqnoSend x)
    (t_seqnoRecv x) (t_packetsRecv x) (t_packetsRecvPaidConsumed x) (t_packetsDropped x)
    (t_packetsSent x) (t_controlSeqno x) (t_controlSeqnoReceived x) (t_controlPaidSeqnoReceived x)
    (t_packetsToPrepay x) (t_packetsConsumedIn x) (t_packetsConsumedOut x) (t_packetsMinPaidIn x)
    (t_packetsMinPaidOut x) (t_lastFullyCheckedAt x) (t_seqnoForward x) (t_wDeadline x) (t_rDeadline
    x) (t_closed x).
Definition set_t_chainFrom (v : list SectionInfo) (x : RegularOutTunnel) : RegularOutTunnel :=
  mkRegularOutTunnel (t_localID x) (t_peer x) (t_usePayments x) (t_paymentsConfirmed x)
    (t_wantDestroy x) (t_tunnelState x) (t_sendControlSignal x) (t_externalAddr x) (t_externalPort
    x) (t_addressChanges x) (t_chainTo x) v (t_payloadKeys x) (t_read x) (t_seqnoSend x)
    (t_seqnoRecv x) (t_packetsRecv x) (t_packetsRecvPaidConsumed x) (t_packetsDropped x)
    (t_packetsSent x) (t_controlSeqno x) (t_controlSeqnoReceived x) (t_controlPaidSeqnoReceived x)
    (t_packetsToPrepay x) (t_packetsConsumedIn x) (t_packetsConsumedOut x) (t_packetsMinPaidIn x)
    (t_packetsMinPaidOut x) (t_lastFullyCheckedAt x) (t_seqnoForward x) (t_wDeadline x) (t_rDeadline
    x) (t_closed x).
Definition set_t_payloadKeys (v : EncryptionKeys) (x : RegularOutTunnel) : RegularOutTunnel :=
  mkRegularOutTunnel (t_localID x) (t_peer x) (t_usePayments x) (t_paymentsConfirmed x)
    (t_wantDestroy x) (t_tunnelState x) (t_sendControlSignal x) (t_externalAddr x) (t_externalPort
    x) (t_addressChanges x) (t_chainTo x) (t_chainFrom x) v (t_read x) (t_seqnoSend x) (t_seqnoRecv
    x) (t_packetsRecv x) (t_packetsRecvPaidConsumed x) (t_packetsDropped x) (t_packetsSent x)
    (t_controlSeqno x) (t_controlSeqnoReceived x) (t_controlPaidSeqnoReceived x) (t_packetsToPrepay
    x) (t_packetsConsumedIn x) (t_packetsConsumedOut x) (t_packetsMinPaidIn x) (t_packetsMinPaidOut
    x) (t_lastFullyCheckedAt x) (t_seqnoForward x) (t_wDeadline x) (t_rDeadline x) (t_closed x).
Definition set_t_read (v : list DeliverUDPPayload) (x : RegularOutTunnel) : RegularOutTunnel :=
  mkRegularOutTunnel (t_localID x) (t_peer x) (t_usePayments x) (t_paymentsConfirmed x)
    (t_wantDestroy x) (t_tunnelState x) (t_sendControlSignal x) (t_externalAddr x) (t_externalPort
    x) (t_addressChanges x) (t_chainTo x) (t_chainFrom x) (t_payloadKeys x) v (t_seqnoSend x)
    (t_seqnoRecv x) (t_packetsRecv x) (t_packetsRecvPaidConsumed x) (t_packetsDropped x)
    (t_packetsSent x) (t_controlSeqno x) (t_controlSeqnoReceived x) (t_controlPaidSeqnoReceived x)
    (t_packetsToPrepay x) (t_packetsConsumedIn x) (t_packetsConsumedOut x) (t_packetsMinPaidIn x)
    (t_packetsMinPaidOut x) (t_lastFullyCheckedAt x) (t_seqnoForward x) (t_wDeadline x) (t_rDeadline
    x) (t_closed x).
Definition set_t_seqnoSend (v : Z) (x : RegularOutTunnel) : RegularOutTunnel :=
  mkRegularOutTunnel (t_localID x) (t_peer x) (t_usePayments x) (t_paymentsConfirmed x)
    (t_wantDestroy x) (t_tunnelState x) (t_sendControlSignal x) (t_externalAddr x) (t_externalPort
    x) (t_addressChanges x) (t_chainTo x) (t_chainFrom x) (t_payloadKeys x) (t_read x) v
    (t_seqnoRecv x) (t_packetsRecv x) (t_packetsRecvPaidConsumed x) (t_packetsDropped x)
    (t_packetsSent x) (t_controlSeqno x) (t_controlSeqnoReceived x) (t_controlPaidSeqnoReceived x)
    (t_packetsToPrepay x) (t_packetsConsumedIn x) (t_packetsConsumedOut x) (t_packetsMinPaidIn x)
    (t_packetsMinPaidOut x) (t_lastFullyCheckedAt x) (t_seqnoForward x) (t_wDeadline x) (t_rDeadline
    x) (t_closed x).
Definition set_t_seqnoRecv (v : Z) (x : RegularOutTunnel) : RegularOutTunnel :=
  mkRegularOutTunnel (t_localID x) (t_peer x) (t_usePayments x) (t_paymentsConfirmed x)
    (t_wantDestroy x) (t_tunnelState x) (t_sendControlSignal x) (t_externalAddr x) (t_externalPort
    x) (t_addressChanges x) (t_chainTo x) (t_chainFrom x) (t_payloadKeys x) (t_read x) (t_seqnoSend
    x) v (t_packetsRecv x) (t_packetsRecvPaidConsumed x) (t_packetsDropped x) (t_packetsSent x)
    (t_controlSeqno x) (t_controlSeqnoReceived x) (t_controlPaidSeqnoReceived x) (t_packetsToPrepay
    x) (t_packetsConsumedIn x) (t_packetsConsumedOut x) (t_packetsMinPaidIn x) (t_packetsMinPaidOut
    x) (t_lastFullyCheckedAt x) (t_seqnoForward x) (t_wDeadline x) (t_rDeadline x) (t_closed x).
Definition set_t_packetsRecv (v : Z) (x : RegularOutTunnel) : RegularOutTunnel :=
  mkRegularOutTunnel (t_localID x) (t_peer x) (t_usePayments x) (t_paymentsConfirmed x)
    (t_wantDestroy x) (t_tunnelState x) (t_sendControlSignal x) (t_externalAddr x) (t_externalPort
    x) (t_addressChanges x) (t_chainTo x) (t_chainFrom x) (t_payloadKeys x) (t_read x) (t_seqnoSend
    x) (t_seqnoRecv x) v (t_packetsRecvPaidConsumed x) (t_packetsDropped x) (t_packetsSent x)
    (t_controlSeqno x) (t_controlSeqnoReceived x) (t_controlPaidSeqnoReceived x) (t_packetsToPrepay
    x) (t_packetsConsumedIn x) (t_packetsConsumedOut x) (t_packetsMinPaidIn x) (t_packetsMinPaidOut
    x) (t_lastFullyCheckedAt x) (t_seqnoForward x) (t_wDeadline x) (t_rDeadline x) (t_closed x).
Definition set_t_packetsRecvPaidConsumed (v : Z) (x : RegularOutTunnel) : RegularOutTunnel :=
  mkRegularOutTunnel (t_localID x) (t_peer x) (t_usePayments x) (t_paymentsConfirmed x)
    (t_wantDestroy x) (t_tunnelState x) (t_sendControlSignal x) (t_externalAddr x) (t_externalPort
    x) (t_addressChanges x) (t_chainTo x) (t_chainFrom x) (t_payloadKeys x) (t_read x) (t_seqnoSend
    x) (t_seqnoRecv x) (t_packetsRecv x) v (t_packetsDropped x) (t_packetsSent x) (t_controlSeqno x)
    (t_controlSeqnoReceived x) (t_controlPaidSeqnoReceived x) (t_packetsToPrepay x)
    (t_packetsConsumedIn x) (t_packetsConsumedOut x) (t_packetsMinPaidIn x) (t_packetsMinPaidOut x)
    (t_lastFullyCheckedAt x) (t_seqnoForward x) (t_wDeadline x) (t_rDeadline x) (t_closed x).
Definition set_t_packetsDropped (v : Z) (x : RegularOutTunnel) : RegularOutTunnel :=
  mkRegularOutTunnel (t_localID x) (t_peer x) (t_usePayments x) (t_paymentsConfirmed x)
    (t_wantDestroy x) (t_tunnelState x) (t_sendControlSignal x) (t_externalAddr x) (t_externalPort
    x) (t_addressChanges x) (t_chainTo x) (t_chainFrom x) (t_payloadKeys x) (t_read x) (t_seqnoSend
    x) (t_seqnoRecv x) (t_packetsRecv x) (t_packetsRecvPaidConsumed x) v (t_packetsSent x)
    (t_controlSeqno x) (t_controlSeqnoReceived x) (t_controlPaidSeqnoReceived x) (t_packetsToPrepay
    x) (t_packetsConsumedIn x) (t_packetsConsumedOut x) (t_packetsMinPaidIn x) (t_packetsMinPaidOut
    x) (t_lastFullyCheckedAt x) (t_seqnoForward x) (t_wDeadline x) (t_rDeadline x) (t_closed x).
Definition set_t_packetsSent (v : Z) (x : RegularOutTunnel) : RegularOutTunnel :=
  mkRegularOutTunnel (t_localID x) (t_peer x) (t_usePayments x) (t_paymentsConfirmed x)
    (t_wantDestroy x) (t_tunnelState x) (t_sendControlSignal x) (t_externalAddr x) (t_externalPort
    x) (t_addressChanges x) (t_chainTo x) (t_chainFrom x) (t_payloadKeys x) (t_read x) (t_seqnoSend
    x) (t_seqnoRecv x) (t_packetsRecv x) (t_packetsRecvPaidConsumed x) (t_packetsDropped x) v
    (t_controlSeqno x) (t_controlSeqnoReceived x) (t_controlPaidSeqnoReceived x) (t_packetsToPrepay
    x) (t_packetsConsumedIn x) (t_packetsConsumedOut x) (t_packetsMinPaidIn x) (t_packetsMinPaidOut
    x) (t_lastFullyCheckedAt x) (t_seqnoForward x) (t_wDeadline x) (t_rDeadline x) (t_closed x).
Definition set_t_controlSeqno (v : Z) (x : RegularOutTunnel) : RegularOutTunnel :=
  mkRegularOutTunnel (t_localID x) (t_peer x) (t_usePayments x) (t_paymentsConfirmed x)
    (t_wantDestroy x) (t_tunnelState x) (t_sendControlSignal x) (t_externalAddr x) (t_externalPort
    x) (t_addressChanges x) (t_chainTo x) (t_chainFrom x) (t_payloadKeys x) (t_read x) (t_seqnoSend
    x) (t_seqnoRecv x) (t_packetsRecv x) (t_packetsRecvPaidConsumed x) (t_packetsDropped x)
    (t_packetsSent x) v (t_controlSeqnoReceived x) (t_controlPaidSeqnoReceived x) (t_packetsToPrepay
    x) (t_packetsConsumedIn x) (t_packetsConsumedOut x) (t_packetsMinPaidIn x) (t_packetsMinPaidOut
    x) (t_lastFullyCheckedAt x) (t_seqnoForward x) (t_wDeadline x) (t_rDeadline x) (t_closed x).
Definition set_t_controlSeqnoReceived (v : Z) (x : RegularOutTunnel) : RegularOutTunnel :=
  mkRegularOutTunnel (t_localID x) (t_peer x) (t_usePayments x) (t_paymentsConfirmed x)
    (t_wantDestroy x) (t_tunnelState x) (t_sendControlSignal x) (t_externalAddr x) (t_externalPort
    x) (t_addressChanges x) (t_chainTo x) (t_chainFrom x) (t_payloadKeys x) (t_read x) (t_seqnoSend
    x) (t_seqnoRecv x) (t_packetsRecv x) (t_packetsRecvPaidConsumed x) (t_packetsDropped x)
    (t_packetsSent x) (t_controlSeqno x) v (t_controlPaidSeqnoReceived x) (t_packetsToPrepay x)
    (t_packetsConsumedIn x) (t_packetsConsumedOut x) (t_packetsMinPaidIn x) (t_packetsMinPaidOut x)
    (t_lastFullyCheckedAt x) (t_seqnoForward x) (t_wDeadline x) (t_rDeadline x) (t_closed x).
Definition set_t_controlPaidSeqnoReceived (v : Z) (x : RegularOutTunnel) : RegularOutTunnel :=
  mkRegularOutTunnel (t_localID x) (t_peer x) (t_usePayments x) (t_paymentsConfirmed x)
    (t_wantDestroy x) (t_tunnelState x) (t_sendControlSignal x) (t_externalAddr x) (t_externalPort
    x) (t_addressChanges x) (t_chainTo x) (t_chainFrom x) (t_payloadKeys x) (t_read x) (t_seqnoSend
    x) (t_seqnoRecv x) (t_packetsRecv x) (t_packetsRecvPaidConsumed x) (t_packetsDropped x)
    (t_packetsSent x) (t_controlSeqno x) (t_controlSeqnoReceived x) v (t_packetsToPrepay x)
    (t_packetsConsumedIn x) (t_packetsConsumedOut x) (t_packetsMinPaidIn x) (t_packetsMinPaidOut x)
    (t_lastFullyCheckedAt x) (t_seqnoForward x) (t_wDeadline x) (t_rDeadline x) (t_closed x).
Definition set_t_packetsToPrepay (v : Z) (x : RegularOutTunnel) : RegularOutTunnel :=
  mkRegularOutTunnel (t_localID x) (t_peer x) (t_usePayments x) (t_paymentsConfirmed x)
    (t_wantDestroy x) (t_tunnelState x) (t_sendControlSignal x) (t_externalAddr x) (t_externalPort
    x) (t_addressChanges x) (t_chainTo x) (t_chainFrom x) (t_payloadKeys x) (t_read x) (t_seqnoSend
    x) (t_seqnoRecv x) (t_packetsRecv x) (t_packetsRecvPaidConsumed x) (t_packetsDropped x)
    (t_packetsSent x) (t_controlSeqno x) (t_controlSeqnoReceived x) (t_controlPaidSeqnoReceived x) v
    (t_packetsConsumedIn x) (t_packetsConsumedOut x) (t_packetsMinPaidIn x) (t_packetsMinPaidOut x)
    (t_lastFullyCheckedAt x) (t_seqnoForward x) (t_wDeadline x) (t_rDeadline x) (t_closed x).
Definition set_t_packetsConsumedIn (v : Z) (x : RegularOutTunnel) : RegularOutTunnel :=
  mkRegularOutTunnel (t_localID x) (t_peer x) (t_usePayments x) (t_paymentsConfirmed x)
    (t_wantDestroy x) (t_tunnelState x) (t_sendControlSignal x) (t_externalAddr x) (t_externalPort
    x) (t_addressChanges x) (t_chainTo x) (t_chainFrom x) (t_payloadKeys x) (t_read x) (t_seqnoSend
    x) (t_seqnoRecv x) (t_packetsRecv x) (t_packetsRecvPaidConsumed x) (t_packetsDropped x)
    (t_packetsSent x) (t_controlSeqno x) (t_controlSeqnoReceived x) (t_controlPaidSeqnoReceived x)
    (t_packetsToPrepay x) v (t_packetsConsumedOut x) (t_packetsMinPaidIn x) (t_packetsMinPaidOut x)
    (t_lastFullyCheckedAt x) (t_seqnoForward x) (t_wDeadline x) (t_rDeadline x) (t_closed x).
Definition set_t_packetsConsumedOut (v : Z) (x : RegularOutTunnel) : RegularOutTunnel :=
  mkRegularOutTunnel (t_localID x) (t_peer x) (t_usePayments x) (t_paymentsConfirmed x)
    (t_wantDestroy x) (t_tunnelState x) (t_sendControlSignal x) (t_externalAddr x) (t_externalPort
    x) (t_addressChanges x) (t_chainTo x) (t_chainFrom x) (t_payloadKeys x) (t_read x) (t_seqnoSend
    x) (t_seqnoRecv x) (t_packetsRecv x) (t_packetsRecvPaidConsumed x) (t_packetsDropped x)
    (t_packetsSent x) (t_controlSeqno x) (t_controlSeqnoReceived x) (t_controlPaidSeqnoReceived x)
    (t_packetsToPrepay x) (t_packetsConsumedIn x) v (t_packetsMinPaidIn x) (t_packetsMinPaidOut x)
    (t_lastFullyCheckedAt x) (t_seqnoForward x) (t_wDeadline x) (t_rDeadline x) (t_closed x).
Definition set_t_packetsMinPaidIn (v : Z) (x : RegularOutTunnel) : RegularOutTunnel :=
  mkRegularOutTunnel (t_localID x) (t_peer x) (t_usePayments x) (t_paymentsConfirmed x)
    (t_wantDestroy x) (t_tunnelState x) (t_sendControlSignal x) (t_externalAddr x) (t_externalPort
    x) (t_addressChanges x) (t_chainTo x) (t_chainFrom x) (t_payloadKeys x) (t_read x) (t_seqnoSend
    x) (t_seqnoRecv x) (t_packetsRecv x) (t_packetsRecvPaidConsumed x) (t_packetsDropped x)
    (t_packetsSent x) (t_controlSeqno x) (t_controlSeqnoReceived x) (t_controlPaidSeqnoReceived x)
    (t_packetsToPrepay x) (t_packetsConsumedIn x) (t_packetsConsumedOut x) v (t_packetsMinPaidOut x)
    (t_lastFullyCheckedAt x) (t_seqnoForward x) (t_wDeadline x) (t_rDeadline x) (t_closed x).
Definition set_t_packetsMinPaidOut (v : Z) (x : RegularOutTunnel) : RegularOutTunnel :=
  mkRegularOutTunnel (t_localID x) (t_peer x) (t_usePayments x) (t_paymentsConfirmed x)
    (t_wantDestroy x) (t_tunnelState x) (t_sendControlSignal x) (t_externalAddr x) (t_externalPort
    x) (t_addressChanges x) (t_chainTo x) (t_chainFrom x) (t_payloadKeys x) (t_read x) (t_seqnoSend
    x) (t_seqnoRecv x) (t_packetsRecv x) (t_packetsRecvPaidConsumed x) (t_packetsDropped x)
    (t_packetsSent x) (t_controlSeqno x) (t_controlSeqnoReceived x) (t_controlPaidSeqnoReceived x)
    (t_packetsToPrepay x) (t_packetsConsumedIn x) (t_packetsConsumedOut x) (t_packetsMinPaidIn x) v
    (t_lastFullyCheckedAt x) (t_seqnoForward x) (t_wDeadline x) (t_rDeadline x) (t_closed x).
Definition set_t_lastFullyCheckedAt (v : Z) (x : RegularOutTunnel) : RegularOutTunnel :=
  mkRegularOutTunnel (t_localID x) (t_peer x) (t_usePayments x) (t_paymentsConfirmed x)
    (t_wantDestroy x) (t_tunnelState x) (t_sendControlSignal x) (t_externalAddr x) (t_externalPort
    x) (t_addressChanges x) (t_chainTo x) (t_chainFrom x) (t_payloadKeys x) (t_read x) (t_seqnoSend
    x) (t_seqnoRecv x) (t_packetsRecv x) (t_packetsRecvPaidConsumed x) (t_packetsDropped x)
    (t_packetsSent x) (t_controlSeqno x) (t_controlSeqnoReceived x) (t_controlPaidSeqnoReceived x)
    (t_packetsToPrepay x) (t_packetsConsumedIn x) (t_packetsConsumedOut x) (t_packetsMinPaidIn x)
    (t_packetsMinPaidOut x) v (t_seqnoForward x) (t_wDeadline x) (t_rDeadline x) (t_closed x).
Definition set_t_seqnoForward (v : Z) (x : RegularOutTunnel) : RegularOutTunnel :=
  mkRegularOutTunnel (t_localID x) (t_peer x) (t_usePayments x) (t_paymentsConfirmed x)
    (t_wantDestroy x) (t_tunnelState x) (t_sendControlSignal x) (t_externalAddr x) (t_externalPort
    x) (t_addressChanges x) (t_chainTo x) (t_chainFrom x) (t_payloadKeys x) (t_read x) (t_seqnoSend
    x) (t_seqnoRecv x) (t_packetsRecv x) (t_packetsRecvPaidConsumed x) (t_packetsDropped x)
    (t_packetsSent x) (t_controlSeqno x) (t_controlSeqnoReceived x) (t_controlPaidSeqnoReceived x)
    (t_packetsToPrepay x) (t_packetsConsumedIn x) (t_packetsConsumedOut x) (t_packetsMinPaidIn x)
    (t_packetsMinPaidOut x) (t_lastFullyCheckedAt x) v (t_wDeadline x) (t_rDeadline x) (t_closed x).
Definition set_t_wDeadline (v : Z) (x : RegularOutTunnel) : RegularOutTunnel :=
  mkRegularOutTunnel (t_localID x) (t_peer x) (t_usePayments x) (t_paymentsConfirmed x)
    (t_wantDestroy x) (t_tunnelState x) (t_sendControlSignal x) (t_externalAddr x) (t_externalPort
    x) (t_addressChanges x) (t_chainTo x) (t_chainFrom x) (t_payloadKeys x) (t_read x) (t_seqnoSend
    x) (t_seqnoRecv x) (t_packetsRecv x) (t_packetsRecvPaidConsumed x) (t_packetsDropped x)
    (t_packetsSent x) (t_controlSeqno x) (t_controlSeqnoReceived x) (t_controlPaidSeqnoReceived x)
    (t_packetsToPrepay x) (t_packetsConsumedIn x) (t_packetsConsumedOut x) (t_packetsMinPaidIn x)
    (t_packetsMinPaidOut x) (t_lastFullyCheckedAt x) (t_seqnoForward x) v (t_rDeadline x) (t_closed
    x).
Definition set_t_rDeadline (v : Z) (x : RegularOutTunnel) : RegularOutTunnel :=
  mkRegularOutTunnel (t_localID x) (t_peer x) (t_usePayments x) (t_paymentsConfirmed x)
    (t_wantDestroy x) (t_tunnelState x) (t_sendControlSignal x) (t_externalAddr x) (t_externalPort
    x) (t_addressChanges x) (t_chainTo x) (t_chainFrom x) (t_payloadKeys x) (t_read x) (t_seqnoSend
    x) (t_seqnoRecv x) (t_packetsRecv x) (t_packetsRecvPaidConsumed x) (t_packetsDropped x)
    (t_packetsSent x) (t_controlSeqno x) (t_controlSeqnoReceived x) (t_controlPaidSeqnoReceived x)
    (t_packetsToPrepay x) (t_packetsConsumedIn x) (t_packetsConsumedOut x) (t_packetsMinPaidIn x)
    (t_packetsMinPaidOut x) (t_lastFullyCheckedAt x) (t_seqnoForward x) (t_wDeadline x) v (t_closed
    x).
Definition set_t_closed (v : bool) (x : RegularOutTunnel) : RegularOutTunnel :=
  mkRegularOutTunnel (t_localID x) (t_peer x) (t_usePayments x) (t_paymentsConfirmed x)
    (t_wantDestroy x) (t_tunnelState x) (t_sendControlSignal x) (t_externalAddr x) (t_externalPort
    x) (t_addressChanges x) (t_chainTo x) (t_chainFrom x) (t_payloadKeys x) (t_read x) (t_seqnoSend
    x) (t_seqnoRecv x) (t_packetsRecv x) (t_packetsRecvPaidConsumed x) (t_packetsDropped x)
    (t_packetsSent x) (t_controlSeqno x) (t_controlSeqnoReceived x) (t_controlPaidSeqnoReceived x)
    (t_packetsToPrepay x) (t_packetsConsumedIn x) (t_packetsConsumedOut x) (t_packetsMinPaidIn x)
    (t_packetsMinPaidOut x) (t_lastFullyCheckedAt x) (t_seqnoForward x) (t_wDeadline x) (t_rDeadline
    x) v.

(** What the client calls outside of this repository, beside [World]: the hash
    that names a node, the key generator, and the payment service. *)
Inductive channelStatus := ChannelNotFound | ChannelPending | ChannelActive | ChannelOther.

(** [tlb.Coins] of the TON library; the zero value holds nothing. *)
Record Coins := mkCoins { Nano : Z; Decimals : Z }.

Class ClientWorld : Type := {
  cw_hash : bytes -> option bytes;  (* tl.Hash of a public key *)
  cw_generateKey : nat -> option bytes;  (* ed25519.GenerateKey *)
  cw_minSafeTTL : Z;
  cw_generateTunnel : nat -> bytes -> list TunnelChainPart -> outcome (bytes * bytes);
    (* transport.GenerateTunnel: the key of the channel, and the rest *)
  cw_openVirtualChannel : nat -> list TunnelChainPart -> bytes * bytes -> option string -> Z -> option error;
  cw_channelStatus : nat -> bytes -> outcome channelStatus;  (* GetVirtualChannelMeta *)
  cw_sign : bytes -> Z -> VirtualChannelState;  (* payments.VirtualChannelState{Amount}.Sign *)
  cw_toCell : VirtualChannelState -> outcome bytes;
  cw_resolveCoinConfig : string -> Z -> outcome (string * Z);  (* the symbol and the decimals *)
  cw_fromNano : Z -> Z -> outcome Coins;  (* tlb.MustFromNano *)
}.

Section Client.
Context {C : CipherCtr} {T : TL} {K : KeyAgreement} {W : World} {CW : ClientWorld}.

Abbreviation G := (GM RegularOutTunnel).

Definition getTun (t : nat) : G RegularOutTunnel := deref g_tuns t.
Definition updTun (t : nat) (f : RegularOutTunnel -> RegularOutTunnel) : G unit :=
  modify (fun g => set_g_tuns (alter f t (g_tuns g)) g).

(** The channel of one element: a request while one is pending is dropped. *)
Definition requestControlMessage (t : nat) : G unit := updTun t (set_t_sendControlSignal true).

Definition allocTun (tun : RegularOutTunnel) : G nat := fun g =>
  let l := freshLoc (g_tuns g) in (set_g_tuns (<[l := tun]> (g_tuns g)) g, Ok l).

(** ** The nodes of a tunnel, in the order a message passes them *)

Definition nodes (tun : RegularOutTunnel) : list SectionInfo := t_chainTo tun ++ t_chainFrom tun.

(** Change the section at position [i] of [nodes]. *)
Definition alterNode (i : nat) (f : SectionInfo -> SectionInfo) (tun : RegularOutTunnel) : RegularOutTunnel :=
  if bool_decide (i < length (t_chainTo tun))%nat
  then set_t_chainTo (alter f i (t_chainTo tun)) tun
  else set_t_chainFrom (alter f (i - length (t_chainTo tun))%nat (t_chainFrom tun)) tun.

Definition getNode (t : nat) (i : nat) : G SectionInfo :=
  tun ← getTun t;
  match nodes tun !! i with Some s => mret s | None => panic "index out of range" end.
Definition updNode (t : nat) (i : nat) (f : SectionInfo -> SectionInfo) : G unit := updTun t (alterNode i f).
Definition updPayer (t : nat) (i : nat) (f : Payer -> Payer) : G unit :=
  updNode t i (fun s => set_si_PaymentInfo (f <$> si_PaymentInfo s) s).
End Client.
