(* ===== verification/ClientMsg.v ===== *)
(** * The messages of an initiator ([tunnel/regularOutTunnel.go])

    The onions that configure a tunnel, bind its exit and close it, built from
    the innermost layer out with the keys of each node. *)

From S2P Require Import Prelude Seqno Stream Wire Samples Keys PayChain State Peers Node Payments OutGate Gateway Client.

Section ClientMsg.
Context {C : CipherCtr} {T : TL} {K : KeyAgreement} {W : World} {CW : ClientWorld}.

Abbreviation G := (GM RegularOutTunnel).

(** [nodes[i].Keys.EncryptInstructionsMessage(msg, instructions...)]: the
    counter of the keys moves also when it fails. *)
Definition encryptLayer (t : nat) (i : nat) (msg : EncryptedMessage) (instructions : list instruction) : G EncryptedMessage :=
  s ← getNode t i;
  rnd ← ask w_rand;
  let '(k, msg, o) := EncryptInstructionsMessage rnd (si_Keys s) msg instructions in
  updNode t i (set_si_Keys k) ;;
  _ ← lift o;
  mret msg.

Definition emptyMessage : EncryptedMessage := mkEncryptedMessage [] [] [].

(** [binary.LittleEndian.Uint32] of a section key, and [^routeId], the system
    route beside it. *)
Definition routeId (s : SectionInfo) : outcome Z := Uint32 (ek_SectionPubKey (si_Keys s)).
Definition systemRoute (id : Z) : Z := Z.lxor id MaxUint32.

Definition priceOf (s : SectionInfo) : Z :=
  match si_PaymentInfo s with Some p => py_PricePerPacket p | None => 0 end.

Definition adnlOf (s : SectionInfo) : G bytes :=
  wrapM "calc receiver adnl id failed" (lift (of_option "hash" (cw_hash (ReceiverPubKey (si_Keys s))))).

(** [uint64(time.Now().UnixNano())]. *)
Definition cacheVersion : G Z := now ← ask w_now; mret (uint64 now).

(** [buildRoute] for the node at [i] and the next one. *)
Definition buildRoute (t : nat) (initial : bool) (msg : EncryptedMessage) (i : nat) (prepareSystemTunnel : bool) : G EncryptedMessage :=
  cur ← getNode t i;
  next ← getNode t (S i);
  id ← adnlOf next;
  route ← lift (routeId next);
  setup ← (if initial then
      version ← cacheVersion;
      let build r := BuildRoute (mkBuildRoute id (ek_SectionPubKey (si_Keys next)) r (priceOf cur)) in
      mret ([build route; Cache version [Route route]] ++
            if prepareSystemTunnel then [build (systemRoute route)] else [])
    else mret []);
  wrapM "encrypt failed" (encryptLayer t i msg (setup ++ [Route route])).

(** A loop from the last index of a range down to its first. *)
Fixpoint downTo (n : nat) (body : nat -> EncryptedMessage -> G EncryptedMessage) (msg : EncryptedMessage) : G EncryptedMessage :=
  match n with
  | O => mret msg
  | S n => msg ← body n msg; downTo n body msg
  end.

(** The way back, from the exit to this gateway. *)
Definition prepareBackMessage (t : nat) (state : Z) : G EncryptedMessage :=
  tun ← getTun t;
  let to := length (t_chainTo tun) in
  let n := length (t_chainFrom tun) in
  downTo n (fun y msg =>
    if (S y =? n)%nat then
      let ins := DeliverInitiator (t_localID tun) (StateMeta state) in
      version ← cacheVersion;
      wrapM "encrypt layer failed" (encryptLayer t (to + y) msg [ins; Cache version [ins]])
    else wrapM "build route failed"
           (buildRoute t (state =? StateTypeConfiguring) msg (to + y) true)) emptyMessage.

(** The exit: a route for system messages, the port and the cached action. *)
Definition encryptExit (t : nat) (state : Z) (msg : EncryptedMessage) (i : nat) : G EncryptedMessage :=
  tun ← getTun t;
  if state <=? StateTypeOptimizingRoutes then
    backMsg ← prepareBackMessage t state;
    match t_chainFrom tun with
    | [] => panic "index out of range"
    | first :: _ =>
        id ← adnlOf first;
        exit ← getNode t i;
        route ← lift (Uint32 (em_SectionPubKey backMsg));
        version ← cacheVersion;
        wrapM "encrypt bind out failed" (encryptLayer t i msg
          [BuildRoute (mkBuildRoute id (em_SectionPubKey backMsg) (systemRoute route) (priceOf exit));
           BindOut (mkBindOut id (em_SectionPubKey backMsg) (em_Instructions backMsg)
             (ek_SectionPubKey (t_payloadKeys tun)) (priceOf exit));
           Cache version [SendOut]])
    end
  else
    version ← cacheVersion;
    wrapM "encrypt send out failed" (encryptLayer t i msg [Cache version [SendOut]]).

Definition prepareInitMessage (t : nat) (state : Z) : G EncryptedMessage :=
  tun ← getTun t;
  let n := length (t_chainTo tun) in
  msg ← downTo n (fun i msg =>
    if (S i =? n)%nat then encryptExit t state msg i
    else wrapM "build route failed" (buildRoute t (state =? StateTypeConfiguring) msg i true)) emptyMessage;
  updTun t (set_t_tunnelState state) ;;
  mret msg.

(** The last node is this gateway: the message comes back to its sender. *)
Definition prepareTunnelCloseMessage (t : nat) : G EncryptedMessage :=
  tun ← getTun t;
  let n := length (nodes tun) in
  downTo n (fun i msg =>
    if (S i =? n)%nat then
      wrapM "encrypt failed"
        (encryptLayer t i msg [DeliverInitiator (t_localID tun) (StateMeta StateTypeDestroyed)])
    else
      next ← getNode t (S i);
      route ← lift (routeId next);
      wrapM "encrypt failed" (encryptLayer t i msg [Route (systemRoute route); Destroy])) emptyMessage.
End ClientMsg.
