(* ===== verification/ClientPay.v ===== *)
(** * The payments of an initiator ([tunnel/regularOutTunnel.go])

    The control message of a tunnel: a ping that passes every node over its
    system routes and returns, with a payment for each node whose prepaid
    packets run low.  A payment is a signed state of a virtual channel, opened
    when there is none; a tunnel with payments is created only on a gateway with
    a payment service ([CreateRegularOutTunnel]).  What a payment changes in the books of the tunnel is
    collected while the message is built and applied when it is complete. *)

From S2P Require Import Prelude Seqno Stream Wire Samples Keys PayChain State Peers Node Payments OutGate Gateway Client ClientMsg.

(** [1 * time.Hour]. *)
Definition baseTTL : Z := 3600 * 10 ^ 9.

Section ClientPay.
Context {C : CipherCtr} {T : TL} {K : KeyAgreement} {W : World} {CW : ClientWorld}.

Abbreviation G := (GM RegularOutTunnel).

(** ** Opening a channel *)

(** The poll has no bound in the code: [fuel] is the number of polls. *)
Fixpoint waitActive (fuel : nat) (key : bytes) : G unit :=
  match fuel with
  | O => throw OutOfFuel
  | S fuel =>
      res ← ask (fun n => cw_channelStatus n key);
      status ← wrapM "failed to get virtual channel meta" (lift res);
      match status with
      | ChannelNotFound | ChannelPending => waitActive fuel key
      | ChannelActive => mret tt
      | ChannelOther => throw (Errorf "failed to open virtual channel: incorrect state")
      end
  end.

Definition openVirtualChannel (fuel : nat) (t i : nat) (p : Payer) (capacity : Z) : G VirtualPaymentChannel :=
  let hopTTL := cw_minSafeTTL in
  now ← ask w_now;
  tunChain ← wrapM "failed to build tunnel payments chain"
               (lift (buildTunnelPaymentsChain now (py_PaymentTunnel p) capacity baseTTL hopTTL));
  generated ← ask cw_generateKey;
  chKey ← lift (wrapErr "generate channel key failed" (of_option "generate key" generated));
  res ← ask (fun n => cw_generateTunnel n chKey tunChain);
  vc ← wrapM "failed to generate tunnel" (lift res);
  res ← ask (fun n => cw_openVirtualChannel n tunChain vc (py_JettonMaster p) (py_ExtraCurrencyID p));
  match res with
  | Some e => throw (Errorw "failed to open virtual channel" e)
  | None =>
      waitActive fuel (fst vc) ;;
      match tunChain with
      | first :: _ =>
          let last := List.last tunChain first in
          updPayer t i (fun p => set_py_PaidChannelFee (Some (default 0 (py_PaidChannelFee p) + Fee first)) p) ;;
          mret (mkVirtualPaymentChannel chKey 0 (Capacity last) (Deadline last - hopTTL))
      | [] => panic "index out of range"
      end
  end.

(** ** One payment *)

(** What a payment changes once the message is complete. *)
Record mutation := mkMutation {
  mu_node : nat;
  mu_payFor : Z;
  mu_pi : PaymentInstruction;
  mu_stateAmount : Z;
  mu_isFinal : bool;
}.

Definition getPayer (t i : nat) : G Payer :=
  s ← getNode t i;
  match si_PaymentInfo s with Some p => mret p | None => nilDeref end.

(** The number of packets the node may have carried: towards the exit, from it,
    or at the exit the larger of the two. *)
Definition consumedAt (tun : RegularOutTunnel) (i : nat) : Z :=
  let consumedOut := t_packetsConsumedOut tun in
  let consumedIn := t_packetsConsumedIn tun in
  if bool_decide (length (t_chainTo tun) <= i)%nat then consumedIn
  else if bool_decide (S i = length (t_chainTo tun)) then Z.max consumedOut consumedIn
  else consumedOut.

(** A new channel with room for thirty payments; [p.CurrentChannel] is nil when
    it can not be opened. *)
Definition replaceChannel (fuel : nat) (t i : nat) (tun : RegularOutTunnel) (p : Payer) : G VirtualPaymentChannel :=
  let regularAmount := t_packetsToPrepay tun * py_PricePerPacket p in
  let wantCap := regularAmount * ChannelCapacityForNumPayments in
  updPayer t i (set_py_CurrentChannel None) ;;
  ch ← wrapM "open virtual channel failed" (openVirtualChannel fuel t i p wantCap);
  updPayer t i (set_py_CurrentChannel (Some ch)) ;;
  mret ch.

(** A channel to pay from: the current one unless it is too old. *)
Definition currentChannel (fuel : nat) (t i : nat) : G VirtualPaymentChannel :=
  tun ← getTun t;
  p ← getPayer t i;
  match py_CurrentChannel p with
  | None => replaceChannel fuel t i tun p
  | Some ch =>
      now ← ask w_now;
      if vp_SafeDeadline ch <? now then replaceChannel fuel t i tun p else mret ch
  end.

Definition purposeAt (tun : RegularOutTunnel) (i : nat) (route : Z) : Z :=
  if bool_decide (S i = length (t_chainTo tun)) then Z.shiftl PaymentPurposeOut 32
  else Z.lor (Z.shiftl PaymentPurposeRoute 32) route.

(** How many packets the rest of the channel pays for, and whether that uses it
    up. *)
Definition payable (ch : VirtualPaymentChannel) (price prepay : Z) : Z * bool :=
  let payFor := int64 ((vp_Capacity ch - LastAmount ch) / price) in
  if prepay <? payFor then (prepay, false) else (payFor, true).

Definition makePayment (fuel : nat) (t i : nat) (route prepay : Z) (forcePayments : bool)
    : G (list instruction * list mutation) :=
  ch ← currentChannel fuel t i;
  p ← getPayer t i;
  tun ← getTun t;
  let price := py_PricePerPacket p in
  let '(payFor, isFinal) := payable ch price prepay in
  let stateAmount := LastAmount ch + payFor * price in
  let st := cw_sign (vp_Key ch) stateAmount in
  pcs ← wrapM "state to cell failed" (lift (cw_toCell st));
  let key := PublicKey (vp_Key ch) in
  res ← ask (fun n => w_addResolve n key st);
  match res with
  | Some e => throw (Errorw "add virtual channel resolve failed" e)
  | None =>
      emit (EvResolve key st) ;;
      let pi := mkPayment key pcs (purposeAt tun i route) isFinal in
      previous ← match py_LatestInstruction p with
                 | Some latest =>
                     if forcePayments then
                       now ← ask w_now;
                       mret (if (now <? py_LatestChannelDeadline p) &&
                                negb (py_LatestChannelDeadline p =? vp_SafeDeadline ch)
                             then [Payment latest] else [])
                     else mret []
                 | None => mret []
                 end;
      mret (previous ++ [Payment pi], [mkMutation i payFor pi stateAmount isFinal])
  end.

(** A payment that is not confirmed yet is to be sent again, unless its channel
    is too old to be accepted: then it is taken back. *)
Definition unconfirmed (t i : nat) (tun : RegularOutTunnel) (p : Payer) : G (option PaymentInstruction) :=
  match py_LatestInstruction p with
  | Some latest =>
      if t_controlPaidSeqnoReceived tun <? py_LatestPaidOnSeqno p then
        now ← ask w_now;
        if now <? py_LatestChannelDeadline p then mret (Some latest)
        else
          updPayer t i (fun p => set_py_PaidPackets (int64 (py_PaidPackets p - py_LatestPacketsPaid p))
                                   (set_py_LatestInstruction None p)) ;;
          mret None
      else mret None
  | None => mret None
  end.

(** The payments attached for the node at [i]: the last one again while it is
    not confirmed, a new one when the prepaid packets run low. *)
Definition payNode (fuel : nat) (t i : nat) (route : Z) (withPayments forcePayments : bool)
    : G (list instruction * list mutation) :=
  s ← getNode t i;
  tun ← getTun t;
  match si_PaymentInfo s with
  | None => mret ([], [])
  | Some p =>
      if negb (withPayments && (0 <? py_PricePerPacket p)) then mret ([], []) else
      resend ← unconfirmed t i tun p;
      match resend with
      | Some latest => mret ([Payment latest], [])
      | None =>
          p ← getPayer t i;
          let balance := int64 (py_PaidPackets p - consumedAt tun i) in
          if (balance <=? Z.quot (t_packetsToPrepay tun) 2) || forcePayments then
            makePayment fuel t i route (Z.max 0 (int64 (t_packetsToPrepay tun - balance))) forcePayments
          else mret ([], [])
      end
  end.

(** ** The control message *)

Definition applyMutation (t : nat) (m : mutation) : G unit :=
  tun ← getTun t;
  p ← getPayer t (mu_node m);
  match py_CurrentChannel p with
  | None => nilDeref
  | Some ch =>
      let ch := mkVirtualPaymentChannel (vp_Key ch) (mu_stateAmount m) (vp_Capacity ch) (vp_SafeDeadline ch) in
      updPayer t (mu_node m) (fun p =>
        set_py_CurrentChannel (if mu_isFinal m then None else Some ch)
          (set_py_LatestPaidOnSeqno (t_controlSeqno tun)
            (set_py_LatestChannelDeadline (vp_SafeDeadline ch)
              (set_py_LatestInstruction (Some (mu_pi m))
                (set_py_LatestPacketsPaid (mu_payFor m)
                  (set_py_PaidPackets (int64 (py_PaidPackets p + mu_payFor m)) p))))))
  end.

(** The layers from the last node to the first. *)
Fixpoint controlLayers (fuel : nat) (t : nat) (withPayments forcePayments : bool) (total n : nat)
    (msg : EncryptedMessage) (mutations : list mutation) : G (EncryptedMessage * list mutation) :=
  match n with
  | O => mret (msg, mutations)
  | S i =>
      tun ← getTun t;
      '(msg, added) ←
        (if (S i =? total)%nat then
           let ping := PingMeta (uint64 (t_controlSeqno tun + 1)) withPayments in
           msg ← wrapM "encrypt failed" (encryptLayer t i msg [DeliverInitiator (t_localID tun) ping]);
           mret (msg, [])
         else
           next ← getNode t (S i);
           route ← lift (routeId next);
           '(instructions, added) ← payNode fuel t i route withPayments forcePayments;
           msg ← wrapM "encrypt failed" (encryptLayer t i msg (instructions ++ [Route (systemRoute route)]));
           mret (msg, added));
      controlLayers fuel t withPayments forcePayments total i msg (mutations ++ added)
  end.

(** The least number of packets paid for, towards the exit and from it, and the
    first deadline, over the nodes but the last. *)
Definition minPaid (to : nat) (i : nat) (paid : Z) (acc : Z * Z) : Z * Z :=
  let '(minIn, minOut) := acc in
  if bool_decide (to <= i)%nat then (Z.min minIn paid, minOut)
  else if bool_decide (S i = to) then (Z.min minIn paid, Z.min minOut paid)
  else (minIn, Z.min minOut paid).

Definition minDeadline (p : Payer) (acc : option Z) : option Z :=
  match py_CurrentChannel p, acc with
  | None, _ => acc
  | Some ch, None => Some (vp_SafeDeadline ch)
  | Some ch, Some d => if vp_SafeDeadline ch <? d then Some (vp_SafeDeadline ch) else acc
  end.

Definition summarize (tun : RegularOutTunnel) : Z * Z * option Z :=
  let others := take (length (nodes tun) - 1) (nodes tun) in
  foldl (fun acc x =>
    match si_PaymentInfo (snd x) with
    | None => acc
    | Some p => (minPaid (length (t_chainTo tun)) (fst x) (py_PaidPackets p) (fst acc), minDeadline p (snd acc))
    end) (MaxInt64, MaxInt64, None) (imap pair others).

Definition prepareTunnelControlMessage (fuel : nat) (t : nat) (withPayments forcePayments : bool)
    : G (EncryptedMessage * option Z) :=
  tun ← getTun t;
  let n := length (nodes tun) in
  '(msg, mutations) ← controlLayers fuel t withPayments forcePayments n n emptyMessage [];
  updTun t (fun tun => set_t_controlSeqno (uint64 (t_controlSeqno tun + 1)) tun) ;;
  for_each mutations (applyMutation t) ;;
  tun ← getTun t;
  let '(minPaidIn, minPaidOut, deadline) := summarize tun in
  updTun t (fun tun => set_t_packetsMinPaidOut minPaidOut (set_t_packetsMinPaidIn minPaidIn tun)) ;;
  mret (msg, deadline).

(** ** The total paid, per currency *)

Fixpoint sumPaid (l : list SectionInfo) (paidAmount : gmap string Coins) : G (gmap string Coins) :=
  match l with
  | [] => mret paidAmount
  | s :: l =>
      match si_PaymentInfo s with
      | None => sumPaid l paidAmount
      | Some p =>
          match cw_resolveCoinConfig (default EmptyString (py_JettonMaster p)) (py_ExtraCurrencyID p) with
          | Ok (Symbol, Decimals) =>
              match py_PaidChannelFee p with
              | None => nilDeref
              | Some fee =>
                  let amt := py_PaidPackets p * py_PricePerPacket p + fee in
                  let before := default (mkCoins 0 0) (paidAmount !! Symbol) in
                  coins ← lift (cw_fromNano (Nano before + amt) Decimals);
                  sumPaid l (<[Symbol := coins]> paidAmount)
              end
          | Err _ => sumPaid l paidAmount
          | Panic w => panic w
          end
      end
  end.

Definition CalcPaidAmount (t : nat) : G (gmap string Coins) :=
  tun ← getTun t;
  sumPaid (nodes tun) ∅.
End ClientPay.
