(* ===== verification/ClientIO.v ===== *)
(** * The life of an initiator's tunnel ([tunnel/regularOutTunnel.go])

    Creating a tunnel, processing what is delivered to it, the socket interface
    ([ReadFrom], [WriteTo]), the loop that keeps it configured and paid, and
    closing it.  [Process] is the implementation of the interface [Tunnel] that
    the instructions of a node deliver to. *)

From S2P Require Import Prelude NetAddr Seqno Stream Wire Samples Keys PayChain State Peers Node Payments OutGate Gateway Client ClientMsg ClientPay.

Section ClientIO.
Context {C : CipherCtr} {T : TL} {K : KeyAgreement} {W : World} {CW : ClientWorld}.

Abbreviation G := (GM RegularOutTunnel).

(** ** Creation *)

(** The fields a new tunnel does not name are zero. *)
Definition newTunnel (localID : Z) (peer : nat) (chainTo chainFrom : list SectionInfo)
    (pec : EncryptionKeys) (now : Z) : RegularOutTunnel :=
  mkRegularOutTunnel localID peer false 0 0 StateTypeConfiguring false [] 0 None chainTo chainFrom pec []
    0 0 0 0 0 0 0 0 0 ChannelPacketsToPrepay 0 0 0 0 now 0 0 0 false.

(** The control sender starts with a request of its own. *)
Definition CreateRegularOutTunnel (chainTo chainFrom : list SectionInfo) : G nat :=
  match chainTo, reverse chainTo, reverse chainFrom with
  | first :: _, exit :: _, own :: _ =>
      g ← get;
      guard_err (negb (bool_decide (ReceiverPubKey (si_Keys own) = PublicKey (g_key g))))
        "last 'chain from' should be our gateway" ;;
      generated ← ask cw_generateKey;
      pec ← wrapM "generate payload key failed"
              (lift (GenerateEncryptionKeys generated (ReceiverPubKey (si_Keys exit))));
      id ← adnlOf first;
      localID ← lift (Uint32 (ek_SectionPubKey pec));
      peer ← addPeer id None;
      now ← nowUnix;
      t ← allocTun (newTunnel localID peer chainTo chainFrom pec now);
      AddReference peer ;;
      (if existsb (fun s => bool_decide (is_Some (si_PaymentInfo s))) (chainTo ++ chainFrom) then
         guard_err (negb (Service (g_payments g))) "payments are not enabled" ;;
         updTun t (set_t_usePayments true)
       else mret tt) ;;
      requestControlMessage t ;;
      modify (fun g => set_g_tunnels (<[localID := t]> (g_tunnels g)) g) ;;
      mret t
  | _, _, _ => throw (Errorf "chains should have at least one node")
  end.

Definition SetOutAddressChangedHandler (t : nat) : G unit := updTun t (set_t_addressChanges (Some [])).

(** ** Deliveries *)

(** The payload is decrypted in place. *)
Definition decryptRecvPayload (k : EncryptionKeys) (pl : bytes) : bytes * outcome payload :=
  let '(buf, res) := decryptStream (CipherKeyCRC k) (CipherKey k) pl in
  (buf, data ← wrapErr "decrypt payload failed" res; wrapErr "parse payload failed" (w_parsePayload data)).

(** [net.IP.Equal]: an IPv4 address equals its IPv6 form. *)
Definition IP_Equal (ip x : bytes) : bool :=
  if bool_decide (length ip = length x) then bool_decide (ip = x)
  else if (len ip =? 4) && (len x =? 16) then bool_decide (v4InV6Prefix ++ ip = x)
  else if (len ip =? 16) && (len x =? 4) then bool_decide (ip = v4InV6Prefix ++ x)
  else false.

(** A delivery with [StateMeta] moves the configuration on. *)
Definition processState (t : nat) (State : Z) : G unit :=
  tun ← getTun t;
  if t_tunnelState tun <? StateTypeOptimized then
    (if State =? StateTypeConfiguring then
       msg ← wrapM "prepare optimized instructions failed" (prepareInitMessage t StateTypeOptimizingRoutes);
       updTun t (fun tun => if t_tunnelState tun =? StateTypeConfiguring
                            then set_t_tunnelState StateTypeOptimizingRoutes tun else tun) ;;
       wrapM "send init message failed" (SendCustomMessage (t_peer tun) (MsgEncrypted msg))
     else if State =? StateTypeOptimizingRoutes then
       updTun t (set_t_tunnelState StateTypeOptimized) ;;
       tun ← getTun t;
       if t_tunnelState tun =? StateTypeOptimizingRoutes then
         updTun t (set_t_tunnelState StateTypeOptimized) ;;
         requestControlMessage t
       else mret tt
     else throw (Errorf "unknown tunnel state")) ;;
    now ← nowUnix;
    updTun t (set_t_lastFullyCheckedAt now)
  else mret tt.

(** The books of a packet: received, and consumed up to its number. *)
Definition countReceived (t : nat) (Seqno : Z) : G unit :=
  tun ← getTun t;
  updTun t (set_t_packetsRecv (uint64 (t_packetsRecv tun + 1))) ;;
  let prev := t_seqnoRecv tun in
  if prev <? Seqno then
    updTun t (set_t_seqnoRecv Seqno) ;;
    let seqnoDiff := Seqno - prev in
    if t_usePayments tun then
      let consumed := int64 (t_packetsConsumedIn tun + int64 seqnoDiff) in
      updTun t (fun tun => set_t_packetsConsumedIn consumed
                  (set_t_packetsRecvPaidConsumed (uint64 (t_packetsRecvPaidConsumed tun + seqnoDiff)) tun)) ;;
      if int64 (t_packetsMinPaidIn tun - consumed) <? Z.quot (t_packetsToPrepay tun) 2
      then requestControlMessage t else mret tt
    else mret tt
  else mret tt.

(** A datagram for the reader, when there is room. *)
Definition processUDP (t : nat) (p : DeliverUDPPayload) : G unit :=
  guard_err (negb (validIP (du_IP p))) "invalid ip len" ;;
  guard_err (MaxUint16 <? du_Port p) "invalid port" ;;
  countReceived t (du_Seqno p) ;;
  tun ← getTun t;
  if Z.of_nat (length (t_read tun)) <? readCapacity then updTun t (set_t_read (t_read tun ++ [p]))
  else
    updTun t (fun tun => set_t_packetsDropped (uint64 (t_packetsDropped tun + 1)) tun) ;;
    throw (Errorf "read channel full").

(** The exit reports its address; a number below the last one is a restart. *)
Definition processBindDone (t : nat) (p : OutBindDonePayload) : G unit :=
  tun ← getTun t;
  (if ob_Seqno p <? t_seqnoRecv tun then updTun t (set_t_seqnoRecv (ob_Seqno p)) else mret tt) ;;
  if IP_Equal (t_externalAddr tun) (ob_IP p) && (t_externalPort tun =? uint16 (ob_Port p)) then mret tt
  else
    updTun t (fun tun =>
      set_t_addressChanges ((fun l => l ++ [(ob_IP p, ob_Port p)]) <$> t_addressChanges tun)
        (set_t_externalPort (uint16 (ob_Port p)) (set_t_externalAddr (ob_IP p) tun))).

(** A ping that came back. *)
Definition processPing (t : nat) (Seqno : Z) (WithPayments : bool) : G unit :=
  tun ← getTun t;
  if t_controlSeqnoReceived tun <? Seqno then
    updTun t (set_t_controlSeqnoReceived Seqno) ;;
    now ← nowUnix;
    updTun t (set_t_lastFullyCheckedAt now) ;;
    (if WithPayments then
       updTun t (fun tun => set_t_controlPaidSeqnoReceived Seqno
         (if t_paymentsConfirmed tun =? 0 then set_t_paymentsConfirmed 1 tun else tun))
     else mret tt) ;;
    if t_tunnelState tun =? StateTypeConfiguring then
      msg ← wrapM "prepare init message failed" (prepareInitMessage t StateTypeConfiguring);
      wrapM "send init message failed" (SendCustomMessage (t_peer tun) (MsgEncrypted msg))
    else mret tt
  else mret tt.

Definition RegularOutTunnel_Process (t : nat) (pl : bytes) (meta : metadata) : G bytes :=
  match meta with
  | StateMeta State =>
      tun ← getTun t;
      let '(buf, res) := decryptRecvPayload (t_payloadKeys tun) pl in
      data ← lift (hideErr "decryptRecvPayload failed" res);
      if (State =? StateTypeDestroyed) && negb (t_wantDestroy tun =? 0) then
        updTun t (set_t_closed true) ;; mret buf
      else
        processState t State ;;
        match data with
        | PDeliverUDP p => processUDP t p
        | POutBindDone p => processBindDone t p
        | PSendOut _ => throw (Errorf "incorrect payload type")
        end ;;
        mret buf
  | PingMeta Seqno WithPayments => processPing t Seqno WithPayments ;; mret pl
  | OtherMeta => throw (Errorf "unknown meta type")
  end.

#[global] Instance RegularOutTunnel_Tunnel : Tunnel RegularOutTunnel := RegularOutTunnel_Process.

(** ** The socket interface *)

(** A read blocks while nothing has arrived ([None]); what does not fit in the
    buffer of [size] bytes is lost. *)
Definition ReadFrom (t : nat) (size : nat) : G (option (bytes * (bytes * Z))) :=
  tun ← getTun t;
  match t_read tun with
  | [] => mret None
  | packet :: rest =>
      updTun t (set_t_read rest) ;;
      mret (Some (take size (du_Payload packet), (du_IP packet, du_Port packet)))
  end.

(** The same with a context: [done] when the [select] takes the branch of the
    context, which it may even when a packet is there. *)
Definition ReadFromWithTimeout (t : nat) (size : nat) (done : bool) : G (option (bytes * (bytes * Z))) :=
  if done then throw (Errorf "context done") else ReadFrom t size.

(** The deadlines are stored. *)
Definition SetReadDeadline (t : nat) (tm : Z) : G unit := updTun t (set_t_rDeadline tm).
Definition SetWriteDeadline (t : nat) (tm : Z) : G unit := updTun t (set_t_wDeadline tm).
Definition SetDeadline (t : nat) (tm : Z) : G unit := updTun t (fun tun => set_t_rDeadline tm (set_t_wDeadline tm tun)).

(** One packet of the prepaid ones; a payment is requested below a half. *)
Definition consumeOut (t : nat) (tun : RegularOutTunnel) : G unit :=
  if t_usePayments tun then
    let paid := t_packetsMinPaidOut tun in
    guard_err (paid <? t_packetsConsumedOut tun) "not enough packets prepaid" ;;
    let consumed := int64 (t_packetsConsumedOut tun + 1) in
    updTun t (set_t_packetsConsumedOut consumed) ;;
    if int64 (paid - consumed) <? Z.quot (t_packetsToPrepay tun) 2 then requestControlMessage t
    else mret tt
  else mret tt.

(** [addr] is [None] when it is not a UDP address. *)
Definition WriteTo (t : nat) (p : bytes) (addr : option (bytes * Z)) : G Z :=
  match p with
  | [] => mret 0
  | _ =>
      tun ← getTun t;
      guard_err (t_tunnelState tun <? StateTypeOptimized) "tunnel is not ready for sending" ;;
      guard_err (negb (t_wantDestroy tun =? 0)) "tunnel is destroyed" ;;
      consumeOut t tun ;;
      match addr with
      | None => throw (Errorf "invalid address type")
      | Some (ip, port) =>
          let seqno := uint64 (t_seqnoSend tun + 1) in
          updTun t (set_t_seqnoSend seqno) ;;
          pl ← wrapM "SendOutPayload serialization error"
                 (lift (w_serializePayload (PSendOut (mkSendOutPayload seqno ip (uint32 port) p))));
          rnd ← ask w_rand;
          pl ← wrapM "encrypt payload error" (lift (EncryptPayload rnd (t_payloadKeys tun) pl));
          match t_chainTo tun with
          | [] => panic "index out of range"
          | first :: _ =>
              let forward := uint32 (t_seqnoForward tun + 1) in
              updTun t (set_t_seqnoForward forward) ;;
              wrapM "send encrypted message error" (SendCustomMessage (t_peer tun)
                (MsgCached (mkEncryptedMessageCached (ek_SectionPubKey (si_Keys first)) forward pl))) ;;
              updTun t (fun tun => set_t_packetsSent (uint64 (t_packetsSent tun + 1)) tun) ;;
              mret (len p)
          end
      end
  end.

(** ** The control sender *)

(** How a round starts: by the timer or by a request. *)
Inductive wakeup := Ticked | Signalled.

(** [paidUsed > received + received/3 + LossNumAcceptable], on [uint64]. *)
Definition LossNumAcceptable : Z := 5000.
Definition tooLossy (received paidUsed : Z) : bool :=
  uint64 (uint64 (received + received / 3) + LossNumAcceptable) <? paidUsed.

Definition sendControl (t : nat) (msg : EncryptedMessage) : G unit :=
  tun ← getTun t;
  ignore (SendCustomMessage (t_peer tun) (MsgEncrypted msg)).

(** One round of [startControlSender] after its [select]; a failure is logged
    and the next round tries again.  The pause of 200 ms between rounds is time
    only. *)
Definition controlRound (fuel : nat) (t : nat) (w : wakeup) : G unit :=
  tun ← getTun t;
  if t_closed tun then mret tt else
  match w with Signalled => updTun t (set_t_sendControlSignal false) | Ticked => mret tt end ;;
  if negb (t_wantDestroy tun =? 0) then mret tt else
  if t_tunnelState tun =? StateTypeConfiguring then
    ignore (msg ← prepareInitMessage t StateTypeConfiguring; sendControl t msg)
  else
    reconfigure ← (if t_tunnelState tun =? StateTypeOptimized then
                     now ← nowUnix; mret (15 <? now - t_lastFullyCheckedAt tun)
                   else mret false);
    if (reconfigure : bool) then
      (if t_usePayments tun then updTun t (set_t_paymentsConfirmed 0) else mret tt) ;;
      updTun t (set_t_tunnelState StateTypeConfiguring) ;;
      requestControlMessage t
    else
      let attachPayments := (t_tunnelState tun =? StateTypeOptimized) && t_usePayments tun &&
        (0 <? t_controlSeqnoReceived tun) &&
        negb (tooLossy (t_packetsRecv tun) (t_packetsRecvPaidConsumed tun)) in
      ignore ('(msg, _) ← prepareTunnelControlMessage fuel t attachPayments (t_paymentsConfirmed tun =? 0);
              sendControl t msg).

(** ** Waiting for a tunnel to be ready

    [WaitForInit] polls every 5 ms, first for the configuration and then, with
    payments, for their confirmation; [ctxErr] is what the context or the tunnel
    ended with, if it did. *)
Inductive waitPhase := AwaitState | AwaitPayments.

Definition externalOf (t : nat) : G (bytes * Z) :=
  tun ← getTun t; mret (t_externalAddr tun, t_externalPort tun).

Definition WaitForInit_poll (t : nat) (phase : waitPhase) (ctxErr : option error) : G (waitPhase + bytes * Z) :=
  match ctxErr with
  | Some e => throw e
  | None =>
      tun ← getTun t;
      match phase with
      | AwaitState =>
          if negb (t_tunnelState tun =? StateTypeOptimized) then mret (inl AwaitState)
          else if t_usePayments tun then requestControlMessage t ;; mret (inl AwaitPayments)
          else (x ← externalOf t; mret (inr x))
      | AwaitPayments =>
          if t_paymentsConfirmed tun =? 0 then mret (inl AwaitPayments) else (x ← externalOf t; mret (inr x))
      end
  end.

(** ** Closing *)

(** A round of [Stop]: true to wait and send again. *)
Definition Stop_round (t : nat) : G bool :=
  err ← attempt (
    msg ← prepareTunnelCloseMessage t;
    tun ← getTun t;
    SendCustomMessage (t_peer tun) (MsgEncrypted msg));
  match err with
  | Some _ => mret false
  | None => tun ← getTun t; mret (negb (t_closed tun))
  end.

(** [rounds] bounds the messages sent, one and one more for every half second
    that passes before the context ends:
    at most thirty waits with the default of 15 s. *)
Fixpoint Stop_loop (rounds : nat) (t : nat) : G unit :=
  match rounds with
  | O => mret tt
  | S rounds => more ← Stop_round t; if (more : bool) then Stop_loop rounds t else mret tt
  end.

Definition Stop (waits : nat) (t : nat) : G unit :=
  updTun t (set_t_wantDestroy 1) ;;
  tun ← getTun t;
  (if StateTypeConfiguring <? t_tunnelState tun then Stop_loop (S waits) t else mret tt) ;;
  updTun t (set_t_closed true) ;;
  Dereference (t_peer tun).

(** [Close] is [Stop] with the context of the tunnel itself. *)
Definition RegularOutTunnel_Close (waits : nat) (t : nat) : G unit := Stop waits t.
End ClientIO.

(** ** A tunnel that can be exchanged ([tunnel/atomicTun.go])

    A pointer to the tunnel in use, nil at first; every operation is that of the
    tunnel it points to when it is called. *)
Section Switch.
Context {C : CipherCtr} {T : TL} {K : KeyAgreement} {W : World} {CW : ClientWorld}.

Abbreviation G := (GM RegularOutTunnel).
Abbreviation AtomicSwitchableRegularTunnel := (option nat).

Definition Atomic_SwitchTo (tun : option nat) : AtomicSwitchableRegularTunnel := tun.
Definition Atomic_Current (a : AtomicSwitchableRegularTunnel) : option nat := a.

(** A method called through the pointer reads a field of the tunnel. *)
Definition Atomic_resolve {A} (a : AtomicSwitchableRegularTunnel) (method : nat -> G A) : G A :=
  match a with Some t => method t | None => nilDeref end.

Definition Atomic_ReadFrom (a : AtomicSwitchableRegularTunnel) (size : nat) := Atomic_resolve a (fun t => ReadFrom t size).
(** An empty datagram is dropped before the tunnel is looked at. *)
Definition Atomic_WriteTo (a : AtomicSwitchableRegularTunnel) (p : bytes) (addr : option (bytes * Z)) : G Z :=
  match p with [] => mret 0 | _ => Atomic_resolve a (fun t => WriteTo t p addr) end.
Definition Atomic_Close (waits : nat) (a : AtomicSwitchableRegularTunnel) := Atomic_resolve a (RegularOutTunnel_Close waits).
Definition Atomic_SetDeadline (a : AtomicSwitchableRegularTunnel) (tm : Z) := Atomic_resolve a (fun t => SetDeadline t tm).
Definition Atomic_SetReadDeadline (a : AtomicSwitchableRegularTunnel) (tm : Z) := Atomic_resolve a (fun t => SetReadDeadline t tm).
Definition Atomic_SetWriteDeadline (a : AtomicSwitchableRegularTunnel) (tm : Z) := Atomic_resolve a (fun t => SetWriteDeadline t tm).
End Switch.
