(* ===== verification/ClientFacts.v ===== *)
(** * A tunnel and its gateway

    The nodes of a tunnel as a list, and the discharge of the interface
    [TunnelOk]: whatever is delivered to a tunnel, it reaches its gateway
    through [SendCustomMessage] only.  So the theorems on a node hold of a
    gateway whose tunnels are [RegularOutTunnel]s. *)

From S2P Require Import Prelude Seqno Stream Wire Samples Keys PayChain Hoare State Peers Node Payments OutGate Gateway Worlds Traffic.
From S2P Require Import Client ClientMsg ClientPay ClientIO.

(** ** Nodes *)

Lemma alter_app_if {A} (f : A -> A) (l k : list A) i :
  alter f i (l ++ k) = if bool_decide (i < length l)%nat then alter f i l ++ k else l ++ alter f (i - length l)%nat k.
Proof.
  case_bool_decide as Hi; [by apply alter_app_l|].
  rewrite <- (alter_app_r f l k (i - length l)). f_equal. lia.
Qed.

Lemma nodes_alterNode i f tun : nodes (alterNode i f tun) = alter f i (nodes tun).
Proof. unfold nodes, alterNode. rewrite alter_app_if. by case_bool_decide. Qed.

Lemma alterNode_lengths i f tun :
  length (t_chainTo (alterNode i f tun)) = length (t_chainTo tun) /\
  length (t_chainFrom (alterNode i f tun)) = length (t_chainFrom tun).
Proof. unfold alterNode. case_bool_decide; simpl; by rewrite ?length_alter. Qed.

(** ** The gateway seen from a tunnel *)
Section Reach.
Context {C : CipherCtr} {T : TL} {K : KeyAgreement} {W : World} {CW : ClientWorld}.

Abbreviation G := (GM RegularOutTunnel).

Definition peersView (g : Gateway RegularOutTunnel) :=
  (sectionView g, g_activePeers g, (fun p => (p_id p, p_references p)) <$> g_peers g).

Lemma reachesPeersOnly_frame {A} (m : G A) :
  (forall v, preserves (fun g => peersView g = v) m) -> reachesPeersOnly m.
Proof.
  intros H g g'. specialize (H (peersView g) g eq_refl). unfold peersView, sectionView in H.
  fold g' in H. injection H as ????????. split; [congruence|done].
Qed.

Context (v : (gmap nat SectionState * PaymentConfig * gmap bytes nat * gmap nat PaymentChannel *
               gmap Z nat * (bytes * bool * bool)) * gmap bytes nat * gmap nat (bytes * Z)).
Let P (g : Gateway RegularOutTunnel) : Prop := peersView g = v.

Lemma peers_ask {A} (f : nat -> A) : preserves P (ask f).
Proof using Type. by intros g Hg. Qed.
Lemma peers_nowUnix : preserves P nowUnix.
Proof using Type. by intros g Hg. Qed.
Lemma peers_emit e : preserves P (emit e).
Proof using Type. by intros g Hg. Qed.
Lemma peers_updTun t f : preserves P (updTun t f).
Proof using Type. by intros g Hg. Qed.
Lemma peers_stamp l now : preserves P (updPeer l (set_p_LastPacketToAt now)).
Proof using Type.
  intros g Hg. unfold P. rewrite <- Hg. unfold peersView, sectionView. cbn. f_equal.
  apply map_eq. intros k. rewrite !lookup_fmap. destruct (decide (k = l)) as [->|].
  - rewrite lookup_alter_eq. by destruct (g_peers g !! l).
  - by rewrite lookup_alter_ne.
Qed.
Hint Resolve peers_ask peers_nowUnix peers_emit peers_updTun peers_stamp : pres.

Lemma peers_SendCustomMessage l m : preserves P (SendCustomMessage l m).
Proof using Type. unfold SendCustomMessage. pres. Qed.
Lemma peers_getNode t i : preserves P (getNode t i).
Proof using Type. unfold getNode, getTun. pres. Qed.
Hint Resolve peers_SendCustomMessage peers_getNode : pres.

Lemma peers_encryptLayer t i msg ins : preserves P (encryptLayer t i msg ins).
Proof using Type. unfold encryptLayer, updNode. pres. Qed.
Hint Resolve peers_encryptLayer : pres.

Lemma peers_buildRoute t initial msg i system : preserves P (buildRoute t initial msg i system).
Proof using Type. unfold buildRoute, adnlOf, cacheVersion. pres. Qed.
Hint Resolve peers_buildRoute : pres.

Lemma peers_downTo n body msg :
  (forall i msg, preserves P (body i msg)) -> preserves P (downTo n body msg).
Proof using Type. intros H. revert msg. induction n as [|n IH]; intros msg; simpl; pres; auto. Qed.

Lemma peers_prepareBackMessage t state : preserves P (prepareBackMessage t state).
Proof using Type.
  unfold prepareBackMessage, getTun, cacheVersion. pres. apply peers_downTo. pres.
Qed.
Hint Resolve peers_prepareBackMessage : pres.

Lemma peers_encryptExit t state msg i : preserves P (encryptExit t state msg i).
Proof using Type. unfold encryptExit, getTun, adnlOf, cacheVersion. pres. Qed.
Hint Resolve peers_encryptExit : pres.

Lemma peers_prepareInitMessage t state : preserves P (prepareInitMessage t state).
Proof using Type. unfold prepareInitMessage, getTun. pres. apply peers_downTo. pres. Qed.
Hint Resolve peers_prepareInitMessage : pres.

Lemma peers_Process t pl meta : preserves P (RegularOutTunnel_Process t pl meta).
Proof using Type.
  unfold RegularOutTunnel_Process, processState, processUDP, countReceived, processBindDone, processPing,
    requestControlMessage, getTun.
  pres.
Qed.
End Reach.

Section Instances.
Context {C : CipherCtr} {T : TL} {K : KeyAgreement} {W : World} {CW : ClientWorld}.

(** What the theorems on nodes assume of the tunnels of a gateway. *)
#[global] Instance RegularOutTunnel_ok : TunnelOk RegularOutTunnel.
Proof using Type.
  intros t pl meta. apply reachesPeersOnly_frame. intros v. apply peers_Process.
Qed.
End Instances.

(** ** Runs that end well *)

(** The random source fills the buffer it is given. *)
Class RandOk (W : World) : Prop := rand_full : forall n r, w_rand n = Some r -> length r = 8%nat.

Section Ok.
Context {S : Type}.

Lemma bind_ok_inv {A B} (m : M S A) (k : A -> M S B) s s' b :
  (m ≫= k) s = (s', Ok b) -> exists s1 a, m s = (s1, Ok a) /\ k a s1 = (s', Ok b).
Proof. rewrite bind_run. destruct (m s) as [s1 [a|e|w]]; [|done|done]. eauto. Qed.
Lemma wrapM_ok_inv {A} msg (m : M S A) s s' a : wrapM msg m s = (s', Ok a) -> m s = (s', Ok a).
Proof. unfold wrapM. destruct (m s) as [s1 [a'|e|w]]; simpl; congruence. Qed.
Lemma guard_ok_inv b msg (s s' : S) u : guard_err b msg s = (s', Ok u) -> b = false /\ s' = s.
Proof. destruct b; simpl; [done|]. by intros [= <-]. Qed.
Lemma wrapErr_ok {A} msg (o : outcome A) a : wrapErr msg o = Ok a -> o = Ok a.
Proof. by destruct o. Qed.
Lemma hideErr_ok {A} msg (o : outcome A) a : hideErr msg o = Ok a -> o = Ok a.
Proof. by destruct o as [|[]|]. Qed.
Lemma ignore_state {A} (m : M S A) s : (ignore m s).1 = (m s).1.
Proof. unfold ignore. by destruct (m s) as [s' []]. Qed.
End Ok.

(** Take the first step of a run that ended well. *)
Ltac ok_step H :=
  match type of H with
  | (_ ≫= _) _ = (_, Ok _) =>
      let s := fresh "s" in let a := fresh "a" in let Hm := fresh "Hm" in
      apply bind_ok_inv in H as (s & a & Hm & H)
  end.

Section TunSteps.
Context {C : CipherCtr} {T : TL} {K : KeyAgreement} {W : World} {CW : ClientWorld}.

Abbreviation State := (Gateway RegularOutTunnel).

Lemma getTun_run t (g : State) tun : g_tuns g !! t = Some tun -> getTun t g = (g, Ok tun).
Proof. apply deref_run. Qed.
Lemma getTun_ok_inv t (g g' : State) tun : getTun t g = (g', Ok tun) -> g' = g /\ g_tuns g !! t = Some tun.
Proof. unfold getTun, deref. destruct (g_tuns g !! t) eqn:E; intros [= <- <-]. done. Qed.
Lemma updTun_run t f (g : State) tun :
  g_tuns g !! t = Some tun -> updTun t f g = (set_g_tuns (<[t := f tun]> (g_tuns g)) g, Ok tt).
Proof. intros H. unfold updTun, modify. by rewrite (alter_Some _ _ _ _ H). Qed.

Lemma getNode_run t i (g : State) tun s :
  g_tuns g !! t = Some tun -> nodes tun !! i = Some s -> getNode t i g = (g, Ok s).
Proof. intros Ht Hi. unfold getNode. rewrite bind_run, (getTun_run _ _ _ Ht). cbv iota beta. by rewrite Hi. Qed.
Lemma getNode_ok_inv t i (g g' : State) tun s :
  g_tuns g !! t = Some tun -> getNode t i g = (g', Ok s) -> g' = g /\ nodes tun !! i = Some s.
Proof.
  intros Ht. unfold getNode. rewrite bind_run, (getTun_run _ _ _ Ht). cbv iota beta.
  destruct (nodes tun !! i); [|done]. by intros [= <- <-].
Qed.

(** The tunnel at [t] after a step, and that nothing else changed. *)
Definition tunSet (t : nat) (g : State) (tun : RegularOutTunnel) : State :=
  set_g_tuns (<[t := tun]> (g_tuns g)) g.

Lemma tunSet_lookup t g tun : g_tuns (tunSet t g tun) !! t = Some tun.
Proof. apply lookup_insert_eq. Qed.
Lemma tunSet_upd t f g tun : updTun t f (tunSet t g tun) = (tunSet t g (f tun), Ok tt).
Proof.
  rewrite (updTun_run _ _ _ _ (tunSet_lookup t g tun)). unfold tunSet. cbn. by rewrite insert_insert_eq.
Qed.
End TunSteps.
