(* ===== verification/ClientWorlds.v ===== *)
(** * A tunnel of two gateways, run

    An initiator and an exit that exchange the messages they send, from the
    first configuration message to a datagram in each direction. *)

From S2P Require Import Prelude Seqno Stream Wire Samples Keys PayChain Hoare State Peers Node Payments OutGate Gateway Worlds Traffic.
From S2P Require Import Client ClientMsg ClientPay ClientIO ClientFacts.

Definition sampleClientWorld : ClientWorld := {|
  cw_hash := fun pub => Some pub;
  cw_generateKey := fun n => Some [51; 52; 53; Z.of_nat n mod 256];
  cw_minSafeTTL := 60 * 10 ^ 9;
  cw_generateTunnel := fun _ key _ => Ok (key, []);
  cw_openVirtualChannel := fun _ _ _ _ _ => None;
  cw_channelStatus := fun n _ => Ok (if Nat.even n then ChannelPending else ChannelActive);
  cw_sign := fun key amount => mkVirtualChannelState amount key;
  cw_toCell := fun st => Ok (PutUint64 (Amount st));
  cw_resolveCoinConfig := fun _ _ => Ok ("TON"%string, 9);
  cw_fromNano := fun nano decimals => Ok (mkCoins nano decimals);
|}.

Lemma sampleRandOk : RandOk sampleWorld.
Proof. by intros n r [= <-]. Qed.

Definition clientKey : bytes := [41; 42; 43; 44].

Section Network.
#[local] Existing Instances toyCipher sampleTL sampleKA sampleWorld sampleClientWorld.
#[local] Existing Instance RegularOutTunnel_Tunnel.

Abbreviation State := (Gateway (W := sampleWorld) RegularOutTunnel).

(** A gateway connected to one other. *)
Definition gatewayOf (key peerKey : bytes) (pay : PaymentConfig) : State :=
  (connHandler (Tun := RegularOutTunnel) peerKey (mkConn (le_decode peerKey) "10.0.0.9:1") (NewGateway key pay)).1.

(** The last message a gateway sent. *)
Definition lastSent (g : State) : option message :=
  foldl (fun last e => match e with EvSend _ m None => Some m | _ => last end) None (g_trace g).

(** Hand the last message of one gateway to the other. *)
Definition carry (from to : State) : State * outcome unit :=
  match lastSent from with
  | Some m => messageHandler 0%nat m to
  | None => (to, Err (Errorf "nothing sent"))
  end.

Definition sampleSections (price : option Payer) : list SectionInfo * list SectionInfo :=
  ([mkSectionInfo (sampleKeysFor [1; 1; 1; 1] nodeKey) price],
   [mkSectionInfo (sampleKeysFor [2; 2; 2; 2] clientKey) None]).

(** The tunnel configured: two round trips. *)
Definition configured : State * State :=
  let client := gatewayOf clientKey nodeKey freeConfig in
  let exit := gatewayOf nodeKey clientKey freeConfig in
  let client := (CreateRegularOutTunnel (sampleSections None).1 (sampleSections None).2 client).1 in
  let client := (controlRound 1 0%nat Signalled client).1 in
  let exit := (carry client exit).1 in
  let client := (carry exit client).1 in
  let exit := (carry client exit).1 in
  let client := (carry exit client).1 in
  (client, exit).

Definition tunOf (g : State) (t : nat) : RegularOutTunnel :=
  default (newTunnel 0 0 [] [] (mkEncryptionKeys [] 0 0 [] []) 0) (g_tuns g !! t).
Lemma tunOf_known g t : known_b (g_tuns g !! t) = true -> g_tuns g !! t = Some (tunOf g t).
Proof using Type. unfold tunOf. by destruct (g_tuns g !! t). Qed.

Example configured_optimized :
  t_tunnelState (tunOf configured.1 0) = StateTypeOptimized /\
  t_externalAddr (tunOf configured.1 0) = [1; 2; 3; 4] /\
  t_externalPort (tunOf configured.1 0) = 5000.
Proof using Type. vm_compute. auto. Qed.

(** A longer tunnel: three nodes to the exit and one on the way back. *)
Definition longPrivates : list bytes := [nodeKey; [21; 22; 23; 24]; [31; 32; 33; 34]; [61; 62; 63; 64]; clientKey].
Definition longSections : list SectionInfo :=
  zip_with (fun sp np => mkSectionInfo (sampleKeysFor sp np) None)
    [[1; 1; 1; 1]; [2; 2; 2; 2]; [3; 3; 3; 3]; [4; 4; 4; 4]; [5; 5; 5; 5]] longPrivates.
Definition longClient : State :=
  (CreateRegularOutTunnel (take 3 longSections) (drop 3 longSections) (gatewayOf clientKey nodeKey freeConfig)).1.

Lemma longClient_nodes : nodes (tunOf longClient 0) = longSections.
Proof using Type. vm_compute. reflexivity. Qed.
Lemma longClient_known : g_tuns longClient !! 0%nat = Some (tunOf longClient 0).
Proof using Type. apply tunOf_known. vm_compute. reflexivity. Qed.
Lemma longSections_keys : Forall2 (fun s np => keysFor (K := sampleKA) np (si_Keys s)) longSections longPrivates.
Proof using Type. repeat apply Forall2_cons_2; try apply Forall2_nil_2; apply sampleKeysFor_keysFor. Qed.

(** ** A paid tunnel *)

Definition samplePayer (price : Z) : Payer :=
  mkPayer [mkPaymentTunnelSection [91] 0 (BigFloat.mkFloat 53 0 0) (10 ^ 9)] price None 0 0 None None 0 0 None 0.

(** A round trip: the client's last message to the exit, and its answer. *)
Definition exchange (s : State * State) : State * State :=
  let exit := (carry s.1 s.2).1 in
  ((carry exit s.1).1, exit).
Definition controlled (s : State * State) : State * State :=
  exchange ((controlRound 5 0%nat Ticked s.1).1, s.2).

(** Configured, checked by a ping, paid. *)
Definition paidStart : State * State :=
  let chains := sampleSections (Some (samplePayer 5)) in
  let client := gatewayOf clientKey nodeKey paidConfig in
  let exit := gatewayOf nodeKey clientKey paidConfig in
  ((controlRound 5 0%nat Signalled (CreateRegularOutTunnel chains.1 chains.2 client).1).1, exit).
Definition pinged : State * State := controlled (exchange (exchange paidStart)).
Definition paid : State * State := controlled pinged.

Example paid_prepaid :
  t_tunnelState (tunOf paid.1 0) = StateTypeOptimized /\
  t_packetsMinPaidOut (tunOf paid.1 0) = 200000 /\ t_paymentsConfirmed (tunOf paid.1 0) = 1 /\
  (o_PrepaidPacketsOut <$> s_out (sectionOf paid.2 0)) = Some 200000.
Proof using Type. vm_compute. auto. Qed.
End Network.
