(* ===== verification/Delivery.v ===== *)
(** * Datagrams from end to end

    What [WriteTo] sends is what the exit writes to the network, and what
    arrives at the exit is what [ReadFrom] returns: the two ends run different
    code over the same payload keys. *)

From S2P Require Import Prelude Seqno Stream Wire Samples Keys PayChain Hoare State Peers Node Payments OutGate Gateway Worlds Traffic.
From S2P Require Import Client ClientMsg ClientPay ClientIO ClientFacts ClientWorlds.

(** What the two ends assume of the payload codec. *)
Class PayloadOk {W : World} : Prop := {
  payload_roundtrip p bs : w_serializePayload p = Ok bs -> w_parsePayload bs = Ok p;
  payload_boxed p : w_serializePayload p <> Ok [];
}.
Arguments PayloadOk : clear implicits.

Section Delivery.
Context {C : CipherCtr} {T : TL} {K : KeyAgreement} {W : World} {CW : ClientWorld} {KOk : KeyAgreementOk K}
  {POk : PayloadOk W} {ROk : RandOk W}.

Abbreviation State := (Gateway RegularOutTunnel).

Lemma SendCustomMessage_ok_inv {Tun} l m (g g' : Gateway Tun) u :
  SendCustomMessage l m g = (g', Ok u) ->
  exists conn, g_trace g' = g_trace g ++ [EvSend conn m None] /\ g_tuns g' = g_tuns g.
Proof.
  unfold SendCustomMessage. intros H. ok_step H. unfold deref in Hm.
  destruct (g_peers g !! l) as [p|]; [|done]. injection Hm as <- <-.
  destruct (getConn p) as [conn|]; [|done]. exists conn.
  revert H. run. unfold updPeer, emit. run. destruct (w_connSend _ conn m); [done|]. by intros [= <- <-].
Qed.

(** The two ends of the payload: the initiator made its keys for the exit, and
    the exit derives its own from their public half. *)
Definition samePayloadKeys (exitKey : bytes) (k : EncryptionKeys) (o : Out) : Prop :=
  (exists private, GenerateEncryptionKeys (Some private) (PublicKey exitKey) = Ok k) /\
  SharedKey exitKey (ek_SectionPubKey k) = Some (o_PayloadCipherKey o) /\
  o_PayloadCipherKeyCRC o = Checksum (o_PayloadCipherKey o).

Lemma samePayloadKeys_eq exitKey k o :
  samePayloadKeys exitKey k o ->
  CipherKey k = o_PayloadCipherKey o /\ CipherKeyCRC k = o_PayloadCipherKeyCRC o /\ in_uint 64 (CipherKeyCRC k).
Proof using KOk.
  intros ((private & Hk) & Hs & Hc). unfold GenerateEncryptionKeys, NewEncryptionKeys in Hk. simpl in Hk.
  destruct (SharedKey private _) as [sh|] eqn:Hsh; [|done]. apply Ok_inj in Hk as <-. simpl in *.
  rewrite SharedKey_comm in Hs. rewrite Hsh in Hs. injection Hs as Hs. rewrite Hc, <- Hs.
  repeat split; apply Crc64Facts.Checksum_range.
Qed.

Lemma payload_decrypts n crc key p bs enc :
  w_serializePayload p = Ok bs -> encryptStream (w_rand n) crc key bs = Ok enc -> in_uint 64 crc ->
  decryptStream crc key enc = (take 16 enc ++ bs, Ok bs).
Proof using POk ROk.
  intros Hs He Hc. apply (decrypt_encrypt (w_rand n) crc key bs enc He); [apply rand_full|done|].
  intros ->. by apply (payload_boxed p).
Qed.

(** ** Out *)

Lemma consumeOut_trace t tun g : g_trace (consumeOut t tun g).1 = g_trace g.
Proof.
  unfold consumeOut, requestControlMessage, updTun. destruct (t_usePayments tun); [|done]. run.
  destruct (t_packetsMinPaidOut tun <? _); [done|]. run. by destruct (_ <? _).
Qed.

Lemma WriteTo_sends t p ip port (g g' : State) tun n :
  g_tuns g !! t = Some tun -> p <> [] -> WriteTo t p (Some (ip, port)) g = (g', Ok n) ->
  exists conn first k bs enc,
    let seqno := uint64 (t_seqnoSend tun + 1) in
    w_serializePayload (PSendOut (mkSendOutPayload seqno ip (uint32 port) p)) = Ok bs /\
    encryptStream (w_rand k) (CipherKeyCRC (t_payloadKeys tun)) (CipherKey (t_payloadKeys tun)) bs = Ok enc /\
    head (t_chainTo tun) = Some first /\ n = len p /\
    g_trace g' = g_trace g ++ [EvSend conn (MsgCached (mkEncryptedMessageCached
      (ek_SectionPubKey (si_Keys first)) (uint32 (t_seqnoForward tun + 1)) enc)) None].
Proof.
  intros Ht Hp H. unfold WriteTo in H. destruct p as [|b p]; [done|].
  rewrite bind_run, (getTun_run _ _ _ Ht) in H. cbv beta iota zeta in H.
  ok_step H. ok_step H. ok_step H.
  apply guard_ok_inv in Hm as [_ ->]. apply guard_ok_inv in Hm0 as [_ ->].
  pose proof (consumeOut_trace t tun g) as Htr. rewrite Hm1 in Htr. simpl in Htr. clear Hm1.
  ok_step H. injection Hm as <- <-. ok_step H. apply wrapM_ok_inv in Hm. injection Hm as <- Hbs.
  ok_step H. injection Hm as <- <-. ok_step H. apply wrapM_ok_inv in Hm. injection Hm as <- Henc.
  unfold EncryptPayload in Henc. apply hideErr_ok in Henc.
  destruct (t_chainTo tun) as [|first rest]; [done|]. ok_step H. injection Hm as <- <-.
  ok_step H. apply wrapM_ok_inv, SendCustomMessage_ok_inv in Hm as (conn & Hsend & _).
  ok_step H. injection Hm as <- <-. injection H as <- <-.
  eexists conn, first, _, _, _. repeat split; [exact Hbs|exact Henc|]. cbn in Hsend |- *. by rewrite Hsend, Htr.
Qed.

(** A free exit, or one with packets prepaid in both directions. *)
Definition outPaid (o : Out) : bool :=
  (o_PricePerPacket o <=? 0) ||
  (negb (o_PrepaidPacketsIn o <? - int64 (maxCredit (o_PacketsSentIn o))) && (0 <? o_PrepaidPacketsOut o)).

Lemma payForOut_run s o (x : State) :
  outPaid o = true -> exists x', payForOut s o x = (x', Ok tt) /\ g_trace x' = g_trace x.
Proof.
  unfold outPaid, payForOut. intros H. destruct (Z.ltb_spec 0 (o_PricePerPacket o)) as [Hp|Hp]; [|by exists x].
  rewrite (proj2 (Z.leb_gt _ _) Hp) in H. apply andb_true_iff in H as [H1%negb_true_iff H2%Z.ltb_lt].
  rewrite bind_run, guard_run, H1. cbv iota. rewrite bind_run, guard_run, (proj2 (Z.leb_gt _ _) H2). cbv iota.
  eexists. split; [reflexivity|done].
Qed.

Lemma getOut_run s (x : State) sec o :
  g_sections x !! s = Some sec -> s_out sec = Some o -> getOut s x = (x, Ok o).
Proof. intros Hs Ho. unfold getOut. rewrite bind_run, (deref_run _ _ _ _ Hs). cbv iota beta. by rewrite Ho. Qed.

Lemma Out_Send_writes s enc (x : State) sec o buf bs pl :
  g_sections x !! s = Some sec -> s_out sec = Some o ->
  decryptStream (o_PayloadCipherKeyCRC o) (o_PayloadCipherKey o) enc = (buf, Ok bs) ->
  w_parsePayload bs = Ok (PSendOut pl) -> so_Payload pl <> [] -> validIP (so_IP pl) = true -> outPaid o = true ->
  exists res, g_trace (Out_Send s enc x).1
    = g_trace x ++ [EvWriteTo (o_conn o) (so_Payload pl) (so_IP pl) (uint16 (so_Port pl)) res].
Proof.
  intros Hs Ho Hd Hp Hne Hip Hpaid. unfold Out_Send.
  rewrite bind_run, (getOut_run _ _ _ _ Hs Ho). cbv iota beta. rewrite Hd.
  rewrite bind_run, wrapM_run, lift_run. cbn [fst snd wrapErr].
  rewrite bind_run, wrapM_run, lift_run, Hp. cbn [fst snd mbind outcome_bind wrapErr].
  destruct (so_Payload pl) as [|b p] eqn:Hpl; [done|].
  rewrite bind_run, guard_run, Hip. cbn [negb]. cbv iota.
  destruct (payForOut_run s o x Hpaid) as (x' & Hx & Htr). rewrite bind_run, Hx. cbv iota.
  rewrite bind_run, ask_run. cbv iota beta.
  set (res := w_writeTo _ _ _ _ _). exists res. rewrite bind_run. unfold emit at 1. rewrite modify_run.
  cbv iota. destruct res; [cbn; by rewrite Htr|].
  unfold updOut, updSection. run. cbn. by rewrite Htr.
Qed.

Lemma uint16_uint32 x : uint16 (uint32 x) = uint16 x.
Proof.
  unfold uint16, uint32. change (2 ^ 32) with (2 ^ 16 * 2 ^ 16).
  rewrite Z.rem_mul_r by lia. rewrite (Z.mul_comm (2 ^ 16)), Z.mod_add by lia. apply Z.mod_mod. lia.
Qed.

(** C6: a datagram written to a tunnel leaves the exit as it was written: when
    [WriteTo] succeeds it has sent one cached message, and the exit, which
    derived its payload key from the initiator's public key, writes exactly
    that datagram to that address, if it is free or paid. *)
Theorem WriteTo_reaches_network exitKey t p ip port (g g' x : State) tun n s sec o :
  g_tuns g !! t = Some tun -> p <> [] -> WriteTo t p (Some (ip, port)) g = (g', Ok n) ->
  g_sections x !! s = Some sec -> s_out sec = Some o -> g_allowOut x = true ->
  samePayloadKeys exitKey (t_payloadKeys tun) o -> validIP ip = true -> outPaid o = true ->
  n = len p /\
  exists conn m res,
    g_trace g' = g_trace g ++ [EvSend conn (MsgCached m) None] /\
    g_trace (CachedAction_Execute s SendOutCachedAction m x).1
      = g_trace x ++ [EvWriteTo (o_conn o) p ip (uint16 port) res].
Proof using KOk POk ROk.
  intros Ht Hp H Hs Ho Hallow Hkeys Hip Hpaid.
  destruct (WriteTo_sends _ _ _ _ _ _ _ _ Ht Hp H) as (conn & first & k & bs & enc & Hbs & Henc & _ & -> & Htr).
  destruct (samePayloadKeys_eq _ _ _ Hkeys) as (Hk & Hc & Hr). split; [done|].
  pose proof (payload_decrypts _ _ _ _ _ _ Hbs Henc Hr) as Hd. rewrite Hk, Hc in Hd.
  destruct (Out_Send_writes s enc x sec o _ _ _ Hs Ho Hd (payload_roundtrip _ _ Hbs) Hp Hip Hpaid) as (res & Hw).
  cbn in Hw. rewrite uint16_uint32 in Hw.
  eexists conn, _, res. split; [exact Htr|].
  unfold CachedAction_Execute, SendOutCachedAction_Execute, outAllowed.
  rewrite !bind_run, get_run. cbv iota beta. rewrite guard_run, Hallow. exact Hw.
Qed.

(** ** Back *)

Lemma SendCustomMessage_trace {Tun} l m (g : Gateway Tun) :
  g_trace (SendCustomMessage l m g).1 = g_trace g \/
  exists conn res, g_trace (SendCustomMessage l m g).1 = g_trace g ++ [EvSend conn m res].
Proof.
  unfold SendCustomMessage. rewrite bind_run. unfold deref.
  destruct (g_peers g !! l) as [p|]; [|by left]. destruct (getConn p) as [conn|]; [|by left].
  right. exists conn. unfold updPeer, emit. run. set (res := w_connSend _ _ _). exists res. by destruct res.
Qed.

(** What [sendBack] may send of a payload object. *)
Lemma sendBack_trace s obj (x : State) sec o :
  g_sections x !! s = Some sec -> s_out sec = Some o ->
  g_trace (sendBack s obj true x).1 = g_trace x \/
  exists conn key seqno res k bs enc,
    g_trace (sendBack s obj true x).1
      = g_trace x ++ [EvSend conn (MsgCached (mkEncryptedMessageCached key seqno enc)) res] /\
    w_serializePayload obj = Ok bs /\
    encryptStream (w_rand k) (o_PayloadCipherKeyCRC o) (o_PayloadCipherKey o) bs = Ok enc.
Proof.
  intros Hs Ho. unfold sendBack. rewrite bind_run, wrapM_run, lift_run. cbn [fst snd].
  destruct (w_serializePayload obj) as [bs| |] eqn:Hbs; cbn [wrapErr]; [|by left|by left].
  rewrite bind_run, (getOut_run _ _ _ _ Hs Ho). cbv iota beta. rewrite bind_run, ask_run. cbv iota beta.
  rewrite bind_run, wrapM_run, lift_run. cbn [fst snd].
  destruct (encryptStream _ _ _ _) as [enc| |] eqn:He; cbn [wrapErr]; [|by left|by left].
  rewrite bind_run. unfold updOut, updSection. run. rewrite wrapM_run. cbn [fst].
  match goal with |- context [SendCustomMessage ?l ?m ?g] =>
    destruct (SendCustomMessage_trace l m g) as [E|(conn & res & E)]; rewrite E end; [by left|].
  right. by eexists conn, _, _, res, _, bs, enc.
Qed.

Lemma nextSentIn_run s (x : State) sec o :
  g_sections x !! s = Some sec -> s_out sec = Some o ->
  exists x' sec' o', nextSentIn s x = (x', Ok (uint64 (o_PacketsSentIn o + 1))) /\
    g_sections x' !! s = Some sec' /\ s_out sec' = Some o' /\ g_trace x' = g_trace x /\
    o_PayloadCipherKeyCRC o' = o_PayloadCipherKeyCRC o /\ o_PayloadCipherKey o' = o_PayloadCipherKey o.
Proof.
  intros Hs Ho. unfold nextSentIn. rewrite bind_run, (getOut_run _ _ _ _ Hs Ho). cbv iota beta zeta.
  unfold updOut, updSection. run. eexists _, _, _. split; [reflexivity|]. cbn.
  rewrite (alter_Some _ _ _ _ Hs), lookup_insert_eq. split; [reflexivity|]. cbn. rewrite Ho. by repeat split.
Qed.

(** A datagram at the exit is dropped, or one cached message goes back that
    carries the first 2048 bytes of it. *)
Lemma Listen_datagram_sends s datagram ip port (x : State) sec o conn m :
  g_sections x !! s = Some sec -> s_out sec = Some o ->
  g_trace (Listen_datagram s datagram ip port x).1 = g_trace x ++ [EvSend conn (MsgCached m) None] ->
  exists seqno k bs,
    w_serializePayload (PDeliverUDP (mkDeliverUDPPayload seqno ip port (take bufSize datagram))) = Ok bs /\
    encryptStream (w_rand k) (o_PayloadCipherKeyCRC o) (o_PayloadCipherKey o) bs = Ok (emc_Payload m).
Proof.
  assert (forall x : State, g_trace x = g_trace x ++ [EvSend conn (MsgCached m) None] -> False) as Hno.
  { intros y E. apply (f_equal length) in E. rewrite length_app in E. simpl in E. lia. }
  intros Hs Ho. unfold Listen_datagram, Listen_read.
  destruct (_ <? 64); [by intros []%Hno|].
  unfold Listen_worker. rewrite bind_run, (getOut_run _ _ _ _ Hs Ho). cbv iota beta.
  destruct (o_closed o); [by intros []%Hno|].
  match goal with |- g_trace (((?c : GM RegularOutTunnel bool) ≫= _) x).1 = _ -> _ =>
    assert (exists x1 b sec1 o1, c x = (x1, Ok b) /\ g_sections x1 !! s = Some sec1 /\ s_out sec1 = Some o1 /\
      g_trace x1 = g_trace x /\ o_PayloadCipherKeyCRC o1 = o_PayloadCipherKeyCRC o /\
      o_PayloadCipherKey o1 = o_PayloadCipherKey o) as (x1 & b & sec1 & o1 & Hx1 & Hs1 & Ho1 & Htr & Hcrc & Hkey) end.
  { destruct (0 <? o_PricePerPacket o); [|by exists x, true, sec, o].
    destruct (_ <=? - _); [by exists x, false, sec, o|]. unfold updOut, updSection. run.
    eexists _, true, _, _. split; [reflexivity|]. cbn. rewrite (alter_Some _ _ _ _ Hs), lookup_insert_eq.
    split; [reflexivity|]. cbn. rewrite Ho. by repeat split. }
  rewrite bind_run, Hx1. cbv iota beta. destruct b; cbn [negb]; [|rewrite ret_run; cbn [fst]; rewrite Htr; by intros []%Hno].
  rewrite bind_run, modify_run. cbv iota.
  rewrite bind_run.
  destruct (nextSentIn_run s (set_g_statsReceived (uint64 (g_statsReceived x1 + 1)) x1) sec1 o1 Hs1 Ho1)
    as (x2 & sec2 & o2 & -> & Hs2 & Ho2 & Htr2 & Hcrc2 & Hkey2). cbv iota beta. rewrite ignore_state.
  destruct (sendBack_trace s (PDeliverUDP (mkDeliverUDPPayload (uint64 (o_PacketsSentIn o1 + 1)) ip port
    (take bufSize datagram))) x2 sec2 o2 Hs2 Ho2) as [E|(c & key & seqno & res & k & bs & enc & E & Hbs & Henc)];
    rewrite E, Htr2; cbn; rewrite Htr; [by intros []%Hno|].
  intros Eq. apply app_inv_head in Eq. injection Eq as <- <- ->. eexists _, k, bs. split; [exact Hbs|].
  by rewrite <- Hcrc, <- Hkey, <- Hcrc2, <- Hkey2.
Qed.

Lemma countReceived_run t seqno (g : State) tun :
  g_tuns g !! t = Some tun ->
  exists tun', countReceived t seqno g = (tunSet t g tun', Ok tt) /\ t_read tun' = t_read tun.
Proof.
  intros Ht. unfold countReceived. rewrite bind_run, (getTun_run _ _ _ Ht). cbv iota beta.
  rewrite bind_run, (updTun_run _ _ _ _ Ht). cbv iota beta zeta. fold (tunSet t g (set_t_packetsRecv (uint64 (t_packetsRecv tun + 1)) tun)).
  destruct (_ <? seqno); [|by eexists].
  rewrite bind_run, tunSet_upd. cbv iota beta. destruct (t_usePayments tun); [|by eexists].
  rewrite bind_run, tunSet_upd. cbv iota beta. destruct (_ <? _ ÷ 2); [|by eexists].
  unfold requestControlMessage. rewrite tunSet_upd. by eexists.
Qed.

(** A datagram delivered to a tunnel that is in use, with room to read it. *)
Definition inUse (tun : RegularOutTunnel) : Prop :=
  StateTypeOptimized <= t_tunnelState tun /\ t_wantDestroy tun = 0 /\
  Z.of_nat (length (t_read tun)) < readCapacity.

Lemma Process_queues t (g : State) tun enc buf bs p state :
  g_tuns g !! t = Some tun -> inUse tun ->
  decryptStream (CipherKeyCRC (t_payloadKeys tun)) (CipherKey (t_payloadKeys tun)) enc = (buf, Ok bs) ->
  w_parsePayload bs = Ok (PDeliverUDP p) -> validIP (du_IP p) = true -> du_Port p <= MaxUint16 ->
  exists tun', RegularOutTunnel_Process t enc (StateMeta state) g = (tunSet t g tun', Ok buf) /\
    t_read tun' = t_read tun ++ [p].
Proof.
  intros Ht (Hst & Hw & Hroom) Hd Hp Hip Hport. unfold RegularOutTunnel_Process.
  rewrite bind_run, (getTun_run _ _ _ Ht). cbv iota beta. unfold decryptRecvPayload. rewrite Hd.
  cbn [mbind outcome_bind wrapErr]. rewrite Hp. rewrite bind_run, lift_run. cbn [wrapErr hideErr].
  cbv iota beta. rewrite Hw, andb_false_r. rewrite bind_run. unfold processState.
  rewrite bind_run, (getTun_run _ _ _ Ht). cbv iota beta. rewrite (proj2 (Z.ltb_ge _ _) Hst).
  rewrite ret_run. cbv iota. rewrite bind_run. unfold processUDP. rewrite bind_run, guard_run, Hip.
  cbn [negb]. cbv iota. rewrite bind_run, guard_run, (proj2 (Z.ltb_ge _ _) Hport). cbv iota.
  destruct (countReceived_run t (du_Seqno p) g tun Ht) as (tun' & Hc & Hr).
  rewrite bind_run, Hc. cbv iota beta. rewrite bind_run, (getTun_run _ _ _ (tunSet_lookup t g tun')).
  cbv iota beta. rewrite Hr, (proj2 (Z.ltb_lt _ _) Hroom), tunSet_upd. cbv iota. eexists. split; [reflexivity|done].
Qed.

(** C7: a datagram that arrives at the exit is read by the initiator: of a
    datagram of at least 64 bytes the first 2048 go back in one cached message,
    and [Process], given the payload of that message, queues exactly those
    bytes with the sender's address; [ReadFrom] then returns them. *)
Theorem datagram_reaches_reader exitKey s datagram ip port (x g : State) sec o conn m t tun state size :
  g_sections x !! s = Some sec -> s_out sec = Some o ->
  g_trace (Listen_datagram s datagram ip port x).1 = g_trace x ++ [EvSend conn (MsgCached m) None] ->
  g_tuns g !! t = Some tun -> inUse tun -> samePayloadKeys exitKey (t_payloadKeys tun) o ->
  validIP ip = true -> port <= MaxUint16 ->
  exists tun' buf seqno,
    RegularOutTunnel_Process t (emc_Payload m) (StateMeta state) g = (tunSet t g tun', Ok buf) /\
    t_read tun' = t_read tun ++ [mkDeliverUDPPayload seqno ip port (take bufSize datagram)] /\
    (t_read tun = [] ->
       (ReadFrom t size (tunSet t g tun')).2 = Ok (Some (take size (take bufSize datagram), (ip, port)))).
Proof using KOk POk ROk.
  intros Hs Ho Htr Ht Huse Hkeys Hip Hport.
  destruct (Listen_datagram_sends _ _ _ _ _ _ _ _ _ Hs Ho Htr) as (seqno & k & bs & Hbs & Henc).
  destruct (samePayloadKeys_eq _ _ _ Hkeys) as (Hk & Hc & Hr). rewrite Hc in Hr.
  pose proof (payload_decrypts _ _ _ _ _ _ Hbs Henc Hr) as Hd. rewrite <- Hk, <- Hc in Hd.
  destruct (Process_queues t g tun _ _ _ _ state Ht Huse Hd (payload_roundtrip _ _ Hbs) Hip Hport)
    as (tun' & Hproc & Hread).
  exists tun', (take 16 (emc_Payload m) ++ bs), seqno. split; [done|]. split; [done|]. intros Hnil.
  unfold ReadFrom. rewrite bind_run, (getTun_run _ _ _ (tunSet_lookup t g tun')). cbv iota beta.
  rewrite Hread, Hnil. done.
Qed.
End Delivery.

(** ** Witnesses: the configured tunnel of [ClientWorlds] *)

Lemma samplePayloadOk : PayloadOk sampleWorld.
Proof.
  split; [apply samplePut_get|].
  intros p H. pose proof (samplePut_get p [] H). discriminate.
Qed.

Definition outOf {W : World} {Tun} (g : Gateway Tun) (s : nat) : Out :=
  default (newOut 0 (mkSock 0 0) [] (mkBindOut [] [] [] [] 0) 0) (s_out (sectionOf g s)).
Lemma outOf_known {W : World} {Tun} (g : Gateway Tun) s :
  known_b (s_out (sectionOf g s)) = true -> s_out (sectionOf g s) = Some (outOf g s).
Proof. unfold outOf. by destruct (s_out (sectionOf g s)). Qed.

Section Witnesses.
#[local] Existing Instances toyCipher sampleTL sampleKA sampleWorld sampleClientWorld sampleKA_ok samplePayloadOk sampleRandOk.

Lemma configured_keys :
  samePayloadKeys nodeKey (t_payloadKeys (tunOf configured.1 0)) (outOf configured.2 0).
Proof using Type.
  split; [exists [51; 52; 53; 2]; vm_compute; reflexivity|]. split; vm_compute; reflexivity.
Qed.

Definition aDatagram : bytes := replicate 70 7.

Lemma WriteTo_reaches_network_witness :
  exists conn m res,
    g_trace (WriteTo 0 [1; 2; 3] (Some ([8; 8; 8; 8], 53)) configured.1).1
      = g_trace configured.1 ++ [EvSend conn (MsgCached m) None] /\
    g_trace (CachedAction_Execute 0 SendOutCachedAction m configured.2).1
      = g_trace configured.2 ++ [EvWriteTo (o_conn (outOf configured.2 0)) [1; 2; 3] [8; 8; 8; 8] 53 res].
Proof using Type.
  assert (g_tuns configured.1 !! 0%nat = Some (tunOf configured.1 0)) as Ht
    by (apply tunOf_known; vm_compute; reflexivity).
  assert (WriteTo 0 [1; 2; 3] (Some ([8; 8; 8; 8], 53)) configured.1
    = ((WriteTo 0 [1; 2; 3] (Some ([8; 8; 8; 8], 53)) configured.1).1, Ok 3)) as Hw
    by (apply run_ok; vm_compute; reflexivity).
  assert (g_sections configured.2 !! 0%nat = Some (sectionOf configured.2 0)) as Hs
    by (apply sectionOf_known; vm_compute; reflexivity).
  assert (s_out (sectionOf configured.2 0) = Some (outOf configured.2 0)) as Ho
    by (apply outOf_known; vm_compute; reflexivity).
  assert (g_allowOut configured.2 = true) as Ha by (vm_compute; reflexivity).
  assert (outPaid (outOf configured.2 0) = true) as Hp by (vm_compute; reflexivity).
  assert ([1; 2; 3] <> []) as Hne by discriminate.
  destruct (WriteTo_reaches_network nodeKey 0 [1; 2; 3] [8; 8; 8; 8] 53 _ _ _ _ 3 0 _ _ Ht Hne Hw Hs Ho Ha
    configured_keys eq_refl Hp) as [_ H].
  exact H.
Defined.

Definition backMessage : EncryptedMessageCached :=
  match lastSent (Listen_datagram 0 aDatagram [8; 8; 8; 8] 53 configured.2).1 with
  | Some (MsgCached m) => m
  | _ => mkEncryptedMessageCached [] 0 []
  end.

Lemma datagram_reaches_reader_witness :
  exists tun' buf seqno,
    RegularOutTunnel_Process 0 (emc_Payload backMessage) (StateMeta StateTypeOptimizingRoutes) configured.1
      = (tunSet 0 configured.1 tun', Ok buf) /\
    t_read tun' = t_read (tunOf configured.1 0) ++ [mkDeliverUDPPayload seqno [8; 8; 8; 8] 53 (take bufSize aDatagram)] /\
    (t_read (tunOf configured.1 0) = [] ->
       (ReadFrom 0 1500 (tunSet 0 configured.1 tun')).2
         = Ok (Some (take 1500 (take bufSize aDatagram), ([8; 8; 8; 8], 53)))).
Proof using Type.
  assert (inUse (tunOf configured.1 0)) as Huse by (vm_compute; repeat split; congruence).
  exact (datagram_reaches_reader nodeKey 0 aDatagram [8; 8; 8; 8] 53 configured.2 configured.1
    (sectionOf configured.2 0) (outOf configured.2 0) (mkConn (le_decode clientKey) "10.0.0.9:1") backMessage 0
    (tunOf configured.1 0) StateTypeOptimizingRoutes 1500
    (sectionOf_known configured.2 0 ltac:(vm_compute; reflexivity))
    (outOf_known configured.2 0 ltac:(vm_compute; reflexivity)) ltac:(vm_compute; reflexivity)
    (tunOf_known configured.1 0 ltac:(vm_compute; reflexivity)) Huse configured_keys eq_refl
    ltac:(vm_compute; congruence)).
Defined.
End Witnesses.
