(* ===== verification/ClientOnion.v ===== *)
(** * What the nodes read of an initiator's messages

    The messages are built layer by layer, each layer with the keys of one
    node, whose counter moves.  [downTo_peels] turns a loop that encrypts one
    layer per node into the list of containers the nodes read, and the theorems
    say what these are for the messages that configure and close a tunnel. *)

From S2P Require Import Prelude Seqno Stream Wire Samples Keys PayChain Hoare State Peers Node Payments OutGate Gateway Worlds Traffic.
From S2P Require Import Client ClientMsg ClientPay ClientIO ClientFacts ClientWorlds.

(** The keys a node has for a section, and a list of nodes that have them. *)
Definition cipherOf (s : SectionInfo) : Z * bytes := (CipherKeyCRC (si_Keys s), CipherKey (si_Keys s)).
Definition keysOf (l : list SectionInfo) : list (Z * bytes) := cipherOf <$> l.

(** A section but for the counter of its keys. *)
Definition frozen (s : SectionInfo) : SectionInfo := set_si_Keys (setSeqno (si_Keys s) 0) s.

(** Two moments of a tunnel between which only counters moved, and none of the
    first [n] nodes. *)
Definition agrees (n : nat) (tun0 tun : RegularOutTunnel) : Prop :=
  frozen <$> t_chainTo tun = frozen <$> t_chainTo tun0 /\
  frozen <$> t_chainFrom tun = frozen <$> t_chainFrom tun0 /\
  take n (nodes tun) = take n (nodes tun0) /\
  t_localID tun = t_localID tun0 /\ t_payloadKeys tun = t_payloadKeys tun0.

Lemma take_take_eq {A} n m (l k : list A) : (m <= n)%nat -> take n l = take n k -> take m l = take m k.
Proof. intros Hm H. apply (f_equal (take m)) in H. by rewrite !take_take, Nat.min_l in H by done. Qed.

Lemma agrees_refl n tun : agrees n tun tun.
Proof. by repeat split. Qed.
Lemma agrees_le n m tun0 tun : (m <= n)%nat -> agrees n tun0 tun -> agrees m tun0 tun.
Proof.
  intros Hm (H1 & H2 & H3 & H). repeat split; try apply H; try done.
  by apply (take_take_eq n).
Qed.
Lemma agrees_lengths n tun0 tun :
  agrees n tun0 tun ->
  length (t_chainTo tun) = length (t_chainTo tun0) /\ length (t_chainFrom tun) = length (t_chainFrom tun0).
Proof. intros (H1 & H2 & _). apply (f_equal length) in H1, H2. by rewrite !length_fmap in H1, H2. Qed.
Lemma agrees_nodes n tun0 tun : agrees n tun0 tun -> frozen <$> nodes tun = frozen <$> nodes tun0.
Proof. intros (H1 & H2 & _). unfold nodes. rewrite !fmap_app. congruence. Qed.
Lemma agrees_lookup n i tun0 tun :
  agrees n tun0 tun -> (i < n)%nat -> nodes tun !! i = nodes tun0 !! i.
Proof. intros (_ & _ & H & _) Hi. rewrite <- (lookup_take_lt (nodes tun) n), <- (lookup_take_lt (nodes tun0) n) by done. by rewrite H. Qed.
Lemma agrees_frozen n i tun0 tun s :
  agrees n tun0 tun -> nodes tun !! i = Some s ->
  exists s0, nodes tun0 !! i = Some s0 /\ frozen s = frozen s0.
Proof.
  intros Ha Hi. pose proof (agrees_nodes _ _ _ Ha) as H.
  apply (f_equal (fun l => l !! i)) in H. rewrite !list_lookup_fmap, Hi in H.
  destruct (nodes tun0 !! i) as [s0|]; [|done]. exists s0. cbn in H. split; congruence.
Qed.

Lemma alter_frozen f i (l : list SectionInfo) :
  (forall s, frozen (f s) = frozen s) -> frozen <$> alter f i l = frozen <$> l.
Proof.
  intros Hf. apply list_eq. intros j. rewrite !list_lookup_fmap.
  destruct (decide (i = j)) as [->|Hne]; [rewrite list_lookup_alter_eq|by rewrite list_lookup_alter_ne].
  destruct (l !! j); [|done]. cbn. by rewrite Hf.
Qed.

Lemma alterNode_ext f h i tun :
  (forall s, nodes tun !! i = Some s -> f s = h s) -> alterNode i f tun = alterNode i h tun.
Proof.
  intros H. unfold alterNode, nodes in *. case_bool_decide as Hi; f_equal; apply list_alter_ext; try done;
    intros s Hs; apply H.
  - by apply lookup_app_l_Some.
  - by rewrite lookup_app_r by lia.
Qed.

Lemma agrees_alter n i f tun0 tun :
  agrees (S i) tun0 tun -> (forall s, frozen (f s) = frozen s) -> (n <= i)%nat ->
  agrees n tun0 (alterNode i f tun).
Proof.
  intros (H1 & H2 & H3 & H4 & H5) Hf Hn.
  assert (take n (nodes (alterNode i f tun)) = take n (nodes tun0)) as Htake.
  { rewrite nodes_alterNode. rewrite take_alter, decide_False by lia.
    apply (take_take_eq (S i)); [lia|done]. }
  split_and!; [..|exact Htake| |]; unfold alterNode; case_bool_decide; cbn; rewrite ?alter_frozen by done; done.
Qed.

(** ** One layer, and a loop of layers *)
Section Layers.
Context {C : CipherCtr} {T : TL} {TOk : TLOk T} {K : KeyAgreement} {KOk : KeyAgreementOk K} {W : World}
  {CW : ClientWorld} {ROk : RandOk W}.

Abbreviation State := (Gateway RegularOutTunnel).

Definition keysOk (tun : RegularOutTunnel) : Prop :=
  Forall (fun s => in_uint 64 (CipherKeyCRC (si_Keys s))) (nodes tun).

Lemma frozen_cipherOf s s0 : frozen s = frozen s0 -> cipherOf s = cipherOf s0 /\
  ek_SectionPubKey (si_Keys s) = ek_SectionPubKey (si_Keys s0) /\
  ReceiverPubKey (si_Keys s) = ReceiverPubKey (si_Keys s0) /\ si_PaymentInfo s = si_PaymentInfo s0.
Proof using Type.
  destruct s as [[] p], s0 as [[] p0]. unfold frozen, cipherOf. cbn. intros [= -> -> -> -> ->]. done.
Qed.

(** The layer of one node: what [EncryptInstructionsMessage] did with its keys. *)
Lemma encryptLayer_ok t i msg ins (g g' : State) tun msg' :
  g_tuns g !! t = Some tun -> encryptLayer t i msg ins g = (g', Ok msg') ->
  exists s r k',
    nodes tun !! i = Some s /\ length r = 8%nat /\
    EncryptInstructionsMessage (Some r) (si_Keys s) msg ins = (k', msg', Ok tt) /\
    k' = setSeqno (si_Keys s) (uint32 (ek_Seqno (si_Keys s) + 1)) /\
    g_tuns g' !! t = Some (alterNode i (set_si_Keys k') tun).
Proof using ROk.
  intros Ht H. unfold encryptLayer in H. ok_step H.
  apply (getNode_ok_inv _ _ _ _ _ _ Ht) in Hm as [-> Hi]. ok_step H. injection Hm as <- Hrnd.
  destruct (EncryptInstructionsMessage a0 (si_Keys a) msg ins) as [[k' m'] o] eqn:He.
  ok_step H. injection Hm as <- <-. ok_step H. injection Hm as <- ->. injection H as <- <-. destruct a1.
  apply EncryptInstructionsMessage_inv in He as Hinv. destruct Hinv as (bs & enc & _ & Henc & Hk & _).
  apply encryptStream_inv in Henc as (r & ks & Hr & _ & _).
  exists a, r, k'. split; [done|]. split; [apply (rand_full (g_tick g)); congruence|].
  split; [by rewrite <- Hr|]. split; [done|]. cbn. rewrite lookup_alter_eq, Ht. done.
Qed.

(** What a node at [i] is given, as a container. *)
Definition reads (s : SectionInfo) (spec : list instruction -> Prop) (c : InstructionsContainer) : Prop :=
  ic_Seqno c = uint32 (ek_Seqno (si_Keys s) + 1) /\ spec (ic_List c).

Definition plainList (l : list instruction) : Prop :=
  Forall encodable l /\ Z.of_nat (length l) < 2 ^ 32.

Lemma encryptLayer_peels t i msg ins (g g' : State) tun msg' :
  g_tuns g !! t = Some tun -> keysOk tun -> plainList ins -> encryptLayer t i msg ins g = (g', Ok msg') ->
  exists s f,
    nodes tun !! i = Some s /\ (forall s, frozen (f s) = frozen s) /\
    g_tuns g' !! t = Some (alterNode i f tun) /\
    em_SectionPubKey msg' = ek_SectionPubKey (si_Keys s) /\ em_Payload msg' = em_Payload msg /\
    forall ks cs rest, peelLayers ks (em_Instructions msg) = Ok (cs, rest) ->
      peelLayers (cipherOf s :: ks) (em_Instructions msg')
        = Ok (mkContainer (uint32 (ek_Seqno (si_Keys s) + 1)) ins :: cs, rest).
Proof using TOk ROk.
  intros Ht Hk [Henc Hlen] H.
  destruct (encryptLayer_ok _ _ _ _ _ _ _ _ Ht H) as (s & r & k' & Hi & Hr & He & Hk' & Hg).
  assert (wfLayer (mkLayer (si_Keys s) r ins)) as Hwf.
  { split; [done|]. split; [|done]. exact (proj1 (Forall_lookup _ _) Hk _ _ Hi). }
  exists s, (fun s' => set_si_Keys (setSeqno (si_Keys s') (uint32 (ek_Seqno (si_Keys s) + 1))) s').
  split; [done|]. split; [by intros [[] ?]|]. split.
  { rewrite Hg. f_equal. apply alterNode_ext. intros s' Hs'. rewrite Hi in Hs'. injection Hs' as <-. by subst k'. }
  apply EncryptInstructionsMessage_inv in He as Hinv. destruct Hinv as (bs & enc & _ & _ & _ & Hm).
  split; [by rewrite Hm|]. split; [by rewrite Hm|]. intros ks cs rest Hp. cbn [peelLayers].
  unfold cipherOf. rewrite (decryptMessage_layer (mkLayer (si_Keys s) r ins) msg k' msg' Hwf He). go_bind.
  rewrite Hp. go_bind. done.
Qed.

Definition readBy (tun : RegularOutTunnel) (off n : nat) (spec : nat -> list instruction -> Prop)
    (cs : list InstructionsContainer) : Prop :=
  length cs = n /\
  forall i c, cs !! i = Some c -> exists s, nodes tun !! (off + i)%nat = Some s /\ reads s (spec i) c.

Lemma agrees_keysOk n tun0 tun : agrees n tun0 tun -> keysOk tun0 -> keysOk tun.
Proof using Type.
  intros Ha Hk. apply Forall_lookup. intros i s Hs.
  destruct (agrees_frozen _ _ _ _ _ Ha Hs) as (s0 & Hs0 & Hf).
  apply frozen_cipherOf in Hf as [[= -> _] _]. exact (proj1 (Forall_lookup _ _) Hk _ _ Hs0).
Qed.

(** A loop that encrypts one layer for each of [n] nodes from position [off]:
    the nodes read, in order, lists that satisfy [spec].  The first round, for
    the last of the [N] nodes, finds the tunnel as it was. *)
Lemma downTo_peels t off N n tun0 body (spec : nat -> list instruction -> Prop) (g g' : State) msg msg' tun :
  keysOk tun0 -> (forall i l, spec i l -> plainList l) ->
  (forall i (g g' : State) msg msg' tun, (i < n)%nat -> g_tuns g !! t = Some tun ->
     agrees (off + S i) tun0 tun -> (S i = N -> tun = tun0) -> body i msg g = (g', Ok msg') ->
     exists g1 tun1 ins, g_tuns g1 !! t = Some tun1 /\ agrees (off + S i) tun0 tun1 /\ spec i ins /\
       encryptLayer t (off + i) msg ins g1 = (g', Ok msg')) ->
  g_tuns g !! t = Some tun -> agrees (off + n) tun0 tun -> (n <= N)%nat -> (n = N -> tun = tun0) -> downTo n body msg g = (g', Ok msg') ->
  exists tun', g_tuns g' !! t = Some tun' /\ agrees off tun0 tun' /\ em_Payload msg' = em_Payload msg /\
    ((0 < n)%nat -> exists s, nodes tun0 !! off = Some s /\ em_SectionPubKey msg' = ek_SectionPubKey (si_Keys s)) /\
    forall ks cs rest, peelLayers ks (em_Instructions msg) = Ok (cs, rest) ->
      exists cs', peelLayers (keysOf (take n (drop off (nodes tun0))) ++ ks) (em_Instructions msg')
          = Ok (cs' ++ cs, rest) /\ readBy tun0 off n spec cs'.
Proof using TOk ROk.
  intros Hk0 Hplain. revert g msg tun. induction n as [|n IH]; intros g msg tun Hbody Ht Ha HN Hfirst H.
  { injection H as <- <-. exists tun. rewrite Nat.add_0_r in Ha. split_and!; [done..|lia|].
    intros ks cs rest Hp. exists []. by rewrite take_0. }
  cbn [downTo] in H. ok_step H. rename s into g1', a into msg1.
  destruct (Hbody n g g1' msg msg1 tun ltac:(lia) Ht Ha Hfirst Hm) as (g1 & tun1 & ins & Ht1 & Ha1 & Hspec & Henc).
  destruct (encryptLayer_peels _ _ _ _ _ _ _ _ Ht1 (agrees_keysOk _ _ _ Ha1 Hk0) (Hplain _ _ Hspec) Henc)
    as (s & f & Hs & Hf & Hg1 & Hpub & Hpay & Hpeel).
  assert (nodes tun0 !! (off + n)%nat = Some s) as Hs0 by (rewrite <- (agrees_lookup _ (off + n) _ _ Ha1 ltac:(lia)); done).
  assert (agrees (off + n) tun0 (alterNode (off + n) f tun1)) as Ha'.
  { apply agrees_alter; [|done|lia]. by replace (S (off + n)) with (off + S n)%nat by lia. }
  destruct (IH g1' msg1 _ ltac:(intros; eapply Hbody; eauto; lia) Hg1 Ha' ltac:(lia) ltac:(lia) H)
    as (tun' & Ht' & Ha'' & Hpay' & Hpub' & Hpeel').
  exists tun'. split_and!; [done|done|congruence| |].
  { intros _. destruct n as [|n]; [|apply Hpub'; lia]. injection H as <- <-. rewrite Nat.add_0_r in Hs0. eauto. }
  intros ks cs rest Hp. destruct (Hpeel' _ _ _ (Hpeel _ _ _ Hp)) as (cs' & Hp' & Hlen & Hr).
  eexists (cs' ++ [_]). split.
  { rewrite (take_S_r _ _ s) by (by rewrite lookup_drop). unfold keysOf. rewrite fmap_app, <- !app_assoc. exact Hp'. }
  split; [rewrite length_app, Hlen; simpl; lia|]. intros i c Hc.
  apply lookup_app_Some in Hc as [Hc|[Hi Hc]]; [by apply Hr|].
  apply list_lookup_singleton_Some in Hc as [Hi' <-]. replace i with n by lia. exists s. done.
Qed.

(** ** The instructions of the messages *)

(** The route id of a section key. *)
Definition idOf (s : SectionInfo) : Z := le_decode (take 4 (ek_SectionPubKey (si_Keys s))).

(** A node that forwards: at first it is also told to build the route, its
    system route and the cached action. *)
Definition routeSpec (tun : RegularOutTunnel) (initial : bool) (i : nat) (l : list instruction) : Prop :=
  exists cur next adnl v,
    nodes tun !! i = Some cur /\ nodes tun !! S i = Some next /\
    cw_hash (ReceiverPubKey (si_Keys next)) = Some adnl /\ in_uint 64 v /\
    let build id := BuildRoute (mkBuildRoute adnl (ek_SectionPubKey (si_Keys next)) id (priceOf cur)) in
    l = (if initial then [build (idOf next); Cache v [Route (idOf next)]; build (systemRoute (idOf next))] else [])
        ++ [Route (idOf next)].

Definition closeSpec (tun : RegularOutTunnel) (i : nat) (l : list instruction) : Prop :=
  match nodes tun !! S i with
  | None => l = [DeliverInitiator (t_localID tun) (StateMeta StateTypeDestroyed)]
  | Some next => l = [Route (systemRoute (idOf next)); Destroy]
  end.

Lemma plain_cache v i : in_uint 64 v -> kindOf i <> Some KCache -> encodable (Cache v [i]).
Proof using Type. intros Hv Hi. apply encodable_cache; [done|simpl; lia|]. by repeat constructor. Qed.

Lemma routeSpec_plain tun initial i l : routeSpec tun initial i l -> plainList l.
Proof using Type.
  intros (cur & next & adnl & v & _ & _ & _ & Hv & ->). split; [|destruct initial; simpl; lia].
  destruct initial; repeat apply Forall_cons_2; try apply Forall_nil_2; try (by apply encodable_plain).
  by apply plain_cache.
Qed.
Lemma closeSpec_plain tun i l : closeSpec tun i l -> plainList l.
Proof using Type.
  unfold closeSpec. destruct (nodes tun !! S i); intros ->; (split; [|simpl; lia]);
    repeat apply Forall_cons_2; try apply Forall_nil_2; by apply encodable_plain.
Qed.

Lemma idOf_frozen s s0 : frozen s = frozen s0 -> idOf s = idOf s0.
Proof using Type. intros H%frozen_cipherOf. unfold idOf. by destruct H as (_ & -> & _). Qed.

Lemma routeSpec_agrees n tun0 tun initial i l :
  agrees n tun0 tun -> routeSpec tun initial i l -> routeSpec tun0 initial i l.
Proof using Type.
  intros Ha (cur & next & adnl & v & Hc & Hn & Hh & Hv & ->).
  destruct (agrees_frozen _ _ _ _ _ Ha Hc) as (cur0 & Hc0 & Hfc).
  destruct (agrees_frozen _ _ _ _ _ Ha Hn) as (next0 & Hn0 & Hfn).
  rewrite (idOf_frozen _ _ Hfn). apply frozen_cipherOf in Hfc as (_ & _ & _ & Hpc), Hfn as (_ & Hpub & Hrec & _).
  unfold priceOf. rewrite Hpc, Hpub. exists cur0, next0, adnl, v. rewrite <- Hrec. done.
Qed.

Lemma Uint32_ok_inv bs id : Uint32 bs = Ok id -> id = le_decode (take 4 bs).
Proof using Type. unfold Uint32. destruct (_ <? 4); [done|]. by intros <-%Ok_inj. Qed.

Lemma adnlOf_ok_inv s (g g' : State) id :
  adnlOf s g = (g', Ok id) -> g' = g /\ cw_hash (ReceiverPubKey (si_Keys s)) = Some id.
Proof using Type.
  unfold adnlOf. rewrite wrapM_run, lift_run. cbn [fst snd]. destruct (cw_hash _); simpl; [|done].
  by intros [= <- <-].
Qed.

Lemma cacheVersion_ok_inv (g g' : State) v :
  cacheVersion g = (g', Ok v) -> g_tuns g' = g_tuns g /\ in_uint 64 v.
Proof using Type. unfold cacheVersion. run. intros [= <- <-]. split; [done|]. apply uint_range. lia. Qed.

Lemma buildRoute_layer t initial msg i (g g' : State) tun msg' :
  g_tuns g !! t = Some tun -> buildRoute t initial msg i true g = (g', Ok msg') ->
  exists g1 ins, g_tuns g1 = g_tuns g /\ routeSpec tun initial i ins /\
    encryptLayer t i msg ins g1 = (g', Ok msg').
Proof using Type.
  intros Ht H. unfold buildRoute in H. ok_step H. apply (getNode_ok_inv _ _ _ _ _ _ Ht) in Hm as [-> Hc].
  ok_step H. apply (getNode_ok_inv _ _ _ _ _ _ Ht) in Hm as [-> Hn].
  ok_step H. apply adnlOf_ok_inv in Hm as [-> Hh]. ok_step H. injection Hm as <- Hid.
  apply Uint32_ok_inv in Hid. subst. ok_step H. apply wrapM_ok_inv in H. exists s, (a2 ++ [Route (idOf a0)]).
  destruct initial.
  - ok_step Hm. apply cacheVersion_ok_inv in Hm0 as [Hg Hv]. injection Hm as <- <-.
    split; [done|]. split; [|exact H]. by exists a, a0, a1, a3.
  - injection Hm as <- <-. split; [done|]. split; [|exact H]. exists a, a0, a1, 0. done.
Qed.

(** The nodes derive the keys of a tunnel from its section keys. *)
Lemma sections_agree (l : list SectionInfo) privates :
  Forall2 (fun s np => keysFor np (si_Keys s)) l privates ->
  mapM (fun '(s, np) => sectionKeys np (ek_SectionPubKey (si_Keys s))) (zip l privates) = Some (keysOf l) /\
  Forall (fun s => in_uint 64 (CipherKeyCRC (si_Keys s))) l.
Proof using KOk.
  induction 1 as [|s np l privates Hk _ [IH1 IH2]]; [done|].
  destruct (keysFor_facts np (si_Keys s) Hk) as [Hs Hc]. split; [|by constructor].
  cbn [zip_with mapM]. rewrite Hs. cbn [mbind option_bind]. by rewrite IH1.
Qed.

(** C13: the closing message: every node on the way there and back reads with
    its own key a route over the system route to the next node followed by
    [Destroy], in that order, so that the message is passed on before the
    section is gone; the last one, the initiator itself, reads that its tunnel
    is destroyed.  Each layer carries the next number of its section. *)
Theorem close_message_read t (g g' : State) tun privates msg :
  g_tuns g !! t = Some tun -> Forall2 (fun s np => keysFor np (si_Keys s)) (nodes tun) privates ->
  prepareTunnelCloseMessage t g = (g', Ok msg) ->
  exists ks cs,
    mapM (fun '(s, np) => sectionKeys np (ek_SectionPubKey (si_Keys s))) (zip (nodes tun) privates) = Some ks /\
    peelLayers ks (em_Instructions msg) = Ok (cs, []) /\
    readBy tun 0 (length (nodes tun)) (closeSpec tun) cs.
Proof using TOk KOk ROk.
  intros Ht Hkeys H. destruct (sections_agree _ _ Hkeys) as [Hks Hk]. exists (keysOf (nodes tun)).
  unfold prepareTunnelCloseMessage in H. rewrite bind_run, (getTun_run _ _ _ Ht) in H. cbv beta iota zeta in H.
  eapply (downTo_peels t 0 (length (nodes tun)) _ tun _ (closeSpec tun) _ _ _ _ tun) in H; [|done|apply closeSpec_plain| |done|apply agrees_refl|lia|done].
  - destruct H as (_ & _ & _ & _ & _ & Hpeel). destruct (Hpeel [] [] [] eq_refl) as (cs & Hp & Hr).
    exists cs. rewrite drop_0, firstn_all, app_nil_r in Hp. rewrite app_nil_r in Hp. done.
  - clear. intros i g g' msg msg' tun1 Hi Ht Ha _ H. destruct (Nat.eqb_spec (S i) (length (nodes tun))) as [E|E].
    + apply wrapM_ok_inv in H. eexists g, tun1, _. split_and!; [done|done| |exact H].
      unfold closeSpec. by rewrite lookup_ge_None_2 by lia.
    + ok_step H. apply (getNode_ok_inv _ _ _ _ _ _ Ht) in Hm as [-> Hn]. ok_step H.
      injection Hm as <- Hid. apply Uint32_ok_inv in Hid. subst. apply wrapM_ok_inv in H.
      eexists g, tun1, _. split_and!; [done|done| |exact H].
      destruct (agrees_frozen _ _ _ _ _ Ha Hn) as (next0 & Hn0 & Hf). unfold closeSpec. rewrite Hn0.
      rewrite <- (idOf_frozen _ _ Hf). done.
Qed.

(** The way back from the exit: the last node is the initiator, which is told
    to deliver, and to do so with later packets of the same section. *)
Definition backSpec (tun : RegularOutTunnel) (state : Z) (y : nat) (l : list instruction) : Prop :=
  let i := (length (t_chainTo tun) + y)%nat in
  match nodes tun !! S i with
  | None => exists v, in_uint 64 v /\
      let ins := DeliverInitiator (t_localID tun) (StateMeta state) in l = [ins; Cache v [ins]]
  | Some _ => routeSpec tun (state =? StateTypeConfiguring) i l
  end.

(** The exit is told to open a port for the way back. *)
Definition exitSpec (tun : RegularOutTunnel) (state : Z) (l : list instruction) : Prop :=
  exists first exit adnl v back cs,
    head (t_chainFrom tun) = Some first /\ nodes tun !! (length (t_chainTo tun) - 1)%nat = Some exit /\
    cw_hash (ReceiverPubKey (si_Keys first)) = Some adnl /\ in_uint 64 v /\
    let pub := ek_SectionPubKey (si_Keys first) in
    l = [BuildRoute (mkBuildRoute adnl pub (systemRoute (idOf first)) (priceOf exit));
         BindOut (mkBindOut adnl pub back (ek_SectionPubKey (t_payloadKeys tun)) (priceOf exit));
         Cache v [SendOut]] /\
    peelLayers (keysOf (t_chainFrom tun)) back = Ok (cs, []) /\
    readBy tun (length (t_chainTo tun)) (length (t_chainFrom tun)) (backSpec tun state) cs.

Definition initSpec (tun : RegularOutTunnel) (state : Z) (i : nat) (l : list instruction) : Prop :=
  if bool_decide (S i = length (t_chainTo tun)) then exitSpec tun state l
  else routeSpec tun (state =? StateTypeConfiguring) i l.

Lemma backSpec_plain tun state y l : backSpec tun state y l -> plainList l.
Proof using Type.
  unfold backSpec. destruct (nodes tun !! S _); [apply routeSpec_plain|]. intros (v & Hv & ->).
  split; [|simpl; lia]. apply Forall_cons_2; [by apply encodable_plain|]. apply Forall_cons_2; [|done].
  by apply plain_cache.
Qed.
Lemma initSpec_plain tun state i l : initSpec tun state i l -> plainList l.
Proof using Type.
  unfold initSpec. case_bool_decide; [|apply routeSpec_plain].
  intros (first & exit & adnl & v & back & cs & _ & _ & _ & Hv & -> & _). split; [|simpl; lia].
  do 2 (apply Forall_cons_2; [by apply encodable_plain|]). apply Forall_cons_2; [|done]. by apply plain_cache.
Qed.

Lemma prepareBackMessage_peels t state (g g' : State) tun0 msg :
  keysOk tun0 -> g_tuns g !! t = Some tun0 -> prepareBackMessage t state g = (g', Ok msg) ->
  exists tun' cs, g_tuns g' !! t = Some tun' /\ agrees (length (t_chainTo tun0)) tun0 tun' /\
    (forall first, head (t_chainFrom tun0) = Some first -> em_SectionPubKey msg = ek_SectionPubKey (si_Keys first)) /\
    peelLayers (keysOf (t_chainFrom tun0)) (em_Instructions msg) = Ok (cs, []) /\
    readBy tun0 (length (t_chainTo tun0)) (length (t_chainFrom tun0)) (backSpec tun0 state) cs.
Proof using TOk ROk.
  intros Hk Ht H. unfold prepareBackMessage in H. rewrite bind_run, (getTun_run _ _ _ Ht) in H. cbv beta iota zeta in H.
  assert (length (nodes tun0) = length (t_chainTo tun0) + length (t_chainFrom tun0))%nat as Hlen by apply length_app.
  eapply (downTo_peels t (length (t_chainTo tun0)) (length (t_chainFrom tun0)) _ tun0 _ (backSpec tun0 state) _ _ _ _ tun0) in H;
    [|done|apply backSpec_plain| |done|apply agrees_refl|lia|done].
  - destruct H as (tun' & Ht' & Ha' & _ & Hpub & Hpeel). destruct (Hpeel [] [] [] eq_refl) as (cs & Hp & Hr).
    exists tun', cs. split_and!; [done|done| | |done].
    + intros first Hfirst. destruct (t_chainFrom tun0) as [|x l] eqn:Ex; [done|]. injection Hfirst as ->.
      destruct (Hpub ltac:(simpl; lia)) as (s & Hs & ->). unfold nodes in Hs.
      rewrite lookup_app_r, Nat.sub_diag, Ex in Hs by lia. by injection Hs as <-.
    + unfold nodes in Hp. rewrite drop_app_length, firstn_all, !app_nil_r in Hp. done.
  - clear - Hlen. intros i g g' msg msg' tun1 Hi Ht Ha _ H.
    destruct (Nat.eqb_spec (S i) (length (t_chainFrom tun0))) as [E|E].
    + ok_step H. apply cacheVersion_ok_inv in Hm as [Hg Hv]. apply wrapM_ok_inv in H.
      eexists s, tun1, _. split_and!; [by rewrite Hg|done| |exact H].
      unfold backSpec. rewrite lookup_ge_None_2 by lia. eauto.
    + apply wrapM_ok_inv in H. destruct (buildRoute_layer _ _ _ _ _ _ _ _ Ht H) as (g1 & ins & Hg & Hspec & He).
      exists g1, tun1, ins. split_and!; [by rewrite Hg|done| |done]. unfold backSpec.
      destruct (lookup_lt_is_Some_2 (nodes tun0) (S (length (t_chainTo tun0) + i))) as [x ->]; [lia|].
      by apply (routeSpec_agrees _ _ _ _ _ _ Ha).
Qed.

Lemma encryptExit_layer t state msg i (g g' : State) tun0 msg' :
  keysOk tun0 -> S i = length (t_chainTo tun0) -> state <= StateTypeOptimizingRoutes ->
  g_tuns g !! t = Some tun0 -> encryptExit t state msg i g = (g', Ok msg') ->
  exists g1 tun1 ins, g_tuns g1 !! t = Some tun1 /\ agrees (S i) tun0 tun1 /\ exitSpec tun0 state ins /\
    encryptLayer t i msg ins g1 = (g', Ok msg').
Proof using TOk ROk.
  intros Hk Hi Hst Ht H. unfold encryptExit in H. rewrite bind_run, (getTun_run _ _ _ Ht) in H.
  cbv beta iota zeta in H. rewrite (proj2 (Z.leb_le _ _) Hst) in H. ok_step H. rename s into g1, a into backMsg.
  destruct (prepareBackMessage_peels _ _ _ _ _ _ Hk Ht Hm) as (tun1 & cs & Ht1 & Ha1 & Hpub & Hp & Hr).
  destruct (t_chainFrom tun0) as [|first rest] eqn:E0; [done|].
  specialize (Hpub first eq_refl). rewrite Hpub in H.
  ok_step H. apply adnlOf_ok_inv in Hm0 as [-> Hh]. ok_step H.
  apply (getNode_ok_inv _ _ _ _ _ _ Ht1) in Hm0 as [-> Hex]. ok_step H. injection Hm0 as <- Hid.
  apply Uint32_ok_inv in Hid. subst. ok_step H. apply cacheVersion_ok_inv in Hm0 as [Hg Hv].
  apply wrapM_ok_inv in H. eexists s, tun1, _. rewrite <- Hi in Ha1. split_and!; [by rewrite Hg|done| |exact H].
  rewrite (agrees_lookup _ i _ _ Ha1) in Hex by lia.
  exists first, a0, a, a1, (em_Instructions backMsg), cs. rewrite E0. split_and!; try done.
  by replace (length (t_chainTo tun0) - 1)%nat with i by lia.
Qed.

(** C12: the configuration message: every node on the way to the exit reads with
    its own key an instruction to build the route to the next node, its system
    route and the cached action (in the first round only) and to pass the rest
    on; the exit reads a system route and an instruction to open a port whose
    traffic goes back through the return path, and the bytes it is given for
    that path are read in the same way by the nodes of it, the last of which
    delivers to the initiator. *)
Theorem init_message_read t state (g g' : State) tun privates msg :
  g_tuns g !! t = Some tun -> Forall2 (fun s np => keysFor np (si_Keys s)) (nodes tun) privates ->
  state <= StateTypeOptimizingRoutes -> prepareInitMessage t state g = (g', Ok msg) ->
  exists cs tun',
    peelLayers (keysOf (t_chainTo tun)) (em_Instructions msg) = Ok (cs, []) /\
    readBy tun 0 (length (t_chainTo tun)) (initSpec tun state) cs /\
    g_tuns g' !! t = Some tun' /\ t_tunnelState tun' = state /\
    mapM (fun '(s, np) => sectionKeys np (ek_SectionPubKey (si_Keys s))) (zip (nodes tun) privates)
      = Some (keysOf (t_chainTo tun) ++ keysOf (t_chainFrom tun)).
Proof using TOk KOk ROk.
  intros Ht Hkeys Hst H. destruct (sections_agree _ _ Hkeys) as [Hks Hk].
  unfold prepareInitMessage in H. rewrite bind_run, (getTun_run _ _ _ Ht) in H. cbv beta iota zeta in H.
  ok_step H. ok_step H. injection Hm0 as <- <-. injection H as <- <-. rename s into g1, a into msg.
  eapply (downTo_peels t 0 (length (t_chainTo tun)) _ tun _ (initSpec tun state) _ _ _ _ tun) in Hm;
    [|done|apply initSpec_plain| |done|apply agrees_refl|lia|done].
  - destruct Hm as (tun' & Ht' & _ & _ & _ & Hpeel). destruct (Hpeel [] [] [] eq_refl) as (cs & Hp & Hr).
    exists cs, (set_t_tunnelState state tun'). rewrite drop_0, !app_nil_r in Hp. unfold nodes in Hp at 1.
    rewrite take_app_length in Hp. split_and!; [done|done| |done|].
    + cbn. by rewrite lookup_alter_eq, Ht'.
    + rewrite Hks. unfold keysOf, nodes. by rewrite fmap_app.
  - clear Ht Hks Hm. intros i ga gb ma mb tun1 Hi Ht Ha Hfirst H. unfold initSpec.
    destruct (Nat.eqb_spec (S i) (length (t_chainTo tun))) as [E|E].
    + rewrite bool_decide_true by done. rewrite (Hfirst E) in Ht.
      exact (encryptExit_layer _ _ _ _ _ _ tun _ Hk E Hst Ht H).
    + rewrite bool_decide_false by done. apply wrapM_ok_inv in H.
      destruct (buildRoute_layer _ _ _ _ _ _ _ _ Ht H) as (gc & ins & Hg & Hspec & He).
      exists gc, tun1, ins. split_and!; [by rewrite Hg|done| |done]. by apply (routeSpec_agrees _ _ _ _ _ _ Ha).
Qed.
End Layers.

(** ** Witnesses: a tunnel over five nodes *)
Section Witnesses.
#[local] Existing Instances toyCipher sampleTL sampleTL_ok sampleKA sampleWorld sampleClientWorld sampleKA_ok sampleRandOk.

(** The message of a run that succeeds. *)
Definition resultOf (m : GM RegularOutTunnel EncryptedMessage) : EncryptedMessage :=
  match (m longClient).2 with Ok msg => msg | _ => emptyMessage end.

Lemma close_message_read_witness :
  exists ks cs,
    mapM (fun '(s, np) => sectionKeys np (ek_SectionPubKey (si_Keys s))) (zip longSections longPrivates) = Some ks /\
    peelLayers ks (em_Instructions (resultOf (prepareTunnelCloseMessage 0))) = Ok (cs, []) /\
    readBy (tunOf longClient 0) 0 5 (closeSpec (tunOf longClient 0)) cs.
Proof using Type.
  assert (prepareTunnelCloseMessage 0 longClient = ((prepareTunnelCloseMessage 0 longClient).1,
    Ok (resultOf (prepareTunnelCloseMessage 0)))) as H by (apply run_ok; vm_compute; reflexivity).
  pose proof (close_message_read 0 longClient (prepareTunnelCloseMessage 0 longClient).1 (tunOf longClient 0)
    longPrivates (resultOf (prepareTunnelCloseMessage 0)) longClient_known) as Hc.
  rewrite longClient_nodes in Hc. exact (Hc longSections_keys H).
Defined.

Lemma init_message_read_witness :
  exists cs tun',
    peelLayers (keysOf (t_chainTo (tunOf longClient 0)))
      (em_Instructions (resultOf (prepareInitMessage 0 StateTypeConfiguring))) = Ok (cs, []) /\
    readBy (tunOf longClient 0) 0 (length (t_chainTo (tunOf longClient 0)))
      (initSpec (tunOf longClient 0) StateTypeConfiguring) cs /\
    g_tuns (prepareInitMessage 0 StateTypeConfiguring longClient).1 !! 0%nat = Some tun' /\
    t_tunnelState tun' = StateTypeConfiguring /\
    mapM (fun '(s, np) => sectionKeys np (ek_SectionPubKey (si_Keys s))) (zip longSections longPrivates)
      = Some (keysOf (t_chainTo (tunOf longClient 0)) ++ keysOf (t_chainFrom (tunOf longClient 0))).
Proof using Type.
  assert (prepareInitMessage 0 StateTypeConfiguring longClient = ((prepareInitMessage 0 StateTypeConfiguring longClient).1,
    Ok (resultOf (prepareInitMessage 0 StateTypeConfiguring)))) as H by (apply run_ok; vm_compute; reflexivity).
  pose proof (init_message_read 0 StateTypeConfiguring longClient
    (prepareInitMessage 0 StateTypeConfiguring longClient).1 (tunOf longClient 0) longPrivates
    (resultOf (prepareInitMessage 0 StateTypeConfiguring)) longClient_known) as Hc.
  rewrite longClient_nodes in Hc. exact (Hc longSections_keys ltac:(discriminate) H).
Defined.
End Witnesses.
