(* ===== verification/ClientPayFacts.v ===== *)
(** * What a control message pays

    Every state an initiator signs is within the capacity of its channel, the
    amounts of a channel only grow, and a control message that can not be
    completed books no payment. *)

From S2P Require Import Prelude Seqno Stream Wire Samples Keys PayChain Hoare State Peers Node Payments OutGate Gateway Worlds Traffic.
From S2P Require Import Client ClientMsg ClientPay ClientIO ClientFacts ClientWorlds.

(** A step whose result is known to the rest. *)
Lemma preserves_bind_res {S A B} (P : S -> Prop) (m : M S A) (k : A -> M S B) :
  preserves P m -> (forall s a, P s -> (m s).2 = Ok a -> preserves P (k a)) -> preserves P (m ≫= k).
Proof.
  intros Hm Hk s Hs. specialize (Hm s Hs). specialize (Hk s). rewrite bind_run.
  destruct (m s) as [s' [a|e|w]]; [|done|done]. by apply (Hk a).
Qed.

Lemma last_lookup {A} (l : list A) d j x : l !! j = Some x -> length l = S j -> List.last l d = x.
Proof.
  revert j. induction l as [|a l IH]; intros j Hj Hl; [done|]. simpl in Hl. injection Hl as Hl.
  destruct l as [|b l]; [subst j; by injection Hj|]. destruct j as [|j]; [done|]. by apply (IH j).
Qed.

Lemma run_err {S A} (m : M S A) (g : S) e : (m g).2 = Err e -> m g = ((m g).1, Err e).
Proof. destruct (m g) as [g' o]. cbn. congruence. Qed.

Section PayFacts.
Context {C : CipherCtr} {T : TL} {K : KeyAgreement} {W : World} {CW : ClientWorld}.

Abbreviation State := (Gateway RegularOutTunnel).

(** ** Properties of one tunnel *)
Section OnTunnel.
Context (t : nat) (Q : RegularOutTunnel -> Prop).

Definition onTun (g : State) : Prop := exists tun, g_tuns g !! t = Some tun /\ Q tun.

Lemma onTun_tuns (g g' : State) : g_tuns g' = g_tuns g -> onTun g -> onTun g'.
Proof using Type. unfold onTun. by intros ->. Qed.
Lemma onTun_ask {A} (f : nat -> A) : preserves onTun (ask f).
Proof using Type. intros g Hg. by apply (onTun_tuns g). Qed.
Lemma onTun_emit e : preserves onTun (emit e).
Proof using Type. intros g Hg. by apply (onTun_tuns g). Qed.
Lemma onTun_updTun f : (forall tun, Q tun -> Q (f tun)) -> preserves onTun (updTun t f).
Proof using Type.
  intros Hf g (tun & Ht & HQ). exists (f tun). cbn. rewrite lookup_alter_eq, Ht. auto.
Qed.
Lemma onTun_getTun : preserves onTun (getTun t).
Proof using Type. apply preserves_deref. Qed.
Lemma onTun_getNode i : preserves onTun (getNode t i).
Proof using Type. pose proof onTun_getTun. unfold getNode. pres. Qed.
Lemma onTun_getPayer i : preserves onTun (getPayer t i).
Proof using Type. pose proof onTun_getNode. unfold getPayer. pres. Qed.
End OnTunnel.
Hint Resolve onTun_ask onTun_emit onTun_updTun onTun_getTun onTun_getNode onTun_getPayer : pres.

Lemma getPayer_inv t i (g : State) p :
  (getPayer t i g).2 = Ok p -> exists tun s,
    g_tuns g !! t = Some tun /\ nodes tun !! i = Some s /\ si_PaymentInfo s = Some p.
Proof using Type.
  unfold getPayer, getNode, getTun, deref. rewrite !bind_run.
  destruct (g_tuns g !! t) as [tun|]; [|done]. destruct (nodes tun !! i) as [s|] eqn:Hs; [|done].
  rewrite ret_run. cbv iota beta. destruct (si_PaymentInfo s) as [p'|] eqn:Hp; [|done].
  intros [= <-]. by exists tun, s.
Qed.

(** ** What is not spent *)

(** A payer before and while a message is built: a payment that can not be
    confirmed any more may have been taken back and a channel opened, but
    nothing was paid. *)
Definition unspent (p p' : Payer) : Prop :=
  py_PricePerPacket p' = py_PricePerPacket p /\
  py_LatestPacketsPaid p' = py_LatestPacketsPaid p /\ py_LatestPaidOnSeqno p' = py_LatestPaidOnSeqno p /\
  ((py_PaidPackets p' = py_PaidPackets p /\ py_LatestInstruction p' = py_LatestInstruction p) \/
   (py_LatestInstruction p <> None /\ py_LatestInstruction p' = None /\
    py_PaidPackets p' = int64 (py_PaidPackets p - py_LatestPacketsPaid p))) /\
  (py_CurrentChannel p' = py_CurrentChannel p \/ py_CurrentChannel p' = None \/
   exists ch, py_CurrentChannel p' = Some ch /\ LastAmount ch = 0).

Definition unspentNode (s s' : SectionInfo) : Prop := option_Forall2 unspent (si_PaymentInfo s) (si_PaymentInfo s').

Definition unspentTun (tun0 tun : RegularOutTunnel) : Prop :=
  t_controlSeqno tun = t_controlSeqno tun0 /\ Forall2 unspentNode (nodes tun0) (nodes tun).

Lemma unspent_refl p : unspent p p.
Proof using Type. unfold unspent. auto 10. Qed.
Lemma unspentTun_refl tun : unspentTun tun tun.
Proof using Type.
  split; [done|]. apply Forall2_same_length_lookup. split; [done|]. intros i x y -> [= <-].
  unfold unspentNode. destruct (si_PaymentInfo x); constructor. apply unspent_refl.
Qed.

Lemma unspent_alter tun0 tun i f :
  unspentTun tun0 tun ->
  (forall s0 s, nodes tun0 !! i = Some s0 -> nodes tun !! i = Some s -> unspentNode s0 s -> unspentNode s0 (f s)) ->
  unspentTun tun0 (alterNode i f tun).
Proof using Type.
  intros [Hs Hn] Hf. split; [by unfold alterNode; case_bool_decide|]. rewrite nodes_alterNode.
  apply Forall2_same_length_lookup_2; [rewrite length_alter; by eapply Forall2_length|].
  intros j s0 s' Hj Hj'. destruct (decide (i = j)) as [<-|Hne].
  - rewrite list_lookup_alter_eq in Hj'. destruct (nodes tun !! i) as [s|] eqn:E; [|done]. injection Hj' as <-.
    eapply Hf; eauto. by eapply Forall2_lookup_lr.
  - rewrite list_lookup_alter_ne in Hj' by done. by eapply Forall2_lookup_lr.
Qed.

Section Unspent.
Context (t : nat) (tun0 : RegularOutTunnel).
Abbreviation P := (onTun t (unspentTun tun0)).

Lemma unspent_encryptLayer i msg ins : preserves P (encryptLayer t i msg ins).
Proof using Type.
  unfold encryptLayer, updNode. pres. apply onTun_updTun. intros tun H. by apply unspent_alter.
Qed.
Lemma unspent_waitActive fuel key : preserves P (waitActive fuel key).
Proof using Type. induction fuel as [|fuel IH]; simpl; pres; apply IH. Qed.

Lemma unspent_updPayer i f : (forall p0 p, unspent p0 p -> unspent p0 (f p)) -> preserves P (updPayer t i f).
Proof using Type.
  intros Hf. apply onTun_updTun. intros tun H. apply unspent_alter; [done|]. intros s0 s _ _ Hs.
  unfold unspentNode in *. cbn. destruct Hs as [p0 p Hp|]; constructor. by apply Hf.
Qed.

Lemma unspent_openVirtualChannel fuel i p cap : preserves P (openVirtualChannel fuel t i p cap).
Proof using Type.
  pose proof unspent_waitActive. unfold openVirtualChannel. pres; auto.
  by apply unspent_updPayer.
Qed.

Lemma openVirtualChannel_result fuel i p cap (g : State) ch :
  (openVirtualChannel fuel t i p cap g).2 = Ok ch ->
  LastAmount ch = 0 /\ 0 <= vp_Capacity ch <= cap.
Proof using Type.
  intros H. destruct (openVirtualChannel fuel t i p cap g) as [g' o] eqn:E. simpl in H. subst o.
  unfold openVirtualChannel in E.
  ok_step E. injection Hm as <- <-. ok_step E. apply wrapM_ok_inv in Hm. injection Hm as <- Hb.
  do 5 (ok_step E; clear Hm). destruct a4; [done|]. ok_step E. clear Hm.
  apply build_inv in Hb as (x & y & _ & Hx & H0 & Hparts).
  pose proof (proj1 (allowedCapacity_spec (py_PaymentTunnel p) y cap)) as Hle. rewrite <- Hx in Hle.
  destruct a as [|first rest]; [done|]. ok_step E. injection E as <- <-. split; [done|]. cbn [vp_Capacity].
  assert (exists i s, py_PaymentTunnel p !! i = Some s /\ S i = length (py_PaymentTunnel p)) as (j & s' & Hs' & Hj).
  { destruct (py_PaymentTunnel p) as [|q l] eqn:El; [done|].
    destruct (lookup_lt_is_Some_2 (q :: l) (length l)) as [s' Hs']; [simpl; lia|]. by exists (length l), s'. }
  pose proof (chainParts_lookup _ y x (w_now (g_tick g) + baseTTL) cw_minSafeTTL _ _ Hs') as Hl.
  rewrite <- Hparts in Hl. rewrite feesFrom_end in Hl by lia.
  assert (length (first :: rest) = S j) as Hlen by (rewrite Hparts, length_chainParts; lia).
  change (0 <= Capacity (List.last (first :: rest) first) <= cap).
  rewrite (last_lookup _ _ _ _ Hl Hlen). cbn [Capacity]. lia.
Qed.

Lemma unspent_channel p0 p c :
  unspent p0 p -> (c = None \/ exists ch, c = Some ch /\ LastAmount ch = 0) -> unspent p0 (set_py_CurrentChannel c p).
Proof using Type. intros (H1 & H2 & H3 & H4 & H5) Hc. unfold unspent. cbn. tauto. Qed.

Lemma unspent_replaceChannel fuel i tun p : preserves P (replaceChannel fuel t i tun p).
Proof using Type.
  pose proof unspent_openVirtualChannel as Hopen. unfold replaceChannel. apply preserves_bind.
  { apply unspent_updPayer. intros p0 p' Hp. by apply unspent_channel; [|left]. }
  intros _. apply preserves_bind_res; [by apply preserves_wrapM|]. intros g ch _ Hch.
  rewrite wrapM_run in Hch. apply wrapErr_ok, openVirtualChannel_result in Hch as [H0 _].
  pres. apply unspent_updPayer. intros p0 p' Hp. apply unspent_channel; [done|]. right. by exists ch.
Qed.
Lemma unspent_currentChannel fuel i : preserves P (currentChannel fuel t i).
Proof using Type. pose proof unspent_replaceChannel. unfold currentChannel. pres. Qed.

Lemma unspent_makePayment fuel i route prepay force : preserves P (makePayment fuel t i route prepay force).
Proof using Type. pose proof unspent_currentChannel. unfold makePayment. pres. Qed.

(** The payment that is taken back: its node is read just before. *)
Lemma unspent_unconfirmed i (g : State) tun s p :
  P g -> g_tuns g !! t = Some tun -> nodes tun !! i = Some s -> si_PaymentInfo s = Some p ->
  P (unconfirmed t i tun p g).1.
Proof using Type.
  intros Hg Ht Hs Hp. unfold unconfirmed. destruct (py_LatestInstruction p) as [latest|] eqn:El; [|done].
  destruct (_ <? _); [|done]. rewrite bind_run, ask_run. cbv iota beta. destruct (_ <? _); [done|].
  unfold updPayer, updNode, updTun. run. eexists. cbn. rewrite lookup_alter_eq, Ht.
  split; [done|]. destruct Hg as (tun1 & Ht1 & Hg). rewrite Ht in Ht1. injection Ht1 as <-.
  apply unspent_alter; [done|].
  intros s0 s' _ Hs' Hu. rewrite Hs in Hs'. injection Hs' as <-. unfold unspentNode in *. cbn. rewrite Hp in *.
  inversion Hu as [p0 ? Hup Hp0|]; subst. constructor. destruct Hup as (H1 & H2 & H3 & H4 & H5).
  unfold unspent. cbn. rewrite H2. destruct H4 as [[Hpaid Hlat]|[_ [Hn _]]]; [|congruence].
  rewrite Hpaid. split_and!; [done|done|done| |done]. right. split; [congruence|done].
Qed.

Lemma unspent_payNode fuel i route withp force : preserves P (payNode fuel t i route withp force).
Proof using Type.
  pose proof unspent_makePayment as Hmake. intros g Hg. unfold payNode. rewrite bind_run.
  destruct (getNode t i g) as [g1 o] eqn:En. unfold getNode, getTun, deref in En. rewrite bind_run in En.
  destruct (g_tuns g !! t) as [tun|] eqn:Ht; [|injection En as <- <-; done].
  destruct (nodes tun !! i) as [s|] eqn:Hs; injection En as <- <-; [|done].
  rewrite bind_run, (getTun_run _ _ _ Ht). cbv iota beta.
  destruct (si_PaymentInfo s) as [p|] eqn:Hp; [|done]. destruct (negb _); [done|]. rewrite bind_run.
  pose proof (unspent_unconfirmed i g tun s p Hg Ht Hs Hp) as Hu.
  destruct (unconfirmed t i tun p g) as [g2 [[latest|]|e|w]]; [done| |done|done]. cbn [fst] in Hu.
  revert g2 Hu. change (preserves P (p' ← getPayer t i;
    if (int64 (py_PaidPackets p' - consumedAt tun i) <=? Z.quot (t_packetsToPrepay tun) 2) || force then
      makePayment fuel t i route (Z.max 0 (int64 (t_packetsToPrepay tun -
        int64 (py_PaidPackets p' - consumedAt tun i)))) force
    else mret ([], []))). pres.
Qed.

Lemma unspent_controlLayers fuel withp force total n msg muts :
  preserves P (controlLayers fuel t withp force total n msg muts).
Proof using Type.
  pose proof unspent_payNode. pose proof unspent_encryptLayer.
  revert msg muts. induction n as [|n IH]; intros msg muts; simpl; pres; apply IH.
Qed.
End Unspent.

(** Nothing after the last layer fails. *)
Lemma applyMutation_no_error t m (g g' : State) e : applyMutation t m g <> (g', Err e).
Proof using Type.
  unfold applyMutation, getPayer, getNode, getTun, deref. rewrite !bind_run.
  destruct (g_tuns g !! t) as [tun|]; [|done]. rewrite !bind_run.
  destruct (g_tuns g !! t) as [tun'|]; [|done]. destruct (nodes tun' !! mu_node m) as [s|]; [|done].
  rewrite ret_run. cbv iota beta. destruct (si_PaymentInfo s) as [p|]; [|done]. rewrite ret_run. cbv iota beta.
  by destruct (py_CurrentChannel p).
Qed.
Lemma for_each_no_error {A} (l : list A) (body : A -> GM RegularOutTunnel unit) (g g' : State) e :
  (forall x g g' e, body x g <> (g', Err e)) -> for_each l body g <> (g', Err e).
Proof using Type.
  intros Hb. revert g. induction l as [|x l IH]; intros g; simpl; [done|]. rewrite bind_run.
  specialize (Hb x g). destruct (body x g) as [g1 [[]|e1|w]]; [apply IH| |done]. intros [= _ _]. by eapply Hb.
Qed.

(** C14: a control message that can not be completed books no payment: whatever
    step fails (opening a channel, signing, the payment service, a layer), the
    number of the last control message is unchanged, and for every node the
    packets paid for and the last payment are as before, except that a payment
    whose channel has expired may have been taken back once; its channel is the
    old one, none, or a new one of which nothing has been spent. *)
Theorem control_error_books_nothing fuel t withPayments forcePayments (g g' : State) tun e :
  g_tuns g !! t = Some tun ->
  prepareTunnelControlMessage fuel t withPayments forcePayments g = (g', Err e) ->
  exists tun', g_tuns g' !! t = Some tun' /\ unspentTun tun tun'.
Proof using Type.
  intros Ht H. unfold prepareTunnelControlMessage in H. rewrite bind_run, (getTun_run _ _ _ Ht) in H.
  cbv beta iota zeta in H. rewrite bind_run in H.
  pose proof (unspent_controlLayers t tun fuel withPayments forcePayments (length (nodes tun)) (length (nodes tun))
    emptyMessage [] g (ex_intro _ tun (conj Ht (unspentTun_refl tun)))) as HP.
  destruct (controlLayers _ _ _ _ _ _ _ _ g) as [g1 [[msg muts]|e1|w]]; [|by injection H as <- <-|done].
  exfalso. rewrite bind_run in H. unfold updTun at 1 in H. rewrite modify_run in H. cbv iota in H. rewrite bind_run in H.
  pose proof (for_each_no_error muts (applyMutation t)) as Hno.
  destruct (for_each muts _ _) as [g2 [u|e2|w]] eqn:Ef; [|by eapply Hno, Ef; apply applyMutation_no_error|done].
  unfold getTun, deref in H. rewrite bind_run in H. destruct (g_tuns g2 !! t); [|done].
  destruct (summarize _) as [[]]. done.
Qed.

(** ** Amounts *)

(** The capacity asked for a new channel. *)
Definition wantCapacity (price : Z) : Z := ChannelPacketsToPrepay * price * ChannelCapacityForNumPayments.

Definition chanOk (price : Z) (ch : VirtualPaymentChannel) : Prop :=
  0 <= LastAmount ch <= vp_Capacity ch /\ vp_Capacity ch <= wantCapacity price.
Definition payerOk (p : Payer) : Prop :=
  0 <= py_PricePerPacket p /\
  match py_CurrentChannel p with Some ch => chanOk (py_PricePerPacket p) ch | None => True end.
Definition nodeOk (s : SectionInfo) : Prop :=
  match si_PaymentInfo s with Some p => payerOk p | None => True end.

(** The price of every node that has one. *)
Definition shape (s : SectionInfo) : option Z := py_PricePerPacket <$> si_PaymentInfo s.

(** A payment waiting to be booked: the channel it was signed for is the one
    its node has. *)
Definition hasChannel (tun : RegularOutTunnel) (i : nat) (ch : VirtualPaymentChannel) : Prop :=
  exists s p, nodes tun !! i = Some s /\ si_PaymentInfo s = Some p /\ py_CurrentChannel p = Some ch.
Definition mutOk (tun : RegularOutTunnel) (m : mutation) : Prop :=
  exists ch, hasChannel tun (mu_node m) ch /\ LastAmount ch <= mu_stateAmount m <= vp_Capacity ch.

Record tunOk (shapes : list (option Z)) (muts : list mutation) (tun : RegularOutTunnel) : Prop := {
  ok_prepay : t_packetsToPrepay tun = ChannelPacketsToPrepay;
  ok_nodes : Forall nodeOk (nodes tun);
  ok_shape : shape <$> nodes tun = shapes;
  ok_muts : Forall (mutOk tun) muts;
}.

(** Every state signed is within what is asked for some node. *)
Definition resolveOk (shapes : list (option Z)) (e : event) : Prop :=
  match e with
  | EvResolve _ st => exists price, Some price ∈ shapes /\ 0 <= Amount st <= wantCapacity price
  | _ => True
  end.

(** The state a payment service signs and stores is the one it is asked for. *)
Class SignOk : Prop := sign_amount : forall key amount, Amount (cw_sign key amount) = amount.

Lemma payable_bounds price ch prepay :
  chanOk price ch -> 0 < price -> 0 <= prepay ->
  let payFor := (payable ch price prepay).1 in
  0 <= payFor <= prepay /\ LastAmount ch + payFor * price <= vp_Capacity ch.
Proof using Type.
  intros ([H0 H1] & H2) Hp Hpre. unfold payable, wantCapacity, ChannelPacketsToPrepay, ChannelCapacityForNumPayments in *.
  set (q := (vp_Capacity ch - LastAmount ch) / price).
  assert (0 <= q) by (apply Z.div_pos; lia).
  assert (q * price <= vp_Capacity ch - LastAmount ch) by (pose proof (Z.mul_div_le (vp_Capacity ch - LastAmount ch) price Hp); lia).
  assert (q <= 200000 * 30) by nia. rewrite int64_id by (unfold in_int64; lia).
  destruct (Z.ltb_spec prepay q); cbn; nia.
Qed.

Lemma tunOk_alter shapes muts tun i f :
  tunOk shapes muts tun ->
  (forall s, nodes tun !! i = Some s -> nodeOk s -> nodeOk (f s) /\ shape (f s) = shape s) ->
  (forall m s, In m muts -> mu_node m = i -> si_PaymentInfo (f s) = si_PaymentInfo s) ->
  tunOk shapes muts (alterNode i f tun).
Proof using Type.
  intros [H1 H2 H3 H4] Hf Hm. split.
  - unfold alterNode. by case_bool_decide.
  - rewrite nodes_alterNode. apply Forall_alter; [done|]. intros s Hs. by apply Hf.
  - rewrite nodes_alterNode, <- H3. apply list_eq. intros j. rewrite !list_lookup_fmap.
    destruct (decide (i = j)) as [<-|Hne]; [rewrite list_lookup_alter_eq|by rewrite list_lookup_alter_ne].
    destruct (nodes tun !! i) as [s|] eqn:Hs; [|done]. cbn. f_equal.
    apply Hf; [done|]. exact (proj1 (Forall_lookup _ _) H2 _ _ Hs).
  - apply Forall_forall. intros m Hin. destruct (proj1 (Forall_forall _ _) H4 m Hin) as (ch & (s & p & Hs & Hp & Hc) & Hb).
    exists ch. split; [|done]. unfold hasChannel. rewrite nodes_alterNode.
    destruct (decide (i = mu_node m)) as [->|Hne].
    + rewrite list_lookup_alter_eq, Hs. exists (f s), p. rewrite (Hm m s Hin eq_refl). done.
    + rewrite list_lookup_alter_ne by done. by exists s, p.
Qed.

Section Bounded.
Context {SOk : SignOk} (t : nat) (shapes : list (option Z)).

Definition Inv (muts : list mutation) (g : State) : Prop :=
  onTun t (tunOk shapes muts) g /\ Forall (resolveOk shapes) (g_trace g).

Lemma Inv_weaken muts g : Inv muts g -> Inv [] g.
Proof using Type. intros [(tun & Ht & []) Hr]. split; [|done]. exists tun. split; [done|]. by split. Qed.

Section Steps.
Context (muts : list mutation).
Abbreviation P := (Inv muts).

Lemma Inv_onTun {A} (m : GM RegularOutTunnel A) :
  preserves (onTun t (tunOk shapes muts)) m -> (forall g, g_trace (m g).1 = g_trace g) -> preserves P m.
Proof using Type. intros Hm Ht g [Hg Hr]. split; [by apply Hm|by rewrite Ht]. Qed.

Lemma Inv_ask {A} (f : nat -> A) : preserves P (ask f).
Proof using Type. apply Inv_onTun; [pres|done]. Qed.
Lemma Inv_getTun : preserves P (getTun t).
Proof using Type. apply preserves_deref. Qed.
Lemma Inv_updTun f :
  (forall tun, tunOk shapes muts tun -> tunOk shapes muts (f tun)) -> preserves P (updTun t f).
Proof using Type. intros Hf. apply Inv_onTun; [by apply onTun_updTun|done]. Qed.
Hint Resolve Inv_ask Inv_getTun : pres.
Lemma Inv_getNode i : preserves P (getNode t i).
Proof using Type. unfold getNode. pres. Qed.
Hint Resolve Inv_getNode : pres.
Lemma Inv_getPayer i : preserves P (getPayer t i).
Proof using Type. unfold getPayer. pres. Qed.
Hint Resolve Inv_getPayer : pres.

Lemma Inv_encryptLayer i msg ins : preserves P (encryptLayer t i msg ins).
Proof using Type.
  unfold encryptLayer, updNode. pres. apply Inv_updTun. intros tun H. by apply tunOk_alter.
Qed.
Lemma Inv_waitActive fuel key : preserves P (waitActive fuel key).
Proof using Type. induction fuel as [|fuel IH]; simpl; pres; apply IH. Qed.
Hint Resolve Inv_waitActive : pres.

Lemma Inv_updPayer i f :
  (forall m, In m muts -> mu_node m <> i) ->
  (forall p, payerOk p -> payerOk (f p) /\ py_PricePerPacket (f p) = py_PricePerPacket p) ->
  preserves P (updPayer t i f).
Proof using Type.
  intros Hi Hf. apply Inv_updTun. intros tun H. apply tunOk_alter; [done| |].
  - intros s _ Hs. unfold nodeOk, shape in *. cbn. destruct (si_PaymentInfo s) as [p|]; [|done]. cbn.
    destruct (Hf p Hs) as [H1 H2]. by rewrite H2.
  - intros m s Hm E. by destruct (Hi m Hm).
Qed.

Lemma Inv_openVirtualChannel fuel i p cap :
  (forall m, In m muts -> mu_node m <> i) -> preserves P (openVirtualChannel fuel t i p cap).
Proof using Type.
  intros Hi. unfold openVirtualChannel. pres. by apply Inv_updPayer.
Qed.

(** A payer of a tunnel in order. *)
Lemma getPayer_cases i (g : State) tun :
  g_tuns g !! t = Some tun ->
  (exists s p, nodes tun !! i = Some s /\ si_PaymentInfo s = Some p /\ getPayer t i g = (g, Ok p)) \/
  exists w, getPayer t i g = (g, Panic w).
Proof using Type.
  intros Ht. unfold getPayer, getNode. rewrite !bind_run, (getTun_run _ _ _ Ht). cbv iota beta.
  destruct (nodes tun !! i) as [s|]; [|right; by eexists]. rewrite ret_run. cbv iota beta.
  destruct (si_PaymentInfo s) as [p|] eqn:Hp; [|right; by eexists]. left. by exists s, p.
Qed.

Lemma tunOk_payer tun i s p :
  tunOk shapes muts tun -> nodes tun !! i = Some s -> si_PaymentInfo s = Some p ->
  payerOk p /\ shapes !! i = Some (Some (py_PricePerPacket p)).
Proof using Type.
  intros [_ Hn Hs _] Hi Hp. split.
  - pose proof (proj1 (Forall_lookup _ _) Hn _ _ Hi) as H. unfold nodeOk in H. by rewrite Hp in H.
  - rewrite <- Hs, list_lookup_fmap, Hi. unfold shape. cbn. by rewrite Hp.
Qed.

(** After the update every payer at [i] has the channel. *)
Lemma updPayer_hasChannel i ch (g : State) price :
  P g -> shapes !! i = Some (Some price) ->
  onTun t (fun tun => hasChannel tun i ch) (updPayer t i (set_py_CurrentChannel (Some ch)) g).1.
Proof using Type.
  intros [(tun & Ht & Hok) _] Hi. eexists. cbn. rewrite lookup_alter_eq, Ht. split; [reflexivity|].
  rewrite <- (ok_shape _ _ _ Hok), list_lookup_fmap in Hi. destruct (nodes tun !! i) as [s|] eqn:Hs; [|done].
  cbn in Hi. unfold shape in Hi. destruct (si_PaymentInfo s) as [p|] eqn:Hp; [|done].
  eexists _, _. rewrite nodes_alterNode, list_lookup_alter_eq, Hs. split; [reflexivity|]. cbn. rewrite Hp. done.
Qed.

Context (i : nat) (Hfree : forall m, In m muts -> mu_node m <> i).

Lemma replaceChannel_spec fuel tun p :
  t_packetsToPrepay tun = ChannelPacketsToPrepay -> 0 <= py_PricePerPacket p ->
  shapes !! i = Some (Some (py_PricePerPacket p)) ->
  triple P (replaceChannel fuel t i tun p) (fun ch g => P g /\ onTun t (fun tun => hasChannel tun i ch) g) (Inv []).
Proof using Hfree.
  intros Hpre H0 Hi g Hg. unfold replaceChannel. rewrite bind_run.
  assert (P (updPayer t i (set_py_CurrentChannel None) g).1) as Hg1.
  { apply Inv_updPayer; [done| |done]. intros q [Hq _]. by repeat split. }
  destruct (updPayer t i (set_py_CurrentChannel None) g) as [g1 [[]|e|w]]; [|by eapply Inv_weaken..]. cbn [fst] in Hg1.
  rewrite bind_run. pose proof (Inv_openVirtualChannel fuel i p
    (t_packetsToPrepay tun * py_PricePerPacket p * ChannelCapacityForNumPayments) Hfree g1 Hg1) as Hg2.
  rewrite wrapM_run. destruct (openVirtualChannel _ _ _ _ _ g1) as [g2 o] eqn:Eo. cbn [fst snd] in Hg2 |- *.
  destruct o as [ch|e|w]; cbn [wrapErr]; [|by eapply Inv_weaken..].
  pose proof (openVirtualChannel_result t fuel i p _ g1 ch ltac:(rewrite Eo; done)) as [Hl Hc]. rewrite Hpre in Hc.
  rewrite bind_run. pose proof (updPayer_hasChannel i ch g2 _ Hg2 Hi) as Hhas.
  assert (P (updPayer t i (set_py_CurrentChannel (Some ch)) g2).1) as Hg3.
  { destruct Hg2 as [(tun2 & Ht2 & Hok2) Hr2]. split; [|done]. eexists. cbn. rewrite lookup_alter_eq, Ht2.
    split; [reflexivity|]. apply tunOk_alter; [done| |].
    - intros s Hs Hn. unfold nodeOk, shape in *. cbn. destruct (si_PaymentInfo s) as [q|] eqn:Hq; [|done]. cbn.
      destruct (tunOk_payer _ _ _ _ Hok2 Hs Hq) as [[Hq0 _] Hqi]. rewrite Hi in Hqi. injection Hqi as Hqi.
      split; [|done]. split; [done|]. cbn. rewrite <- Hqi. unfold chanOk, wantCapacity. lia.
    - intros m s Hm E. by destruct (Hfree m Hm). }
  destruct (updPayer t i (set_py_CurrentChannel (Some ch)) g2) as [g3 [[]|e|w]]; [|by eapply Inv_weaken..]. done.
Qed.

Lemma currentChannel_spec fuel :
  triple P (currentChannel fuel t i) (fun ch g => P g /\ onTun t (fun tun => hasChannel tun i ch) g) (Inv []).
Proof using Hfree.
  intros g Hg. pose proof Hg as [(tun & Ht & Hok) Hr]. unfold currentChannel.
  rewrite bind_run, (getTun_run _ _ _ Ht). cbv iota beta. rewrite bind_run.
  destruct (getPayer_cases i g tun Ht) as [(s & p & Hs & Hp & ->)|[w ->]]; [|by eapply Inv_weaken].
  cbv iota beta. destruct (tunOk_payer _ _ _ _ Hok Hs Hp) as [Hpok Hi].
  pose proof (fun g => replaceChannel_spec fuel tun p (ok_prepay _ _ _ Hok) (proj1 Hpok) Hi g) as Hrep.
  destruct (py_CurrentChannel p) as [ch|] eqn:Hc; [|by apply Hrep].
  rewrite bind_run, ask_run. cbv iota beta. destruct (_ <? _); [by apply Hrep|]. rewrite ret_run.
  split; [done|]. exists tun. split; [done|]. by exists s, p.
Qed.

(** The payment itself: signed within the channel, and waiting to be booked. *)
Lemma makePayment_spec fuel route prepay force price :
  shapes !! i = Some (Some price) -> 0 < price -> 0 <= prepay ->
  triple P (makePayment fuel t i route prepay force)
    (fun r g => exists m, r.2 = [m] /\ mu_node m = i /\ Inv (muts ++ [m]) g) (Inv []).
Proof using Hfree SOk.
  intros Hi Hprice Hpre g Hg. unfold makePayment. rewrite bind_run.
  pose proof (currentChannel_spec fuel g Hg) as Hcur.
  destruct (currentChannel fuel t i g) as [g1 [ch|e|w]]; [|done..]. destruct Hcur as [Hg1 Hhas].
  pose proof Hg1 as [(tun & Ht & Hok) Hr]. rewrite bind_run.
  destruct (getPayer_cases i g1 tun Ht) as [(s & p & Hs & Hp & ->)|[w ->]]; [|by eapply Inv_weaken].
  cbv iota beta. rewrite bind_run, (getTun_run _ _ _ Ht). cbv iota beta zeta.
  destruct (tunOk_payer _ _ _ _ Hok Hs Hp) as [Hpok Hi']. rewrite Hi in Hi'. injection Hi' as Hpr.
  destruct Hhas as (tun' & Ht' & Hhas). rewrite Ht in Ht'. injection Ht' as <-.
  assert (chanOk price ch) as Hch.
  { destruct Hhas as (s' & p' & Hs' & Hp' & Hc'). rewrite Hs in Hs'. injection Hs' as <-. rewrite Hp in Hp'.
    injection Hp' as <-. destruct Hpok as [_ Hpok]. rewrite Hc', <- Hpr in Hpok. done. }
  rewrite <- Hpr. pose proof (payable_bounds price ch prepay Hch Hprice Hpre) as Hpay.
  destruct (payable ch price prepay) as [payFor isFinal]. cbn [fst] in Hpay.
  rewrite bind_run, wrapM_run, lift_run. cbn [fst snd].
  destruct (cw_toCell _) as [pcs|e|w]; cbn [wrapErr]; [|by eapply Inv_weaken..].
  rewrite bind_run, ask_run. cbv iota beta. destruct (w_addResolve _ _ _) as [e|]; [by eapply Inv_weaken|].
  rewrite bind_run. unfold emit at 1. rewrite modify_run. cbv iota beta. rewrite bind_run.
  assert (0 <= payFor * price) as Hpos by nia.
  set (m := mkMutation _ _ _ _ _). set (g2 := set_g_trace _ _).
  assert (Inv (muts ++ [m]) g2) as Hg2.
  { split.
    - exists tun. split; [done|]. destruct Hok as [H1 H2 H3 H4]. split; [done..|]. apply Forall_app_2; [done|].
      apply Forall_singleton. exists ch. split; [done|]. subst m. cbn [mu_stateAmount]. lia.
    - cbn. apply Forall_app_2; [done|]. apply Forall_singleton. exists price.
      split; [by eapply list_elem_of_lookup_2|]. rewrite sign_amount. destruct Hch as [[] ?]. lia. }
  match goal with |- context [match ?x g2 with _ => _ end] =>
    assert (exists l g3, x g2 = (g3, Ok l) /\ Inv (muts ++ [m]) g3) as (l & g3 & -> & Hg3) end.
  { destruct (py_LatestInstruction p) as [latest|]; [|by eexists _, _]. destruct force; [|by eexists _, _].
    rewrite bind_run, ask_run. cbv iota beta. by eexists _, _. }
  cbv iota beta. rewrite ret_run. by exists m.
Qed.
End Steps.

(** The layers: the payments to book are for different nodes, none of which is
    still to come. *)
Definition booked (n : nat) (muts : list mutation) : Prop :=
  NoDup (mu_node <$> muts) /\ Forall (fun m => n <= mu_node m)%nat muts.

Lemma booked_free n muts m : booked (S n) muts -> In m muts -> mu_node m <> n.
Proof using Type.
  intros [_ H] Hm. apply (proj1 (List.Forall_forall _ _) H) in Hm. cbn in Hm. lia.
Qed.
Lemma booked_add n muts m : booked (S n) muts -> mu_node m = n -> booked n (muts ++ [m]).
Proof using Type.
  intros Hb Hm. pose proof (fun m => booked_free n muts m Hb) as Hf. destruct Hb as [Hn Ha]. split.
  - rewrite fmap_app. apply list.NoDup_app. split; [done|]. split; [|apply NoDup_singleton].
    intros x (m' & -> & Hm')%list_elem_of_fmap Hx. apply list_elem_of_singleton in Hx.
    apply list_elem_of_In in Hm'. rewrite Hm in Hx. by apply (Hf m').
  - apply Forall_app_2; [|apply Forall_singleton; lia]. eapply List.Forall_impl; [|done]. cbn. lia.
Qed.
Lemma booked_le n muts : booked (S n) muts -> booked n muts.
Proof using Type. intros [Hn Ha]. split; [done|]. eapply List.Forall_impl; [|done]. cbn. lia. Qed.

Lemma unconfirmed_spec muts i tun p :
  (forall m, In m muts -> mu_node m <> i) -> preserves (Inv muts) (unconfirmed t i tun p).
Proof using Type.
  intros Hfree. pose proof (@Inv_ask muts). unfold unconfirmed. pres. apply Inv_updPayer; [done|]. by intros q Hq.
Qed.

Lemma payNode_spec fuel i route withp force muts :
  booked (S i) muts ->
  triple (Inv muts) (payNode fuel t i route withp force)
    (fun r g => Inv (muts ++ r.2) g /\ booked i (muts ++ r.2)) (Inv []).
Proof using SOk.
  intros Hb g Hg. pose proof (fun m => booked_free i muts m Hb) as Hfree. unfold payNode.
  assert (forall g', Inv muts g' -> Inv (muts ++ []) g' /\ booked i (muts ++ [])) as Hnone.
  { intros g' Hg'. rewrite app_nil_r. split; [done|by apply booked_le]. }
  pose proof Hg as [(tun & Ht & Hok) _]. rewrite bind_run. unfold getNode.
  rewrite bind_run, (getTun_run _ _ _ Ht). cbv iota beta.
  destruct (nodes tun !! i) as [s|] eqn:Hs; [|by eapply Inv_weaken]. rewrite ret_run. cbv iota beta.
  rewrite bind_run, (getTun_run _ _ _ Ht). cbv iota beta.
  destruct (si_PaymentInfo s) as [p|] eqn:Hp; [|by apply Hnone].
  destruct (negb _) eqn:Hpay; [by apply Hnone|]. apply negb_false_iff, andb_true_iff in Hpay as [_ Hpay%Z.ltb_lt].
  destruct (tunOk_payer _ _ _ _ _ Hok Hs Hp) as [_ Hi].
  rewrite bind_run. pose proof (unconfirmed_spec muts i tun p Hfree g Hg) as Hg1.
  destruct (unconfirmed t i tun p g) as [g1 [[latest|]|e|w]]; [by apply Hnone| |by eapply Inv_weaken..].
  cbn [fst] in Hg1. rewrite bind_run. pose proof (Inv_getPayer muts i g1 Hg1) as Hg2.
  destruct (getPayer t i g1) as [g2 [p'|e|w]]; [|by eapply Inv_weaken..]. cbn [fst] in Hg2. cbv zeta.
  destruct (_ || force); [|by apply Hnone].
  pose proof (makePayment_spec muts i Hfree fuel route
    (Z.max 0 (int64 (t_packetsToPrepay tun - int64 (py_PaidPackets p' - consumedAt tun i)))) force
    (py_PricePerPacket p) Hi Hpay ltac:(lia) g2 Hg2) as Hm.
  destruct (makePayment _ _ _ _ _ _ g2) as [g3 [[ins added]|e|w]]; [|done..].
  destruct Hm as (m & Ha & Hm & Hg3). cbn in Ha. subst added. split; [done|]. by apply booked_add.
Qed.

Lemma controlLayers_spec fuel withp force total n msg muts :
  booked n muts ->
  triple (Inv muts) (controlLayers fuel t withp force total n msg muts)
    (fun r g => Inv r.2 g /\ booked 0 r.2) (Inv []).
Proof using SOk.
  revert msg muts. induction n as [|i IH]; intros msg muts Hb g Hg; cbn [controlLayers]; [done|].
  pose proof Hg as [(tun & Ht & Hok) _]. rewrite bind_run, (getTun_run _ _ _ Ht). cbv iota beta. rewrite bind_run.
  match goal with |- context [match ?x g with _ => _ end] =>
    assert (match x g with (g', Ok (msg', added)) => Inv (muts ++ added) g' /\ booked i (muts ++ added)
            | (g', _) => Inv [] g' end) as Hx; [|destruct (x g) as [g1 [[msg1 added]|e|w]]] end.
  - destruct (S i =? total)%nat.
    + cbv zeta. rewrite bind_run, wrapM_run.
      pose proof (Inv_encryptLayer muts i msg
        [DeliverInitiator (t_localID tun) (PingMeta (uint64 (t_controlSeqno tun + 1)) withp)] g Hg) as He.
      destruct (encryptLayer _ _ _ _ g) as [g1 [msg1|e|w]]; cbn [fst snd wrapErr] in He |- *; [|by eapply Inv_weaken..].
      rewrite ret_run, app_nil_r. split; [done|by apply booked_le].
    + rewrite bind_run. pose proof (Inv_getNode muts (S i) g Hg) as Hn.
      destruct (getNode t (S i) g) as [g1 [next|e|w]]; [|by eapply Inv_weaken..]. cbn [fst] in Hn.
      rewrite bind_run, lift_run. destruct (routeId next) as [route|e|w]; [|by eapply Inv_weaken..].
      rewrite bind_run. pose proof (payNode_spec fuel i route withp force muts Hb g1 Hn) as Hp.
      destruct (payNode _ _ _ _ _ _ g1) as [g2 [[ins added]|e|w]]; [|done..]. cbn [snd] in Hp. destruct Hp as [Hp Hb'].
      rewrite bind_run, wrapM_run. pose proof (Inv_encryptLayer (muts ++ added) i msg (ins ++ [Route (systemRoute route)]) g2 Hp) as He.
      destruct (encryptLayer _ _ _ _ g2) as [g3 [msg1|e|w]]; cbn [fst snd wrapErr] in He |- *; [|by eapply Inv_weaken..].
      rewrite ret_run. done.
  - destruct Hx as [Hg1 Hb1]. apply IH; done.
  - done.
  - done.
Qed.

(** Booking one payment leaves the others in order. *)
Lemma applyMutation_spec m muts n :
  booked n (m :: muts) -> triple (Inv (m :: muts)) (applyMutation t m) (fun _ => Inv muts) (Inv []).
Proof using Type.
  intros [Hn _] g [(tun & Ht & Hok) Hr]. unfold applyMutation.
  rewrite bind_run, (getTun_run _ _ _ Ht). cbv iota beta. rewrite bind_run.
  pose proof (ok_muts _ _ _ Hok) as Hmuts. apply Forall_cons_1 in Hmuts as [(ch & (s & p & Hs & Hp & Hc) & Hb) Hrest].
  destruct (getPayer_cases (mu_node m) g tun Ht) as [(s' & p' & Hs' & Hp' & ->)|[w ->]];
    [|split; [|done]; exists tun; split; [done|]; by destruct Hok; split].
  rewrite Hs in Hs'. injection Hs' as <-. rewrite Hp in Hp'. injection Hp' as <-. cbv iota beta. rewrite Hc.
  destruct (tunOk_payer _ _ _ _ _ Hok Hs Hp) as [[Hp0 Hch] _]. rewrite Hc in Hch.
  unfold updPayer, updNode, updTun. run. split; [|done]. eexists. cbn. rewrite lookup_alter_eq, Ht. split; [reflexivity|].
  apply tunOk_alter; [by destruct Hok; split| |].
  - intros s' Hs' _. rewrite Hs in Hs'. injection Hs' as <-. unfold nodeOk, shape. cbn. rewrite Hp. cbn.
    split; [|done]. split; [done|]. cbn. destruct (mu_isFinal m); [done|]. destruct Hch as [[]]. unfold chanOk. cbn. lia.
  - intros m' s' Hm' E. exfalso. apply stdpp.list_relations.list.NoDup_cons in Hn as [Hn _]. apply Hn.
    rewrite <- E. apply list_elem_of_fmap_2. by apply list_elem_of_In.
Qed.

Lemma applyAll_spec muts n :
  booked n muts -> triple (Inv muts) (for_each muts (applyMutation t)) (fun _ => Inv []) (Inv []).
Proof using Type.
  induction muts as [|m muts IH]; intros Hb; [by intros g Hg|]. simpl. eapply triple_bind.
  - by apply (applyMutation_spec m muts n).
  - intros []. apply IH. destruct Hb as [Hn Ha]. apply Forall_cons_1 in Ha as [_ Ha].
    by apply stdpp.list_relations.list.NoDup_cons in Hn as [_ Hn].
Qed.

End Bounded.
End PayFacts.

(** ** Witnesses: the paid tunnel of [ClientWorlds] *)

Ltac evaluate x :=
  let v := eval vm_compute in x in
  assert (x = v) as -> by (vm_compute; reflexivity).

Section Witnesses.
#[local] Existing Instances toyCipher sampleTL sampleKA sampleWorld sampleClientWorld.

Lemma sampleSignOk : SignOk.
Proof using Type. by intros key amount. Qed.
#[local] Existing Instance sampleSignOk.

Lemma pinged_known : g_tuns pinged.1 !! 0%nat = Some (tunOf pinged.1 0).
Proof using Type. apply tunOf_known. vm_compute. reflexivity. Qed.

(** No poll of the channel is allowed here, so opening it fails. *)
Lemma control_error_books_nothing_witness :
  exists tun', g_tuns (prepareTunnelControlMessage 0 0 true true pinged.1).1 !! 0%nat = Some tun' /\
    unspentTun (tunOf pinged.1 0) tun'.
Proof using Type.
  assert (prepareTunnelControlMessage 0 0 true true pinged.1
    = ((prepareTunnelControlMessage 0 0 true true pinged.1).1,
       Err (Errorw "open virtual channel failed" OutOfFuel))) as Hm by (apply run_err; vm_compute; reflexivity).
  pose proof (control_error_books_nothing 0 0 true true _ _ _ _ pinged_known Hm) as H. exact H.
Defined.

Lemma pinged_Inv : Inv 0 [Some 5; None] [] pinged.1.
Proof using Type.
  split.
  - exists (tunOf pinged.1 0). split; [exact pinged_known|]. split.
    + vm_compute. reflexivity.
    + evaluate (nodes (tunOf pinged.1 0)). unfold nodeOk. repeat apply Forall_cons_2; try apply Forall_nil_2; vm_compute; repeat split; discriminate.
    + vm_compute. reflexivity.
    + apply Forall_nil_2.
  - evaluate (g_trace pinged.1). repeat apply Forall_cons_2; try apply Forall_nil_2; exact I.
Qed.

Definition lastResolve (g : Gateway (W := sampleWorld) RegularOutTunnel) : option Z :=
  match reverse (g_trace g) with EvResolve _ st :: _ => Some (Amount st) | _ => None end.

End Witnesses.
