(* ===== verification/ClientFindings.v ===== *)
(** * Runs of a tunnel that go wrong

    What the initiator's code does other than it means to, as theorems on runs
    of it. *)

From S2P Require Import Prelude Seqno Stream Wire Samples Keys PayChain Hoare State Peers Node Payments OutGate Gateway Worlds Traffic.
From S2P Require Import Client ClientMsg ClientPay ClientIO ClientFacts ClientWorlds ClientOnion Findings.

Section Signals.
Context {C : CipherCtr} {T : TL} {K : KeyAgreement} {W : World} {CW : ClientWorld}.

(** The confirmation that the routes are optimized moves the tunnel to its last
    state and does nothing else: the state is stored before it is compared, so
    the comparison with the old state always fails and the control message that
    should follow at once is never requested. *)
Theorem processState_optimized_no_request t (g : Gateway RegularOutTunnel) tun :
  g_tuns g !! t = Some tun -> t_tunnelState tun < StateTypeOptimized ->
  exists g' now, processState t StateTypeOptimizingRoutes g = (g', Ok tt) /\
    g_tuns g' !! t = Some (set_t_lastFullyCheckedAt now (set_t_tunnelState StateTypeOptimized tun)).
Proof using Type.
  intros Ht Hs. unfold processState. rewrite bind_run, (getTun_run _ _ _ Ht). cbv iota beta.
  rewrite (proj2 (Z.ltb_lt _ _) Hs).
  change (StateTypeOptimizingRoutes =? StateTypeConfiguring) with false.
  change (StateTypeOptimizingRoutes =? StateTypeOptimizingRoutes) with true. cbv iota.
  rewrite bind_run, bind_run, (updTun_run _ _ _ _ Ht). cbv iota beta. fold (tunSet t g (set_t_tunnelState StateTypeOptimized tun)).
  rewrite bind_run, (getTun_run _ _ _ (tunSet_lookup t g _)). cbv iota beta.
  change (t_tunnelState (set_t_tunnelState StateTypeOptimized tun) =? StateTypeOptimizingRoutes) with false. cbv iota.
  rewrite ret_run. cbv iota. rewrite bind_run, nowUnix_run. cbv iota beta. unfold updTun. rewrite modify_run.
  eexists _, _. split; [reflexivity|]. cbn. rewrite lookup_alter_eq, lookup_insert_eq. reflexivity.
Qed.

(** A delivery without payload is refused whatever it says: the payload is
    decrypted before the state is looked at. *)
Lemma Process_empty_payload t state (g : Gateway RegularOutTunnel) tun :
  g_tuns g !! t = Some tun ->
  RegularOutTunnel_Process t [] (StateMeta state) g = (g, Err (Errorf "decryptRecvPayload failed")).
Proof using Type. intros Ht. unfold RegularOutTunnel_Process. by rewrite bind_run, (getTun_run _ _ _ Ht). Qed.

(** No layer puts a payload into a message. *)
Lemma encryptLayer_payload t i msg ins (g g' : Gateway RegularOutTunnel) msg' :
  encryptLayer t i msg ins g = (g', Ok msg') -> em_Payload msg' = em_Payload msg.
Proof using Type.
  intros H. unfold encryptLayer in H. ok_step H. ok_step H.
  destruct (EncryptInstructionsMessage _ _ _ _) as [[k m] o] eqn:E. ok_step H. ok_step H.
  injection H as <- <-. revert E. unfold EncryptInstructionsMessage.
  repeat case_match; intros [= _ <- _]; done.
Qed.

Lemma downTo_payload n body msg (g g' : Gateway RegularOutTunnel) msg' :
  (forall i m m' g g', body i m g = (g', Ok m') -> em_Payload m' = em_Payload m) ->
  downTo n body msg g = (g', Ok msg') -> em_Payload msg' = em_Payload msg.
Proof using Type.
  intros Hb. revert msg g. induction n as [|n IH]; intros msg g H; simpl in H; [by injection H as _ <-|].
  ok_step H. rewrite (IH _ _ H). by eapply Hb.
Qed.

(** The closing message carries no payload, so that its return is never
    recognized: the initiator refuses it before it looks at the state, and
    [Stop] sends it again until its context ends. *)
Theorem close_message_unconfirmed t (g g' h : Gateway RegularOutTunnel) tun tun' msg :
  g_tuns g !! t = Some tun -> prepareTunnelCloseMessage t g = (g', Ok msg) ->
  g_tuns h !! t = Some tun' ->
  RegularOutTunnel_Process t (em_Payload msg) (StateMeta StateTypeDestroyed) h
  = (h, Err (Errorf "decryptRecvPayload failed")).
Proof using Type.
  intros Ht H Hh. assert (em_Payload msg = []) as ->; [|by eapply Process_empty_payload].
  unfold prepareTunnelCloseMessage in H. rewrite bind_run, (getTun_run _ _ _ Ht) in H. cbv beta iota zeta in H.
  eapply downTo_payload in H; [exact H|]. clear. intros i m m' g g' H.
  destruct (Nat.eqb _ _); [by apply wrapM_ok_inv, encryptLayer_payload in H|].
  ok_step H. ok_step H. by apply wrapM_ok_inv, encryptLayer_payload in H.
Qed.
End Signals.

Section Runs.
#[local] Existing Instances toyCipher sampleTL sampleKA sampleWorld sampleClientWorld.
Abbreviation State := (Gateway (W := sampleWorld) RegularOutTunnel).

Lemma processState_optimized_no_request_witness :
  exists g' now, processState 0 StateTypeOptimizingRoutes longClient = (g', Ok tt) /\
    g_tuns g' !! 0%nat = Some (set_t_lastFullyCheckedAt now
      (set_t_tunnelState StateTypeOptimized (tunOf longClient 0))).
Proof using Type.
  assert (t_tunnelState (tunOf longClient 0) < StateTypeOptimized) as H by (vm_compute; reflexivity).
  pose proof (processState_optimized_no_request 0 longClient (tunOf longClient 0) longClient_known H) as Hp. exact Hp.
Defined.

Definition twoTunnels : State :=
  let chains := sampleSections None in
  (CreateRegularOutTunnel chains.1 chains.2
    (CreateRegularOutTunnel chains.1 chains.2 (gatewayOf clientKey nodeKey freeConfig)).1).1.

(** [Stop] is not idempotent: a second call on a tunnel releases its peer again,
    so the peer is closed and removed under another tunnel that uses it. *)
Theorem Stop_twice_drops_shared_peer :
  peerRefs twoTunnels nodeKey = Some 2 /\
  peerRefs (Stop 0 0 twoTunnels).1 nodeKey = Some 1 /\
  peerRefs (Stop 0 0 (Stop 0 0 twoTunnels).1).1 nodeKey = None.
Proof using Type. vm_compute. auto. Qed.

(** A tunnel with payments on a gateway without a payment service is refused
    after its peer has been referenced: the reference is never released. *)
Theorem CreateRegularOutTunnel_leaks_reference :
  let chains := sampleSections (Some (samplePayer 5)) in
  let r := CreateRegularOutTunnel chains.1 chains.2 (gatewayOf clientKey nodeKey freeConfig) in
  r.2 = Err (Errorf "payments are not enabled") /\ g_tunnels r.1 = ∅ /\ peerRefs r.1 nodeKey = Some 1.
Proof using Type. vm_compute. auto. Qed.

(** The total paid for a tunnel can not be asked before its first channel is
    opened: [PaidChannelFee] is nil until then and is added without a check. *)
Theorem CalcPaidAmount_unpaid_panics :
  let chains := sampleSections (Some (samplePayer 5)) in
  (CalcPaidAmount 0 (CreateRegularOutTunnel chains.1 chains.2 (gatewayOf clientKey nodeKey paidConfig)).1).2
  = Panic "nil pointer dereference".
Proof using Type. vm_compute. reflexivity. Qed.

Lemma close_message_unconfirmed_witness :
  RegularOutTunnel_Process 0 (em_Payload (resultOf (prepareTunnelCloseMessage 0))) (StateMeta StateTypeDestroyed) longClient
  = (longClient, Err (Errorf "decryptRecvPayload failed")).
Proof using Type.
  assert (prepareTunnelCloseMessage 0 longClient = ((prepareTunnelCloseMessage 0 longClient).1,
    Ok (resultOf (prepareTunnelCloseMessage 0)))) as H by (apply run_ok; vm_compute; reflexivity).
  exact (close_message_unconfirmed 0 longClient (prepareTunnelCloseMessage 0 longClient).1 longClient
    (tunOf longClient 0) (tunOf longClient 0) (resultOf (prepareTunnelCloseMessage 0)) longClient_known H longClient_known).
Defined.

(** The same on two gateways: a tunnel in use asks to be closed, the exit
    destroys its section and sends the message back, and the tunnel is still
    open. *)
Example close_returns_unrecognized :
  let asked := (Stop_loop 1 0 (updTun 0 (set_t_wantDestroy 1) configured.1).1).1 in
  let exit := carry asked configured.2 in
  let back := carry exit.1 asked in
  exit.2 = Ok tt /\ g_inboundSections exit.1 = ∅ /\
  back.2 = Err (Errorw "execute instruction error" (Errorw "process recv message failed"
    (Errorf "decryptRecvPayload failed"))) /\
  t_closed (tunOf back.1 0) = false.
Proof using Type. vm_compute. auto. Qed.
End Runs.
