(* ===== verification/Dht.v ===== *)
(** * The gateway in the DHT ([tunnel/dht.go])

    A gateway publishes its address and an entry of its own in a list of at most
    five nodes kept under one key, and an initiator reads the list to find
    nodes.  The DHT client is the parameter [DhtWorld]. *)

From stdpp Require Import sorting.
From S2P Require Import Prelude Seqno Stream Wire Samples Keys Hoare State Peers Node Payments OutGate Gateway Worlds Traffic.

(** [overlay.Node] of the TON library: the key when the identity is an ed25519
    key, the time of the entry (an [int32]), and the rest of it. *)
Record OverlayNode := mkOverlayNode { ov_ID : option bytes; ov_Version : Z; ov_Signature : bytes }.
#[global] Instance OverlayNode_eq_dec : EqDecision OverlayNode.
Proof. solve_decision. Defined.

(** [dht.ErrDHTValueIsNotFound]. *)
Definition ErrDHTValueIsNotFound : error := Errorf "value is not found".

(** The calls of [dht.Client], [tl.Hash] of an [OverlayKey], [overlay.NewNode] and
    [sort.Slice] by version, which promises a sorted permutation and nothing on
    the order of equal versions. *)
Class DhtWorld : Type := {
  dw_storeAddress : nat -> Z -> Z * option error;  (* the copies stored, and the error *)
  dw_hashOverlayKey : bytes -> outcome bytes;
  dw_findOverlayNodes : nat -> bytes -> option (list OverlayNode) * option error;
  dw_newNode : nat -> bytes -> bytes -> outcome OverlayNode;
  dw_storeOverlayNodes : nat -> bytes -> list OverlayNode -> Z -> option error;
  dw_sortByVersion : list OverlayNode -> list OverlayNode;
}.

Definition older (a b : OverlayNode) : Prop := ov_Version a <= ov_Version b.
#[global] Instance older_dec : RelDecision older.
Proof. unfold older. solve_decision. Defined.

Class DhtWorldOk (K : KeyAgreement) (D : DhtWorld) : Prop := {
  dw_sort_perm : forall l, dw_sortByVersion l ≡ₚ l;
  dw_sort_sorted : forall l, Sorted older (dw_sortByVersion l);
  dw_newNode_key : forall n k key e, dw_newNode n k key = Ok e -> ov_ID e = Some (PublicKey key);
}.

Section Dht.
Context {W : World} {Tun : Type} {D : DhtWorld}.

Abbreviation G := (GM Tun).

(** [uint32(Version) > uint32(time.Now().Unix() - ttlSeconds)]. *)
Definition fresh (now ttlSeconds : Z) (e : OverlayNode) : bool :=
  uint32 (now - ttlSeconds) <? uint32 (ov_Version e).

(** [id.Key.Equal(node.ID.(keys.PublicKeyED25519).Key)], with the check of the
    entry's own type before it. *)
Definition ownEntry (node e : OverlayNode) : outcome bool :=
  match ov_ID e, ov_ID node with
  | None, _ => Ok false
  | Some _, None => Panic "interface conversion"
  | Some k, Some k' => Ok (bool_decide (k = k'))
  end.

(** The loop over the list found: the new list, and whether the own entry was
    met, where the loop ends. *)
Fixpoint refreshList (node : OverlayNode) (ttlSeconds : Z) (l newList : list OverlayNode)
    : G (list OverlayNode * bool) :=
  match l with
  | [] => mret (newList, false)
  | e :: l =>
      own ← lift (ownEntry node e);
      if (own : bool) then mret (newList ++ [node], true)
      else
        now ← nowUnix;
        refreshList node ttlSeconds l (if fresh now ttlSeconds e then newList ++ [e] else newList)
  end.

(** The own entry is added, in place of the oldest one when there are five. *)
Definition addEntry (node : OverlayNode) (l : list OverlayNode) : list OverlayNode :=
  match l with
  | [] => [node]
  | _ =>
      if bool_decide (5 <= length l)%nat then <[0%nat := node]> (dw_sortByVersion l)
      else l ++ [node]
  end.

(** [len(pn) == 0] stands for no payment node: thirty-two zero bytes. *)
Definition overlayKey (paymentNode : bytes) : G bytes :=
  lift (wrapErr "failed to serialize key for dht overlay"
    (dw_hashOverlayKey (match paymentNode with [] => replicate 32 0 | _ => paymentNode end))).

(** An error other than a missing value is passed on. *)
Definition findOverlayNodes (key : bytes) : G (option (list OverlayNode)) :=
  '(nodesList, err) ← ask (fun n => dw_findOverlayNodes n key);
  match err with
  | Some e => if errorsIs e ErrDHTValueIsNotFound then mret nodesList
              else throw (Errorw "failed to find overlay nodes" e)
  | None => mret nodesList
  end.

(** The list that [updateDHT] stores, given the one it found. *)
Definition nextList (node : OverlayNode) (ttlSeconds : Z) (found : list OverlayNode) : G (list OverlayNode) :=
  '(newList, refreshed) ← refreshList node ttlSeconds found [];
  mret (if (refreshed : bool) then newList else addEntry node newList).

Definition updateDHT (paymentNode : bytes) (ttlSeconds : Z) : G unit :=
  g ← get;
  '(stored, err) ← ask (fun n => dw_storeAddress n ttlSeconds);
  match err with
  | Some e => if stored =? 0 then throw (Errorw "failed to store address" e) else mret tt
  | None => mret tt
  end ;;
  key ← overlayKey paymentNode;
  nodesList ← findOverlayNodes key;
  res ← ask (fun n => dw_newNode n key (g_key g));
  node ← wrapM "failed creating overlay node" (lift res);
  newList ← nextList node ttlSeconds (default [] nodesList);
  err ← ask (fun n => dw_storeOverlayNodes n key newList ttlSeconds);
  match err with
  | Some e => throw (Errorw "failed to store overlay nodes" e)
  | None => mret tt
  end.

(** One turn of the goroutine of [Start] that publishes the gateway: the delay
    before the next one, in seconds.  Without an external address nothing is
    published. *)
Definition dhtRound (paymentNode : bytes) : G Z :=
  addresses ← ask w_addressList;
  match addresses with
  | [] => mret (5 * 60)
  | _ =>
      err ← attempt (updateDHT paymentNode (20 * 60));
      mret (match err with Some _ => 10 | None => 5 * 60 end)
  end.

Definition DiscoverNodes (paymentNode : bytes) : G (list bytes) :=
  key ← overlayKey paymentNode;
  nodesList ← findOverlayNodes key;
  mret (match nodesList with None => [] | Some l => omap ov_ID l end).
End Dht.

(** ** What is stored *)
Section Facts.
Context {K : KeyAgreement} {W : World} {Tun : Type} {D : DhtWorld} {DOk : DhtWorldOk K D}.

Abbreviation State := (Gateway Tun).

(** The entries still fresh when each of them was looked at. *)
Fixpoint keptOf (ttlSeconds : Z) (l : list OverlayNode) (times : list Z) : list OverlayNode :=
  match l, times with
  | e :: l, now :: times =>
      if fresh now ttlSeconds e then e :: keptOf ttlSeconds l times else keptOf ttlSeconds l times
  | _, _ => []
  end.

Definition foreign (node e : OverlayNode) : Prop := ov_ID e <> ov_ID node.

Lemma ownEntry_cases node e :
  is_Some (ov_ID node) ->
  (foreign node e /\ ownEntry node e = Ok false) \/ (ov_ID e = ov_ID node /\ ownEntry node e = Ok true).
Proof using Type.
  intros [k Hk]. unfold foreign, ownEntry. rewrite Hk. destruct (ov_ID e) as [k'|]; [|by left].
  case_bool_decide; [right|left]; split; congruence.
Qed.

Lemma keptOf_length ttl l times : (length (keptOf ttl l times) <= length l)%nat.
Proof using Type.
  revert times. induction l as [|e l IH]; intros [|now times]; simpl; try lia.
  specialize (IH times). destruct (fresh now ttl e); simpl; lia.
Qed.

(** The loop keeps the fresh entries in front of the own one and stops there. *)
Lemma refreshList_run node ttl l acc (g : State) :
  is_Some (ov_ID node) ->
  exists g' before rest times, l = before ++ rest /\ Forall (foreign node) before /\ length times = length before /\
    refreshList node ttl l acc g
      = (g', Ok (match rest with
                 | [] => (acc ++ keptOf ttl before times, false)
                 | _ => (acc ++ keptOf ttl before times ++ [node], true)
                 end)) /\
    match rest with [] => True | e :: _ => ov_ID e = ov_ID node end.
Proof using Type.
  intros Hn. revert acc g. induction l as [|e l IH]; intros acc g; simpl.
  { exists g, [], [], []. simpl. rewrite app_nil_r. by split_and!. }
  rewrite bind_run, lift_run. destruct (ownEntry_cases node e Hn) as [[Hf ->]|[Ho ->]]; cbv iota beta.
  - rewrite bind_run, nowUnix_run. cbv iota beta.
    destruct (IH (if fresh (w_now (g_tick g) / 10 ^ 9) ttl e then acc ++ [e] else acc) (set_g_tick (S (g_tick g)) g))
      as (g' & before & rest & times & -> & Hb & Ht & Hr & Hown).
    exists g', (e :: before), rest, (w_now (g_tick g) / 10 ^ 9 :: times).
    split_and!; [done|by constructor|simpl; lia| |done]. rewrite Hr. simpl.
    destruct (fresh _ ttl e), rest; simpl; by rewrite <- ?app_assoc.
  - exists g, [], (e :: l), []. by split_and!.
Qed.

Lemma addEntry_spec node l :
  ((length l < 5)%nat /\ addEntry node l = l ++ [node]) \/
  (exists oldest others, l ≡ₚ oldest :: others /\ Forall (older oldest) others /\ addEntry node l = node :: others).
Proof using DOk.
  destruct l as [|e l]; [left; simpl; split; [lia|done]|]. unfold addEntry. case_bool_decide as H5; [right|left; split; [lia|done]].
  pose proof (dw_sort_perm (e :: l)) as Hp. pose proof (dw_sort_sorted (e :: l)) as Hs.
  destruct (dw_sortByVersion (e :: l)) as [|oldest others]; [by apply Permutation_nil_cons in Hp|].
  exists oldest, others. split_and!; [done| |done].
  apply Sorted_StronglySorted in Hs; [by apply StronglySorted_inv in Hs as [_ Hs]|].
  intros a b c. unfold older. lia.
Qed.


(** A gateway that published itself is discovered: from the list it stored,
    as long as the DHT returns that list, [DiscoverNodes] reads its public
    key. *)
Theorem DiscoverNodes_finds paymentNode ttl found hash (g g1 g2 h : State) n node l' :
  dw_newNode n hash (g_key g) = Ok node -> nextList node ttl found g1 = (g2, Ok l') ->
  dw_hashOverlayKey (match paymentNode with [] => replicate 32 0 | _ => paymentNode end) = Ok hash ->
  dw_findOverlayNodes (g_tick h) hash = (Some l', None) ->
  exists h' ks, DiscoverNodes paymentNode h = (h', Ok ks) /\ In (PublicKey (g_key g)) ks.
Proof using DOk.
  intros Hnode Hnext Hhash Hfind. pose proof (dw_newNode_key _ _ _ _ Hnode) as Hkey.
  destruct (refreshList_run node ttl found [] g1 ltac:(by eexists)) as (g' & before & rest & times & -> & _ & _ & Hr & _).
  assert (In node l') as Hin.
  { revert Hnext. unfold nextList. rewrite bind_run, Hr. destruct rest as [|own rest]; cbv iota beta; rewrite ret_run; intros [= _ <-].
    - destruct (addEntry_spec node (keptOf ttl before times)) as [[_ ->]|(? & ? & _ & _ & ->)]; [|by left].
      apply in_app_iff. right. by left.
    - apply in_app_iff. right. by left. }
  unfold DiscoverNodes, overlayKey, findOverlayNodes. rewrite bind_run, lift_run, Hhash. simpl.
  rewrite bind_run, bind_run, ask_run, Hfind. cbv iota beta. rewrite ret_run. cbv iota beta. rewrite ret_run.
  eexists _, _. split; [reflexivity|]. apply list_elem_of_In, list_elem_of_omap. exists node.
  split; [by apply list_elem_of_In|done].
Qed.
End Facts.

(** ** Runs *)
Section Runs.
#[local] Existing Instances sampleKA sampleWorld.
Abbreviation State := (Gateway (W := sampleWorld) unit).

(** A DHT that returns what was stored: six entries, the third of them our own
    or none. *)
Definition entry (k v : Z) : OverlayNode := mkOverlayNode (Some [k]) v [].
Definition sampleDht (stored : list OverlayNode) : DhtWorld := {|
  dw_storeAddress := fun _ _ => (3, None);
  dw_hashOverlayKey := fun pn => Ok (7 :: pn);
  dw_findOverlayNodes := fun _ _ => (Some stored, None);
  dw_newNode := fun _ _ key => Ok (mkOverlayNode (Some (PublicKey key)) (2 ^ 31 - 1) []);
  dw_storeOverlayNodes := fun _ _ _ _ => None;
  dw_sortByVersion := merge_sort older;
|}.

#[local] Instance sampleDht_ok stored : DhtWorldOk sampleKA (sampleDht stored).
Proof.
  split; [apply merge_sort_Permutation| |by intros ???? [= <-]].
  intros l. simpl. apply Sorted_merge_sort. intros a b. unfold older. lia.
Qed.

Definition dhtGateway : State := NewGateway [9] freeConfig.
Definition ownNode : OverlayNode := mkOverlayNode (Some (PublicKey [9])) (2 ^ 31 - 1) [].
Definition others : list OverlayNode := map (fun k => entry k (2 ^ 31 - 10 + k)) [1; 2; 3; 4; 5; 6].

(** Six fresh entries: the oldest makes room. *)
Example nextList_replaces_oldest :
  (nextList (D := sampleDht []) ownNode 100 others dhtGateway).2 = Ok (ownNode :: drop 1 others).
Proof using Type. vm_compute. reflexivity. Qed.

(** The own entry is met third: the three after it are gone. *)
Example nextList_drops_following :
  (nextList (D := sampleDht []) ownNode 100 (take 2 others ++ ownNode :: drop 2 others) dhtGateway).2
  = Ok (take 2 others ++ [ownNode]).
Proof using Type. vm_compute. reflexivity. Qed.


Lemma DiscoverNodes_finds_witness :
  exists h' ks, DiscoverNodes (D := sampleDht (ownNode :: drop 1 others)) [] dhtGateway = (h', Ok ks) /\
    In (PublicKey [9]) ks.
Proof using Type.
  assert (nextList (D := sampleDht (ownNode :: drop 1 others)) ownNode 100 others dhtGateway
    = ((nextList (D := sampleDht (ownNode :: drop 1 others)) ownNode 100 others dhtGateway).1, Ok (ownNode :: drop 1 others))) as H
    by (apply run_ok; vm_compute; reflexivity).
  pose proof (DiscoverNodes_finds (DOk := sampleDht_ok (ownNode :: drop 1 others)) [] 100 others (7 :: replicate 32 0) dhtGateway dhtGateway
    (nextList (D := sampleDht (ownNode :: drop 1 others)) ownNode 100 others dhtGateway).1 dhtGateway 0 ownNode (ownNode :: drop 1 others)) as Hd.
  exact (Hd eq_refl H eq_refl eq_refl).
Defined.
End Runs.
