(* ===== verification/Config.v ===== *)
(** * Configuration files ([config/config.go])

    The configurations of a node and of a client as records, the default ones,
    the description of a node that it hands out to clients, and the files they
    are kept in.  The fields of the payment network's own configuration are those
    the code sets.  Keys, [encoding/json], the file system's failures and the answer
    of the port checker are parameters; [Address] says what it may answer. *)

From Stdlib Require Import Ascii.
From S2P Require Import Prelude Seqno Stream Wire Samples Keys Hoare.

(** ** [encoding/base64], the standard alphabet with padding *)
Module Base64.
Definition alphabet : list ascii :=
  String.list_ascii_of_string "ABCDEFGHIJKLMNOPQRSTUVWXYZabcdefghijklmnopqrstuvwxyz0123456789+/".

Definition digit (x : Z) : ascii := nth (Z.to_nat x) alphabet "="%char.
Definition pad : ascii := "="%char.

Fixpoint EncodeToString (bs : bytes) : list ascii :=
  match bs with
  | [] => []
  | [a] => [digit (a / 4); digit (a mod 4 * 16); pad; pad]
  | [a; b] => [digit (a / 4); digit (a mod 4 * 16 + b / 16); digit (b mod 16 * 4); pad]
  | a :: b :: c :: bs =>
      [digit (a / 4); digit (a mod 4 * 16 + b / 16); digit (b mod 16 * 4 + c / 64); digit (c mod 64)]
      ++ EncodeToString bs
  end.

(** The value of a digit; [None] for a character outside of the alphabet. *)
Definition value (c : ascii) : option Z :=
  (fun x => Z.of_nat (fst x)) <$> list_find (eq c) alphabet.

(** Groups of four; padding only at the end. Line breaks are skipped. *)
Fixpoint decodeGroups (s : list ascii) : option bytes :=
  match s with
  | [] => Some []
  | w :: x :: y :: z :: rest =>
      a ← value w; b ← value x;
      if bool_decide (y = pad) then
        if bool_decide (z = pad /\ rest = []) then Some [a * 4 + b / 16] else None
      else
        c ← value y;
        if bool_decide (z = pad) then
          if bool_decide (rest = []) then Some [a * 4 + b / 16; b mod 16 * 16 + c / 4] else None
        else
          d ← value z;
          bs ← decodeGroups rest;
          Some ([a * 4 + b / 16; b mod 16 * 16 + c / 4; c mod 4 * 64 + d] ++ bs)
  | _ => None
  end.

Definition lineBreak (c : ascii) : bool := bool_decide (c = "010"%char \/ c = "013"%char).
Definition DecodeString (s : list ascii) : option bytes :=
  decodeGroups (List.filter (fun c => negb (lineBreak c)) s).

(** A digit is its own value and neither padding nor a line break. *)
Lemma digit_facts x :
  0 <= x < 64 -> value (digit x) = Some x /\ digit x <> pad /\ lineBreak (digit x) = false.
Proof.
  intros Hx. assert (Forall (fun x => value (digit x) = Some x /\ digit x <> pad /\ lineBreak (digit x) = false)
    (map Z.of_nat (seq 0 64))) as H.
  { repeat constructor; vm_compute; first [reflexivity | intros [=]]. }
  rewrite Forall_forall in H. apply H, in_map_iff. exists (Z.to_nat x). split; [lia|]. apply in_seq. lia.
Qed.

Lemma filter_digit x l : 0 <= x < 64 ->
  List.filter (fun c => negb (lineBreak c)) (digit x :: l) = digit x :: List.filter (fun c => negb (lineBreak c)) l.
Proof. intros Hx. simpl. by rewrite (proj2 (proj2 (digit_facts x Hx))). Qed.

(** The digits of a group and the bytes they stand for. *)
Lemma group_ranges a b c :
  is_byte a -> is_byte b -> is_byte c ->
  0 <= a / 4 < 64 /\ 0 <= a mod 4 * 16 + b / 16 < 64 /\ 0 <= b mod 16 * 4 + c / 64 < 64 /\ 0 <= c mod 64 < 64.
Proof. unfold is_byte, in_uint. intros. Z.to_euclidean_division_equations. lia. Qed.
Lemma group_bytes a b c :
  is_byte a -> is_byte b -> is_byte c ->
  let w := a / 4 in let x := a mod 4 * 16 + b / 16 in let y := b mod 16 * 4 + c / 64 in let z := c mod 64 in
  w * 4 + x / 16 = a /\ x mod 16 * 16 + y / 4 = b /\ y mod 4 * 64 + z = c.
Proof. unfold is_byte, in_uint. intros. cbv zeta. Z.to_euclidean_division_equations. lia. Qed.

Lemma decode_digit x : 0 <= x < 64 -> value (digit x) = Some x.
Proof. apply digit_facts. Qed.
Lemma digit_pad x : 0 <= x < 64 -> bool_decide (digit x = pad) = false.
Proof. intros Hx. apply bool_decide_eq_false, digit_facts, Hx. Qed.

Lemma decodeGroups_encode bs : is_bytes bs -> decodeGroups (EncodeToString bs) = Some bs.
Proof.
  assert (is_byte 0) as H0 by (unfold is_byte, in_uint; lia).
  revert bs. fix IH 1. intros bs Hbs.
  destruct bs as [|a [|b [|c bs]]]; [done|..]; cbn [EncodeToString app];
    unfold is_bytes in Hbs; repeat match goal with H : Forall _ (_ :: _) |- _ => apply Forall_cons_1 in H as [? ?] end.
  - destruct (group_ranges a 0 0) as (R1 & R2 & _), (group_bytes a 0 0) as (B1 & _); try done.
    rewrite Z.div_0_l, Z.add_0_r in R2, B1 by lia. cbn [decodeGroups].
    rewrite !decode_digit by done. cbn [mbind option_bind]. rewrite !bool_decide_eq_true_2 by done. by rewrite B1.
  - destruct (group_ranges a b 0) as (R1 & R2 & R3 & _), (group_bytes a b 0) as (B1 & B2 & _); try done.
    rewrite Z.div_0_l, Z.add_0_r in R3, B2 by lia. cbn [decodeGroups].
    rewrite !decode_digit by done. cbn [mbind option_bind]. rewrite digit_pad by done.
    cbn [mbind option_bind]. rewrite !bool_decide_eq_true_2 by done. by rewrite B1, B2.
  - destruct (group_ranges a b c) as (R1 & R2 & R3 & R4), (group_bytes a b c) as (B1 & B2 & B3); try done.
    cbn [decodeGroups]. rewrite !decode_digit by done. cbn [mbind option_bind]. rewrite !digit_pad by done.
    cbn [mbind option_bind]. rewrite IH by done. cbn [mbind option_bind app]. by rewrite B1, B2, B3.
Qed.

Lemma filter_encode bs :
  is_bytes bs -> List.filter (fun c => negb (lineBreak c)) (EncodeToString bs) = EncodeToString bs.
Proof.
  assert (is_byte 0) as H0 by (unfold is_byte, in_uint; lia).
  revert bs. fix IH 1. intros bs Hbs.
  destruct bs as [|a [|b [|c bs]]]; [done|..]; cbn [EncodeToString app];
    unfold is_bytes in Hbs; repeat match goal with H : Forall _ (_ :: _) |- _ => apply Forall_cons_1 in H as [? ?] end.
  - destruct (group_ranges a 0 0) as (R1 & R2 & _); try done. rewrite Z.div_0_l, Z.add_0_r in R2 by lia.
    by rewrite !filter_digit.
  - destruct (group_ranges a b 0) as (R1 & R2 & R3 & _); try done. rewrite Z.div_0_l, Z.add_0_r in R3 by lia.
    by rewrite !filter_digit.
  - destruct (group_ranges a b c) as (R1 & R2 & R3 & R4); try done. rewrite !filter_digit, IH; done.
Qed.

Lemma DecodeString_EncodeToString bs : is_bytes bs -> DecodeString (EncodeToString bs) = Some bs.
Proof. intros Hbs. unfold DecodeString. by rewrite filter_encode, decodeGroups_encode. Qed.

Lemma EncodeToString_inj bs bs' : is_bytes bs -> is_bytes bs' -> EncodeToString bs = EncodeToString bs' -> bs = bs'.
Proof.
  intros H H' E. apply (f_equal DecodeString) in E. rewrite !DecodeString_EncodeToString in E by done. congruence.
Qed.
End Base64.

(** ** The configurations *)

(** A finite [float64]: a mantissa and an exponent of two. *)
Abbreviation float64 := (Z * Z)%type.

(** [configPayments] of the payment network, as far as it is set here. *)
Record VirtualConfig := mkVirtualConfig {
  ProxyMaxCapacity : string; ProxyMinFee : string; ProxyFeePercent : float64; AllowTunneling : bool }.
Record BalanceControlConfig := mkBalanceControlConfig {
  DepositWhenAmountLessThan : string; DepositUpToAmount : string; WithdrawWhenAmountReached : string }.
Record CoinConfig := mkCoinConfig {
  Enabled : bool; VirtualTunnelConfig : VirtualConfig; BalanceControl : BalanceControlConfig;
  MisbehaviorFine : string; ExcessFeeTon : string; cc_Symbol : string; cc_Decimals : Z }.
Record ChannelsConfig := mkChannelsConfig {
  Ton : CoinConfig; Jettons : gmap string CoinConfig; ExtraCurrencies : gmap Z CoinConfig;
  BufferTimeToCommit : Z; QuarantineDurationSec : Z; ConditionalCloseDurationSec : Z;
  MinSafeVirtualChannelTimeoutSec : Z }.

Record PaymentsConfig := mkPaymentsConfig {
  pc_ADNLServerKey : bytes; pc_PaymentsNodeKey : bytes; pc_WalletPrivateKey : bytes;
  pc_DBPath : string; pc_SecureProofPolicy : bool; pc_ChannelsConfig : ChannelsConfig;
  pc_MinPricePerPacketRoute : Z; pc_MinPricePerPacketInOut : Z }.

Record Config := mkConfig {
  TunnelServerKey : bytes; TunnelListenAddr : string; TunnelThreads : Z; NetworkConfigUrl : string;
  ExternalIP : string; PaymentsEnabled : bool; Payments : PaymentsConfig }.

Record PaymentsClientConfig := mkPaymentsClientConfig {
  pcc_ADNLServerKey : bytes; pcc_PaymentsNodeKey : bytes; pcc_WalletPrivateKey : bytes;
  pcc_DBPath : string; pcc_SecureProofPolicy : bool; pcc_ChannelsConfig : ChannelsConfig }.

Record ClientConfig := mkClientConfig {
  cl_TunnelServerKey : bytes; cl_TunnelThreads : Z; TunnelSectionsNum : nat; NodesPoolConfigPath : string;
  cl_PaymentsEnabled : bool; cl_Payments : PaymentsClientConfig }.

Record PaymentChain := mkPaymentChain {
  NodeKey : bytes; MaxCapacityPerVirtualChannel : string;
  PercentFeePerVirtualChannel : float64; MinFeePerVirtualChannel : string }.
Record TunnelSectionPayment := mkTunnelSectionPayment {
  Chain : list PaymentChain; JettonMaster : option string; ExtraCurrencyID : Z;
  PricePerPacketRouteNano : Z; PricePerPacketOutNano : Z }.
Record TunnelRouteSection := mkTunnelRouteSection { Key : bytes; Payment : option TunnelSectionPayment }.
Record SharedConfig := mkSharedConfig { NodesPool : list TunnelRouteSection }.

(** The default coins: the amounts kept in channels differ between a node and a
    client. *)
Definition noProxy (cap : string) : VirtualConfig := mkVirtualConfig cap "0" (0, 0) false.
Definition tonCoin (cap : string) (bc : BalanceControlConfig) : CoinConfig :=
  mkCoinConfig true (noProxy cap) bc "3" "0.25" "TON" 9.
Definition usdtCoin (bc : BalanceControlConfig) : CoinConfig :=
  mkCoinConfig false (noProxy "0") bc "12" "0.35" "USDT" 6.
Definition usdtMaster : string := "EQCxE6mUtQJKFnGfaROTKOt1lZbDiiX1kCixRv7Nw2Id_sDs".
Definition channels (ton usdt : CoinConfig) : ChannelsConfig :=
  mkChannelsConfig ton {[ usdtMaster := usdt ]} ∅ (3 * 3600) (6 * 3600) (3 * 3600) 300.

(** [ed25519.NewKeyFromSeed] panics on a seed that is not 32 bytes long;
    [prv.Seed()] is its inverse. *)
Class Ed25519 : Type := { ed_fromSeed : bytes -> bytes; ed_seed : bytes -> bytes }.

(** What the configuration code asks of the machine; [nat] counts the calls. *)
Class ConfigWorld : Type := {
  cf_generateKey : nat -> option bytes;
  cf_rand : nat -> option bytes;
  cf_numCPU : Z;
  cf_canSeed : nat -> string * bool;  (* checkCanSeed: the address seen by the port checker *)
  cf_abs : string -> outcome string;  (* filepath.Abs, filepath.Dir *)
  cf_dir : string -> string;
  cf_fault : nat -> option error;  (* a failure of the file system other than a missing file *)
}.

(** A key that was generated is that of its seed. *)
Class GeneratedKeys (E : Ed25519) (CF : ConfigWorld) : Prop :=
  generated_key : forall n k, cf_generateKey n = Some k -> ed_fromSeed (ed_seed k) = k /\ len (ed_seed k) = 32.

(** [json.MarshalIndent] and [json.Unmarshal] at a type, exact on the values
    whose strings are valid UTF-8. *)
Class Json (A : Type) : Type := {
  js_marshal : A -> outcome bytes;
  js_unmarshal : bytes -> outcome A;
  js_exact : A -> Prop;
}.
Class JsonOk (A : Type) (J : Json A) : Prop :=
  js_unmarshal_marshal : forall a bs, js_exact a -> js_marshal a = Ok bs -> js_unmarshal bs = Ok a.

(** ** The file system *)
Record FS := mkFS { fs_files : gmap string bytes; fs_dirs : gset string; fs_tick : nat }.

Definition ErrNotExist : error := Errorf "file does not exist".

Section Config.
Context {K : KeyAgreement} {E : Ed25519} {CF : ConfigWorld}.

Definition NewKeyFromSeed (seed : bytes) : outcome bytes :=
  if len seed =? 32 then Ok (ed_fromSeed seed) else Panic "ed25519: bad seed length".

(** A call that may fail for a reason of its own. *)
Definition fsAsk {A} (f : nat -> A) : M FS A := fun s =>
  (mkFS (fs_files s) (fs_dirs s) (S (fs_tick s)), Ok (f (fs_tick s))).
Definition fallible {A} (m : M FS A) : M FS A :=
  fault ← fsAsk cf_fault;
  match fault with Some e => throw e | None => m end.

Definition Stat (path : string) : M FS unit := fallible (fun s =>
  if bool_decide (is_Some (fs_files s !! path) \/ path ∈ fs_dirs s) then (s, Ok tt) else (s, Err ErrNotExist)).
Definition MkdirAll (dir : string) : M FS unit :=
  fallible (modify (fun s => mkFS (fs_files s) ({[dir]} ∪ fs_dirs s) (fs_tick s))).
Definition ReadFile (path : string) : M FS bytes := fallible (fun s =>
  match fs_files s !! path with Some data => (s, Ok data) | None => (s, Err ErrNotExist) end).
(** Writing needs the directory. *)
Definition WriteFile (path : string) (data : bytes) : M FS unit := fallible (fun s =>
  if bool_decide (cf_dir path ∈ fs_dirs s) then (mkFS (<[path := data]> (fs_files s)) (fs_dirs s) (fs_tick s), Ok tt)
  else (s, Err ErrNotExist)).

(** The directory of a file, created when it is missing. *)
Definition ensureDir (path : string) : M FS unit :=
  let dir := cf_dir path in
  err ← attempt (Stat dir);
  match err with
  | None => mret tt
  | Some e => if errorsIs e ErrNotExist then wrapM "failed to check directory" (MkdirAll dir)
              else throw (Errorw "failed to check directory" e)
  end.

Definition SaveConfig `{Json A} (cfg : A) (path : string) : M FS unit :=
  ensureDir path ;;
  data ← lift (js_marshal cfg);
  WriteFile path data.

(** Four keys in the order they are made, and the unused bytes of a web hook. *)
Definition generateKeys : M FS (bytes * bytes * bytes * bytes) :=
  let key := generated ← fsAsk cf_generateKey; lift (of_option "generate key" generated) in
  priv ← key;
  paymentsPrv ← key;
  adnlPrv ← key;
  tunnelPrv ← key;
  rnd ← fsAsk cf_rand;
  _ ← lift (of_option "rand" rnd);
  mret (priv, paymentsPrv, adnlPrv, tunnelPrv).

Definition defaultConfig (priv paymentsPrv adnlPrv tunnelPrv : bytes) : Config :=
  mkConfig (ed_seed tunnelPrv) "0.0.0.0:17330" cf_numCPU "https://ton-blockchain.github.io/global.config.json" "" false
    (mkPaymentsConfig (ed_seed adnlPrv) (ed_seed paymentsPrv) (ed_seed priv) "./payments-db/" false
      (channels (tonCoin "0" (mkBalanceControlConfig "0" "0" "5")) (usdtCoin (mkBalanceControlConfig "0" "0" "15"))) 0 0).

Definition set_ExternalIP (ip : string) (c : Config) : Config :=
  mkConfig (TunnelServerKey c) (TunnelListenAddr c) (TunnelThreads c) (NetworkConfigUrl c) ip (PaymentsEnabled c) (Payments c).

(** The first run makes a configuration and saves it, later ones read it. *)
Definition LoadConfig `{Json Config} (path : string) : M FS Config :=
  path ← lift (cf_abs path);
  ensureDir path ;;
  err ← attempt (Stat path);
  match err with
  | Some e =>
      if errorsIs e ErrNotExist then
        '(priv, paymentsPrv, adnlPrv, tunnelPrv) ← generateKeys;
        let cfg := defaultConfig priv paymentsPrv adnlPrv tunnelPrv in
        '(ip, seed) ← fsAsk cf_canSeed;
        let cfg := if (seed : bool) then set_ExternalIP ip cfg else cfg in
        SaveConfig cfg path ;;
        mret cfg
      else throw e
  | None => data ← ReadFile path; lift (js_unmarshal data)
  end.

Definition GenerateClientConfig : M FS ClientConfig :=
  '(priv, paymentsPrv, adnlPrv, tunnelPrv) ← generateKeys;
  mret (mkClientConfig (ed_seed tunnelPrv) cf_numCPU 1 "" false
    (mkPaymentsClientConfig (ed_seed adnlPrv) (ed_seed paymentsPrv) (ed_seed priv) "./payments-db/" false
      (channels (tonCoin "" (mkBalanceControlConfig "1" "3" "0")) (usdtCoin (mkBalanceControlConfig "5" "10" "0"))))).

(** What a node tells its clients: its key and its own minimum prices. *)
Definition sharedPayment (src : Config) : outcome (option TunnelSectionPayment) :=
  let p := Payments src in
  if PaymentsEnabled src && ((0 <? pc_MinPricePerPacketInOut p) || (0 <? pc_MinPricePerPacketRoute p)) then
    ppk ← NewKeyFromSeed (pc_PaymentsNodeKey p);
    mret (Some (mkTunnelSectionPayment [mkPaymentChain (PublicKey ppk) "3" (0, 0) "0"] None 0
      (pc_MinPricePerPacketRoute p) (pc_MinPricePerPacketInOut p)))
  else mret None.
Definition sharedConfig (src : Config) : outcome SharedConfig :=
  pmt ← sharedPayment src;
  key ← NewKeyFromSeed (TunnelServerKey src);
  mret (mkSharedConfig [mkTunnelRouteSection (PublicKey key) pmt]).

(** The callers look at the configuration only when it could be saved. *)
Definition GenerateSharedConfig `{Json SharedConfig} (src : Config) (path : string) : M FS SharedConfig :=
  cfg ← lift (sharedConfig src);
  SaveConfig cfg path ;;
  mret cfg.
End Config.

(** ** What survives a restart *)
Section Reload.
Context {K : KeyAgreement} {E : Ed25519} {CF : ConfigWorld}.

Definition exists_at (s : FS) (path : string) : Prop := is_Some (fs_files s !! path) \/ path ∈ fs_dirs s.
Definition quiet (s : FS) : Prop := forall n, (fs_tick s <= n)%nat -> cf_fault n = None.
Definition ticked (s : FS) : FS := mkFS (fs_files s) (fs_dirs s) (S (fs_tick s)).

Lemma fallible_run {A} (m : M FS A) s :
  fallible m s = match cf_fault (fs_tick s) with Some e => (ticked s, Err e) | None => m (ticked s) end.
Proof using Type. unfold fallible. rewrite bind_run. simpl. by destruct (cf_fault (fs_tick s)). Qed.

Lemma quiet_ticked s : quiet s -> quiet (ticked s).
Proof using Type. intros H n Hn. apply H. simpl in Hn. lia. Qed.

Lemma Stat_quiet s path : quiet s -> exists_at s path -> Stat path s = (ticked s, Ok tt).
Proof using Type. intros Hq He. unfold Stat. rewrite fallible_run, (Hq _ (le_n _)). by rewrite bool_decide_eq_true_2. Qed.

Lemma ensureDir_quiet s path : quiet s -> exists_at s (cf_dir path) -> ensureDir path s = (ticked s, Ok tt).
Proof using Type.
  intros Hq He. unfold ensureDir. rewrite bind_run, attempt_run, (Stat_quiet _ _ Hq He). simpl. done.
Qed.

(** A step that ended well keeps the files and directories there are. *)
Definition kept (s s' : FS) : Prop :=
  (forall p d, fs_files s !! p = Some d -> fs_files s' !! p = Some d) /\ (forall p, p ∈ fs_dirs s -> p ∈ fs_dirs s').
Lemma kept_exists s s' p : kept s s' -> exists_at s p -> exists_at s' p.
Proof using Type. intros [Hf Hd] [[d Hp]|Hp]; [left|right]; eauto. Qed.

Lemma Stat_state s path : kept s (Stat path s).1 /\ kept (Stat path s).1 s.
Proof using Type.
  unfold Stat. rewrite fallible_run. destruct (cf_fault _); [|case_bool_decide]; by split.
Qed.
Lemma Stat_ok s s' path u : Stat path s = (s', Ok u) -> exists_at s path.
Proof using Type. unfold Stat. rewrite fallible_run. destruct (cf_fault _); [done|]. case_bool_decide as H; [|done]. by intros _. Qed.

Lemma ensureDir_ok path s s' u :
  ensureDir path s = (s', Ok u) -> kept s s' /\ exists_at s' (cf_dir path) /\ fs_files s' = fs_files s.
Proof using Type.
  unfold ensureDir. rewrite bind_run, attempt_run. destruct (Stat_state s (cf_dir path)) as [Hk Hk'].
  destruct (Stat (cf_dir path) s) as [s1 [[]|e|w]] eqn:Es; simpl in *; [| |done].
  - intros [= <- _]. split_and!; [done|by eapply kept_exists, Stat_ok|].
    revert Es. unfold Stat. rewrite fallible_run. destruct (cf_fault _); [done|]. case_bool_decide; [|done]. by intros [= <-].
  - assert (fs_files s1 = fs_files s) as Hs1.
    { revert Es. unfold Stat. rewrite fallible_run. destruct (cf_fault _); [|case_bool_decide]; intros [= <-]; done. }
    destruct (errorsIs e ErrNotExist); [|done]. unfold wrapM, MkdirAll. rewrite fallible_run.
    destruct (cf_fault _); [done|]. intros [= <- _]. simpl. split_and!; [|right; set_solver|done].
    destruct Hk as [Hf Hd]. split; [done|]. intros p Hp. specialize (Hd p Hp). set_solver.
Qed.

(** The state after a configuration was loaded: what is in the file is what was
    returned. *)
Definition holds {A} {J : Json A} (s : FS) (p : string) (cfg : A) : Prop :=
  exists data, fs_files s !! p = Some data /\ js_unmarshal data = Ok cfg /\ exists_at s (cf_dir p).

Lemma SaveConfig_ok {A} {J : Json A} {JOk : JsonOk A J} (cfg : A) p s s' u :
  js_exact cfg -> SaveConfig cfg p s = (s', Ok u) -> holds s' p cfg.
Proof using Type.
  intros He H. unfold SaveConfig in H. rewrite bind_run in H.
  destruct (ensureDir p s) as [s1 [[]|e|w]] eqn:Ed; [|done..]. destruct (ensureDir_ok _ _ _ _ Ed) as (_ & Hx & _).
  rewrite bind_run, lift_run in H. destruct (js_marshal cfg) as [data|e|w] eqn:Ej; [|done..].
  unfold WriteFile in H. rewrite fallible_run in H. destruct (cf_fault _); [done|]. case_bool_decide as Hd; [|done].
  injection H as <- _. exists data. split_and!; [apply lookup_insert_eq|by eapply js_unmarshal_marshal|by right].
Qed.

Context {J : Json Config} {JOk : JsonOk Config J}.

Lemma holds_again path p s cfg :
  cf_abs path = Ok p -> holds s p cfg -> quiet s ->
  exists s', LoadConfig path s = (s', Ok cfg) /\ fs_files s' = fs_files s.
Proof using Type.
  intros Hp (data & Hd & Hj & Hdir) Hq. unfold LoadConfig. rewrite bind_run, lift_run, Hp. cbv iota beta.
  rewrite bind_run, (ensureDir_quiet _ _ Hq Hdir). cbv iota beta. pose proof (quiet_ticked _ Hq) as Hq1.
  rewrite bind_run, attempt_run, (Stat_quiet _ _ Hq1); [|left; by eexists]. cbn [fst snd]. cbv iota beta.
  unfold ReadFile. rewrite bind_run, fallible_run, (quiet_ticked _ Hq1 _ (le_n _)). cbn. rewrite Hd.
  eexists. split; [by rewrite lift_run, Hj|done].
Qed.

(** C39: the configuration of a node survives its restart: what the first run
    made and saved, keys included, is what every later run loads, and a run that
    only reads leaves the file as it is. *)
Theorem LoadConfig_again path s s' cfg :
  LoadConfig path s = (s', Ok cfg) -> js_exact cfg -> quiet s' ->
  exists s'', LoadConfig path s' = (s'', Ok cfg) /\ fs_files s'' = fs_files s'.
Proof using JOk.
  intros H He. pose proof H as H0. unfold LoadConfig in H. rewrite bind_run, lift_run in H.
  destruct (cf_abs path) as [p|e|w] eqn:Hp; [|done..]. apply holds_again with p; [done|]. clear H0. rewrite bind_run in H.
  destruct (ensureDir p s) as [s1 [[]|e|w]] eqn:Ed; [|done..]. destruct (ensureDir_ok _ _ _ _ Ed) as (_ & Hx & _).
  rewrite bind_run, attempt_run in H. destruct (Stat_state s1 p) as [Hk _].
  destruct (Stat p s1) as [s2 [[]|e|w]] eqn:Est; simpl in H, Hk; [| |done].
  - unfold ReadFile in H. rewrite bind_run, fallible_run in H. destruct (cf_fault _); [done|].
    simpl in H. destruct (fs_files s2 !! p) as [data|] eqn:Ef; [|done]. rewrite lift_run in H. injection H as <- Hj.
    exists data. split_and!; [done|done|]. by apply (kept_exists s1 (ticked s2)).
  - destruct (errorsIs e ErrNotExist); [|done]. rewrite bind_run in H.
    destruct (generateKeys s2) as [s3 [[[[a b] c] d]|e'|w]]; [|done..].
    rewrite bind_run in H. unfold fsAsk in H. destruct (cf_canSeed (fs_tick s3)) as [ip seed]. rewrite bind_run in H.
    destruct (SaveConfig _ p _) as [s4 [[]|e'|w]] eqn:Es; [|done..]. rewrite ret_run in H. injection H as <- <-.
    by eapply SaveConfig_ok.
Qed.
End Reload.

(** ** A first run on an empty disk *)
Section Runs.
Definition toyEd : Ed25519 := {| ed_fromSeed := fun s => drop 31 s; ed_seed := fun k => replicate 31 0 ++ k |}.
Definition toyConfigWorld : ConfigWorld := {|
  cf_generateKey := fun n => Some [Z.of_nat n];
  cf_rand := fun _ => Some [];
  cf_numCPU := 8;
  cf_canSeed := fun _ => ("1.2.3.4"%string, true);
  cf_abs := fun p => Ok ("/home/" +:+ p)%string;
  cf_dir := fun _ => "/home"%string;
  cf_fault := fun _ => None;
|}.
#[local] Existing Instances toyEd toyConfigWorld.

Definition firstConfig : Config := set_ExternalIP "1.2.3.4" (defaultConfig [3] [4] [5] [6]).
(** A codec of one value. *)
Definition toyJson : Json Config := {|
  js_marshal := fun c => Ok [1; 2; 3];
  js_unmarshal := fun _ => Ok firstConfig;
  js_exact := fun c => c = firstConfig;
|}.
#[local] Existing Instance toyJson.
#[local] Instance toyJson_ok : JsonOk Config toyJson.
Proof. by intros a bs -> _. Qed.

Definition emptyDisk : FS := mkFS ∅ ∅ 0.

Lemma LoadConfig_again_witness :
  (LoadConfig "node.json" emptyDisk).2 = Ok firstConfig /\
  exists s'', LoadConfig "node.json" (LoadConfig "node.json" emptyDisk).1 = (s'', Ok firstConfig) /\
    fs_files s'' = fs_files (LoadConfig "node.json" emptyDisk).1.
Proof using Type.
  assert ((LoadConfig "node.json" emptyDisk).2 = Ok firstConfig) as H by (vm_compute; reflexivity).
  split; [exact H|].
  assert (LoadConfig "node.json" emptyDisk = ((LoadConfig "node.json" emptyDisk).1, Ok firstConfig)) as Hr
    by (rewrite <- H; destruct (LoadConfig "node.json" emptyDisk); reflexivity).
  refine (LoadConfig_again "node.json" emptyDisk (LoadConfig "node.json" emptyDisk).1 firstConfig Hr eq_refl _).
  intros n Hn. reflexivity.
Defined.
End Runs.
