(* ===== verification/Address.v ===== *)
(** * The external address of a node ([checkIPAddress], [checkCanSeed],
    [config/config.go])

    Before the first configuration of a node is saved the program asks a port
    checker to connect back to it: one goroutine listens and reads the address
    the checker saw, the other calls the checker and waits five seconds.  Both use
    the variable [ip] without a lock, so they are the steps of one machine here. *)

From Stdlib Require Import Ascii.
From S2P Require Import Prelude NetAddr Seqno Stream Wire Samples Keys Hoare Config.
Local Open Scope string_scope.

(** The canonical text of an IPv4 address, or nothing. *)
Definition checkIPAddress (ip : string) : string :=
  match ParseIP (chars ip) with
  | None => ""
  | Some p =>
      match To4 p with
      | [] => ""
      | p => String.string_of_list_ascii (IP4_String p)
      end
  end.

(** ** The port checker *)

(** Where the listening goroutine is: before [Listen], [Accept] and [Read], with
    the text read but not checked yet, in front of its deferred send, at the end. *)
Inductive listenerPc : Type := LListen | LAccept | LRead | LCheck | LDefer | LEnd.
(** Where the caller is: before the look-up, [Dial] and [Write], in the select,
    behind it with [ok], returned. *)
Inductive callerPc : Type :=
| CResolve | CDial | CWrite | CSelect
| COk (ok : bool)
| CReturned (ip : string) (ok : bool).

(** [ck_ch] is the channel of one place. *)
Record checker := mkChecker { ck_ip : string; ck_ch : option bool; ck_listener : listenerPc; ck_caller : callerPc }.

Definition checkerStart : checker := mkChecker "" None LListen CResolve.

(** The room of the buffer the address is read into. *)
Definition ipDataLen : nat := 256.

Inductive canSeedStep : checker -> checker -> Prop :=
| seed_listen ip ch c : canSeedStep (mkChecker ip ch LListen c) (mkChecker ip ch LAccept c)
| seed_listen_err ip ch c : canSeedStep (mkChecker ip ch LListen c) (mkChecker ip ch LDefer c)
| seed_accept ip ch c : canSeedStep (mkChecker ip ch LAccept c) (mkChecker ip ch LRead c)
| seed_accept_err ip ch c : canSeedStep (mkChecker ip ch LAccept c) (mkChecker ip ch LDefer c)
| seed_read ip ch c data : (String.length data <= ipDataLen)%nat ->
    canSeedStep (mkChecker ip ch LRead c) (mkChecker data ch LCheck c)
| seed_read_err ip ch c : canSeedStep (mkChecker ip ch LRead c) (mkChecker ip ch LDefer c)
| seed_check ip ch c : canSeedStep (mkChecker ip ch LCheck c) (mkChecker (checkIPAddress ip) ch LDefer c)
| seed_send ip c : canSeedStep (mkChecker ip None LDefer c) (mkChecker ip (Some (negb (String.eqb ip ""))) LEnd c)
| seed_resolved ip ch l : canSeedStep (mkChecker ip ch l CResolve) (mkChecker ip ch l CDial)
| seed_dialed ip ch l : canSeedStep (mkChecker ip ch l CDial) (mkChecker ip ch l CWrite)
| seed_written ip ch l : canSeedStep (mkChecker ip ch l CWrite) (mkChecker ip ch l CSelect)
| seed_unreachable ip ch l c : c = CResolve \/ c = CDial \/ c = CWrite ->
    canSeedStep (mkChecker ip ch l c) (mkChecker ip ch l (CReturned "" false))
| seed_received ip k l : canSeedStep (mkChecker ip (Some k) l CSelect) (mkChecker ip None l (COk k))
| seed_timeout ip ch l : canSeedStep (mkChecker ip ch l CSelect) (mkChecker ip ch l (COk false))
| seed_return ip ch l ok : canSeedStep (mkChecker ip ch l (COk ok)) (mkChecker ip ch l (CReturned ip ok)).

(** What [checkCanSeed] may return. *)
Definition checkCanSeed (res : string * bool) : Prop :=
  exists ip ch l, rtc canSeedStep checkerStart (mkChecker ip ch l (CReturned (fst res) (snd res))).

(** ** Canonical addresses *)

(** The text of four bytes. *)
Definition canonical (ip : string) : Prop :=
  exists quad, is_bytes quad /\ length quad = 4%nat /\ ip = String.string_of_list_ascii (IP4_String quad).

Lemma checkIPAddress_canonical s : checkIPAddress s = "" \/ canonical (checkIPAddress s).
Proof.
  unfold checkIPAddress. destruct (ParseIP (chars s)) as [p|] eqn:Ep; [|by left].
  apply ParseIP_bytes, To4_bytes in Ep as [->|[Hb Hl]]; [by left|]. destruct (To4 p) as [|b quad]; [by left|].
  right. by exists (b :: quad).
Qed.

Lemma checkIPAddress_fixed s : canonical s -> checkIPAddress s = s.
Proof.
  intros (quad & Hb & Hl & ->). unfold checkIPAddress. rewrite chars_string, ParseIP_IP4_String, To4_mapped by done.
  destruct quad; [discriminate|done].
Qed.

Lemma canonical_nonempty s : canonical s -> s <> "".
Proof.
  intros (quad & Hb & Hl & ->) E. apply (f_equal chars) in E. rewrite chars_string in E. apply (f_equal parseIPv4) in E.
  by rewrite parseIPv4_IP4_String in E.
Qed.

(** ** Every interleaving *)

(** [true] was sent, or received, only after the address was checked; the address
    is not written any more then. *)
Definition checkerOk (st : checker) : Prop :=
  let settled ip := canonical ip /\ ck_listener st = LEnd /\ ck_ip st = ip in
  (ck_listener st = LDefer \/ ck_listener st = LEnd -> ck_ip st = "" \/ canonical (ck_ip st)) /\
  (ck_listener st = LListen \/ ck_listener st = LAccept \/ ck_listener st = LRead -> ck_ip st = "") /\
  (ck_ch st = Some true \/ ck_caller st = COk true -> settled (ck_ip st)) /\
  (forall ip, ck_caller st = CReturned ip true -> settled ip).

Lemma canSeedStep_ok st st' : canSeedStep st st' -> checkerOk st -> checkerOk st'.
Proof.
  intros H (Hd & Hl & Hch & Hret).
  destruct H; unfold checkerOk in *; cbn [ck_ip ck_ch ck_listener ck_caller] in *;
    try (specialize (Hl ltac:(auto)); subst ip); split_and!; intros;
    try match goal with E : _ = CReturned _ true |- _ => apply Hret in E end;
    try solve [intuition (congruence || eauto)].
  - apply checkIPAddress_canonical.
  - destruct (Hd ltac:(auto)) as [->|Hc]; [|by intuition]. destruct H as [[=]|H]. by destruct (Hch (or_intror H)) as (_ & [=] & _).
  - destruct H as [[=]|[= ->]]. by apply Hch; left.
  - injection H as <- ->. by apply Hch; right.
Qed.

Lemma checkCanSeed_inv st : rtc canSeedStep checkerStart st -> checkerOk st.
Proof.
  intros H. assert (checkerOk checkerStart) as H0 by (unfold checkerOk; simpl; split_and!; intros; intuition congruence).
  revert H0. induction H; eauto using canSeedStep_ok.
Qed.

Lemma checkCanSeed_canonical ip : checkCanSeed (ip, true) -> canonical ip.
Proof. intros (ip' & ch & l & H). apply checkCanSeed_inv in H as (_ & _ & _ & H). by destruct (H ip eq_refl). Qed.

(** ** Runs *)

Example checkIPAddress_samples :
  checkIPAddress "1.2.3.4" = "1.2.3.4" /\ checkIPAddress "::ffff:1.2.3.4" = "1.2.3.4" /\
  checkIPAddress "2001:db8::7" = "" /\ checkIPAddress "1.2.3.4 " = "".
Proof. vm_compute. auto. Qed.

(** The checker called back in time. *)
Lemma seed_in_time ip : (String.length ip <= ipDataLen)%nat -> canonical ip -> checkCanSeed (ip, true).
Proof.
  intros Hlen Hip. exists ip, None, LEnd. cbn [fst snd]. unfold checkerStart.
  do 3 (eapply rtc_l; [first [apply seed_resolved | apply seed_dialed | apply seed_written]|]).
  do 2 (eapply rtc_l; [first [apply seed_listen | apply seed_accept]|]).
  eapply rtc_l; [by apply (seed_read _ _ _ ip)|]. eapply rtc_l; [apply seed_check|]. rewrite (checkIPAddress_fixed _ Hip).
  eapply rtc_l; [apply seed_send|]. rewrite (proj2 (String.eqb_neq _ _) (canonical_nonempty _ Hip)).
  eapply rtc_l; [apply seed_received|]. apply rtc_once, seed_return.
Qed.

(** The time is up while the goroutine waits in [Accept]: nothing closes its
    listener, which keeps the port for as long as the program runs. *)
Lemma listener_left_open : rtc canSeedStep checkerStart (mkChecker "" None LAccept (CReturned "" false)).
Proof.
  do 3 (eapply rtc_l; [first [apply seed_resolved | apply seed_dialed | apply seed_written]|]).
  eapply rtc_l; [apply seed_listen|]. eapply rtc_l; [apply seed_timeout|]. apply rtc_once, seed_return.
Qed.

(** A text that was not checked can be returned, but only with [false]. *)
Lemma unchecked_address_returned : checkCanSeed ("not an address", false).
Proof.
  exists "not an address", None, LCheck. cbn [fst snd]. unfold checkerStart.
  do 3 (eapply rtc_l; [first [apply seed_resolved | apply seed_dialed | apply seed_written]|]).
  do 2 (eapply rtc_l; [first [apply seed_listen | apply seed_accept]|]).
  eapply rtc_l; [apply (seed_read _ _ _ "not an address"); vm_compute; lia|].
  eapply rtc_l; [apply seed_timeout|]. apply rtc_once, seed_return.
Qed.
