(* ===== verification/Setup.v ===== *)
(** * Choosing a route and running a tunnel ([tunnel/setup.go])

    A client picks nodes of its pool at random, builds the two chains of a
    tunnel out of them, makes sure of a payment channel for those that are paid,
    creates the tunnel and waits for it; when the tunnel stalls it may start over
    with another route.  The random numbers, the decision to accept a route, the
    payment service and the blockchain are the parameter [SetupWorld]. *)

From Stdlib Require Import Ascii.
From stdpp Require Import pretty.
From S2P Require Import Prelude Seqno Stream Wire Samples Keys PayChain Hoare State Peers Node Payments OutGate Gateway Worlds Traffic.
From S2P Require Import Client ClientMsg ClientPay ClientIO Config.

(** ** What is asked of the outside *)

(** A channel of the payment service: its counterparty and address, and the
    coin it holds. *)
Record OnchainChannel := mkOnchainChannel {
  oc_Key : bytes; oc_Address : string; oc_Deposited : Z; oc_Jetton : option string; oc_ExtraCurrencyID : Z }.

Definition AcceptorDecisionCancel : Z := 0.
Definition AcceptorDecisionAccept : Z := 1.
Definition AcceptorDecisionReject : Z := 2.

Class SetupWorld : Type := {
  sw_random : nat -> option bytes;  (* cRand.Read of eight bytes *)
  sw_shuffle : Z -> list nat -> nat -> list (nat * nat);
    (* the swaps of rand.Shuffle(n) by a generator with this seed, after shuffles of these sizes *)
  sw_acceptor : nat -> list SectionInfo -> list SectionInfo -> Z;
  sw_askReroute : nat -> bool;
  sw_parseAddr : string -> outcome string;  (* address.ParseAddr, by its text *)
  sw_bounce : string -> string;
  sw_fromDecimal : string -> Z -> outcome Z;  (* tlb.FromDecimal, in nano *)
  sw_listChannels : nat -> outcome (list OnchainChannel);  (* the active ones *)
  sw_currentBlock : nat -> outcome Z;
  sw_account : nat -> Z -> string -> outcome (option bytes);  (* None when it is not active *)
  sw_channelOpen : string -> bytes -> outcome bool;  (* ParseAsyncChannel, and its status *)
  sw_openChannel : nat -> bytes -> option string -> Z -> outcome string;
  sw_getChannel : nat -> string -> outcome (option (bool * bool));  (* None when not found; who is ready *)
}.

(** [rand.Shuffle] is documented to call [swap] with indices below [n]. *)
Class SetupWorldOk (SW : SetupWorld) : Prop :=
  sw_shuffle_bounded : forall seed before n,
    Forall (fun x => (fst x < n)%nat /\ (snd x < n)%nat) (sw_shuffle seed before n).

(** ** State *)

(** What is sent over [events]. *)
Inductive uiEvent : Type :=
| StoppedEvent
| UpdatedEvent (t : nat) (ip : bytes) (port : Z)
| ConfigurationErrorEvent (e : error)
| MsgEvent (msg : string)
| ErrorEvent (e : error).

(** The gateway, the slice of nodes that the shuffles permute in place, and the
    routes tried. *)
Record Setup {W : World} := mkSetup {
  su_gateway : Gateway RegularOutTunnel;
  su_nodes : list TunnelRouteSection;
  su_attempts : gset (list ascii);
  su_events : list uiEvent;
}.

Definition ErrRouteCanceled : error := Errorf "route canceled".
Definition ErrRouteIsNotAccepted : error := Errorf "route is not accepted".
Definition ErrNoMoreRoutes : error := Errorf "no more routes to try".

(** A finite [float64] as a [big.Float]: 53 bits. *)
Definition NewFloat (x : float64) : BigFloat.Float := BigFloat.mkFloat 53 (fst x) (snd x).

Definition PublicKeySize : Z := 32.

(** [l[i], l[j] = l[j], l[i]]. *)
Definition swap {A} (l : list A) (x : nat * nat) : outcome (list A) :=
  match l !! fst x, l !! snd x with
  | Some a, Some b => Ok (<[fst x := b]> (<[snd x := a]> l))
  | _, _ => Panic "index out of range"
  end.
Fixpoint swapAll {A} (l : list A) (swaps : list (nat * nat)) : outcome (list A) :=
  match swaps with
  | [] => Ok l
  | x :: swaps => l ← swap l x; swapAll l swaps
  end.

Section Setup.
Context {C : CipherCtr} {T : TL} {K : KeyAgreement} {W : World} {CW : ClientWorld} {SW : SetupWorld}.

Abbreviation G := (GM RegularOutTunnel).
Abbreviation SM := (M Setup).

(** A step of the gateway. *)
Definition inGate {A} (m : G A) : SM A := fun s =>
  let '(g, o) := m (su_gateway s) in (mkSetup _ g (su_nodes s) (su_attempts s) (su_events s), o).
Definition send (e : uiEvent) : SM unit :=
  modify (fun s => mkSetup _ (su_gateway s) (su_nodes s) (su_attempts s) (su_events s ++ [e])).
Definition setNodes (l : list TunnelRouteSection) : SM unit :=
  modify (fun s => mkSetup _ (su_gateway s) l (su_attempts s) (su_events s)).
Definition setAttempts (a : gset (list ascii)) : SM unit :=
  modify (fun s => mkSetup _ (su_gateway s) (su_nodes s) a (su_events s)).

(** ** Sections from the configuration *)

Fixpoint paymentTunnel (Decimals : Z) (l : list PaymentChain) : outcome (list PaymentTunnelSection) :=
  match l with
  | [] => Ok []
  | c :: l =>
      if negb (len (NodeKey c) =? PublicKeySize) then Err (Errorf "invalid payment node key size") else
      minFee ← wrapErr "invalid payment fee" (sw_fromDecimal (MinFeePerVirtualChannel c) Decimals);
      maxCap ← wrapErr "invalid payment cap" (sw_fromDecimal (MaxCapacityPerVirtualChannel c) Decimals);
      rest ← paymentTunnel Decimals l;
      mret (mkPaymentTunnelSection (NodeKey c) minFee (NewFloat (PercentFeePerVirtualChannel c)) maxCap :: rest)
  end.

Definition payerOf (p : TunnelSectionPayment) (isOut : bool) : outcome Payer :=
  '(jetton, jettonStr) ← match JettonMaster p with
    | None => Ok (None, EmptyString)
    | Some master =>
        j ← wrapErr "invalid jetton master address" (sw_parseAddr master);
        Ok (Some j, sw_bounce j)
    end;
  '(_, Decimals) ← wrapErr "failed to resolve coin config" (cw_resolveCoinConfig jettonStr (ExtraCurrencyID p));
  ptn ← paymentTunnel Decimals (Chain p);
  mret (mkPayer ptn (if isOut then PricePerPacketOutNano p else PricePerPacketRouteNano p)
    jetton (ExtraCurrencyID p) 0 None None 0 0 None 0).

Definition paymentConfigToSections (s : TunnelRouteSection) (isOut : bool) : G SectionInfo :=
  guard_err (negb (len (Key s) =? PublicKeySize)) "invalid `in` route node key size" ;;
  generated ← ask cw_generateKey;
  k ← lift (wrapErr "generate to encryption keys failed" (GenerateEncryptionKeys generated (Key s)));
  g ← get;
  payer ← match Payment s with
          | Some p => if Service (g_payments g) then x ← lift (payerOf p isOut); mret (Some x) else mret None
          | None => mret None
          end;
  mret (mkSectionInfo k payer).

(** ** One route *)

Definition poolAt (pool : list TunnelRouteSection) (i : nat) : G TunnelRouteSection :=
  match pool !! i with Some s => mret s | None => panic "index out of range" end.

(** [n] nodes of the pool from [i]; for the first of them a second section is
    made, to return through. *)
Fixpoint outSections (pool : list TunnelRouteSection) (n i : nat) (siBack : option SectionInfo)
    : G (list SectionInfo * option SectionInfo) :=
  match n with
  | O => mret ([], siBack)
  | S n =>
      node ← poolAt pool i;
      si ← wrapM "convert config to section in `out` route failed" (paymentConfigToSections node false);
      siBack ← match siBack with
               | None => b ← wrapM "convert config to section in `out` route failed" (paymentConfigToSections node false);
                         mret (Some b)
               | Some b => mret (Some b)
               end;
      '(rest, siBack) ← outSections pool n (S i) siBack;
      mret (si :: rest, siBack)
  end.

Fixpoint inSections (pool : list TunnelRouteSection) (n i : nat) : G (list SectionInfo) :=
  match n with
  | O => mret []
  | S n =>
      node ← poolAt pool i;
      si ← wrapM "convert config to section in `in` route failed" (paymentConfigToSections node false);
      rest ← inSections pool n (S i);
      mret (si :: rest)
  end.

(** The node next to us on the way back is to be the first one on the way out:
    it is moved to the end, or put there in place of another. *)
Definition returnThrough (chainFrom : list SectionInfo) (siBack : option SectionInfo) : list SectionInfo :=
  match siBack, chainFrom with
  | Some back, _ :: _ =>
      let last := (length chainFrom - 1)%nat in
      match list_find (fun s => ReceiverPubKey (si_Keys s) = ReceiverPubKey (si_Keys back)) chainFrom with
      | Some (i, node) =>
          match chainFrom !! last with
          | Some l => <[last := node]> (<[i := l]> chainFrom)
          | None => chainFrom
          end
      | None => <[last := back]> chainFrom
      end
  | _, _ => chainFrom
  end.

(** The text of a route: the keys of its nodes. *)
Definition arrow : list ascii := String.list_ascii_of_string " -> ".
Definition routeString (chain : list SectionInfo) : list ascii :=
  String.list_ascii_of_string "we -> " ++
  concat (map (fun s => Base64.EncodeToString (ReceiverPubKey (si_Keys s)) ++ arrow) chain) ++
  String.list_ascii_of_string "we".

(** A shuffle of the slice from [from] on. *)
Definition shuffleFrom (from : nat) (seed : Z) (before : list nat) : SM unit :=
  s ← get;
  let tail := drop from (su_nodes s) in
  tail ← lift (swapAll tail (sw_shuffle seed before (length tail)));
  setNodes (take from (su_nodes s) ++ tail).

(** The chains of a new route over [sections] nodes, and the nodes that act in
    it. *)
Definition assemble (sections : nat) : SM (list SectionInfo * list SectionInfo * list TunnelRouteSection) :=
  random ← inGate (ask sw_random);
  rndInt ← lift (wrapErr "failed to generate random number" (of_option "rand" random));
  seed ← lift (Uint64 rndInt);
  let seed := int64 seed in
  shuffleFrom 0 seed [] ;;
  s ← get;
  match su_nodes s with
  | [] => panic "index out of range"
  | out :: pool =>
      '(chainTo, chainFrom, acting) ←
        (if (1 <? Z.of_nat sections) then
           let n := (sections - 1)%nat in
           '(chainTo, siBack) ← inGate (outSections pool n 0 None);
           shuffleFrom 1 seed [length (su_nodes s)] ;;
           s ← get;
           let pool' := drop 1 (su_nodes s) in
           chainFrom ← inGate (inSections pool' n 0);
           mret (chainTo, (chainFrom, siBack), take n pool ++ take n pool')
         else mret ([], ([], None), []));
      siGate ← inGate (wrapM "convert config to section out gateway failed" (paymentConfigToSections out true));
      mret (chainTo ++ [siGate], returnThrough (fst chainFrom) (snd chainFrom), out :: acting)
  end.

(** ** Payment channels *)

(** The first live channel with the node; the coin of the channel is not looked
    at. *)
Fixpoint liveChannel (ch : bytes) (l : list OnchainChannel) : G bool :=
  match l with
  | [] => mret false
  | channel :: l =>
      if bool_decide (oc_Key channel = ch) then
        block ← ask sw_currentBlock;
        block ← wrapM "failed to get current block" (lift block);
        acc ← ask (fun n => sw_account n block (oc_Address channel));
        acc ← wrapM "failed to get account" (lift acc);
        match acc with
        | None => liveChannel ch l
        | Some data =>
            match sw_channelOpen (oc_Address channel) data with
            | Ok true => mret true
            | Panic w => panic w
            | _ => liveChannel ch l
            end
        end
      else liveChannel ch l
  end.

(** The exchange of states after a deployment is polled without a bound. *)
Fixpoint waitExchange (fuel : nat) (addr : string) : G unit :=
  match fuel with
  | O => throw OutOfFuel
  | S fuel =>
      res ← ask (fun n => sw_getChannel n addr);
      st ← wrapM "failed to get channel" (lift res);
      match st with
      | Some (true, true) => mret tt
      | _ => waitExchange fuel addr
      end
  end.

Definition preparePayerPaymentChannel (fuel : nat) (ch : bytes) (jetton : option string) (ecID : Z) : SM bytes :=
  res ← inGate (ask sw_listChannels);
  list ← wrapM "failed to list channels" (lift res);
  found ← inGate (liveChannel ch list);
  if (found : bool) then mret ch
  else
    send (MsgEvent "Deploying payment channel for tunnel...") ;;
    res ← inGate (ask (fun n => sw_openChannel n ch jetton ecID));
    addr ← wrapM "failed to deploy channel with node" (lift res);
    inGate (waitExchange fuel addr) ;;
    mret ch.

(** One channel for each payment node and coin, named by a text. *)
Definition text (s : string) : list ascii := String.list_ascii_of_string s.
Definition channelKey (p : TunnelSectionPayment) (first : PaymentChain) : list ascii :=
  Base64.EncodeToString (NodeKey first) ++
  (if ExtraCurrencyID p =? 0 then [] else text (", EC: " +:+ pretty (ExtraCurrencyID p))) ++
  match JettonMaster p with Some master => text (", jetton: " +:+ master) | None => [] end.

Fixpoint checkAndDeployPaymentChannels (fuel : nat) (nodes : list TunnelRouteSection)
    (requiredChannels : gset (list ascii)) : SM unit :=
  match nodes with
  | [] => mret tt
  | sec :: nodes =>
      match Payment sec with
      | None => checkAndDeployPaymentChannels fuel nodes requiredChannels
      | Some p =>
          match Chain p with
          | [] => throw (Errorf "no payment nodes chain specified in config for node")
          | first :: _ =>
              let key := channelKey p first in
              jetton ← match JettonMaster p with
                       | None => mret None
                       | Some master => match sw_parseAddr master with Ok j => mret (Some j) | _ => panic "invalid address" end
                       end;
              if bool_decide (key ∈ requiredChannels) then checkAndDeployPaymentChannels fuel nodes requiredChannels
              else
                send (MsgEvent "Preparing payment channel for tunnel...") ;;
                _ ← wrapM "failed to prepare payment channel"
                      (preparePayerPaymentChannel fuel (NodeKey first) jetton (ExtraCurrencyID p));
                checkAndDeployPaymentChannels fuel nodes ({[key]} ∪ requiredChannels)
          end
      end
  end.

(** ** Waiting for the tunnel

    What happens to the gateway between two polls of [WaitForInit], and whether
    the context has ended by then. *)
Abbreviation schedule := (list (G unit * option error)).

(** [None] while the schedule has not brought it to an end.  The two messages on
    its progress that it passes to [events] are left out. *)
Fixpoint WaitForInit (sched : schedule) (t : nat) (phase : waitPhase) : G (option (bytes * Z)) :=
  match sched with
  | [] => mret None
  | (other, ctxErr) :: sched =>
      ignore other ;;
      r ← WaitForInit_poll t phase ctxErr;
      match r with
      | inl phase => WaitForInit sched t phase
      | inr x => mret (Some x)
      end
  end.

(** ** A route from start to end *)

Inductive routeResult : Type :=
| Configured (t : nat) (port : Z) (ip : bytes)
| Pending (t : nat)
| Failed (e : error) (retryable : bool).

(** [return ..., err, retryable]. *)
Definition failing {A} (retryable : bool) (m : SM A) (k : A -> SM routeResult) : SM routeResult := fun s =>
  match m s with
  | (s', Ok a) => k a s'
  | (s', Err e) => (s', Ok (Failed e retryable))
  | (s', Panic w) => (s', Panic w)
  end.

(** A route that was not tried, in at most [tries] attempts. *)
Fixpoint newRoute (tries sections : nat) : SM (option (list SectionInfo * list SectionInfo * list TunnelRouteSection)) :=
  match tries with
  | O => mret None
  | S tries =>
      '(chainTo, chainFrom, acting) ← assemble sections;
      s ← get;
      let strTo := routeString (chainTo ++ chainFrom) in
      if bool_decide (strTo ∈ su_attempts s) then newRoute tries sections
      else setAttempts ({[strTo]} ∪ su_attempts s) ;; mret (Some (chainTo, chainFrom, acting))
  end.

(** [tries > 50] ends the search. *)
Definition maxTries : nat := 51.

Definition configureRoute (fuel waits : nat) (sched : schedule) (sections : nat) : SM routeResult :=
  failing false (newRoute maxTries sections) (fun route =>
    match route with
    | None => mret (Failed ErrNoMoreRoutes true)
    | Some (chainTo, chainFrom, acting) =>
        den ← inGate (ask (fun n => sw_acceptor n chainTo chainFrom));
        if den =? AcceptorDecisionAccept then
          failing false (inGate (g ← get;
              generated ← ask cw_generateKey;
              lift (wrapErr "generate us encryption keys failed"
                (GenerateEncryptionKeys generated (PublicKey (g_key g)))))) (fun toUs =>
          failing false (g ← inGate get;
              if Service (g_payments g)
              then wrapM "failed to check payment channels" (checkAndDeployPaymentChannels fuel acting ∅)
              else mret tt) (fun _ =>
          failing true (inGate (wrapM "create regular out tunnel failed"
              (CreateRegularOutTunnel chainTo (chainFrom ++ [mkSectionInfo toUs None])))) (fun t s =>
            match inGate (WaitForInit sched t AwaitState) s with
            | (s', Ok (Some (ip, port))) => (s', Ok (Configured t port ip))
            | (s', Ok None) => (s', Ok (Pending t))
            | (s', Err e) =>
                (ignore (inGate (Stop waits t)) ;;
                 mret (Failed (Errorw "wait for tunnel init failed" e) true)) s'
            | (s', Panic w) => (s', Panic w)
            end)))
        else if den =? AcceptorDecisionCancel then mret (Failed ErrRouteCanceled false)
        else mret (Failed ErrRouteIsNotAccepted true)
    end).

(** ** The loop *)

(** The nodes a client may use: without payments, only the free ones. *)
Definition usableNodes (cfg : ClientConfig) (shared : SharedConfig) : outcome (list TunnelRouteSection) :=
  let nodes := if cl_PaymentsEnabled cfg then NodesPool shared
               else List.filter (fun s => bool_decide (Payment s = None)) (NodesPool shared) in
  match nodes with
  | [] => Err (Errorf "no nodes pool provided, please specify at least one node that match your payment settings in config file")
  | _ => if bool_decide (length nodes < TunnelSectionsNum cfg)%nat
         then Err (Errorf "not enough nodes that match your payment settings in pool to have desired tunnel sections number")
         else Ok nodes
  end.

Inductive runState : Type :=
| Reinit
| Waiting (t : nat)
| Running (t : nat) (lastAsk : Z)
| Stopped.

(** Configuring: another attempt, the end, or a running tunnel.  The pause of
    300 ms after some failures is time only. *)
Definition reinitStep (fuel waits : nat) (sched : schedule) (sections : nat) : SM runState :=
  send (MsgEvent "Configuring tunnel route...") ;;
  res ← configureRoute fuel waits sched sections;
  match res with
  | Failed e retryable =>
      (if errorsIs e ErrNoMoreRoutes then setAttempts ∅ else mret tt) ;;
      if (retryable : bool) then send (ConfigurationErrorEvent e) ;; mret Reinit
      else send (ErrorEvent (Errorw "failed to configure route" e)) ;; mret Stopped
  | Configured t port ip => send (UpdatedEvent t ip port) ;; mret (Running t 0)
  | Pending t => mret (Waiting t)
  end.

(** Every five seconds: a tunnel that was not checked for 45 s may be replaced,
    asked at most once a minute. *)
Definition monitorStep (waits : nat) (t : nat) (lastAsk : Z) : SM runState :=
  now ← inGate nowUnix;
  tun ← inGate (getTun t);
  if (45 <? now - t_lastFullyCheckedAt tun) && (60 <? now - lastAsk) then
    again ← inGate (ask sw_askReroute);
    if (again : bool) then ignore (inGate (Stop waits t)) ;; mret Reinit
    else now ← inGate nowUnix; mret (Running t now)
  else mret (Running t lastAsk).
End Setup.
