(* ===== verification/SetupFacts.v ===== *)
(** * What a route looks like

    Shuffling keeps the nodes; a route assembled from them visits every node at
    most once in each direction, leaves and returns through the same node, and is
    not one that was tried before.  Waiting for a tunnel that is ready ends. *)

From Stdlib Require Import Ascii.
From S2P Require Import Prelude Seqno Stream Wire Samples Keys PayChain Hoare State Peers Node Payments OutGate Gateway Worlds Traffic.
From S2P Require Import Client ClientMsg ClientPay ClientIO ClientFacts ClientWorlds Config Setup.

(** ** Shuffles *)

Lemma swap_perm {A} (l l' : list A) x : swap l x = Ok l' -> l' ≡ₚ l.
Proof.
  unfold swap. destruct x as [i j]. simpl.
  destruct (l !! i) as [a|] eqn:Hi; [|done]. destruct (l !! j) as [b|] eqn:Hj; [|done]. intros [= <-].
  by apply (Permutation_insert_swap l j i b a).
Qed.

Lemma swapAll_perm {A} (swaps : list (nat * nat)) (l l' : list A) : swapAll l swaps = Ok l' -> l' ≡ₚ l.
Proof.
  revert l. induction swaps as [|x swaps IH]; intros l; simpl; [by intros [= <-]|].
  destruct (swap l x) as [l1|e|w] eqn:E; simpl; [|done..]. intros H. rewrite (IH _ H). by eapply swap_perm.
Qed.

Lemma swapAll_total {A} (swaps : list (nat * nat)) (l : list A) :
  Forall (fun x => (fst x < length l)%nat /\ (snd x < length l)%nat) swaps -> exists l', swapAll l swaps = Ok l'.
Proof.
  revert l. induction swaps as [|x swaps IH]; intros l H; simpl; [by eexists|].
  apply Forall_cons_1 in H as [[H1 H2] H]. unfold swap at 1.
  destruct (lookup_lt_is_Some_2 _ _ H1) as [a ->], (lookup_lt_is_Some_2 _ _ H2) as [b ->]. simpl.
  apply IH. by rewrite !length_insert.
Qed.

(** The nodes of a chain, by their keys. *)
Definition receivers (l : list SectionInfo) : list bytes := map (fun s => ReceiverPubKey (si_Keys s)) l.
Definition poolKeys (l : list TunnelRouteSection) : list bytes := map Key l.

Section Facts.
Context {C : CipherCtr} {T : TL} {K : KeyAgreement} {W : World} {CW : ClientWorld} {SW : SetupWorld}.

Abbreviation GState := (Gateway RegularOutTunnel).

Lemma paymentConfigToSections_ok s isOut (g g' : GState) si :
  paymentConfigToSections s isOut g = (g', Ok si) -> ReceiverPubKey (si_Keys si) = Key s.
Proof using Type.
  unfold paymentConfigToSections. intros H. ok_step H. ok_step H. ok_step H. ok_step H. ok_step H.
  injection H as _ <-. simpl. injection Hm1 as _ Hk. apply wrapErr_ok in Hk. unfold GenerateEncryptionKeys, NewEncryptionKeys in Hk.
  destruct a0; [|done]. simpl in Hk. destruct (SharedKey _ _); [|done]. by injection Hk as <-.
Qed.

Lemma poolAt_ok pool i (g g' : GState) node : poolAt pool i g = (g', Ok node) -> pool !! i = Some node.
Proof using Type. unfold poolAt. destruct (pool !! i); [by intros [= _ <-]|done]. Qed.

Lemma take_S_drop {A} (l : list A) i n x : l !! i = Some x -> take (S n) (drop i l) = x :: take n (drop (S i) l).
Proof using Type. intros H. by rewrite (drop_S l x i H). Qed.

(** The sections on the way out are those of the pool in order, and the one to
    return through is for the first of them. *)
Lemma outSections_ok pool n i siBack (g g' : GState) l back :
  outSections pool n i siBack g = (g', Ok (l, back)) ->
  length l = n /\ receivers l = poolKeys (take n (drop i pool)) /\
  match siBack, l with
  | None, [] => back = None
  | None, first :: _ => exists b, back = Some b /\ ReceiverPubKey (si_Keys b) = ReceiverPubKey (si_Keys first)
  | Some b, _ => back = Some b
  end.
Proof using Type.
  revert i siBack g g' l back. induction n as [|n IH]; intros i siBack g g' l back H; simpl in H.
  { injection H as _ <- <-. by destruct siBack. }
  ok_step H. apply poolAt_ok in Hm. rename a into node. ok_step H. apply wrapM_ok_inv in Hm0.
  pose proof (paymentConfigToSections_ok _ _ _ _ _ Hm0) as Hk. ok_step H. ok_step H.
  destruct a1 as [rest back']. injection H as _ <- <-.
  destruct siBack as [b|].
  - injection Hm1 as _ <-. destruct (IH _ _ _ _ _ _ Hm2) as (Hl & Hr & Hb). simpl. rewrite (take_S_drop _ _ _ _ Hm).
    unfold receivers, poolKeys in *. simpl. rewrite Hk, Hr. by split_and!; [lia|..].
  - ok_step Hm1. apply wrapM_ok_inv in Hm3. pose proof (paymentConfigToSections_ok _ _ _ _ _ Hm3) as Hk'.
    injection Hm1 as _ <-. destruct (IH _ _ _ _ _ _ Hm2) as (Hl & Hr & Hb). simpl. rewrite (take_S_drop _ _ _ _ Hm).
    unfold receivers, poolKeys in *. simpl. rewrite Hk, Hr. split_and!; [lia|done|]. eexists. split; [done|]. by rewrite Hk'.
Qed.

Lemma inSections_ok pool n i (g g' : GState) l :
  inSections pool n i g = (g', Ok l) -> length l = n /\ receivers l = poolKeys (take n (drop i pool)).
Proof using Type.
  revert i g g' l. induction n as [|n IH]; intros i g g' l H; simpl in H; [by injection H as _ <-|].
  ok_step H. apply poolAt_ok in Hm. ok_step H. apply wrapM_ok_inv in Hm0.
  pose proof (paymentConfigToSections_ok _ _ _ _ _ Hm0) as Hk. ok_step H. injection H as _ <-.
  destruct (IH _ _ _ _ Hm1) as [Hl Hr]. simpl. rewrite (take_S_drop _ _ _ _ Hm).
  unfold receivers, poolKeys in *. simpl. by rewrite Hk, Hr, Hl.
Qed.

(** The chain back ends at the node to return through, which takes the place of
    the last one when it is not in the chain already. *)
Lemma returnThrough_spec chainFrom back :
  chainFrom <> [] ->
  let r := returnThrough chainFrom (Some back) in
  let k := ReceiverPubKey (si_Keys back) in
  length r = length chainFrom /\ list.last (receivers r) = Some k /\
  (receivers r ≡ₚ receivers chainFrom \/
   (~ In k (receivers chainFrom) /\ exists init x, receivers chainFrom = init ++ [x] /\ receivers r = init ++ [k])).
Proof using Type.
  intros Hne r k. destruct (exists_last Hne) as (init & x & ->). subst r. unfold returnThrough.
  replace (length (init ++ [x]) - 1)%nat with (length init) by (rewrite length_app; simpl; lia).
  assert ((init ++ [x]) !! length init = Some x) as Hx by (by rewrite lookup_app_r, Nat.sub_diag by lia).
  assert (exists y ys, init ++ [x] = y :: ys) as (y & ys & Ey) by (destruct init; by eexists _, _).
  rewrite Ey. cbn [returnThrough]. rewrite <- Ey.
  destruct (list_find _ (init ++ [x])) as [[i node]|] eqn:Ef.
  - apply list_find_Some in Ef as (Hi & Hk & _). rewrite Hx. rewrite !length_insert. split; [done|].
    assert (receivers (<[length init := node]> (<[i := x]> (init ++ [x]))) ≡ₚ receivers (init ++ [x])) as Hp.
    { unfold receivers. apply Permutation_map. by apply (Permutation_insert_swap (init ++ [x]) i (length init) node x). }
    split; [|by left]. rewrite last_lookup. unfold receivers. rewrite length_map, !length_insert, length_app. simpl.
    replace (pred (length init + 1)) with (length init) by lia. rewrite (list_lookup_fmap (fun s : SectionInfo => ReceiverPubKey (si_Keys s))).
    rewrite list_lookup_insert_eq by (rewrite length_insert, length_app; simpl; lia). simpl. by rewrite Hk.
  - rewrite length_insert. split; [done|]. rewrite <- (Nat.add_0_r (length init)), insert_app_r. simpl.
    unfold receivers. rewrite !map_app. simpl. rewrite last_snoc. split; [done|]. right. split.
    + change [ReceiverPubKey (si_Keys x)] with (receivers [x]). unfold receivers. rewrite <- map_app. intros Hin.
      apply list_find_None in Ef. rewrite Forall_forall in Ef. apply in_map_iff in Hin as (s & Hs & Hin). by apply (Ef s Hin).
    + by eexists _, _.
Qed.

Lemma inGate_ok_inv {A} (m : GM RegularOutTunnel A) (s s' : Setup) a :
  inGate m s = (s', Ok a) ->
  exists g', m (su_gateway s) = (g', Ok a) /\ s' = mkSetup _ g' (su_nodes s) (su_attempts s) (su_events s).
Proof using Type. unfold inGate. destruct (m (su_gateway s)) as [g' o]. intros [= <- ->]. eauto. Qed.

Lemma shuffleFrom_ok_inv from seed before (s s' : Setup) u :
  shuffleFrom from seed before s = (s', Ok u) ->
  exists tail, tail ≡ₚ drop from (su_nodes s) /\
    s' = mkSetup _ (su_gateway s) (take from (su_nodes s) ++ tail) (su_attempts s) (su_events s).
Proof using Type.
  unfold shuffleFrom. intros H. ok_step H. injection Hm as <- <-. ok_step H. injection Hm as <- Hm.
  exists a. split; [by eapply swapAll_perm|]. by injection H as <- _.
Qed.

Lemma poolKeys_app l k : poolKeys (l ++ k) = poolKeys l ++ poolKeys k.
Proof using Type. apply map_app. Qed.
Lemma receivers_app l k : receivers (l ++ k) = receivers l ++ receivers k.
Proof using Type. apply map_app. Qed.
Lemma NoDup_take_keys n l : NoDup (poolKeys l) -> NoDup (poolKeys (take n l)).
Proof using Type.
  rewrite <- (take_drop n l) at 1. rewrite poolKeys_app. intros H. by apply list.NoDup_app in H as (H & _).
Qed.
Lemma In_take_keys k n l : In k (poolKeys (take n l)) -> In k (poolKeys l).
Proof using Type. rewrite <- (take_drop n l) at 2. rewrite poolKeys_app. intros H. apply in_app_iff. by left. Qed.

(** Replacing the last node by one that is not in the chain, or moving one
    there, keeps the nodes distinct and adds at most that one. *)
Lemma returnThrough_nodes chainFrom back :
  chainFrom <> [] -> NoDup (receivers chainFrom) ->
  NoDup (receivers (returnThrough chainFrom (Some back))) /\
  (forall k, In k (receivers (returnThrough chainFrom (Some back))) ->
     k = ReceiverPubKey (si_Keys back) \/ In k (receivers chainFrom)).
Proof using Type.
  intros Hne Hnd. destruct (returnThrough_spec chainFrom back Hne) as (_ & _ & [Hp|(Hnin & init & x & E & ->)]).
  - split; [by rewrite Hp|]. intros k Hk. right. by eapply Permutation_in.
  - rewrite E in Hnd, Hnin |- *. split.
    + apply list.NoDup_app in Hnd as (Hi & _ & _). apply list.NoDup_app. split_and!; [done| |apply NoDup_singleton].
      intros y Hy Hy'. apply list_elem_of_singleton in Hy' as ->. apply Hnin, in_app_iff. left. by apply list_elem_of_In.
    + intros k Hk. apply in_app_iff in Hk as [Hk|[<-|[]]]; [right; apply in_app_iff; by left|by left].
Qed.

(** The chains over a pool without repetitions. *)
Lemma chains_shape out pool pool' n chainTo chainFrom siGate back :
  NoDup (Key out :: poolKeys pool) -> pool' ≡ₚ pool -> chainFrom <> [] -> chainTo <> [] ->
  receivers chainTo = poolKeys (take n pool) -> receivers chainFrom = poolKeys (take n pool') ->
  ReceiverPubKey (si_Keys siGate) = Key out -> head (receivers chainTo) = Some (ReceiverPubKey (si_Keys back)) ->
  let from := returnThrough chainFrom (Some back) in
  NoDup (receivers (chainTo ++ [siGate])) /\ NoDup (receivers from) /\
  ~ In (Key out) (receivers from) /\ list.last (receivers from) = head (receivers (chainTo ++ [siGate])) /\
  (forall k, In k (receivers ((chainTo ++ [siGate]) ++ from)) ->
     In k (Key out :: poolKeys (take n pool) ++ poolKeys (take n pool'))).
Proof using Type.
  intros Hnd Hp Hf Ht Hto Hfrom Hg Hb from. apply stdpp.list_relations.list.NoDup_cons in Hnd as [Hout Hnd].
  assert (NoDup (poolKeys pool')) as Hnd' by (unfold poolKeys in *; by rewrite Hp).
  assert (~ In (Key out) (poolKeys pool)) as Hout' by (intros H; by apply Hout, list_elem_of_In).
  assert (forall k, In k (poolKeys (take n pool')) -> In k (poolKeys pool)) as Hin'.
  { intros k Hk. apply In_take_keys in Hk. unfold poolKeys in *. by rewrite <- Hp. }
  assert (In (ReceiverPubKey (si_Keys back)) (poolKeys (take n pool))) as Hbin.
  { rewrite <- Hto. destruct (receivers chainTo); [done|]. injection Hb as <-. by left. }
  destruct (returnThrough_nodes chainFrom back Hf) as [Hnf Hmem]; [rewrite Hfrom; by apply NoDup_take_keys|].
  destruct (returnThrough_spec chainFrom back Hf) as (_ & Hlast & _). rewrite !receivers_app. simpl. rewrite Hg.
  split_and!.
  - rewrite Hto. apply list.NoDup_app. split_and!; [by apply NoDup_take_keys| |apply NoDup_singleton].
    intros y Hy Hy'. apply list_elem_of_singleton in Hy' as ->. apply Hout', (In_take_keys _ n). by apply list_elem_of_In.
  - done.
  - intros H. destruct (Hmem _ H) as [E|H']; [by apply Hout', (In_take_keys _ n); rewrite E|]. rewrite Hfrom in H'. by apply Hout', Hin'.
  - subst from. rewrite Hlast. by destruct (receivers chainTo).
  - intros k Hk. rewrite Hto in Hk. apply in_app_iff in Hk as [Hk|Hk].
    + apply in_app_iff in Hk as [Hk|[<-|[]]]; [right; apply in_app_iff; by left|by left].
    + right. apply in_app_iff. destruct (Hmem _ Hk) as [->|H']; [by left|]. right. by rewrite <- Hfrom.
Qed.

(** What [assemble] did when it succeeded, before the chains are looked at. *)
Lemma assemble_ok_inv sections (s s' : Setup) chainTo chainFrom acting :
  assemble sections s = (s', Ok (chainTo, chainFrom, acting)) ->
  exists out pool siGate,
    su_nodes s ≡ₚ out :: pool /\ su_nodes s' ≡ₚ out :: pool /\ su_attempts s' = su_attempts s /\
    ReceiverPubKey (si_Keys siGate) = Key out /\
    if (1 <? Z.of_nat sections) then
      let n := (sections - 1)%nat in
      exists to from back pool', pool' ≡ₚ pool /\ length to = n /\ length from = n /\
        receivers to = poolKeys (take n pool) /\ receivers from = poolKeys (take n pool') /\
        head (receivers to) = Some (ReceiverPubKey (si_Keys back)) /\
        chainTo = to ++ [siGate] /\ chainFrom = returnThrough from (Some back) /\
        acting = out :: take n pool ++ take n pool'
    else chainTo = [siGate] /\ chainFrom = [] /\ acting = [out].
Proof using Type.
  unfold assemble. intros H. ok_step H. apply inGate_ok_inv in Hm as (g1 & _ & ->). ok_step H. injection Hm as <- _.
  ok_step H. injection Hm as <- _. ok_step H. apply shuffleFrom_ok_inv in Hm as (tail & Ht & ->). simpl in H, Ht.
  ok_step H. injection Hm as <- <-. simpl in H. destruct tail as [|out pool]; [done|].
  assert (su_nodes s ≡ₚ out :: pool) as Hs by (symmetry; exact Ht). exists out, pool.
  apply bind_ok_inv in H as (s2 & [[to fb] act] & Hc & H). apply bind_ok_inv in H as (s3 & siGate & Hm & H).
  apply inGate_ok_inv in Hm as (g2 & Hg & ->). apply wrapM_ok_inv in Hg. apply paymentConfigToSections_ok in Hg.
  injection H as <- <- <- <-. exists siGate. destruct (Z.ltb_spec 1 (Z.of_nat sections)) as [Hn|Hn].
  - apply bind_ok_inv in Hc as (s4 & [to' sb] & Hm & Hc). apply inGate_ok_inv in Hm as (g3 & Ho & ->). apply outSections_ok in Ho as (Hlen & Hr & Hb).
    ok_step Hc. apply shuffleFrom_ok_inv in Hm as (pool' & Hp' & ->). simpl in Hc, Hp'. ok_step Hc. injection Hm as <- <-.
    simpl in Hc. apply bind_ok_inv in Hc as (s5 & from & Hm & Hc). apply inGate_ok_inv in Hm as (g4 & Hi & ->). simpl in Hi. apply inSections_ok in Hi as (Hlen' & Hr').
    injection Hc as <- <- <- <-. rewrite drop_0 in Hp', Hr, Hr'.
    destruct to' as [|first to']; [simpl in Hlen; lia|]. destruct Hb as (b & -> & Hb).
    split_and!; [done|simpl; by rewrite Hp'|done|done|].
    exists (first :: to'), from, b, pool'. split_and!; try done. unfold receivers. simpl. by rewrite Hb.
  - injection Hc as <- <- <- <-. by split_and!.
Qed.


(** A route is not tried twice: the route that is configured next was not
    tried since the list of attempts was cleared, and is in it afterwards. *)
Theorem newRoute_untried tries sections (s s' : Setup) chainTo chainFrom acting :
  newRoute tries sections s = (s', Ok (Some (chainTo, chainFrom, acting))) ->
  routeString (chainTo ++ chainFrom) ∉ su_attempts s /\
  su_attempts s' = {[routeString (chainTo ++ chainFrom)]} ∪ su_attempts s.
Proof using Type.
  revert s. induction tries as [|tries IH]; intros s H; simpl in H; [done|].
  ok_step H. destruct a as [[to from] act]. ok_step H. injection Hm0 as <- <-.
  apply assemble_ok_inv in Hm as (_ & _ & _ & _ & _ & Ha & _). case_bool_decide as Hin.
  - rewrite <- Ha. by apply IH.
  - ok_step H. injection Hm as <-. injection H as <- <- <- <-. simpl. by rewrite Ha in Hin |- *.
Qed.

(** ** Waiting *)

(** The tunnel is configured and, if it is paid, its payments are confirmed. *)
Definition ready (t : nat) (pay : bool) (g : GState) : Prop :=
  exists tun, g_tuns g !! t = Some tun /\ t_tunnelState tun = StateTypeOptimized /\ t_usePayments tun = pay /\
    (pay = true -> t_paymentsConfirmed tun <> 0).

(** The address reported is that of the tunnel. *)
Definition reported (t : nat) (g : GState) (x : bytes * Z) : Prop :=
  exists tun, g_tuns g !! t = Some tun /\ x = (t_externalAddr tun, t_externalPort tun).

Lemma ready_request t pay g : ready t pay g -> ready t pay (requestControlMessage t g).1.
Proof using Type.
  intros (tun & Ht & Hs & Hu & Hp). unfold requestControlMessage. rewrite (updTun_run _ _ _ _ Ht). simpl.
  eexists. split; [apply lookup_insert_eq|done].
Qed.

(** A poll of a tunnel that is ready ends the wait, or moves it to the wait for
    payments, which ends at the next one. *)
Lemma poll_ready t pay phase g :
  ready t pay g -> (phase = AwaitPayments -> pay = true) ->
  (exists x, WaitForInit_poll t phase None g = (g, Ok (inr x)) /\ reported t g x) \/
  (phase = AwaitState /\ pay = true /\
   exists g', WaitForInit_poll t phase None g = (g', Ok (inl AwaitPayments)) /\ ready t pay g').
Proof using Type.
  intros Hr Hph. pose proof Hr as (tun & Ht & Hs & Hu & Hp). unfold WaitForInit_poll, externalOf.
  rewrite bind_run, (getTun_run _ _ _ Ht). cbv iota beta. destruct phase.
  - rewrite Hs, Z.eqb_refl, Hu. cbn [negb]. destruct pay.
    + right. split_and!; [done..|]. rewrite bind_run. pose proof (ready_request t _ g Hr) as Hr'.
      unfold requestControlMessage, updTun in *. rewrite modify_run in *. eauto.
    + left. rewrite !bind_run, (getTun_run _ _ _ Ht). cbv iota beta. rewrite !ret_run. eexists. split; [done|]. by exists tun.
  - left. rewrite (proj2 (Z.eqb_neq _ _) (Hp (Hph eq_refl))).
    rewrite !bind_run, (getTun_run _ _ _ Ht). cbv iota beta. rewrite !ret_run. eexists. split; [done|]. by exists tun.
Qed.

(** What happens between the polls neither ends the context, nor panics, nor
    undoes the configuration. *)
Definition keepsReady (t : nat) (pay : bool) (x : GM RegularOutTunnel unit * option error) : Prop :=
  snd x = None /\ forall g, ready t pay g -> ready t pay (fst x g).1 /\ forall w, (fst x g).2 <> Panic w.

Lemma ignore_ready t pay x g :
  keepsReady t pay x -> ready t pay g -> exists g', ignore (fst x) g = (g', Ok tt) /\ ready t pay g'.
Proof using Type.
  intros [_ Hk] Hr. destruct (Hk g Hr) as [Hr' Hw]. unfold ignore. destruct (fst x g) as [g' [u|e|w]]; [eauto|eauto|].
  by destruct (Hw w).
Qed.


(** ** Payment channels of a client *)

(** The coin of a payment channel is not looked at: any channel with the
    payment node that is alive is taken for the one asked for, in whatever coin,
    and nothing is deployed or announced. *)
Theorem coin_of_channel_ignored fuel ch jetton ecID (s : Setup) l g1 :
  sw_listChannels (g_tick (su_gateway s)) = Ok l ->
  liveChannel ch l (set_g_tick (S (g_tick (su_gateway s))) (su_gateway s)) = (g1, Ok true) ->
  preparePayerPaymentChannel fuel ch jetton ecID s = (mkSetup _ g1 (su_nodes s) (su_attempts s) (su_events s), Ok ch).
Proof using Type.
  intros Hl Hc. unfold preparePayerPaymentChannel. rewrite bind_run. unfold inGate at 1. rewrite ask_run. simpl.
  rewrite bind_run, wrapM_run, lift_run, Hl. simpl. rewrite bind_run. unfold inGate at 1. simpl. by rewrite Hc.
Qed.
End Facts.

(** ** A pool of four nodes *)

Definition tonChannel : OnchainChannel := mkOnchainChannel [77] "EQchannel" 100 None 0.
Definition sampleSetupWorld : SetupWorld := {|
  sw_random := fun n => Some (PutUint64 (Z.of_nat n));
  sw_shuffle := fun seed before n => if (2 <=? n)%nat then [(0, n - 1); (1, 0)]%nat else [];
  sw_acceptor := fun _ _ _ => AcceptorDecisionAccept;
  sw_askReroute := fun _ => true;
  sw_parseAddr := Ok;
  sw_bounce := fun a => a;
  sw_fromDecimal := fun _ d => Ok (10 ^ d);
  sw_listChannels := fun _ => Ok [tonChannel];
  sw_currentBlock := fun _ => Ok 5;
  sw_account := fun _ _ _ => Ok (Some [1]);
  sw_channelOpen := fun _ _ => Ok true;
  sw_openChannel := fun _ _ _ _ => Ok "EQnew"%string;
  sw_getChannel := fun n _ => Ok (if Nat.even n then Some (true, true) else None);
|}.

#[global] Instance sampleSetupWorld_ok : SetupWorldOk sampleSetupWorld.
Proof.
  intros seed before n. unfold sw_shuffle, sampleSetupWorld. destruct (Nat.leb_spec 2 n); [|constructor].
  repeat constructor; simpl; lia.
Qed.

Section Runs.
#[local] Existing Instances toyCipher sampleTL sampleKA sampleWorld sampleClientWorld sampleSetupWorld.

Definition poolNode (k : Z) : TunnelRouteSection := mkTunnelRouteSection (replicate 32 k) None.
Definition samplePool : list TunnelRouteSection := [poolNode 1; poolNode 2; poolNode 3; poolNode 4].
Definition sampleSetup : Setup := mkSetup sampleWorld (gatewayOf clientKey (replicate 32 1) freeConfig) samplePool ∅ [].

Definition sampleRoute : list SectionInfo * list SectionInfo * list TunnelRouteSection :=
  match (assemble 3 sampleSetup).2 with Ok r => r | _ => ([], [], []) end.

Example sampleRoute_keys :
  map (fun k => head k) (receivers sampleRoute.1.1) = map Some [4; 3; 2] /\
  map (fun k => head k) (receivers sampleRoute.1.2) = map Some [3; 4].
Proof using Type. vm_compute. auto. Qed.

Lemma sampleRoute_ok : assemble 3 sampleSetup = ((assemble 3 sampleSetup).1, Ok (sampleRoute.1.1, sampleRoute.1.2, sampleRoute.2)).
Proof using Type. apply run_ok. vm_compute. reflexivity. Qed.

Lemma samplePool_distinct : NoDup (poolKeys (su_nodes sampleSetup)).
Proof using Type. apply (bool_decide_unpack _). vm_compute. exact I. Qed.


Definition secondSetup : Setup := (newRoute maxTries 3 sampleSetup).1.
Definition secondRoute : list SectionInfo * list SectionInfo * list TunnelRouteSection :=
  match (newRoute maxTries 3 secondSetup).2 with Ok (Some r) => r | _ => ([], [], []) end.

Lemma newRoute_untried_witness :
  size (su_attempts secondSetup) = 1%nat /\
  routeString (secondRoute.1.1 ++ secondRoute.1.2) ∉ su_attempts secondSetup /\
  su_attempts (newRoute maxTries 3 secondSetup).1
    = {[routeString (secondRoute.1.1 ++ secondRoute.1.2)]} ∪ su_attempts secondSetup.
Proof using Type.
  assert (newRoute maxTries 3 secondSetup = ((newRoute maxTries 3 secondSetup).1,
    Ok (Some (secondRoute.1.1, secondRoute.1.2, secondRoute.2)))) as H by (apply run_ok; vm_compute; reflexivity).
  split; [vm_compute; reflexivity|].
  exact (newRoute_untried maxTries 3 secondSetup (newRoute maxTries 3 secondSetup).1
    secondRoute.1.1 secondRoute.1.2 secondRoute.2 H).
Defined.


(** The node has a TON channel; one for a jetton is asked for. *)
Lemma coin_of_channel_ignored_witness :
  (preparePayerPaymentChannel 9 [77] (Some "EQjetton"%string) 0 sampleSetup).2 = Ok [77] /\
  su_events (preparePayerPaymentChannel 9 [77] (Some "EQjetton"%string) 0 sampleSetup).1 = [].
Proof using Type.
  assert (liveChannel [77] [tonChannel] (set_g_tick (S (g_tick (su_gateway sampleSetup))) (su_gateway sampleSetup))
    = ((liveChannel [77] [tonChannel] (set_g_tick (S (g_tick (su_gateway sampleSetup))) (su_gateway sampleSetup))).1, Ok true)) as H
    by (apply run_ok; vm_compute; reflexivity).
  rewrite (coin_of_channel_ignored (SW := sampleSetupWorld) 9 [77] (Some "EQjetton"%string) 0 sampleSetup [tonChannel] _ eq_refl H). split; reflexivity.
Defined.
End Runs.
