(* ===== verification/PayerSetup.v ===== *)
(** * Starting the payments of a client ([preparePayerPayments], [tunnel/setup.go])

    Five things are started one after the other, each with a deferred call that
    closes it when the start does not succeed, or puts its closing on a list to
    be run when the tunnel ends.  The calls into the payment network and the TON
    library are the parameter [PayerWorld]. *)

From S2P Require Import Prelude Seqno Stream Wire Samples Keys Hoare Config.

(** What is started, in this order. *)
Inductive resource : Type := RGateway | RDatabase | RTransport | RScanner | RService.

#[global] Instance resource_eq_dec : EqDecision resource.
Proof. solve_decision. Defined.

Class PayerWorld : Type := {
  pw_startClient : option error;
  pw_openDatabase : outcome bool;  (* whether the database is new *)
  pw_setMigrationVersion : option error;
  pw_runMigrations : option error;
  pw_blockOffset : outcome (option Z);  (* None when there is none yet *)
  pw_startScanner : Z -> option error;
  pw_channels : outcome (list bool);  (* which of the known channels are active *)
  pw_initWallet : bytes -> option error;
  pw_newService : option error;
}.

Section Payer.
Context {E : Ed25519} {PW : PayerWorld}.

(** The deferred calls, latest first, and the channels handed to the scanner. *)
Record PayerState := mkPayerState { ps_deferred : list resource; ps_scanned : nat }.

Definition check (msg : string) (res : option error) : M PayerState unit :=
  match res with Some e => throw (Errorw msg e) | None => mret tt end.
Definition onEnd (r : resource) : M PayerState unit :=
  modify (fun s => mkPayerState (r :: ps_deferred s) (ps_scanned s)).

Definition startPayments (cfg : PaymentsClientConfig) : M PayerState unit :=
  _ ← lift (NewKeyFromSeed (pcc_PaymentsNodeKey cfg));
  _ ← lift (NewKeyFromSeed (pcc_ADNLServerKey cfg));
  check "failed to init adnl gateway" pw_startClient ;;
  onEnd RGateway ;;
  freshDb ← lift (wrapErr "failed to init leveldb" pw_openDatabase);
  walletPrv ← lift (NewKeyFromSeed (pcc_WalletPrivateKey cfg));
  onEnd RDatabase ;;
  (if (freshDb : bool) then check "failed to set migration version" pw_setMigrationVersion
   else check "failed to run migrations" pw_runMigrations) ;;
  onEnd RTransport ;;
  bo ← lift (wrapErr "failed to load block offset" pw_blockOffset);
  check "failed to start account scanner" (pw_startScanner (default 0 bo)) ;;
  onEnd RScanner ;;
  chList ← lift (wrapErr "failed to load channels" pw_channels);
  modify (fun s => mkPayerState (ps_deferred s) (length (List.filter (fun active => active) chList))) ;;
  check "failed to init wallet" (pw_initWallet walletPrv) ;;
  check "failed to init tonpayments" pw_newService ;;
  onEnd RService.

(** [onCloseExec = append([]func(){f}, onCloseExec...)] by each deferred call. *)
Definition closeList (deferred : list resource) : list resource :=
  foldl (fun onCloseExec f => f :: onCloseExec) [] deferred.

(** What was closed at once, and what is to be closed at the end. *)
Definition preparePayerPayments (cfg : PaymentsClientConfig) : list resource * outcome (list resource) :=
  match startPayments cfg (mkPayerState [] 0) with
  | (s, Ok _) => ([], Ok (closeList (ps_deferred s)))
  | (s, Err e) => (ps_deferred s, Err e)
  | (s, Panic w) => (ps_deferred s, Panic w)
  end.

(** ** What is closed *)

Definition started : list resource := [RGateway; RDatabase; RTransport; RScanner; RService].

(** After any number of steps the deferred calls are those of a prefix. *)
Definition stacked (s : PayerState) : Prop := exists n, ps_deferred s = reverse (take n started).

Lemma closeList_reverse l : closeList l = reverse l.
Proof using Type.
  unfold closeList. assert (forall acc, foldl (fun acc f => f :: acc) acc l = reverse l ++ acc) as H.
  { induction l as [|r l IH]; intros acc; simpl; [done|]. rewrite IH, reverse_cons. by rewrite <- app_assoc. }
  by rewrite H, app_nil_r.
Qed.

(** A step from [n] started things to [m], or a failure with [n]. *)
Definition grows {A} (n m : nat) (step : M PayerState A) : Prop := forall s,
  ps_deferred s = reverse (take n started) ->
  match step s with
  | (s', Ok _) => ps_deferred s' = reverse (take m started)
  | (s', _) => exists k, ps_deferred s' = reverse (take k started)
  end.

Lemma grows_bind {A B} n m k (x : M PayerState A) (f : A -> M PayerState B) :
  grows n m x -> (forall a, grows m k (f a)) -> grows n k (x ≫= f).
Proof using Type.
  intros Hx Hf s Hs. rewrite bind_run. specialize (Hx s Hs). destruct (x s) as [s' [a|e|w]]; [by apply Hf|done..].
Qed.
Lemma grows_lift {A} n (o : outcome A) : grows n n (lift o).
Proof using Type. intros s Hs. rewrite lift_run. destruct o; eauto. Qed.
Lemma grows_check n msg res : grows n n (check msg res).
Proof using Type. intros s Hs. unfold check. destruct res; simpl; eauto. Qed.
Lemma grows_onEnd n r : started !! n = Some r -> grows n (S n) (onEnd r).
Proof using Type.
  intros Hr s Hs. unfold onEnd. rewrite modify_run. cbn [ps_deferred]. by rewrite Hs, (take_S_r _ _ _ Hr), reverse_app.
Qed.
Lemma grows_scan n l :
  grows n n (modify (fun s => mkPayerState (ps_deferred s) (length (List.filter (fun active => active) l)))).
Proof using Type. by intros s Hs. Qed.

Lemma startPayments_grows cfg : grows 0 5 (startPayments cfg).
Proof using Type.
  unfold startPayments.
  repeat first [ apply (grows_onEnd 4); reflexivity
               | eapply grows_bind; [first [apply grows_lift | apply grows_check | apply grows_scan
                   | apply grows_onEnd; reflexivity | case_match; apply grows_check]|intros ?] ].
Qed.

(** Every closing that was registered is run once: when the start fails, by
    an error or a panic, what was started so far is closed at once, the latest
    first.  When it succeeds everything is on the list for the end,
    in the order it was started: the database is closed before the service, the
    scanner and the transport that use it are stopped. *)
Lemma preparePayerPayments_closes cfg :
  match preparePayerPayments cfg with
  | (closed, Ok onCloseExec) => closed = [] /\ onCloseExec = started
  | (closed, _) => exists n, closed = reverse (take n started)
  end.
Proof using Type.
  unfold preparePayerPayments. pose proof (startPayments_grows cfg (mkPayerState [] 0) eq_refl) as H.
  destruct (startPayments cfg _) as [s [u|e|w]]; [|done..]. by rewrite closeList_reverse, H, reverse_involutive.
Qed.
End Payer.
