(* ===== verification/RunTunnel.v ===== *)
(** * Running a tunnel from start to end ([RunTunnel], [tunnel/setup.go])

    The network stack is started piece by piece, each with a deferred call that
    closes it, then the loop of [Setup] runs.  However it ends, everything that
    was opened is closed and the last event is [StoppedEvent].  The listener, the
    ADNL gateways, the DHT client and the liteservers are the parameter
    [RunWorld]. *)

From Stdlib Require Import Ascii.
From S2P Require Import Prelude Seqno Stream Wire Samples Keys PayChain Hoare State Peers Node Payments OutGate Gateway Worlds Traffic.
From S2P Require Import Client ClientMsg ClientPay ClientIO ClientWorlds Config Setup SetupFacts PayerSetup.

(** What is opened, in this order. *)
Inductive part : Type := PConn | PReader | PGate | PDhtGate | PDht.

(** What the deferred calls do: close a part, run the list of
    [preparePayerPayments], stop the gateway. *)
Inductive closing : Type :=
| ClosePart (p : part)
| ClosePayment (r : resource)
| CloseGateway
| CommitChannels
| StopService
| CancelContext.

#[global] Instance part_eq_dec : EqDecision part.
Proof. solve_decision. Defined.
#[global] Instance closing_eq_dec : EqDecision closing.
Proof. solve_decision. Defined.

Inductive action : Type :=
| Sent (e : uiEvent)
| Did (c : closing).

Class RunWorld : Type := {
  rw_generateKey : nat -> outcome bytes;
  rw_listener : option error;
  rw_startGate : option error;
  rw_startDhtGate : option error;
  rw_newDht : option error;
  rw_liteservers : option error;
  rw_commit : option error;
}.

Section RunTunnel.
Context {C : CipherCtr} {T : TL} {K : KeyAgreement} {W : World} {CW : ClientWorld} {SW : SetupWorld}.
Context {E : Ed25519} {PW : PayerWorld} {RW : RunWorld}.

(** [Gateway.Stop]: the service is stopped also when the commit fails. *)
Definition Gateway_Stop (service : bool) : list closing * option error :=
  if service then
    ([CloseGateway; CommitChannels; StopService], Errorw "commit virtual channels error" <$> rw_commit)
  else ([CloseGateway], None).

(** The actions so far and the deferred calls, latest first. *)
Record RunState := mkRunState { rs_trace : list action; rs_deferred : list (list closing) }.

Definition act (a : list action) : M RunState unit :=
  modify (fun s => mkRunState (rs_trace s ++ a) (rs_deferred s)).
Definition deferCall (c : list closing) : M RunState unit :=
  modify (fun s => mkRunState (rs_trace s) (c :: rs_deferred s)).
Definition checkRun (msg : string) (res : option error) : M RunState unit :=
  match res with Some e => throw (Errorw msg e) | None => mret tt end.

(** What [preparePayerPayments] closed when it failed, it closed at once. *)
Definition payer (cfg : PaymentsClientConfig) : M RunState (list resource) :=
  let '(closed, res) := preparePayerPayments cfg in
  act (map Did (map ClosePayment closed)) ;;
  lift (wrapErr "prepare payments failed" res).

Definition startPayer (cfg : ClientConfig) : M RunState bool :=
  if cl_PaymentsEnabled cfg then
    checkRun "failed to connect to liteservers" rw_liteservers ;;
    act [Sent (MsgEvent "Preparing tunnel payments...")] ;;
    onCloseExec ← payer (cl_Payments cfg);
    deferCall (map ClosePayment onCloseExec) ;;
    mret true
  else mret false.

Definition startStack (cfg : ClientConfig) (sharedCfg : SharedConfig)
    : M RunState (list TunnelRouteSection * bytes) :=
  deferCall [CancelContext] ;;
  nodes ← lift (usableNodes cfg sharedCfg);
  _ ← lift (wrapErr "failed to generate DHT key" (rw_generateKey 0));
  tunKey ← lift (wrapErr "failed to generate TUN key" (rw_generateKey 1));
  checkRun "failed to bind listener" rw_listener ;;
  deferCall [ClosePart PConn] ;;
  deferCall [ClosePart PReader] ;;
  checkRun "start gateway as client failed" rw_startGate ;;
  deferCall [ClosePart PGate] ;;
  checkRun "start dht gateway failed" rw_startDhtGate ;;
  deferCall [ClosePart PDhtGate] ;;
  checkRun "failed to create DHT client" rw_newDht ;;
  deferCall [ClosePart PDht] ;;
  mret (nodes, tunKey).

Definition startTunnel (cfg : ClientConfig) (sharedCfg : SharedConfig) : M RunState (Setup * bool) :=
  '(nodes, tunKey) ← startStack cfg sharedCfg;
  service ← startPayer cfg;
  deferCall (Gateway_Stop service).1 ;;
  mret (mkSetup _ (NewGateway tunKey (mkPaymentConfig service 0 0)) nodes ∅ [], service).

(** ** The loop

    A turn is the end of the context, or what happens during a configuration or
    five seconds of a running tunnel. *)
Inductive turn : Type :=
| TurnStop
| TurnGo (fuel waits : nat) (sched : list (GM RegularOutTunnel unit * option error)).

(** [true] when the loop was left, [false] when the turns are used up.  The
    context is looked at while a tunnel runs; during a configuration it ends the
    waits, through [sched]. *)
Fixpoint runLoop (sections : nat) (turns : list turn) (st : runState) : M Setup bool :=
  match st with
  | Stopped => mret true
  | Waiting _ => mret false
  | Reinit =>
      match turns with
      | TurnGo fuel waits sched :: turns =>
          st ← reinitStep fuel waits sched sections;
          runLoop sections turns st
      | _ => mret false
      end
  | Running t lastAsk =>
      match turns with
      | [] => mret false
      | TurnStop :: _ => mret true
      | TurnGo _ waits _ :: turns =>
          st ← monitorStep waits t lastAsk;
          runLoop sections turns st
      end
  end.

(** The deferred calls, and the first of all, which reports the end. *)
Definition finish (s : RunState) : list action :=
  rs_trace s ++ map Did (concat (rs_deferred s)) ++ [Sent StoppedEvent].

(** What was sent and closed, and how it ended; [None] while it runs. *)
Definition RunTunnel (cfg : ClientConfig) (sharedCfg : SharedConfig) (turns : list turn)
    : list action * option (outcome unit) :=
  match startTunnel cfg sharedCfg (mkRunState [] []) with
  | (s, Ok (su, _)) =>
      let '(su', res) := runLoop (TunnelSectionsNum cfg) turns Reinit su in
      let s' := mkRunState (rs_trace s ++ map Sent (su_events su')) (rs_deferred s) in
      match res with
      | Ok true => (finish s', Some (Ok tt))
      | Ok false => (rs_trace s', None)
      | Err e => (finish s', Some (Err e))
      | Panic w => (finish s', Some (Panic w))
      end
  | (s, Err e) => (finish (mkRunState (rs_trace s ++ [Sent (ErrorEvent e)]) (rs_deferred s)), Some (Ok tt))
  | (s, Panic w) => (finish s, Some (Panic w))
  end.
End RunTunnel.

(** ** How it ends *)

Section Facts.
Context {C : CipherCtr} {T : TL} {K : KeyAgreement} {W : World} {CW : ClientWorld} {SW : SetupWorld}.
Context {E : Ed25519} {PW : PayerWorld} {RW : RunWorld}.

Definition parts : list part := [PConn; PReader; PGate; PDhtGate; PDht].

(** How many parts are opened. *)
Definition openedParts (cfg : ClientConfig) (sharedCfg : SharedConfig) : nat :=
  match usableNodes cfg sharedCfg, rw_generateKey 0, rw_generateKey 1, rw_listener with
  | Ok _, Ok _, Ok _, None =>
      match rw_startGate, rw_startDhtGate, rw_newDht with
      | Some _, _, _ => 2
      | None, Some _, _ => 3
      | None, None, Some _ => 4
      | None, None, None => 5
      end
  | _, _, _, _ => 0
  end%nat.

(** The calls that close the first [n] parts, latest first. *)
Definition closers (n : nat) : list (list closing) :=
  map (fun p => [ClosePart p]) (reverse (take n parts)) ++ [[CancelContext]].

Lemma startStack_spec cfg sharedCfg tr :
  exists o, startStack cfg sharedCfg (mkRunState tr []) = (mkRunState tr (closers (openedParts cfg sharedCfg)), o) /\
    (forall x, o = Ok x -> openedParts cfg sharedCfg = 5%nat).
Proof using Type.
  unfold startStack, deferCall, checkRun, openedParts, closers. run.
  repeat first
    [ progress run
    | match goal with
      | |- context [wrapErr _ ?x] => destruct x; cbn [wrapErr rs_trace rs_deferred]
      | |- context [usableNodes ?a ?b] => destruct (usableNodes a b); cbn [rs_trace rs_deferred]
      | |- context [match ?x with Some _ => _ | None => _ end] => destruct x; cbn [rs_trace rs_deferred]
      end ];
  eexists; (split; [reflexivity|by intros ? [=]]).
Qed.

(** What was closed, in order. *)
Definition closings (tr : list action) : list closing :=
  omap (fun a => match a with Did c => Some c | Sent _ => None end) tr.

Lemma closings_app a b : closings (a ++ b) = closings a ++ closings b.
Proof using Type. apply omap_app. Qed.
Lemma closings_did l : closings (map Did l) = l.
Proof using Type. induction l as [|c l IH]; [done|]. change (c :: closings (map Did l) = c :: l). by rewrite IH. Qed.
Lemma closings_sent l : closings (map Sent l) = [].
Proof using Type. by induction l as [|e l IH]. Qed.

Definition ended (tr : list action) : Prop := Sent StoppedEvent ∈ tr.

(** The events that were sent. *)
Definition sentEvents (tr : list action) : list uiEvent := omap (fun a => match a with Sent e => Some e | Did _ => None end) tr.
Lemma sentEvents_app a b : sentEvents (a ++ b) = sentEvents a ++ sentEvents b.
Proof using Type. apply omap_app. Qed.
Lemma sentEvents_did l : sentEvents (map Did l) = [].
Proof using Type. by induction l. Qed.
Lemma sentEvents_sent l : sentEvents (map Sent l) = l.
Proof using Type. induction l as [|e l IH]; [done|]. change (e :: sentEvents (map Sent l) = e :: l). by rewrite IH. Qed.
Lemma ended_sent tr : ended tr <-> StoppedEvent ∈ sentEvents tr.
Proof using Type.
  unfold ended, sentEvents. rewrite list_elem_of_omap. split; [by eexists|]. by intros ([e|c] & H & [= ->]).
Qed.

(** ** What the loop sends *)

Section Only.
Context (P : uiEvent -> Prop) (HP : forall msg, P (MsgEvent msg)).
Definition only (s : Setup) : Prop := Forall P (su_events s).

Lemma only_inGate {A} (m : GM RegularOutTunnel A) : preserves only (inGate m).
Proof using Type. intros s Hs. unfold inGate. by destruct (m (su_gateway s)). Qed.
Lemma only_send e : P e -> preserves only (send e).
Proof using Type.
  intros He. apply preserves_modify. unfold only. intros s Hs. simpl. apply Forall_app. by repeat constructor.
Qed.
Lemma only_nodes l : preserves only (setNodes l).
Proof using Type. by apply preserves_modify. Qed.
Lemma only_attempts a : preserves only (setAttempts a).
Proof using Type. by apply preserves_modify. Qed.
Lemma only_failing {A} r (m : M Setup A) k :
  preserves only m -> (forall a, preserves only (k a)) -> preserves only (failing r m k).
Proof using Type.
  intros Hm Hk s Hs. specialize (Hm s Hs). unfold failing. destruct (m s) as [s' [a|e|w]]; [by apply Hk|done..].
Qed.
Hint Resolve only_inGate only_nodes only_attempts : pres.
Hint Extern 1 (preserves only (send (MsgEvent _))) => apply only_send, HP : pres.

Lemma only_newRoute tries sections : preserves only (newRoute tries sections).
Proof using Type.
  induction tries as [|tries IH]; cbn [newRoute]; [pres|]. apply preserves_bind; [unfold assemble, shuffleFrom; pres|pres].
Qed.
Lemma only_channels fuel nodes req : preserves only (checkAndDeployPaymentChannels fuel nodes req).
Proof using HP.
  revert req. induction nodes as [|n nodes IH]; intros req; cbn [checkAndDeployPaymentChannels]; [pres|].
  unfold preparePayerPaymentChannel. pres.
Qed.
Hint Resolve only_newRoute only_channels : pres.

Lemma only_configureRoute fuel waits sched sections : preserves only (configureRoute fuel waits sched sections).
Proof using HP.
  unfold configureRoute. apply only_failing; [pres|]. intros [[[to from] acting]|]; [|pres].
  apply preserves_bind; [pres|intros den]. destruct (den =? _); [|pres].
  repeat (apply only_failing; [pres|intros ?]). intros s Hs.
  pose proof (only_inGate (WaitForInit sched a1 AwaitState) s Hs) as Hw.
  destruct (inGate _ s) as [s' [[[ip port]|]|e|w]]; try done. by apply preserves_bind; [pres|pres|].
Qed.
Lemma only_monitorStep waits t lastAsk : preserves only (monitorStep waits t lastAsk).
Proof using Type. unfold monitorStep. pres. Qed.
End Only.
#[local] Hint Resolve only_inGate only_attempts only_monitorStep : pres.

(** The events of the loop do not report the end. *)
Abbreviation silent := (only (.≠ StoppedEvent)).
#[local] Hint Extern 1 (preserves silent (send _)) => by apply only_send : pres.

Lemma silent_reinitStep fuel waits sched sections : preserves silent (reinitStep fuel waits sched sections).
Proof using Type.
  unfold reinitStep. apply preserves_bind; [pres|intros _]. apply preserves_bind; [by apply only_configureRoute|pres].
Qed.
Lemma silent_runLoop sections turns st : preserves silent (runLoop sections turns st).
Proof using Type.
  revert st. induction turns as [|[|fuel waits sched] turns IH]; intros [|t|t a|]; cbn [runLoop]; try (pres; fail).
  apply preserves_bind; [apply silent_reinitStep|done].
Qed.

(** Neither the end nor a failure. *)
Definition routine (e : uiEvent) : Prop := match e with StoppedEvent | ErrorEvent _ => False | _ => True end.
#[local] Hint Extern 1 (preserves (only routine) (send _)) => by apply only_send : pres.

Definition isMsg (e : uiEvent) : Prop := match e with MsgEvent _ => True | _ => False end.
Lemma isMsg_routine l : Forall isMsg l -> Forall routine l.
Proof using Type. apply List.Forall_impl. by intros []. Qed.

Definition failedWith (l : list uiEvent) : Prop := exists before e, l = before ++ [ErrorEvent e] /\ Forall routine before.

(** A turn fails with one error, sent last, or sends none. *)
Lemma reinitStep_sends fuel waits sched sections (s s' : Setup) st : only routine s ->
  reinitStep fuel waits sched sections s = (s', Ok st) ->
  st = Stopped /\ failedWith (su_events s') \/ st <> Stopped /\ only routine s'.
Proof using Type.
  intros Hs. unfold reinitStep. rewrite bind_run.
  pose proof (only_send routine (MsgEvent "Configuring tunnel route...") I s Hs) as H0.
  destruct (send _ s) as [s0 [[]|e|w]]; try done. rewrite bind_run.
  pose proof (only_configureRoute routine (fun _ => I) fuel waits sched sections s0 H0) as H1.
  destruct (configureRoute _ _ _ _ s0) as [s1 [[t port ip|t|e r]|e|w]]; try done; simpl in H1.
  - unfold send. run. intros [= <- <-]. right. split; [done|]. apply Forall_app. by repeat constructor.
  - run. intros [= <- <-]. by right.
  - rewrite bind_run. assert (only routine ((if errorsIs e ErrNoMoreRoutes then setAttempts ∅ else mret tt) s1).1) as H2
      by (destruct (errorsIs e _); [by apply only_attempts|done]).
    destruct ((if errorsIs e ErrNoMoreRoutes then setAttempts ∅ else mret tt) s1) as [s2 [[]|e'|w]]; try done. simpl in H2.
    destruct r; unfold send; run; intros [= <- <-]; [right|left]; split; try done.
    + apply Forall_app. by repeat constructor.
    + by eexists _, _.
Qed.

Lemma monitorStep_on waits t lastAsk (s s' : Setup) st : monitorStep waits t lastAsk s = (s', Ok st) -> st <> Stopped.
Proof using Type.
  unfold monitorStep. rewrite bind_run. destruct (inGate _ s) as [s1 [now|e|w]]; try done.
  rewrite bind_run. destruct (inGate _ s1) as [s2 [tun|e|w]]; try done.
  destruct (_ && _); [|by intros [= _ <-]]. rewrite bind_run. destruct (inGate _ s2) as [s3 [[]|e|w]]; try done; rewrite bind_run.
  - destruct (ignore _ s3) as [s4 [[]|e|w]]; try done. by intros [= _ <-].
  - destruct (inGate _ s3) as [s4 [now'|e|w]]; try done. by intros [= _ <-].
Qed.

(** A loop that goes on has reported no failure; one that was left without a
    request to stop has reported one, last. *)
Lemma runLoop_sends sections turns st (s s' : Setup) b : only routine s -> st <> Stopped ->
  runLoop sections turns st s = (s', Ok b) ->
  if b then TurnStop ∈ turns \/ failedWith (su_events s') else only routine s'.
Proof using Type.
  revert st s. induction turns as [|[|fuel waits sched] turns IH]; intros [|t|t a|] s Hs Hst; cbn [runLoop]; try done;
    try (intros [= <- <-]; done).
  - intros [= <- <-]. left. constructor.
  - rewrite bind_run. destruct (reinitStep _ _ _ _ s) as [s1 [st|e|w]] eqn:Er; try done.
    destruct (reinitStep_sends _ _ _ _ _ _ _ Hs Er) as [[-> He]|[Hn H1]].
    + destruct turns; intros [= <- <-]; by right.
    + intros Hr. specialize (IH st s1 H1 Hn Hr). destruct b; [|done]. rewrite elem_of_cons. tauto.
  - rewrite bind_run. pose proof (only_monitorStep routine waits t a s Hs) as H1.
    destruct (monitorStep waits t a s) as [s1 [st|e|w]] eqn:Em; try done.
    intros Hr. specialize (IH st s1 H1 (monitorStep_on _ _ _ _ _ _ Em) Hr). destruct b; [|done]. rewrite elem_of_cons. tauto.
Qed.

Lemma payer_spec cfg tr d :
  exists (k : nat) (o : outcome (list resource)), payer cfg (mkRunState tr d) =
      (mkRunState (tr ++ map Did (map ClosePayment (reverse (take k started)))) d, o) /\
    (forall l, o = Ok l -> k = 0%nat /\ l = started).
Proof using Type.
  unfold payer, act. pose proof (startPayments_grows cfg (mkPayerState [] 0) eq_refl) as H.
  unfold preparePayerPayments. destruct (startPayments cfg _) as [s [u|e|w]]; run; cbn [rs_trace rs_deferred wrapErr].
  - exists 0%nat, (Ok (closeList (ps_deferred s))). rewrite closeList_reverse, H, reverse_involutive.
    split; [done|by intros l [= <-]].
  - destruct H as [k ->]. exists k. eexists. split; [done|by intros l [=]].
  - destruct H as [k ->]. exists k. eexists. split; [done|by intros l [=]].
Qed.

(** The start as a whole: on success the deferred calls stop the gateway, then the
    payments, then the parts; a failure of the payments has closed what they
    started. *)
Lemma startTunnel_spec cfg sharedCfg :
  exists tr d (o : outcome (Setup * bool)), startTunnel cfg sharedCfg (mkRunState [] []) = (mkRunState tr d, o) /\ Forall isMsg (sentEvents tr) /\
    match o with
    | Ok (su, service) =>
        closings tr = [] /\ su_events su = [] /\ openedParts cfg sharedCfg = 5%nat /\
        d = (Gateway_Stop service).1 :: (if (service : bool) then [map ClosePayment started] else []) ++ closers 5
    | _ => d = closers (openedParts cfg sharedCfg) /\
           exists k, closings tr = map ClosePayment (reverse (take k started)) /\
             (k = 0%nat \/ openedParts cfg sharedCfg = 5%nat)
    end.
Proof using Type.
  unfold startTunnel. rewrite bind_run. destruct (startStack_spec cfg sharedCfg []) as (o & -> & Ho).
  destruct o as [[nodes tunKey]|e|w]; cbv iota beta.
  2,3: eexists _, _, _; split; [reflexivity|]; split; [done|]; split; [done|exists 0%nat; auto].
  rewrite (Ho _ eq_refl). rewrite bind_run. unfold startPayer, checkRun, act, deferCall.
  destruct (cl_PaymentsEnabled cfg); run.
  2: { eexists _, _, _. split; [reflexivity|]. split; [done|]. by split_and!. }
  destruct rw_liteservers as [e|]; run.
  { eexists _, _, _. split; [reflexivity|]. split; [done|]. split; [done|exists 0%nat; auto]. }
  cbn [rs_trace rs_deferred app].
  set (tr := [Sent _]). assert (Forall isMsg (sentEvents tr)) as Htr by (by repeat constructor).
  destruct (payer_spec (cl_Payments cfg) tr (closers 5)) as (k & o & -> & Hk).
  assert (Forall isMsg (sentEvents (tr ++ map Did (map ClosePayment (reverse (take k started)))))) as Hend
    by (by rewrite sentEvents_app, sentEvents_did).
  assert (closings (tr ++ map Did (map ClosePayment (reverse (take k started)))) = map ClosePayment (reverse (take k started)))
    as Hcl by (by rewrite closings_app, closings_did).
  destruct o as [l|e|w]; cbv iota beta; run; cbn [rs_trace rs_deferred].
  - destruct (Hk l eq_refl) as [-> ->]. eexists _, _, _. split; [reflexivity|]. split; [done|]. by split_and!.
  - eexists _, _, _. split; [reflexivity|]. split; [done|]. split; [done|exists k; auto].
  - eexists _, _, _. split; [reflexivity|]. split; [done|]. split; [done|exists k; auto].
Qed.

Lemma concat_closers n : concat (closers n) = map ClosePart (reverse (take n parts)) ++ [CancelContext].
Proof using Type.
  unfold closers. rewrite concat_app. f_equal. induction (reverse (take n parts)) as [|p l IH]; [done|].
  simpl. by rewrite IH.
Qed.

(** The trace of an end, and what it closes. *)
Lemma finish_spec s : ~ ended (rs_trace s) ->
  exists before, finish s = before ++ [Sent StoppedEvent] /\ ~ ended before /\
    closings (finish s) = closings (rs_trace s) ++ concat (rs_deferred s).
Proof using Type.
  intros H. exists (rs_trace s ++ map Did (concat (rs_deferred s))). split; [unfold finish; by rewrite app_assoc|]. split.
  - unfold ended. rewrite elem_of_app. intros [Hs|Hs]; [done|]. by apply list_elem_of_fmap in Hs as (? & [=] & _).
  - unfold finish. rewrite !closings_app, closings_did. by rewrite app_nil_r.
Qed.

Lemma routine_not_ended tr l : Forall routine (sentEvents tr) -> Forall (.≠ StoppedEvent) l -> ~ ended (tr ++ map Sent l).
Proof using Type.
  intros Htr Hl. rewrite ended_sent, sentEvents_app, sentEvents_sent, elem_of_app, !list_elem_of_lookup.
  intros [(i & Hi)|(i & Hi)]; [by apply (Forall_lookup_1 _ _ _ _ Htr Hi)|by apply (Forall_lookup_1 _ _ _ _ Hl Hi)].
Qed.


(** ** The end of the context during a configuration *)

Definition unready (o : outcome routeResult) : Prop :=
  match o with Ok (Configured _ _ _) | Ok (Pending _) => False | _ => True end.

Lemma unready_failing {A} r (m : M Setup A) k s : (forall a s', unready (k a s').2) -> unready (failing r m k s).2.
Proof using Type. intros H. unfold failing. by destruct (m s) as [s' [a|e|w]]; [apply H| |]. Qed.
Lemma unready_bind {A} (m : M Setup A) k s : (forall a s', unready (k a s').2) -> unready ((m ≫= k) s).2.
Proof using Type. intros H. rewrite bind_run. by destruct (m s) as [s' [a|e|w]]; [apply H| |]. Qed.

(** The wait that follows the creation of a tunnel returns the error of the
    context, so no configuration succeeds. *)
Lemma configureRoute_cancelled fuel waits other e sched sections s :
  unready (configureRoute fuel waits ((other, Some e) :: sched) sections s).2.
Proof using Type.
  unfold configureRoute. apply unready_failing. intros [[[to from] acting]|] s1; [|done]. apply unready_bind. intros den s2.
  destruct (den =? AcceptorDecisionAccept); [|by destruct (den =? _)].
  do 3 (apply unready_failing; intros ? ?). unfold inGate. cbn [WaitForInit]. rewrite bind_run.
  destruct (ignore other _) as [g [u|e'|w]]; cbv iota beta.
  - rewrite bind_run. cbn [WaitForInit_poll]. rewrite throw_run. cbv iota beta. by apply unready_bind.
  - by apply unready_bind.
  - done.
Qed.

Definition cancelled (x : turn) : Prop :=
  match x with TurnGo _ _ ((_, Some _) :: _) => True | _ => False end.

Lemma reinitStep_cancelled fuel waits other e sched sections (s s' : Setup) st :
  reinitStep fuel waits ((other, Some e) :: sched) sections s = (s', Ok st) ->
  st = Reinit \/ st = Stopped /\ exists e', ErrorEvent e' ∈ su_events s'.
Proof using Type.
  unfold reinitStep. rewrite bind_run. unfold send at 1. rewrite modify_run, bind_run.
  set (s0 := mkSetup _ _ _ _ _). pose proof (configureRoute_cancelled fuel waits other e sched sections s0) as H.
  destruct (configureRoute _ _ _ _ s0) as [s1 [[t port ip|t|e' r]|e'|w]]; try done. rewrite bind_run.
  destruct r; [intros Hr; left|intros Hr; right];
    destruct (errorsIs e' ErrNoMoreRoutes); revert Hr; unfold setAttempts, send; run; intros [= <- <-]; try done;
    (split; [done|]); exists (Errorw "failed to configure route" e'); cbn [su_events];
    rewrite elem_of_app, list_elem_of_singleton; auto.
Qed.

(** The context of [RunTunnel] may end while a route is being configured: the
    attempt fails and is repeated like any other, and nothing looks at the
    context again.  The loop is left only by a failure that is reported and not
    repeated. *)
Theorem cancelled_while_configuring sections turns (s s' : Setup) :
  Forall cancelled turns -> runLoop sections turns Reinit s = (s', Ok true) ->
  exists e, ErrorEvent e ∈ su_events s'.
Proof using Type.
  intros H. revert s. induction H as [|[|fuel waits [|[other [e|]] sched]] turns Hx _ IH]; intros s; try done.
  cbn [runLoop]. rewrite bind_run. destruct (reinitStep _ _ _ _ s) as [s1 [st|e'|w]] eqn:Er; try done.
  destruct (reinitStep_cancelled _ _ _ _ _ _ _ _ _ Er) as [->|[-> He]]; [apply IH|].
  by destruct turns; intros [= <-].
Qed.
End Facts.

(** ** Runs *)

Section Runs.
#[local] Existing Instances toyCipher sampleTL sampleKA sampleWorld sampleClientWorld.

(** Keys that are their own seeds, a payment stack and a network that start. *)
#[local] Instance plainEd : Ed25519 := {| ed_fromSeed := fun s => s; ed_seed := fun k => k |}.
#[local] Instance samplePayerWorld : PayerWorld := {|
  pw_startClient := None;
  pw_openDatabase := Ok true;
  pw_setMigrationVersion := None;
  pw_runMigrations := None;
  pw_blockOffset := Ok None;
  pw_startScanner := fun _ => None;
  pw_channels := Ok [true; false];
  pw_initWallet := fun _ => None;
  pw_newService := None;
|}.
#[local] Instance sampleRunWorld : RunWorld := {|
  rw_generateKey := fun n => Ok (replicate 32 (Z.of_nat n));
  rw_listener := None;
  rw_startGate := None;
  rw_startDhtGate := None;
  rw_newDht := None;
  rw_liteservers := None;
  rw_commit := None;
|}.

(** A user who cancels the first route. *)
Definition cancelingWorld : SetupWorld := {|
  sw_random := sw_random (SetupWorld := sampleSetupWorld);
  sw_shuffle := sw_shuffle (SetupWorld := sampleSetupWorld);
  sw_acceptor := fun _ _ _ => AcceptorDecisionCancel;
  sw_askReroute := fun _ => true;
  sw_parseAddr := Ok;
  sw_bounce := fun a => a;
  sw_fromDecimal := fun _ d => Ok (10 ^ d);
  sw_listChannels := fun _ => Ok [];
  sw_currentBlock := fun _ => Ok 5;
  sw_account := fun _ _ _ => Ok None;
  sw_channelOpen := fun _ _ => Ok true;
  sw_openChannel := fun _ _ _ _ => Ok "EQnew"%string;
  sw_getChannel := fun n _ => Ok None;
|}.

Definition seed32 (k : Z) : bytes := replicate 32 k.
Definition payingConfig : ClientConfig :=
  mkClientConfig (seed32 8) 1 3 "" true
    (mkPaymentsClientConfig (seed32 1) (seed32 2) (seed32 3) "" false
      (channels (tonCoin "0" (mkBalanceControlConfig "0" "0" "5")) (usdtCoin (mkBalanceControlConfig "0" "0" "15")))).

Abbreviation canceledRun := (RunTunnel (SW := cancelingWorld) payingConfig (mkSharedConfig samplePool) [TurnGo 1 1 []]).

(** The service is stopped by the gateway and again by the list, and the
    database is closed before the transport and the scanner are stopped. *)
Example canceledRun_closings :
  closings canceledRun.1 =
    [CloseGateway; CommitChannels; StopService;
     ClosePayment RGateway; ClosePayment RDatabase; ClosePayment RTransport; ClosePayment RScanner; ClosePayment RService;
     ClosePart PDht; ClosePart PDhtGate; ClosePart PGate; ClosePart PReader; ClosePart PConn; CancelContext].
Proof using Type. vm_compute. reflexivity. Qed.


(** A client that was told to stop before its route was configured goes on
    configuring: three turns, three tunnels. *)
Definition lateTurns : list turn := replicate 3 (TurnGo 1 1 [(mret tt, Some (Errorf "context canceled"))]).
Example cancelled_goes_on :
  (runLoop (SW := sampleSetupWorld) 3 lateTurns Reinit sampleSetup).2 = Ok false /\
  size (g_tuns (su_gateway (runLoop (SW := sampleSetupWorld) 3 lateTurns Reinit sampleSetup).1)) = 3%nat.
Proof using Type. split; vm_compute; reflexivity. Qed.
End Runs.
