(* ===== verification/Prices.v ===== *)
(** * The prices a node shares and those it asks for

    A node hands out its minimum prices with its key ([GenerateSharedConfig]),
    a client makes sections of them ([paymentConfigToSections]) and names the
    price of a section in the instructions for the node ([buildRoute],
    [prepareInitMessage]), which compares it with its own minimum.  The prices
    meet for a node on the way; an exit is asked for a route at the price of its
    port. *)

From S2P Require Import Prelude Seqno Stream Wire Samples Keys PayChain Hoare State Peers Node Payments OutGate Gateway Worlds Traffic.
From S2P Require Import Client ClientMsg ClientPay ClientIO ClientFacts ClientWorlds Config Setup SetupFacts.

(** The payment settings of a node's gateway ([main], [cmd/node/main.go]). *)
Definition nodePayments (cfg : Config) : PaymentConfig :=
  if PaymentsEnabled cfg
  then mkPaymentConfig true (pc_MinPricePerPacketRoute (Payments cfg)) (pc_MinPricePerPacketInOut (Payments cfg))
  else mkPaymentConfig false 0 0.

Section Prices.
Context {C : CipherCtr} {T : TL} {K : KeyAgreement} {W : World} {CW : ClientWorld} {SW : SetupWorld} {E : Ed25519}.

Abbreviation GState := (Gateway RegularOutTunnel).

Definition minPrice (pay : PaymentConfig) (isOut : bool) : Z :=
  if isOut then MinPricePerPacketInOut pay else MinPricePerPacketRoute pay.

(** A section made from what a node shared has the node's own price. *)
Lemma shared_price src shared sec isOut (g g' : GState) si :
  in_uint 64 (pc_MinPricePerPacketRoute (Payments src)) -> in_uint 64 (pc_MinPricePerPacketInOut (Payments src)) ->
  sharedConfig src = Ok shared -> In sec (NodesPool shared) ->
  (Payment sec <> None -> Service (g_payments g) = true) ->
  paymentConfigToSections sec isOut g = (g', Ok si) ->
  priceOf si = minPrice (nodePayments src) isOut.
Proof using Type.
  intros Hr Ho Hsh Hin Hpay H. unfold sharedConfig, sharedPayment in Hsh. unfold in_uint in *.
  unfold paymentConfigToSections in H. ok_step H. ok_step H. ok_step H. ok_step H. ok_step H.
  injection H as _ <-. injection Hm2 as <- <-. injection Hm0 as <- _. injection Hm1 as <- _.
  apply guard_ok_inv in Hm as [_ ->]. unfold priceOf, minPrice, nodePayments. cbn [si_PaymentInfo].
  destruct (PaymentsEnabled src); cbn [andb] in Hsh.
  - destruct ((0 <? _) || (0 <? _)) eqn:Epos; go_bind in Hsh.
    + destruct (NewKeyFromSeed (pc_PaymentsNodeKey _)); [|done..]. go_bind in Hsh.
      destruct (NewKeyFromSeed (TunnelServerKey src)); [|done..]. go_bind in Hsh. injection Hsh as <-.
      destruct Hin as [<-|[]]. cbn [Payment g_payments set_g_tick] in *. rewrite Hpay in Hm3 by done. ok_step Hm3. injection Hm as _ Hm.
      injection Hm3 as _ <-. unfold payerOf in Hm. cbn [JettonMaster] in Hm. go_bind in Hm.
      destruct (wrapErr _ _) as [[? dec]|e|w]; [|done..]. go_bind in Hm.
      destruct (paymentTunnel _ _); [|done..]. go_bind in Hm. injection Hm as <-. by destruct isOut.
    + destruct (NewKeyFromSeed (TunnelServerKey src)); [|done..]. go_bind in Hsh. injection Hsh as <-.
      destruct Hin as [<-|[]]. injection Hm3 as _ <-. apply orb_false_iff in Epos as [E1 E2].
      apply Z.ltb_ge in E1, E2. destruct isOut; simpl; lia.
  - go_bind in Hsh. destruct (NewKeyFromSeed (TunnelServerKey src)); [|done..]. go_bind in Hsh. injection Hsh as <-.
    destruct Hin as [<-|[]]. injection Hm3 as _ <-. by destruct isOut.
Qed.

Lemma addPeer_ok id (g : GState) : exists g' l, addPeer id None g = (g', Ok l) /\ g_sections g' = g_sections g.
Proof using Type.
  unfold addPeer. rewrite bind_run, get_run. cbv iota beta. rewrite bind_run.
  destruct (g_activePeers g !! id) as [l|]; [by eexists _, _|]. by eexists _, _.
Qed.

(** A route asked for at the minimum price is built, when routing is allowed and
    the section has room for it. *)
Lemma BuildRoute_priced s ins (g : GState) sec :
  g_allowRouting g = true -> MinPricePerPacketRoute (g_payments g) <= br_PricePerPacket ins ->
  g_sections g !! s = Some sec -> s_routes sec !! br_RouteID ins = None ->
  Z.of_nat (size (s_routes sec)) < MaxActiveRoutesPerSection ->
  (BuildRoute_Execute s ins g).2 = Ok tt.
Proof using Type.
  intros Hallow Hprice Hs Hr Hroom. unfold BuildRoute_Execute, routingAllowed.
  rewrite !bind_run, get_run. cbv iota beta. rewrite guard_run, Hallow. cbn [negb]. rewrite bind_run, get_run. cbv iota beta.
  rewrite bind_run, guard_run, (proj2 (Z.ltb_ge _ _) Hprice). cbv iota. rewrite bind_run.
  destruct (addPeer_ok (br_TargetADNL ins) g) as (g1 & peer & -> & Hg1). cbv iota beta zeta.
  rewrite bind_run, (deref_run _ _ _ sec) by (by rewrite Hg1). cbv iota beta. rewrite Hr. unfold addRoute.
  rewrite bind_run, guard_run, (proj2 (Z.leb_gt _ _) Hroom). done.
Qed.

(** A route asked for below it is refused, and nothing else happens. *)
Lemma BuildRoute_underpriced s ins (g : GState) :
  g_allowRouting g = true -> br_PricePerPacket ins < MinPricePerPacketRoute (g_payments g) ->
  BuildRoute_Execute s ins g = (g, Err (Errorf "too low price per packet route")).
Proof using Type.
  intros Hallow Hprice. unfold BuildRoute_Execute, routingAllowed.
  rewrite !bind_run, get_run. cbv iota beta. rewrite guard_run, Hallow. cbn [negb]. rewrite bind_run, get_run. cbv iota beta.
  by rewrite bind_run, guard_run, (proj2 (Z.ltb_lt _ _) Hprice).
Qed.

(** A client's sections from what a node shared. *)
Context (src : Config) (shared : SharedConfig) (sec : TunnelRouteSection) (g0 g1 : GState) (si : SectionInfo).
Hypothesis Hroute : in_uint 64 (pc_MinPricePerPacketRoute (Payments src)).
Hypothesis Hinout : in_uint 64 (pc_MinPricePerPacketInOut (Payments src)).
Hypothesis Hshared : sharedConfig src = Ok shared.
Hypothesis Hsec : In sec (NodesPool shared).
Hypothesis Hpaid : Payment sec <> None -> Service (g_payments g0) = true.

(** C36: the price a node shares is the price it takes: a client that builds a
    route through the node at the price of its section is not refused, whatever
    the node's minimum prices are. *)
Theorem shared_price_taken s id key route (x : GState) xsec :
  paymentConfigToSections sec false g0 = (g1, Ok si) ->
  g_allowRouting x = true -> g_payments x = nodePayments src ->
  g_sections x !! s = Some xsec -> s_routes xsec !! route = None ->
  Z.of_nat (size (s_routes xsec)) < MaxActiveRoutesPerSection ->
  (BuildRoute_Execute s (mkBuildRoute id key route (priceOf si)) x).2 = Ok tt.
Proof using Hroute Hinout Hshared Hsec Hpaid.
  intros Hsi Hallow Hpay Hs Hr Hroom. eapply BuildRoute_priced; try done. rewrite Hpay.
  cbn [br_PricePerPacket]. rewrite (shared_price src shared sec false g0 g1 si); [simpl; lia|done..].
Qed.

(** An exit refuses its own price: the first instruction an exit gets builds
    the route for system messages at the price of its port, so that a node whose
    minimum for ports is below its minimum for routes refuses every client that
    asks for the prices it shares. *)
Theorem exit_price_refused s id key route (x : GState) :
  paymentConfigToSections sec true g0 = (g1, Ok si) ->
  g_allowRouting x = true -> g_payments x = nodePayments src -> PaymentsEnabled src = true ->
  pc_MinPricePerPacketInOut (Payments src) < pc_MinPricePerPacketRoute (Payments src) ->
  BuildRoute_Execute s (mkBuildRoute id key route (priceOf si)) x = (x, Err (Errorf "too low price per packet route")).
Proof using Hroute Hinout Hshared Hsec Hpaid.
  intros Hsi Hallow Hpay Hen Hlt. apply BuildRoute_underpriced; [done|]. rewrite Hpay. cbn [br_PricePerPacket].
  rewrite (shared_price src shared sec true g0 g1 si); [|done..]. unfold minPrice, nodePayments. by rewrite Hen.
Qed.
End Prices.

(** ** A node that asks ten for a route and five for its port *)
Section Runs.
#[local] Existing Instances toyCipher sampleTL sampleKA sampleWorld sampleClientWorld sampleSetupWorld.
Abbreviation State := (Gateway (W := sampleWorld) RegularOutTunnel).

Definition seedOf (k : Z) : bytes := replicate 31 0 ++ [k].
Definition pricedConfig : Config :=
  mkConfig (seedOf 8) "" 1 "" "" true
    (mkPaymentsConfig (seedOf 1) (seedOf 2) (seedOf 3) "" false
      (channels (tonCoin "0" (mkBalanceControlConfig "0" "0" "5")) (usdtCoin (mkBalanceControlConfig "0" "0" "15"))) 10 5).

(** Keys that are their own seeds. *)
#[local] Instance longEd : Ed25519 := {| ed_fromSeed := fun s => s; ed_seed := fun k => k |}.

Definition pricedShared : SharedConfig :=
  match sharedConfig (E := longEd) pricedConfig with Ok s => s | _ => mkSharedConfig [] end.
Definition pricedSection : TunnelRouteSection := default (poolNode 0) (head (NodesPool pricedShared)).
Definition payingClient : State := gatewayOf clientKey nodeKey paidConfig.
Definition sectionInfo (isOut : bool) : SectionInfo :=
  match (paymentConfigToSections pricedSection isOut payingClient).2 with
  | Ok si => si
  | _ => mkSectionInfo (mkEncryptionKeys [] 0 0 [] []) None
  end.
(** The node, with a section in use. *)
Definition pricedNode : State := set_g_payments (nodePayments pricedConfig) configured.2.

Lemma sectionInfo_ok isOut :
  paymentConfigToSections pricedSection isOut payingClient
  = ((paymentConfigToSections pricedSection isOut payingClient).1, Ok (sectionInfo isOut)).
Proof using Type. apply run_ok. destruct isOut; vm_compute; reflexivity. Qed.

Example sectionInfo_prices : priceOf (sectionInfo false) = 10 /\ priceOf (sectionInfo true) = 5.
Proof using Type. vm_compute. auto. Qed.

Lemma known_b_None {A} (o : option A) : known_b o = false -> o = None.
Proof using Type. by destruct o. Qed.

Lemma shared_price_taken_witness :
  (BuildRoute_Execute 0 (mkBuildRoute [1] [2] 999 (priceOf (sectionInfo false))) pricedNode).2 = Ok tt.
Proof using Type.
  assert (g_sections pricedNode !! 0%nat = Some (sectionOf pricedNode 0)) as Hs by (apply sectionOf_known; vm_compute; reflexivity).
  assert (s_routes (sectionOf pricedNode 0) !! 999 = None) as Hr by (apply known_b_None; vm_compute; reflexivity).
  assert (Z.of_nat (size (s_routes (sectionOf pricedNode 0))) < MaxActiveRoutesPerSection) as Hroom by (vm_compute; reflexivity).
  assert (sharedConfig (E := longEd) pricedConfig = Ok pricedShared) as Hsh by (vm_compute; reflexivity).
  assert (In pricedSection (NodesPool pricedShared)) as Hin by (left; vm_compute; reflexivity).
  assert (in_uint 64 10 /\ in_uint 64 5) as [H10 H5] by (unfold in_uint; lia).
  exact (shared_price_taken (E := longEd) pricedConfig pricedShared pricedSection payingClient
    (paymentConfigToSections pricedSection false payingClient).1 (sectionInfo false) H10 H5 Hsh Hin (fun _ => eq_refl)
    0 [1] [2] 999 pricedNode (sectionOf pricedNode 0) (sectionInfo_ok false) eq_refl eq_refl Hs Hr Hroom).
Defined.

Lemma exit_price_refused_witness :
  BuildRoute_Execute 0 (mkBuildRoute [1] [2] 999 (priceOf (sectionInfo true))) pricedNode
  = (pricedNode, Err (Errorf "too low price per packet route")).
Proof using Type.
  assert (sharedConfig (E := longEd) pricedConfig = Ok pricedShared) as Hsh by (vm_compute; reflexivity).
  assert (In pricedSection (NodesPool pricedShared)) as Hin by (left; vm_compute; reflexivity).
  assert (in_uint 64 10 /\ in_uint 64 5) as [H10 H5] by (unfold in_uint; lia).
  exact (exit_price_refused (E := longEd) pricedConfig pricedShared pricedSection payingClient
    (paymentConfigToSections pricedSection true payingClient).1 (sectionInfo true) H10 H5 Hsh Hin (fun _ => eq_refl)
    0 [1] [2] 999 pricedNode (sectionInfo_ok true) eq_refl eq_refl eq_refl eq_refl).
Defined.
End Runs.
