(* ===== verification/CLib.v ===== *)
(** * The C interface of a tunnel ([cmd/lib/lib.go])

    A program linked with the library hands datagrams over in batches, each
    datagram as a [sockaddr_in], a length and its bytes, and receives them in the
    same form.  The reader of a tunnel fills one buffer with up to a hundred
    datagrams and calls back; [WriteTunnel] reads such a buffer.  The largest
    datagram, [adnl.MaxMTU], is a parameter. *)

From S2P Require Import Prelude NetAddr Seqno Stream Wire Samples Keys PayChain Hoare State Peers Node Payments OutGate Gateway Worlds Traffic.
From S2P Require Import Client ClientMsg ClientPay ClientIO ClientFacts ClientWorlds Delivery.

(** ** Socket addresses *)

(** [copy(dst, src)]: as many bytes as both have. *)
Definition copy (dst src : bytes) : bytes := take (length dst) src ++ drop (length src) dst.

(** [at[i] = b] panics beyond the length. *)
Definition store (at_ : bytes) (i : nat) (b : Z) : outcome bytes :=
  if bool_decide (i < length at_)%nat then Ok (<[i := b]> at_) else Panic "index out of range".

Definition writeSockAddr (at_ : bytes) (ip : bytes) (port : Z) : outcome bytes :=
  at_ ← store at_ 0 2;
  at_ ← store at_ 1 0;
  at_ ← store at_ 2 (uint8 (Z.shiftr port 8));
  at_ ← store at_ 3 (uint8 (Z.land port 255));
  tail ← slice_from at_ 4;
  mret (take 4 at_ ++ copy tail (To4 ip)).

Definition parseSockAddr (at_ : bytes) : outcome (bytes * Z) :=
  if len at_ <? 16 then Err (Errorf "length too short") else
  if negb (at_ !!! 0%nat =? 2) || negb (at_ !!! 1%nat =? 0) then Err (Errorf "only supports AF_INET addr") else
  Ok (take 4 (drop 4 at_), Z.shiftl (at_ !!! 2%nat) 8 + at_ !!! 3%nat).

(** ** The reader of a tunnel *)

(** The buffer with [b_off] bytes used by [b_num] datagrams. *)
Record batch := mkBatch { b_buf : bytes; b_off : nat; b_num : nat }.

(** What [ReadFromWithTimeout] returned: a datagram, the end of its 20 ms, or
    another error. *)
Inductive readResult : Type :=
| RPacket (payload ip : bytes) (port : Z)
| RDeadline
| RError.

Section Reader.
Context (MaxMTU : nat).

Definition batchSize : nat := 100.
Definition bufLen : nat := (16 + 2 + MaxMTU) * batchSize.

(** [buf[off:] = tail]. *)
Definition storeAt (buf : bytes) (off : nat) (tail : bytes) : bytes := take off buf ++ tail.

(** The datagram is copied behind the place of its address; a larger one is
    skipped, an empty one is not counted.  [full] of the result says that the
    loop goes on without looking at the batch. *)
Definition readPacket (b : batch) (r : readResult) : outcome (batch * bool) :=
  match r with
  | RError => Ok (b, true)
  | RDeadline => Ok (b, false)
  | RPacket payload ip port =>
      tail ← slice_from (b_buf b) (b_off b + 18);
      let n := Nat.min (length tail) (length payload) in
      let buf := storeAt (b_buf b) (b_off b + 18) (copy tail payload) in
      if bool_decide (MaxMTU < n)%nat then Ok (mkBatch buf (b_off b) (b_num b), true)
      else if bool_decide (n = 0)%nat then Ok (mkBatch buf (b_off b) (b_num b), false)
      else
        head ← writeSockAddr (drop (b_off b) buf) ip port;
        head ← store head 16 (uint8 (Z.shiftr (Z.of_nat n) 8));
        head ← store head 17 (uint8 (Z.land (Z.of_nat n) 255));
        Ok (mkBatch (storeAt buf (b_off b) head) (b_off b + 18 + n) (S (b_num b)), false)
  end.

(** One turn of the loop: the new batch, and what is called back with; [due]
    when ten milliseconds have passed since the last one. *)
Definition batchStep (b : batch) (r : readResult) (due : bool) : outcome (batch * option (bytes * nat)) :=
  '(b, again) ← readPacket b r;
  if (again : bool) then Ok (b, None)
  else if bool_decide (batchSize <= b_num b)%nat || (bool_decide (0 < b_num b)%nat && due)
  then Ok (mkBatch (b_buf b) 0 0, Some (b_buf b, b_num b))
  else Ok (b, None).
End Reader.

(** ** Writing *)

Section Writer.
Context {C : CipherCtr} {T : TL} {K : KeyAgreement} {W : World} {CW : ClientWorld}.

Abbreviation G := (GM RegularOutTunnel).

(** [buf[lo:hi]]. *)
Definition slice (bs : bytes) (lo hi : nat) : outcome bytes :=
  if bool_decide (lo <= hi <= length bs)%nat then Ok (take (hi - lo) (drop lo bs)) else Panic "slice bounds out of range".
Definition index (bs : bytes) (i : nat) : outcome Z :=
  match bs !! i with Some b => Ok b | None => Panic "index out of range" end.

(** [tun.WriteTo] on a pointer that may be nil: an empty datagram is dropped
    before the tunnel is looked at. *)
Definition writeOn (tun : option nat) (p : bytes) (addr : bytes * Z) : G Z :=
  match tun, p with
  | Some t, _ => WriteTo t p (Some addr)
  | None, [] => mret 0
  | None, _ => nilDeref
  end.

(** The datagrams from [off] on: 1 when all of them were written. *)
Fixpoint writeBatch (tun : option nat) (num : nat) (buf : bytes) (off : nat) : G Z :=
  match num with
  | O => mret 1
  | S num =>
      tail ← lift (slice_from buf off);
      match parseSockAddr tail with
      | Panic w => panic w
      | Err _ => mret 0
      | Ok addr =>
          hi ← lift (index buf (off + 16));
          lo ← lift (index buf (off + 17));
          let sz := Z.to_nat (Z.shiftl hi 8 + lo) in
          p ← lift (slice buf (off + 18) (off + 18 + sz));
          err ← attempt (writeOn tun p addr);
          match err with
          | Some _ => mret (-1)
          | None => writeBatch tun num buf (off + 18 + sz)
          end
      end
  end.

(** [indexMatch] holds the tunnels of the program by their index from one; a
    tunnel that is not set is a nil pointer. [buf] is the memory at [data]. *)
Definition WriteTunnel (indexMatch : list (option nat)) (tunIdx : Z) (buf : bytes) (num : nat) : G Z :=
  if (tunIdx <=? 0) || (Z.of_nat (length indexMatch) <? tunIdx) then mret 0 else
  match indexMatch !! Z.to_nat (tunIdx - 1) with
  | Some tun => writeBatch tun num buf 0
  | None => panic "index out of range"
  end.

(** [C.int]. *)
Definition int32 (x : Z) : Z := (x + 2 ^ 31) mod 2 ^ 32 - 2 ^ 31.

(** What [PrepareTunnel] returns once the tunnel is up: the number of tunnels,
    the external address as a number, the port. *)
Definition tunnelInfo (indexMatch : list (option nat)) (ExtIP : bytes) (ExtPort : Z) : outcome (Z * Z * Z) :=
  let ip4 := To4 ExtIP in
  if len ip4 <? 4 then Panic "index out of range"
  else Ok (Z.of_nat (length indexMatch), int32 (le_decode (reverse ip4)), ExtPort).
End Writer.

(** ** The form of a batch *)

(** A reference decoder: the datagrams of a batch with their addresses. *)
Fixpoint decodeBatch (num : nat) (buf : bytes) (off : nat) : outcome (list (bytes * (bytes * Z))) :=
  match num with
  | O => Ok []
  | S num =>
      tail ← slice_from buf off;
      addr ← parseSockAddr tail;
      hi ← index buf (off + 16);
      lo ← index buf (off + 17);
      let sz := Z.to_nat (Z.shiftl hi 8 + lo) in
      p ← slice buf (off + 18) (off + 18 + sz);
      rest ← decodeBatch num buf (off + 18 + sz);
      Ok ((p, addr) :: rest)
  end.

Section WriterFacts.
Context {C : CipherCtr} {T : TL} {K : KeyAgreement} {W : World} {CW : ClientWorld}.

(** Writing datagrams one after the other, up to the first that fails. *)
Fixpoint writeAll (tun : option nat) (l : list (bytes * (bytes * Z))) : GM RegularOutTunnel Z :=
  match l with
  | [] => mret 1
  | x :: l =>
      err ← attempt (writeOn tun (fst x) (snd x));
      match err with Some _ => mret (-1) | None => writeAll tun l end
  end.

Lemma writeBatch_writeAll tun num buf off l (g : Gateway RegularOutTunnel) :
  decodeBatch num buf off = Ok l -> writeBatch tun num buf off g = writeAll tun l g.
Proof using Type.
  revert off l g. induction num as [|num IH]; intros off l g H; simpl in H; [by injection H as <-|].
  cbn [writeBatch]. rewrite bind_run, lift_run. destruct (slice_from buf off) as [tail|e|w]; [|done..]. go_bind in H.
  destruct (parseSockAddr tail) as [addr|e|w]; [|done..]. go_bind in H. rewrite bind_run, lift_run.
  destruct (index buf (off + 16)) as [hi|e|w]; [|done..]. go_bind in H. rewrite bind_run, lift_run.
  destruct (index buf (off + 17)) as [lo|e|w]; [|done..]. go_bind in H. rewrite bind_run, lift_run.
  destruct (slice buf _ _) as [p|e|w]; [|done..]. go_bind in H.
  destruct (decodeBatch num buf _) as [rest|e|w] eqn:Ed; [|done..]. injection H as <-. cbn [writeAll fst snd].
  rewrite !bind_run. destruct (attempt _ g) as [g' [[e|]|e|w]]; [done| |done..]. by apply IH.
Qed.
End WriterFacts.

(** ** Frames *)

(** A header of eighteen bytes for a datagram of [n] bytes from [addr]. *)
Definition isHeader (h : bytes) (addr : bytes * Z) (n : nat) : Prop :=
  length h = 18%nat /\ parseSockAddr h = Ok addr /\
  exists hi lo, h !! 16%nat = Some hi /\ h !! 17%nat = Some lo /\ Z.to_nat (Z.shiftl hi 8 + lo) = n.

Definition isFrame (f : bytes) (x : bytes * (bytes * Z)) : Prop :=
  exists h, f = h ++ fst x /\ isHeader h (snd x) (length (fst x)).

Ltac header h := do 18 (destruct h as [|? h]; [discriminate|]); destruct h; [|discriminate].

(** The address is read from the header alone. *)
Lemma parseSockAddr_app h q addr : length h = 18%nat -> parseSockAddr h = Ok addr -> parseSockAddr (h ++ q) = Ok addr.
Proof.
  intros Hh. header h. unfold parseSockAddr. rewrite len_app. pose proof (len_nonneg q) as Hq.
  change (len [_; _; _; _; _; _; _; _; _; _; _; _; _; _; _; _; _; _]) with 18.
  change (18 <? 16) with false. rewrite (proj2 (Z.ltb_ge (18 + len q) 16)) by lia. done.
Qed.

Lemma lookup_mid (pre h q : bytes) i : (i < length h)%nat -> (pre ++ h ++ q) !! (length pre + i)%nat = h !! i.
Proof.
  intros Hi. rewrite lookup_app_r by lia. replace (length pre + i - length pre)%nat with i by lia. by apply lookup_app_l.
Qed.

Lemma decodeBatch_frames fs pkts pre rest :
  Forall2 isFrame fs pkts -> decodeBatch (length pkts) (pre ++ concat fs ++ rest) (length pre) = Ok pkts.
Proof.
  intros H. revert pre. induction H as [|f x fs pkts (h & -> & Hlen & Haddr & hi & lo & H16 & H17 & Hn) _ IH]; intros pre; [done|].
  cbn [length decodeBatch concat]. rewrite slice_from_app by done. go_bind. rewrite <- !app_assoc.
  rewrite (parseSockAddr_app _ _ _ Hlen Haddr). go_bind. unfold index.
  rewrite !lookup_mid, H16, H17 by lia. go_bind.
  rewrite Hn. unfold slice. rewrite bool_decide_eq_true_2 by (rewrite !length_app; lia).
  replace (length pre + 18 + length x.1 - (length pre + 18))%nat with (length x.1) by lia.
  rewrite (app_assoc pre h), drop_app_length' by (rewrite length_app; lia). rewrite take_app_length. go_bind.
  specialize (IH ((pre ++ h) ++ x.1)). rewrite <- !app_assoc in IH. rewrite !length_app, Hlen in IH.
  rewrite <- !app_assoc. replace (length pre + 18 + length x.1)%nat with (length pre + (18 + length x.1))%nat by lia.
  rewrite IH. by destruct x.
Qed.

(** ** Filling the buffer *)

Lemma uint8_range x : 0 <= uint8 x < 256.
Proof. unfold uint8. apply Z.mod_pos_bound. lia. Qed.

(** Two bytes, high first, of a number below [2^16]. *)
Lemma two_bytes x : 0 <= x < 2 ^ 16 -> Z.shiftl (uint8 (Z.shiftr x 8)) 8 + uint8 (Z.land x 255) = x.
Proof.
  intros Hx. unfold uint8. rewrite Z.shiftr_div_pow2, Z.shiftl_mul_pow2 by lia.
  change 255 with (Z.ones 8). rewrite Z.land_ones, Z.mod_mod by lia.
  rewrite (Z.mod_small (x / 2 ^ 8)) by (split; [apply Z.div_pos|apply Z.div_lt_upper_bound]; lia).
  rewrite (Z.div_mod x (2 ^ 8)) at 3 by lia. lia.
Qed.

(** The header the reader writes over eighteen bytes of the buffer. *)
Lemma writeHeader h q ip port n :
  length h = 18%nat -> len (To4 ip) = 4 -> 0 <= port < 2 ^ 16 -> (Z.of_nat n < 2 ^ 16) ->
  exists h', isHeader h' (To4 ip, port) n /\
    (head ← writeSockAddr (h ++ q) ip port;
     head ← store head 16 (uint8 (Z.shiftr (Z.of_nat n) 8));
     store head 17 (uint8 (Z.land (Z.of_nat n) 255))) = Ok (h' ++ q).
Proof.
  intros Hh Hip Hport Hn. header h. destruct (To4 ip) as [|a [|b [|c [|d [|? ?]]]]] eqn:Eip;
    [unfold len in Hip; simpl in Hip; lia..| |unfold len in Hip; simpl in Hip; lia].
  unfold writeSockAddr, store, slice_from. rewrite !bool_decide_eq_true_2 by (rewrite ?length_insert; simpl; lia).
  rewrite Eip. unfold copy. simpl.
  eexists [_; _; _; _; _; _; _; _; _; _; _; _; _; _; _; _; _; _]. split; [|reflexivity]. split_and!; [done| |].
  - unfold parseSockAddr. simpl. by rewrite two_bytes.
  - eexists _, _. split_and!; [done..|]. rewrite two_bytes by lia. lia.
Qed.

(** The buffer after the datagram was copied behind its header. *)
Lemma copied_behind pre h q p :
  length h = 18%nat -> (length p <= length q)%nat ->
  storeAt (pre ++ h ++ q) (length pre + 18) (copy (drop (length pre + 18) (pre ++ h ++ q)) p)
  = pre ++ h ++ p ++ drop (length p) q.
Proof.
  intros Hh Hp. unfold storeAt, copy. rewrite (app_assoc pre h q).
  rewrite take_app_length', drop_app_length' by (rewrite length_app; lia).
  rewrite firstn_all2 by lia. by rewrite <- !app_assoc.
Qed.

Section ReaderFacts.
Context (MaxMTU : nat) (Hmtu : Z.of_nat MaxMTU < 2 ^ 16).

(** The buffer starts with the frames of these datagrams. *)
Definition filled (b : batch) (pkts : list (bytes * (bytes * Z))) : Prop :=
  exists fs rest, b_buf b = concat fs ++ rest /\ b_off b = length (concat fs) /\ Forall2 isFrame fs pkts /\
    b_num b = length pkts /\ length (b_buf b) = bufLen MaxMTU /\ (length (concat fs) <= length pkts * (18 + MaxMTU))%nat.

(** A datagram the batch can hold: no larger than [MaxMTU], from an IPv4
    address. *)
Definition goodRead (r : readResult) : Prop :=
  match r with
  | RPacket p ip port => (length p <= MaxMTU)%nat /\ len (To4 ip) = 4 /\ 0 <= port < 2 ^ 16
  | _ => True
  end.

(** What a read adds to the batch. *)
Definition carried (r : readResult) : list (bytes * (bytes * Z)) :=
  match r with
  | RPacket [] _ _ => []
  | RPacket p ip port => [(p, (To4 ip, port))]
  | _ => []
  end.

(** The place for the next datagram and its header is free while there are
    fewer than a hundred. *)
Lemma filled_room b pkts :
  filled b pkts -> (length pkts < batchSize)%nat ->
  exists fs h q, b_buf b = concat fs ++ h ++ q /\ b_off b = length (concat fs) /\ Forall2 isFrame fs pkts /\
    length h = 18%nat /\ (MaxMTU <= length q)%nat.
Proof using Type.
  intros (fs & rest & Hb & Ho & Hf & Hn & Hl & Hs) Hlt. exists fs, (take 18 rest), (drop 18 rest).
  assert (18 + MaxMTU <= length rest)%nat as Hrest.
  { rewrite Hb, length_app in Hl. unfold bufLen, batchSize in *. nia. }
  rewrite take_drop, length_take, length_drop. split_and!; try done; lia.
Qed.

Lemma filled_app fs pkts f x q num :
  Forall2 isFrame fs pkts -> isFrame f x -> num = S (length pkts) ->
  length (concat fs ++ f ++ q) = bufLen MaxMTU -> (length (concat fs) <= length pkts * (18 + MaxMTU))%nat ->
  (length f <= 18 + MaxMTU)%nat ->
  filled (mkBatch (concat fs ++ f ++ q) (length (concat fs) + length f) num) (pkts ++ [x]).
Proof using Type.
  intros Hfs Hf -> Hl Hs Hlen. exists (fs ++ [f]), q. cbn [b_buf b_off b_num].
  rewrite concat_app. cbn [concat]. rewrite app_nil_r, !length_app. cbn [length]. rewrite <- app_assoc.
  split_and!; [done|done| |lia|by rewrite <- !length_app|nia]. apply Forall2_app; [done|]. by repeat constructor.
Qed.

Lemma readPacket_carried b pkts r :
  filled b pkts -> (length pkts < batchSize)%nat -> goodRead r ->
  exists b' again, readPacket MaxMTU b r = Ok (b', again) /\ filled b' (pkts ++ carried r) /\
    (again = true -> carried r = []).
Proof using Hmtu.
  intros Hb Hlt Hr. destruct r as [p ip port| |]; [|exists b; eexists; simpl; by rewrite app_nil_r..].
  destruct Hr as (Hp & Hip & Hport). pose proof Hb as (fs0 & rest & Hb0 & Ho0 & Hf0 & Hn0 & Hl0 & Hs0).
  destruct (filled_room b pkts Hb Hlt) as (fs & h & q & Hbuf & Hoff & Hfs & Hh & Hq).
  assert (length (concat fs) <= length pkts * (18 + MaxMTU))%nat as Hs by (rewrite <- Hoff, Ho0; exact Hs0).
  unfold readPacket. rewrite Hoff, Hbuf. rewrite slice_from_ok by (rewrite !length_app; lia). go_bind.
  assert (length (drop (length (concat fs) + 18) (concat fs ++ h ++ q)) = length q) as Hdrop
    by (rewrite length_drop, !length_app; lia).
  rewrite Hdrop, copied_behind by lia. replace (Nat.min (length q) (length p)) with (length p) by lia.
  rewrite bool_decide_eq_false_2 by lia.
  assert (length (concat fs ++ h ++ p ++ drop (length p) q) = bufLen MaxMTU) as Hlen
    by (rewrite <- Hl0, Hbuf, !length_app, length_drop; lia).
  case_bool_decide as Hp0.
  - destruct p; [|done]. eexists _, _. split; [done|]. split; [|done]. simpl. rewrite app_nil_r.
    eexists fs, (h ++ drop 0 q). split_and!; try done.
  - destruct (writeHeader h (p ++ drop (length p) q) ip port (length p)) as (h' & Hh' & Hw); [done..|lia|].
    rewrite drop_app_length. destruct (writeSockAddr _ ip port) as [x|e|w]; [|done..]. go_bind in Hw. go_bind.
    destruct (store x 16 _) as [y|e|w]; [|done..]. go_bind in Hw. go_bind. rewrite Hw. go_bind.
    eexists _, _. split; [done|]. unfold storeAt. rewrite take_app_length.
    replace (carried (RPacket p ip port)) with [(p, (To4 ip, port))] by (by destruct p). split; [|done].
    rewrite <- Nat.add_assoc, Hn0. pose proof Hh' as (Hl' & _).
    replace (18 + length p)%nat with (length (h' ++ p)) by (rewrite length_app; lia).
    rewrite (app_assoc h' p). apply filled_app; try done; [by exists h'| |rewrite length_app; lia].
    rewrite <- Hlen, !length_app. lia.
Qed.

Lemma filled_decodes b pkts : filled b pkts -> decodeBatch (b_num b) (b_buf b) 0 = Ok pkts.
Proof using Type.
  intros (fs & rest & -> & _ & Hf & -> & _). exact (decodeBatch_frames fs pkts [] rest Hf).
Qed.

Lemma batchStep_carried b pkts r due :
  filled b pkts -> (length pkts < batchSize)%nat -> goodRead r ->
  exists b' out, batchStep MaxMTU b r due = Ok (b', out) /\
    match out with
    | None => filled b' (pkts ++ carried r) /\ (length (pkts ++ carried r) < batchSize)%nat
    | Some (buf, num) => filled b' [] /\ decodeBatch num buf 0 = Ok (pkts ++ carried r)
    end.
Proof using Hmtu.
  intros Hb Hlt Hr. destruct (readPacket_carried b pkts r Hb Hlt Hr) as (b' & again & E & Hf & Hagain).
  unfold batchStep. rewrite E. go_bind. pose proof Hf as (fs & rest & Hbuf & Ho & Hfs & Hn & Hl & Hs). destruct again.
  { eexists _, _. split; [done|]. rewrite (Hagain eq_refl) in Hf |- *. by rewrite app_nil_r in Hf |- *. }
  destruct (bool_decide (batchSize <= b_num b')%nat || _) eqn:Eflush; eexists _, _; (split; [done|]).
  - split; [|by apply filled_decodes]. exists [], (b_buf b'). by split_and!.
  - split; [done|]. apply orb_false_iff in Eflush as [Ef _]. apply bool_decide_eq_false in Ef. lia.
Qed.

(** The loop over what the tunnel delivers. *)
Fixpoint runBatches (b : batch) (reads : list (readResult * bool)) : outcome (batch * list (bytes * nat)) :=
  match reads with
  | [] => Ok (b, [])
  | (r, due) :: reads =>
      '(b, out) ← batchStep MaxMTU b r due;
      '(b, outs) ← runBatches b reads;
      Ok (b, match out with Some x => x :: outs | None => outs end)
  end.

End ReaderFacts.

(** ** Batches of the C program *)
Section Batches.
Context {C : CipherCtr} {T : TL} {K : KeyAgreement} {W : World} {CW : ClientWorld}.

(** C33: a batch in the form of the reader is written datagram by datagram: for
    the frames of some datagrams, and whatever memory follows them,
    [WriteTunnel] does what writing those datagrams one after the other to the
    tunnel of that index does, up to the first that fails. *)
Theorem WriteTunnel_frames indexMatch tunIdx tun fs pkts rest (g : Gateway RegularOutTunnel) :
  Forall2 isFrame fs pkts -> 1 <= tunIdx <= Z.of_nat (length indexMatch) ->
  indexMatch !! Z.to_nat (tunIdx - 1) = Some tun ->
  WriteTunnel indexMatch tunIdx (concat fs ++ rest) (length pkts) g = writeAll tun pkts g.
Proof using Type.
  intros Hf Hi Ht. unfold WriteTunnel. rewrite (proj2 (Z.leb_gt tunIdx 0)), (proj2 (Z.ltb_ge _ tunIdx)) by lia. simpl.
  rewrite Ht. apply writeBatch_writeAll. exact (decodeBatch_frames fs pkts [] rest Hf).
Qed.
End Batches.

(** ** The start of the reader

    [PrepareTunnel] starts the reader as soon as the first update has been passed
    on, and the handler of events stores the tunnel only after that. *)
Inductive readerState : Type := NotStarted | Loaded (tun : option nat) | Crashed.
Record startup := mkStartup { st_sent : bool; st_index : option nat; st_reader : readerState }.

Inductive startupStep (t : nat) : startup -> startup -> Prop :=
| SendInit i r : startupStep t (mkStartup false i r) (mkStartup true i r)
| StoreIndex i r : startupStep t (mkStartup true i r) (mkStartup true (Some t) r)
| LoadIndex i : startupStep t (mkStartup true i NotStarted) (mkStartup true i (Loaded i))
| ReadTunnel i : startupStep t (mkStartup true i (Loaded (Some t))) (mkStartup true i NotStarted)
| ReadNil i : startupStep t (mkStartup true i (Loaded None)) (mkStartup true i Crashed).

(** The reader can load the pointer before it is stored, and reads through
    nil. *)
Lemma reader_may_crash t : exists i, rtc (startupStep t) (mkStartup false None NotStarted) (mkStartup true i Crashed).
Proof.
  exists None. eapply rtc_l; [apply SendInit|]. eapply rtc_l; [apply LoadIndex|]. eapply rtc_l; [apply ReadNil|]. apply rtc_refl.
Qed.

(** ** Runs *)
Section Runs.
#[local] Existing Instances toyCipher sampleTL sampleKA sampleWorld sampleClientWorld.

Definition smallMTU : nat := 4.
Definition emptyBatch : batch := mkBatch (replicate (bufLen smallMTU) 0) 0 0.

Definition sampleReads : list (readResult * bool) :=
  [(RPacket [7; 8] [1; 2; 3; 4] 5000, false); (RDeadline, false); (RPacket [9; 9; 9; 9] (v4InV6Prefix ++ [5; 6; 7; 8]) 80, true);
   (RPacket [] [1; 2; 3; 4] 1, true); (RPacket [1] [1; 1; 1; 1] 65535, false)].


Definition sampleFrame : bytes := [2; 0; 19; 136; 1; 2; 3; 4; 0; 0; 0; 0; 0; 0; 0; 0; 0; 2; 7; 8].

Lemma WriteTunnel_frames_witness :
  WriteTunnel [Some 0%nat] 1 (sampleFrame ++ [99]) 1 configured.1 = writeAll (Some 0%nat) [([7; 8], ([1; 2; 3; 4], 5000))] configured.1.
Proof using Type.
  assert (Forall2 isFrame [sampleFrame] [([7; 8], ([1; 2; 3; 4], 5000))]) as Hf.
  { apply Forall2_cons_2; [|apply Forall2_nil_2]. exists (take 18 sampleFrame). split; [reflexivity|].
    split; [reflexivity|]. split; [reflexivity|]. exists 0, 2. split; [reflexivity|]. split; reflexivity. }
  assert (1 <= 1 <= Z.of_nat (length [Some 0%nat])) as Hi by (simpl; lia).
  pose proof (WriteTunnel_frames [Some 0%nat] 1 (Some 0%nat) [sampleFrame] [([7; 8], ([1; 2; 3; 4], 5000))] [99]
    configured.1 Hf Hi eq_refl) as H. exact H.
Defined.

Example WriteTunnel_run : (WriteTunnel [Some 0%nat] 1 (sampleFrame ++ [99]) 1 configured.1).2 = Ok 1.
Proof using Type. vm_compute. reflexivity. Qed.

Definition callbacks (reads : list (readResult * bool)) : list (outcome (list (bytes * (bytes * Z)))) :=
  match runBatches smallMTU emptyBatch reads with
  | Ok (_, outs) => map (fun x => decodeBatch (snd x) (fst x) 0) outs
  | _ => []
  end.

(** An IPv6 sender: the address is left as it was in the buffer, here that of the
    datagram before the last callback. *)
Example IPv6_sender_stale :
  let ip6 := [32; 1] ++ replicate 14 9 in
  callbacks [(RPacket [7] [1; 2; 3; 4] 5000, true); (RPacket [8] ip6 80, true)]
  = [Ok [([7], ([1; 2; 3; 4], 5000))]; Ok [([8], ([1; 2; 3; 4], 80))]].
Proof using Type. vm_compute. reflexivity. Qed.

(** A datagram that is too large is skipped, except for the hundredth after
    ninety-nine of the largest size, which is cut. *)
Example oversized_cut :
  let full := (RPacket [1; 2; 3; 4] [1; 2; 3; 4] 1, false) in
  let large := RPacket [1; 2; 3; 4; 5] [1; 2; 3; 4] 1 in
  callbacks [(large, true); full; (RDeadline, true)] = [Ok [([1; 2; 3; 4], ([1; 2; 3; 4], 1))]] /\
  callbacks (replicate 99 full ++ [(large, false)]) = [Ok (replicate 100 ([1; 2; 3; 4], ([1; 2; 3; 4], 1)))].
Proof using Type. split; vm_compute; reflexivity. Qed.

(** An exit known by an IPv6 address ends the program. *)
Example tunnelInfo_IPv6_panics : tunnelInfo [Some 0%nat] ([32; 1] ++ replicate 14 9) 80 = Panic "index out of range".
Proof using Type. reflexivity. Qed.
End Runs.
