(* ===== verification/NodeMain.v ===== *)
(** * The payment channel of a node ([preparePaymentChannel], [cmd/node/main.go])

    A node that takes payments makes sure of a channel with a payment node when
    it starts: the one named on the command line, else the one with the largest
    deposit, else one deployed with a node that is typed in.  The payment service
    and the terminal are parameters. *)

From Stdlib Require Import Ascii.
From S2P Require Import Prelude Seqno Stream Wire Samples Keys Hoare State Config Setup.

Section NodeMain.

(** The loop over the active channels: a channel returned at once, or the best
    one so far; the empty key stands for nil. *)
Fixpoint bestChannel (ch : bytes) (l : list OnchainChannel) (best : bytes) (bestAmount : Z) : bytes + bytes :=
  match l with
  | [] => inr best
  | c :: l =>
      match ch with
      | [] => if bestAmount <=? oc_Deposited c then bestChannel ch l (oc_Key c) (oc_Deposited c)
              else bestChannel ch l best bestAmount
      | _ => if bool_decide (oc_Key c = ch) then inl (oc_Key c) else bestChannel ch l best bestAmount
      end
  end.

(** The exchange of states: every poll until both sides are ready. *)
Fixpoint exchanged (polls : list (outcome (option (bool * bool)))) : outcome unit :=
  match polls with
  | [] => Err OutOfFuel
  | p :: polls =>
      st ← wrapErr "failed to get channel" p;
      match st with
      | Some (true, true) => Ok tt
      | _ => exchanged polls
      end
  end.

(** [channels] is the answer of [ListChannels], [input] the line typed in,
    [deploy] that of [OpenChannelWithNode] and [polls] those of [GetChannel]. *)
Definition preparePaymentChannel (channels : outcome (list OnchainChannel)) (input : outcome (list ascii))
    (deploy : bytes -> outcome string) (polls : list (outcome (option (bool * bool)))) (ch : bytes) : outcome bytes :=
  list ← wrapErr "failed to list channels" channels;
  match bestChannel ch list [] 0 with
  | inl key => Ok key
  | inr (b :: best) => Ok (b :: best)
  | inr [] =>
      ch ← match ch with
           | [] => inp ← wrapErr "failed to read input" input;
                   of_option "invalid id formet" (Base64.DecodeString inp)
           | _ => Ok ch
           end;
      if negb (len ch =? PublicKeySize) then Err (Errorf "invalid channel id length") else
      addr ← wrapErr "failed to deploy channel with node" (deploy ch);
      exchanged polls ;;
      Ok ch
  end.

(** ** Which channel *)

Lemma bestChannel_named ch l best a :
  ch <> [] -> bestChannel ch l best a = inl ch \/ (bestChannel ch l best a = inr best /\ Forall (fun c => oc_Key c <> ch) l).
Proof.
  intros Hch. induction l as [|c l IH]; simpl; [by right|]. destruct ch as [|x ch]; [done|].
  case_bool_decide as E; [rewrite E; by left|]. destruct IH as [IH|[IH Hl]]; [by left|right]. by split; [|constructor].
Qed.

(** Without a name: the last of the channels with the largest deposit. *)
Lemma bestChannel_largest l best a :
  exists k, bestChannel [] l best a = inr k /\
  ((k = best /\ Forall (fun c => oc_Deposited c < a) l) \/
   exists c, In c l /\ k = oc_Key c /\ a <= oc_Deposited c /\ Forall (fun d => oc_Deposited d <= oc_Deposited c) l).
Proof.
  revert best a. induction l as [|c l IH]; intros best a; simpl; [exists best; split; [done|]; by left|].
  destruct (Z.leb_spec a (oc_Deposited c)) as [Hle|Hlt].
  - destruct (IH (oc_Key c) (oc_Deposited c)) as (k & -> & [[-> Hl]|(d & Hin & -> & Hd & Hl)]); eexists; (split; [done|]); right.
    + exists c. split_and!; [by left|done|done|]. constructor; [lia|]. eapply List.Forall_impl; [|done]. simpl. lia.
    + exists d. split_and!; [by right|done|lia|]. by constructor.
  - destruct (IH best a) as (k & -> & [[-> Hl]|(d & Hin & -> & Hd & Hl)]); eexists; (split; [done|]).
    + left. split; [done|]. by constructor.
    + right. exists d. split_and!; [by right|done|done|]. constructor; [lia|done].
Qed.

(** The channel of a node: the one named is used, whether it exists or is
    deployed; without a name, while there are channels with their keys and
    deposits, the one with the largest deposit; else the node typed in, in
    base64, if it is a key. *)
Theorem preparePaymentChannel_choice list input deploy polls ch k :
  Forall (fun c => oc_Key c <> [] /\ 0 <= oc_Deposited c) list ->
  preparePaymentChannel (Ok list) input deploy polls ch = Ok k ->
  match ch, list with
  | _ :: _, _ => k = ch
  | [], _ :: _ => exists c, In c list /\ k = oc_Key c /\ Forall (fun d => oc_Deposited d <= oc_Deposited c) list
  | [], [] => exists inp, input = Ok inp /\ Base64.DecodeString inp = Some k /\ len k = PublicKeySize
  end.
Proof.
  intros Hl. unfold preparePaymentChannel. cbn [wrapErr]. go_bind. destruct ch as [|x ch].
  - destruct (bestChannel_largest list [] 0) as (k' & -> & Hk). destruct list as [|c list].
    + destruct Hk as [[-> _]|(c & [] & _)]. go_bind. destruct input as [inp|e|w]; [|done..]. cbn [wrapErr]. go_bind.
      destruct (Base64.DecodeString inp) as [key|] eqn:Ed; [|done]. cbn [of_option]. go_bind.
      destruct (Z.eqb_spec (len key) PublicKeySize) as [Hk|]; [|done]. cbn [negb].
      destruct (wrapErr _ (deploy key)); [|done..]. go_bind. destruct (exchanged polls); [|done..]. intros [= <-]. eauto.
    + destruct Hk as [[_ Hneg]|(d & Hin & -> & Hd & Hmax)].
      { apply Forall_cons_1 in Hl as [[_ H0] _]. apply Forall_cons_1 in Hneg as [Hneg _]. lia. }
      assert (oc_Key d <> []) as Hne by (rewrite Forall_forall in Hl; by apply Hl in Hin as [? _]).
      destruct (oc_Key d) as [|b key] eqn:Ek; [done|]. intros [= <-]. exists d. by rewrite Ek.
  - destruct (bestChannel_named (x :: ch) list [] 0) as [->|[-> _]]; [done|congruence|]. go_bind.
    destruct (negb _); [done|]. destruct (wrapErr _ (deploy _)); [|done..]. go_bind. destruct (exchanged polls); [|done..].
    intros [= <-]. done.
Qed.
End NodeMain.

Definition twoChannels : list OnchainChannel :=
  [mkOnchainChannel [1] "a" 5 None 0; mkOnchainChannel [2] "b" 7 None 0; mkOnchainChannel [3] "c" 2 None 0].

Lemma preparePaymentChannel_choice_witness :
  exists c, In c twoChannels /\ [2] = oc_Key c /\ Forall (fun d => oc_Deposited d <= oc_Deposited c) twoChannels.
Proof.
  assert (Forall (fun c => oc_Key c <> [] /\ 0 <= oc_Deposited c) twoChannels) as H
    by (repeat apply Forall_cons_2; try apply Forall_nil_2; simpl; split; [discriminate|lia|discriminate|lia|discriminate|lia]).
  exact (preparePaymentChannel_choice twoChannels (Ok []) (fun _ => Ok EmptyString) [] [] [2] H eq_refl).
Defined.
