(* ===== verification/NodeStart.v ===== *)
(** * The start of a node ([main] and [preparePayments], [cmd/node/main.go])

    From the configuration file to the running gateway: the flags that matter, the
    addresses, the network and payment libraries in the order they are called.
    The calls are recorded as events; what the libraries answer is the parameter
    [NodeWorld].  Every [log.Fatal] ends the program, as an error here. *)

From Stdlib Require Import Ascii.
From S2P Require Import Prelude NetAddr Seqno Stream Wire Samples Keys Hoare State ClientFacts Config Address Setup Prices NodeMain.

Record flags := mkFlags {
  ConfigPath : string; PaymentNodeWith : string; GenerateSharedExample : string; MetricsAddr : string }.

(** [hex.DecodeString]: pairs of digits. *)
Fixpoint hexDecode (s : list ascii) : option bytes :=
  match s with
  | [] => Some []
  | [_] => None
  | h :: l :: s => a ← hexVal h; b ← hexVal l; rest ← hexDecode s; Some (a * 16 + b :: rest)
  end.

(** [strings.HasSuffix]. *)
Definition HasSuffix (s suffix : string) : bool :=
  bool_decide ((String.length suffix <= String.length s)%nat /\
    drop (String.length s - String.length suffix) (chars s) = chars suffix).

(** A channel of the payment database. *)
Record dbChannel := mkDbChannel { dc_Address : string; dc_Inactive : bool }.

Class NodeWorld : Type := {
  nw_dhtKey : outcome bytes;
  nw_startServer : string -> Z -> option error;
  nw_startClient : bytes -> option error;
  nw_globalConfig : string -> option error;  (* liteclient.GetConfigFromUrl *)
  nw_dhtClient : option error;
  nw_liteConnections : option error;
  nw_openDatabase : string -> outcome bool;  (* whether the database is new *)
  nw_setMigrationVersion : option error;
  nw_runMigrations : option error;
  nw_blockOffset : outcome (option Z);  (* None for db.ErrNotFound *)
  nw_startScanner : Z -> option error;
  nw_channels : outcome (list dbChannel);
  nw_initWallet : bytes -> option error;
  nw_newService : option error;
  nw_activeChannels : outcome (list OnchainChannel);
  nw_input : outcome (list ascii);
  nw_openChannel : bytes -> outcome string;
  nw_polls : list (outcome (option (bool * bool)));
}.

(** The calls that matter to others, with their arguments; [NewServer] is told
    whether the payment node is announced. *)
Inductive nodeEvent : Type :=
| SetAddressList (ip : bytes) (port : Z)
| StartServer (addr : string) (threads : Z)
| StartClient (key : bytes)
| NewAPIClient (secure : bool)
| SetTrustedBlockFromConfig
| NewLevelDB (path : string)
| SetMigrationVersion
| RunMigrations
| NewServer (serverKey nodeKey : bytes) (announce : bool)
| StartScanner (seqno : Z)
| OnChannelUpdate (channel : string)
| InitWallet (key : bytes)
| NewService (nodeKey : bytes) (cfg : ChannelsConfig) (metrics : bool)
| ServiceStart
| GatewayStart (key : bytes) (pay : PaymentConfig).

Record NodeState := mkNodeState { ns_fs : FS; ns_trace : list nodeEvent }.

Section Start.
Context {K : KeyAgreement} {E : Ed25519} {CF : ConfigWorld} {NW : NodeWorld}.

Definition emit (e : nodeEvent) : M NodeState unit :=
  modify (fun s => mkNodeState (ns_fs s) (ns_trace s ++ [e])).
(** A call that is made and may fail. *)
Definition call (e : nodeEvent) (msg : string) (res : option error) : M NodeState unit :=
  emit e ;; match res with Some err => throw (Errorw msg err) | None => mret tt end.
Definition must (msg : string) (res : option error) : M NodeState unit :=
  match res with Some err => throw (Errorw msg err) | None => mret tt end.
Definition onFS {A} (m : M FS A) : M NodeState A := fun s =>
  let '(fs, o) := m (ns_fs s) in (mkNodeState fs (ns_trace s), o).

Definition announced (cfg : Config) : bool := negb (String.eqb (ExternalIP cfg) "").

(** The database is migrated, or marked as new. *)
Definition migrate (freshDb : bool) : M NodeState unit :=
  if freshDb then call SetMigrationVersion "failed to set initial migration version" nw_setMigrationVersion
  else call RunMigrations "failed to run migrations" nw_runMigrations.

(** Every channel that is not inactive is handed to the scanner. *)
Definition scanChannels (chList : list dbChannel) : M NodeState unit :=
  for_each chList (fun ch => if dc_Inactive ch then mret tt else emit (OnChannelUpdate (dc_Address ch))).

Definition preparePayments (fl : flags) (cfg : Config) : M NodeState unit :=
  let p := Payments cfg in
  must "ton connect err" nw_liteConnections ;;
  emit (NewAPIClient (pc_SecureProofPolicy p)) ;;
  (if pc_SecureProofPolicy p then emit SetTrustedBlockFromConfig else mret tt) ;;
  nodePrv ← lift (NewKeyFromSeed (pc_PaymentsNodeKey p));
  serverPrv ← lift (NewKeyFromSeed (pc_ADNLServerKey p));
  call (StartClient serverPrv) "failed to init adnl payments gateway" (nw_startClient serverPrv) ;;
  emit (NewLevelDB (pc_DBPath p)) ;;
  freshDb ← lift (wrapErr "failed to init leveldb" (nw_openDatabase (pc_DBPath p)));
  walletPrv ← lift (NewKeyFromSeed (pc_WalletPrivateKey p));
  migrate freshDb ;;
  emit (NewServer serverPrv nodePrv (announced cfg)) ;;
  bo ← lift (wrapErr "failed to load block offset" nw_blockOffset);
  let seqno := default 0 bo in
  call (StartScanner seqno) "failed to start scanner" (nw_startScanner seqno) ;;
  chList ← lift (wrapErr "failed to load channels" nw_channels);
  scanChannels chList ;;
  call (InitWallet walletPrv) "failed to init wallet" (nw_initWallet walletPrv) ;;
  call (NewService nodePrv (pc_ChannelsConfig p) (negb (String.eqb (MetricsAddr fl) "")))
    "failed to init payments service" nw_newService.

(** The key of the payment node on the command line: in hexadecimal, or none. *)
Definition paymentNodeKey (fl : flags) : outcome bytes :=
  if String.eqb (PaymentNodeWith fl) "" then Ok []
  else
    ch ← of_option "Failed to parse payment node key" (hexDecode (chars (PaymentNodeWith fl)));
    if len ch =? PublicKeySize then Ok ch else Err (Errorf "Invalid payment node key size").

Definition startNodePayments (fl : flags) (cfg : Config) : M NodeState unit :=
  preparePayments fl cfg ;;
  emit ServiceStart ;;
  ch ← lift (paymentNodeKey fl);
  _ ← lift (wrapErr "Failed to prepare payment channels"
        (preparePaymentChannel nw_activeChannels nw_input nw_openChannel nw_polls ch));
  mret tt.

(** [int(cfg.TunnelThreads)], or one for every processor. *)
Definition nodeThreads (cfg : Config) : Z :=
  let threads := int64 (TunnelThreads cfg) in if threads =? 0 then cf_numCPU else threads.

(** The address other nodes are told, when there is one: four bytes, or nil. *)
Definition setExternalIP (cfg : Config) (port : Z) : M NodeState unit :=
  if announced cfg then
    ip ← lift (of_option "Invalid external IP address" (ParseIP (chars (ExternalIP cfg))));
    emit (SetAddressList (To4 ip) port)
  else mret tt.

Definition startNode (fl : flags) (cfg : Config) : M NodeState unit :=
  dhtKey ← lift (wrapErr "Failed to generate DHT key" nw_dhtKey);
  listenAddr ← lift (of_option "Invalid listen address" (ParseAddrPort (chars (TunnelListenAddr cfg))));
  tunKey ← lift (NewKeyFromSeed (TunnelServerKey cfg));
  setExternalIP cfg (snd listenAddr) ;;
  call (StartServer (TunnelListenAddr cfg) (nodeThreads cfg)) "start gateway as server failed"
    (nw_startServer (TunnelListenAddr cfg) (nodeThreads cfg)) ;;
  call (StartClient dhtKey) "start dht gateway failed" (nw_startClient dhtKey) ;;
  must "Failed to get global config" (nw_globalConfig (NetworkConfigUrl cfg)) ;;
  must "Failed to create DHT client" nw_dhtClient ;;
  (if PaymentsEnabled cfg then startNodePayments fl cfg else mret tt) ;;
  emit (GatewayStart tunKey (nodePayments cfg)).

(** Until the console: whether the node runs, or only shared its description. *)
Definition nodeMain `{Json Config} `{Json SharedConfig} (fl : flags) : M NodeState bool :=
  cfg ← wrapM "failed to load config" (onFS (LoadConfig (ConfigPath fl)));
  if negb (String.eqb (GenerateSharedExample fl) "") then
    guard_err (negb (HasSuffix (GenerateSharedExample fl) ".json")) "shared config path must end with .json" ;;
    _ ← wrapM "failed to generate shared config" (onFS (GenerateSharedConfig cfg (GenerateSharedExample fl)));
    mret false
  else
    startNode fl cfg ;;
    mret true.
End Start.

(** ** The plan of a start *)
Section Plan.
Context {K : KeyAgreement} {E : Ed25519} {CF : ConfigWorld} {NW : NodeWorld}.

(** The events of a start that succeeds, from the configuration and what the
    libraries answer. *)
Definition okOr {A} (d : A) (o : outcome A) : A := match o with Ok a => a | _ => d end.

Definition scannedChannels (chList : list dbChannel) : list nodeEvent :=
  OnChannelUpdate ∘ dc_Address <$> List.filter (fun ch => negb (dc_Inactive ch)) chList.

Definition preparePlan (fl : flags) (cfg : Config) : list nodeEvent :=
  let p := Payments cfg in
  let nodePrv := ed_fromSeed (pc_PaymentsNodeKey p) in
  let serverPrv := ed_fromSeed (pc_ADNLServerKey p) in
  [NewAPIClient (pc_SecureProofPolicy p)] ++
  (if pc_SecureProofPolicy p then [SetTrustedBlockFromConfig] else []) ++
  [StartClient serverPrv; NewLevelDB (pc_DBPath p)] ++
  [if okOr true (nw_openDatabase (pc_DBPath p)) then SetMigrationVersion else RunMigrations] ++
  [NewServer serverPrv nodePrv (announced cfg); StartScanner (default 0 (okOr None nw_blockOffset))] ++
  scannedChannels (okOr [] nw_channels) ++
  [InitWallet (ed_fromSeed (pc_WalletPrivateKey p));
   NewService nodePrv (pc_ChannelsConfig p) (negb (String.eqb (MetricsAddr fl) ""))].

Definition addressPlan (cfg : Config) : list nodeEvent :=
  if announced cfg then
    match ParseIP (chars (ExternalIP cfg)), ParseAddrPort (chars (TunnelListenAddr cfg)) with
    | Some ip, Some (_, port) => [SetAddressList (To4 ip) port]
    | _, _ => []
    end
  else [].

(** What comes before the gateway. *)
Definition nodePlan (fl : flags) (cfg : Config) : list nodeEvent :=
  addressPlan cfg ++
  [StartServer (TunnelListenAddr cfg) (nodeThreads cfg); StartClient (okOr [] nw_dhtKey)] ++
  (if PaymentsEnabled cfg then preparePlan fl cfg ++ [ServiceStart] else []).

(** A step that makes the calls [l] and, when it succeeds, [last]: all of them,
    or the first ones of [l] up to the one that failed. *)
Definition emits {A} (l last : list nodeEvent) (m : M NodeState A) : Prop := forall s,
  match m s with
  | (s', Ok _) => s' = mkNodeState (ns_fs s) (ns_trace s ++ l ++ last)
  | (s', _) => exists k, k `prefix_of` l /\ s' = mkNodeState (ns_fs s) (ns_trace s ++ k)
  end.

Lemma mkNodeState_eta s : mkNodeState (ns_fs s) (ns_trace s ++ []) = s.
Proof using Type. rewrite app_nil_r. by destruct s. Qed.

Lemma emits_bind {A B} l1 l2 last (m : M NodeState A) (f : A -> M NodeState B) :
  emits l1 [] m -> (forall s s' a, m s = (s', Ok a) -> emits l2 last (f a)) -> emits (l1 ++ l2) last (m ≫= f).
Proof using Type.
  intros Hm Hf s. rewrite bind_run. specialize (Hm s). destruct (m s) as [s1 [a|e|w]] eqn:Em.
  - specialize (Hf _ _ _ Em s1). rewrite app_nil_r in Hm. subst s1.
    assert (forall k, k `prefix_of` l2 -> l1 ++ k `prefix_of` l1 ++ l2) as Hpre by (intros; by apply prefix_app).
    destruct (f a _) as [s2 [b|e|w]]; cbn [ns_fs ns_trace] in Hf; [by rewrite <- !app_assoc in *|..];
      destruct Hf as (k & Hk & ->); exists (l1 ++ k); rewrite app_assoc; auto.
  - destruct Hm as (k & Hk & ->). exists k. by split; [apply prefix_app_r|].
  - destruct Hm as (k & Hk & ->). exists k. by split; [apply prefix_app_r|].
Qed.

(** A step that makes no call of its own. *)
Lemma emits_silent {A B} l last (m : M NodeState A) (f : A -> M NodeState B) :
  emits [] [] m -> (forall s s' a, m s = (s', Ok a) -> emits l last (f a)) -> emits l last (m ≫= f).
Proof using Type. exact (emits_bind [] l last m f). Qed.
Lemma emits_pure {A} (o : outcome A) : emits [] [] (lift o).
Proof using Type.
  intros s. rewrite lift_run. cbn [app].
  destruct o; [by rewrite mkNodeState_eta|..]; exists []; by rewrite mkNodeState_eta.
Qed.
Lemma emits_lift {A B} l last (o : outcome A) (f : A -> M NodeState B) :
  (forall a, o = Ok a -> emits l last (f a)) -> emits l last (lift o ≫= f).
Proof using Type.
  intros H. apply emits_silent; [apply emits_pure|]. intros s s' a. rewrite lift_run. intros [= _ ->]. by apply H.
Qed.
Lemma emits_ret {A} (a : A) : emits [] [] (mret a).
Proof using Type. exact (emits_pure (Ok a)). Qed.
Lemma emits_emit e : emits [e] [] (emit e).
Proof using Type. by intros s. Qed.
Lemma emits_last e : emits [] [e] (emit e).
Proof using Type. by intros s. Qed.
Lemma emits_must msg res : emits [] [] (must msg res).
Proof using Type. destruct res; [exact (emits_pure (Err _))|apply emits_ret]. Qed.
Lemma emits_call e msg res : emits [e] [] (call e msg res).
Proof using Type. apply (emits_bind [e] []); [apply emits_emit|]. intros. apply emits_must. Qed.
Lemma emits_scan chList : emits (scannedChannels chList) [] (scanChannels chList).
Proof using Type.
  unfold scanChannels, scannedChannels. induction chList as [|ch l IH]; cbn [List.filter for_each]; [apply emits_ret|].
  destruct (dc_Inactive ch); cbn [negb]; [apply emits_silent; [apply emits_ret|done]|].
  rewrite fmap_cons. apply (emits_bind [_]); [apply emits_emit|done].
Qed.

Lemma NewKeyFromSeed_ok seed k : NewKeyFromSeed seed = Ok k -> k = ed_fromSeed seed.
Proof using Type. unfold NewKeyFromSeed. destruct (_ =? _); [|done]. by intros [= <-]. Qed.
Lemma of_option_ok {A} msg (o : option A) a : of_option msg o = Ok a -> o = Some a.
Proof using Type. destruct o; [|done]. by intros [= ->]. Qed.

(** The next call of the program and of the plan. *)
Ltac planned :=
  first [ apply emits_lift; intros ? ?
        | eapply (emits_bind [_]); [first [apply emits_call | apply emits_emit]|intros _ _ _ _]
        | apply emits_silent; [first [apply emits_must | apply emits_ret]|intros _ _ _ _] ].

Lemma migrate_emits (freshDb : bool) : emits [if freshDb then SetMigrationVersion else RunMigrations] [] (migrate freshDb).
Proof using Type. destruct freshDb; apply emits_call. Qed.

Lemma preparePayments_emits fl cfg : emits (preparePlan fl cfg) [] (preparePayments fl cfg).
Proof using Type.
  unfold preparePlan, preparePayments. cbv zeta. set (p := Payments cfg).
  planned. eapply (emits_bind [_]); [apply emits_emit|intros _ _ _ _].
  apply emits_bind; [destruct (pc_SecureProofPolicy p); [apply emits_emit|apply emits_ret]|intros _ _ _ _].
  planned. apply NewKeyFromSeed_ok in H as ->. planned. apply NewKeyFromSeed_ok in H as ->.
  cbn [app]. planned. planned. planned. apply wrapErr_ok in H as ->. cbn [okOr].
  planned. apply NewKeyFromSeed_ok in H as ->. eapply (emits_bind [_]); [apply migrate_emits|intros _ _ _ _].
  planned. planned. apply wrapErr_ok in H as ->. cbn [okOr]. planned. planned. apply wrapErr_ok in H as ->. cbn [okOr].
  apply emits_bind; [apply emits_scan|intros _ _ _ _]. planned. apply emits_call.
Qed.

Lemma startNodePayments_emits fl cfg : emits (preparePlan fl cfg ++ [ServiceStart]) [] (startNodePayments fl cfg).
Proof using Type.
  unfold startNodePayments. apply emits_bind; [apply preparePayments_emits|intros _ _ _ _].
  planned. planned. planned. apply emits_ret.
Qed.

Lemma setExternalIP_emits cfg addr port :
  ParseAddrPort (chars (TunnelListenAddr cfg)) = Some (addr, port) -> emits (addressPlan cfg) [] (setExternalIP cfg port).
Proof using Type.
  intros Hp. unfold addressPlan, setExternalIP. rewrite Hp. destruct (announced cfg); [|apply emits_ret].
  planned. apply of_option_ok in H as ->. apply emits_emit.
Qed.

Lemma startNode_emits fl cfg :
  emits (nodePlan fl cfg) [GatewayStart (ed_fromSeed (TunnelServerKey cfg)) (nodePayments cfg)] (startNode fl cfg).
Proof using Type.
  unfold startNode, nodePlan. planned. apply wrapErr_ok in H as ->. cbn [okOr]. planned. destruct a0 as [addr port].
  apply of_option_ok in H. planned. apply NewKeyFromSeed_ok in H0 as ->.
  apply emits_bind; [by eapply setExternalIP_emits|intros _ _ _ _]. cbn [app]. planned. planned. planned. planned.
  rewrite <- (app_nil_r (if PaymentsEnabled cfg then _ else _)).
  apply emits_bind; [|intros; apply emits_last]. destruct (PaymentsEnabled cfg); [apply startNodePayments_emits|apply emits_ret].
Qed.
End Plan.

(** ** A first start *)
Section First.
Context {K : KeyAgreement} {E : Ed25519} {CF : ConfigWorld} {NW : NodeWorld} {J : Json Config} {J' : Json SharedConfig}.

(** A configuration that was not there is the default one, with the address of
    the port checker when it could connect. *)
Lemma LoadConfig_fresh path p fs fs' cfg :
  cf_abs path = Ok p -> ~ exists_at fs p -> p <> cf_dir p -> LoadConfig path fs = (fs', Ok cfg) ->
  exists priv pay adnl tun n, cf_generateKey n = Some tun /\
    let base := defaultConfig priv pay adnl tun in
    exists m, cfg = if snd (cf_canSeed m) then set_ExternalIP (fst (cf_canSeed m)) base else base.
Proof using Type.
  intros Hp Hno Hdir H. unfold LoadConfig in H. rewrite bind_run, lift_run, Hp in H. cbv iota beta in H.
  ok_step H. assert (~ exists_at s p) as Hno'.
  { revert Hm. unfold ensureDir. rewrite bind_run, attempt_run. unfold Stat at 1. rewrite fallible_run.
    destruct (cf_fault _) as [e|]; [|case_bool_decide]; cbn -[errorsIs ticked];
      try (destruct (errorsIs _ _); [|done]; unfold wrapM, MkdirAll; rewrite fallible_run; destruct (cf_fault _); [done|]);
      intros [= <- _]; try done; unfold exists_at in *; simpl; set_solver. }
  ok_step H. rewrite attempt_run in Hm0. destruct (Stat p s) as [s1 [[]|e|w]] eqn:Es; [|..|done].
  { by apply Stat_ok in Es. }
  injection Hm0 as <- <-. destruct (errorsIs e ErrNotExist); [|done]. ok_step H.
  assert (exists n, cf_generateKey n = Some a0.2) as [n Hn].
  { unfold generateKeys in Hm0. repeat ok_step Hm0. injection Hm0 as _ <-. cbn [snd].
    ok_step Hm4. unfold fsAsk in Hm0. injection Hm0 as _ Hg. rewrite lift_run in Hm4. injection Hm4 as _ Hm4.
    apply of_option_ok in Hm4. rewrite <- Hg in Hm4. eauto. }
  destruct a0 as [[[priv pay] adnl] tun]. ok_step H. unfold fsAsk in Hm1. injection Hm1 as _ <-. destruct (cf_canSeed _) as [ip seed] eqn:Ec.
  ok_step H. injection H as _ <-. exists priv, pay, adnl, tun, n. split; [done|]. match type of Ec with cf_canSeed ?m = _ => exists m end. by rewrite Ec.
Qed.
Lemma default_listen : ParseAddrPort (chars "0.0.0.0:17330") = Some (v4InV6Prefix ++ [0; 0; 0; 0], 17330).
Proof using Type. reflexivity. Qed.

Lemma canonical_announced ip :
  canonical ip -> exists quad, length quad = 4%nat /\ is_bytes quad /\ ip = String.string_of_list_ascii (IP4_String quad) /\
    String.eqb ip "" = false /\ exists a, ParseIP (chars ip) = Some a /\ To4 a = quad.
Proof using Type.
  intros Hc. pose proof (canonical_nonempty _ Hc) as Hne. destruct Hc as (quad & Hb & Hl & ->). exists quad.
  split_and!; [done..|by apply String.eqb_neq|]. exists (v4InV6Prefix ++ quad).
  by rewrite chars_string, ParseIP_IP4_String, To4_mapped.
Qed.

(** Without payments nothing else is needed. *)
Lemma startNode_free fl cfg s addr dhtKey :
  PaymentsEnabled cfg = false -> ParseAddrPort (chars (TunnelListenAddr cfg)) = Some addr ->
  len (TunnelServerKey cfg) = 32 -> (announced cfg = true -> is_Some (ParseIP (chars (ExternalIP cfg)))) ->
  nw_dhtKey = Ok dhtKey -> (forall a n, nw_startServer a n = None) -> (forall k, nw_startClient k = None) ->
  (forall u, nw_globalConfig u = None) -> nw_dhtClient = None ->
  startNode fl cfg s = (mkNodeState (ns_fs s) (ns_trace s ++ nodePlan fl cfg ++
    [GatewayStart (ed_fromSeed (TunnelServerKey cfg)) (nodePayments cfg)]), Ok tt).
Proof using Type.
  intros Hpay Haddr Hlen Hip Hdht Hserver Hclient Hglobal Hdc. pose proof (startNode_emits fl cfg s) as Hem.
  assert (exists s', startNode fl cfg s = (s', Ok tt)) as [s' Hs]; [|rewrite Hs in Hem; by rewrite Hs, Hem].
  unfold startNode, setExternalIP, NewKeyFromSeed. rewrite Hpay, Haddr, Hlen, Hdht. cbn [wrapErr of_option].
  change (32 =? 32) with true. rewrite bind_run, lift_run. cbv iota beta. unfold call. rewrite Hserver, Hclient, Hglobal, Hdc.
  destruct (announced cfg); [destruct Hip as [ip ->]; [done|]|]; eexists; reflexivity.
Qed.

Context {GK : GeneratedKeys E CF}.
Hypothesis Hseed : forall n, checkCanSeed (cf_canSeed n).
Hypothesis Hcpu : 0 < cf_numCPU < 2 ^ 63.

End First.

(** ** A start that fails *)
Section Safe.
Context {K : KeyAgreement} {E : Ed25519} {CF : ConfigWorld} {NW : NodeWorld}.

Definition isGateway (e : nodeEvent) : bool := match e with GatewayStart _ _ => true | _ => false end.

Lemma nodePlan_none fl cfg : Forall (fun e => isGateway e = false) (nodePlan fl cfg).
Proof using Type.
  unfold nodePlan, addressPlan, preparePlan, scannedChannels. rewrite !Forall_app.
  assert (forall l, Forall (fun e => isGateway e = false) (OnChannelUpdate ∘ dc_Address <$> l)) as Hs.
  { intros l. induction l; constructor; done. }
  repeat split; repeat case_match; rewrite ?Forall_app; repeat split; repeat constructor; apply Hs.
Qed.

(** A configuration a node can be started with. *)
Definition validConfig (cfg : Config) : Prop :=
  is_Some (ParseAddrPort (chars (TunnelListenAddr cfg))) /\ len (TunnelServerKey cfg) = 32 /\
  (announced cfg = true -> is_Some (ParseIP (chars (ExternalIP cfg)))).

(** With another one no library is called. *)
Lemma startNode_valid fl cfg s : validConfig cfg \/ (startNode fl cfg s).1 = s.
Proof using Type.
  unfold startNode, validConfig. rewrite bind_run, lift_run. destruct (wrapErr _ nw_dhtKey); [|by right..].
  rewrite bind_run, lift_run. destruct (ParseAddrPort _) as [addr|]; [|by right]. cbn [of_option].
  rewrite bind_run, lift_run. unfold NewKeyFromSeed. destruct (Z.eqb_spec (len (TunnelServerKey cfg)) 32) as [Hl|]; [|by right].
  rewrite bind_run. unfold setExternalIP. destruct (announced cfg); [|left; split_and!; [by exists addr|done|done]].
  rewrite bind_run, lift_run. destruct (ParseIP _) as [ip|]; [|by right]. left. split_and!; [by exists addr|done|]. by exists ip.
Qed.

(** What a node tells its clients is the key and the prices its gateway has. *)
Definition describes (sec : TunnelRouteSection) (key : bytes) (pay : PaymentConfig) : Prop :=
  Key sec = PublicKey key /\
  match Payment sec with
  | None => MinPricePerPacketRoute pay <= 0 /\ MinPricePerPacketInOut pay <= 0
  | Some p => PricePerPacketRouteNano p = MinPricePerPacketRoute pay /\ PricePerPacketOutNano p = MinPricePerPacketInOut pay
  end.

Lemma sharedConfig_describes cfg shared :
  sharedConfig cfg = Ok shared ->
  exists sec, NodesPool shared = [sec] /\ describes sec (ed_fromSeed (TunnelServerKey cfg)) (nodePayments cfg).
Proof using Type.
  unfold sharedConfig, describes, nodePayments. intros H.
  destruct (sharedPayment cfg) as [pmt|e|w] eqn:Ep; [|done..]. go_bind in H.
  destruct (NewKeyFromSeed (TunnelServerKey cfg)) as [key|e|w] eqn:Ek; [|done..]. apply NewKeyFromSeed_ok in Ek as ->.
  injection H as <-. eexists. split; [reflexivity|]. cbn [Key Payment]. split; [done|]. unfold sharedPayment in Ep.
  destruct (PaymentsEnabled cfg); cbn [andb] in Ep; [|injection Ep as <-; simpl; lia].
  destruct ((0 <? _) || (0 <? _)) eqn:Epos.
  - destruct (NewKeyFromSeed (pc_PaymentsNodeKey _)); [|done..]. injection Ep as <-. done.
  - injection Ep as <-. apply orb_false_iff in Epos as [E1 E2]. apply Z.ltb_ge in E1, E2. simpl. lia.
Qed.

(** C29: a start of a node that does not succeed leaves no gateway behind: the
    libraries are called in one order, up to the first that fails, none of them
    with a configuration whose addresses or key are not valid; the gateway comes
    last, after the payment service when payments are enabled, and with the key
    and the prices that the node shares with its clients. *)
Theorem startNode_gateway fl cfg s s' o :
  startNode fl cfg s = (s', o) ->
  exists l, s' = mkNodeState (ns_fs s) (ns_trace s ++ l) /\ (l <> [] -> validConfig cfg) /\
  match o with
  | Ok _ =>
      exists key, l = nodePlan fl cfg ++ [GatewayStart key (nodePayments cfg)] /\
      forall shared, sharedConfig cfg = Ok shared ->
        exists sec, NodesPool shared = [sec] /\ describes sec key (nodePayments cfg)
  | _ => l `prefix_of` nodePlan fl cfg /\ Forall (fun e => isGateway e = false) l
  end.
Proof using Type.
  intros H. pose proof (startNode_emits fl cfg s) as Hem. pose proof (startNode_valid fl cfg s) as Hv. rewrite H in Hem, Hv.
  assert (forall l, s' = mkNodeState (ns_fs s) (ns_trace s ++ l) -> l <> [] -> validConfig cfg) as Hval.
  { intros l Hs Hne. destruct Hv as [Hv|Hv]; [done|]. cbn [fst] in Hv. rewrite Hs in Hv. destruct s as [fs tr].
    injection Hv as Hv. rewrite <- (app_nil_r tr) in Hv at 2. by apply app_inv_head in Hv. }
  destruct o as [u|e|w].
  - eexists. split; [exact Hem|]. split; [by apply Hval|]. eexists. split; [reflexivity|]. apply sharedConfig_describes.
  - destruct Hem as (k & Hk & Hs). exists k. split_and!; [done|by apply Hval|done|].
    destruct Hk as [k' Hk]. pose proof (nodePlan_none fl cfg) as Hn. rewrite Hk in Hn. by apply Forall_app in Hn as [? _].
  - destruct Hem as (k & Hk & Hs). exists k. split_and!; [done|by apply Hval|done|].
    destruct Hk as [k' Hk]. pose proof (nodePlan_none fl cfg) as Hn. rewrite Hk in Hn. by apply Forall_app in Hn as [? _].
Qed.
End Safe.

(** ** Runs *)
Section Runs.
#[local] Existing Instances sampleKA toyEd toyConfigWorld toyJson.

(** Libraries that do not fail; the database is not new and has two channels. *)
#[local] Instance toyNodeWorld : NodeWorld := {|
  nw_dhtKey := Ok [9];
  nw_startServer := fun _ _ => None;
  nw_startClient := fun _ => None;
  nw_globalConfig := fun _ => None;
  nw_dhtClient := None;
  nw_liteConnections := None;
  nw_openDatabase := fun _ => Ok false;
  nw_setMigrationVersion := None;
  nw_runMigrations := None;
  nw_blockOffset := Ok (Some 41);
  nw_startScanner := fun _ => None;
  nw_channels := Ok [mkDbChannel "a" true; mkDbChannel "b" false];
  nw_initWallet := fun _ => None;
  nw_newService := None;
  nw_activeChannels := Ok twoChannels;
  nw_input := Ok [];
  nw_openChannel := fun _ => Ok EmptyString;
  nw_polls := [];
|}.
#[local] Instance toySharedJson : Json SharedConfig := {|
  js_marshal := fun _ => Ok []; js_unmarshal := fun _ => Err (Errorf "unexpected end of JSON input"); js_exact := fun _ => False |}.

Definition noFlags : flags := mkFlags "node.json" "" "" "".

#[local] Instance toyGenerated : GeneratedKeys toyEd toyConfigWorld.
Proof. intros n k [= <-]. done. Qed.

Lemma toySeed n : checkCanSeed (cf_canSeed n).
Proof using Type.
  apply (seed_in_time "1.2.3.4"); [vm_compute; lia|]. exists [1; 2; 3; 4]. split_and!; [|done|vm_compute; reflexivity].
  repeat constructor; unfold is_byte, in_uint; lia.
Qed.


(** The address in text is in the saved configuration and as bytes in the address
    list. *)
Example first_trace :
  ns_trace (nodeMain noFlags (mkNodeState emptyDisk [])).1 =
  [SetAddressList [1; 2; 3; 4] 17330; StartServer "0.0.0.0:17330" 8; StartClient [9]; GatewayStart [6] (mkPaymentConfig false 0 0)].
Proof using Type. vm_compute. reflexivity. Qed.

(** A node with payments, announced under an IPv6 address. *)
Definition paidNode (externalIP listen : string) : Config :=
  mkConfig (seedOf 8) listen 0 "" externalIP true
    (mkPaymentsConfig (seedOf 1) (seedOf 2) (seedOf 3) "db" true
      (channels (tonCoin "0" (mkBalanceControlConfig "0" "0" "5")) (usdtCoin (mkBalanceControlConfig "0" "0" "15"))) 10 5).

(** An IPv6 address passes the check and has no four bytes: the list gets an
    address that is nil. *)
Example IPv6_announced_nil :
  head (ns_trace (startNode noFlags (paidNode "2001:db8::7" "0.0.0.0:1") (mkNodeState emptyDisk [])).1) = Some (SetAddressList [] 1).
Proof using Type. vm_compute. reflexivity. Qed.

(** The key of a payment node is typed in base64 and given in hexadecimal on the
    command line. *)
Definition aKey : bytes := replicate 32 7.
Example payment_node_flag :
  paymentNodeKey (mkFlags "" (String.string_of_list_ascii (Base64.EncodeToString aKey)) "" "") = Err (Errorf "Failed to parse payment node key") /\
  paymentNodeKey (mkFlags "" "0707070707070707070707070707070707070707070707070707070707070707" "" "") = Ok aKey.
Proof using Type. vm_compute. auto. Qed.

Lemma startNode_gateway_witness :
  let cfg := paidNode "1.2.3.4" "0.0.0.0:1" in
  exists l, (startNode noFlags cfg (mkNodeState emptyDisk [])).1 = mkNodeState emptyDisk ([] ++ l) /\ (l <> [] -> validConfig cfg) /\
  exists key, l = nodePlan noFlags cfg ++ [GatewayStart key (nodePayments cfg)] /\
    forall shared, sharedConfig cfg = Ok shared ->
      exists sec, NodesPool shared = [sec] /\ describes sec key (nodePayments cfg).
Proof using Type.
  assert (startNode noFlags (paidNode "1.2.3.4" "0.0.0.0:1") (mkNodeState emptyDisk [])
    = ((startNode noFlags (paidNode "1.2.3.4" "0.0.0.0:1") (mkNodeState emptyDisk [])).1, Ok tt)) as H by (vm_compute; reflexivity).
  exact (startNode_gateway _ _ _ _ _ H).
Defined.

(** Its whole trace: the channel that is inactive is not scanned. *)
Example paid_trace :
  ns_trace (startNode noFlags (paidNode "" "0.0.0.0:1") (mkNodeState emptyDisk [])).1 =
  [StartServer "0.0.0.0:1" 8; StartClient [9]; NewAPIClient true; SetTrustedBlockFromConfig; StartClient [1]; NewLevelDB "db";
   RunMigrations; NewServer [1] [2] false; StartScanner 41; OnChannelUpdate "b"; InitWallet [3];
   NewService [2] (pc_ChannelsConfig (Payments (paidNode "" ""))) false; ServiceStart; GatewayStart [8] (mkPaymentConfig true 10 5)].
Proof using Type. vm_compute. reflexivity. Qed.
End Runs.
