(* ===== verification/CLibStart.v ===== *)
(** * The files of the C library ([PrepareTunnel], [LogWriter.Write],
    [cmd/lib/lib.go])

    Before a tunnel is run its configuration and the pool of nodes it names are
    read.  The first call on a machine leaves a configuration to be filled in.
    Every [log.Fatal] and [os.Exit] ends the program that linked the library. *)

From S2P Require Import Prelude NetAddr Seqno Stream Wire Samples Keys PayChain Hoare State ClientFacts Config Prices NodeStart.

(** How the preparation ends: the program, the empty tunnel, or [RunTunnel] with
    these. *)
Inductive prepared : Type :=
| Exit (code : Z)
| EmptyTunnel
| RunWith (cfg : ClientConfig) (sharedCfg : SharedConfig).

(** [LogWriter.Write]: the first character is the level, a space follows; what is
    handed to the logger, and the count. *)
Definition LogWriter_Write (p : bytes) : outcome (bytes * Z * Z * Z) :=
  match p with
  | level :: _ :: msg => Ok (msg, len p - 2, uint8 (level - 48), len p)
  | _ => Err (Errorf "invalid message")
  end.

Section Prepare.
Context {E : Ed25519} {CF : ConfigWorld} {JC : Json ClientConfig} {JS : Json SharedConfig}.

(** The first call: the default configuration is saved and the program ends. *)
Definition generateConfig (path : string) : M FS prepared :=
  err ← attempt (cfg ← GenerateClientConfig; SaveConfig cfg path);
  mret (Exit match err with Some _ => 1 | None => 0 end).

(** [network] says whether the global configuration could be parsed. *)
Definition prepareConfig (path : string) (network : bool) : M FS prepared := fun s =>
  match ReadFile path s with
  | (s, Err e) => if errorsIs e ErrNotExist then generateConfig path s else (s, Ok (Exit 1))
  | (s, Panic w) => (s, Panic w)
  | (s, Ok data) =>
      match js_unmarshal data with
      | Err _ => (s, Ok (Exit 1))
      | Panic w => (s, Panic w)
      | Ok cfg =>
          if String.eqb (NodesPoolConfigPath cfg) EmptyString then (s, Ok (Exit 1)) else
          match ReadFile (NodesPoolConfigPath cfg) s with
          | (s, Err _) => (s, Ok (Exit 1))
          | (s, Panic w) => (s, Panic w)
          | (s, Ok data) =>
              match js_unmarshal data with
              | Err _ => (s, Ok (Exit 1))
              | Panic w => (s, Panic w)
              | Ok sharedCfg => (s, Ok (if network then RunWith cfg sharedCfg else EmptyTunnel))
              end
          end
      end
  end.
End Prepare.

Section Facts.
Context {K : KeyAgreement} {E : Ed25519} {CF : ConfigWorld} {JC : Json ClientConfig} {JS : Json SharedConfig}.

Lemma ReadFile_quiet s path data :
  quiet s -> fs_files s !! path = Some data -> ReadFile path s = (ticked s, Ok data).
Proof using Type. intros Hq Hd. unfold ReadFile. rewrite fallible_run, (Hq _ (le_n _)). simpl. by rewrite Hd. Qed.

(** What is in the files is what is run. *)
Lemma prepareConfig_filled s path data cfg data' shared network :
  quiet s -> fs_files s !! path = Some data -> js_unmarshal data = Ok cfg ->
  NodesPoolConfigPath cfg <> EmptyString -> fs_files s !! NodesPoolConfigPath cfg = Some data' ->
  js_unmarshal data' = Ok shared ->
  prepareConfig path network s = (ticked (ticked s), Ok (if network then RunWith cfg shared else EmptyTunnel)).
Proof using Type.
  intros Hq Hd Hc Hne Hd' Hs. unfold prepareConfig. rewrite (ReadFile_quiet s path data), Hc by done.
  rewrite (proj2 (String.eqb_neq _ _) Hne), (ReadFile_quiet (ticked s) _ data') by (done || by apply quiet_ticked). by rewrite Hs.
Qed.

(** Until the pool is named the program ends. *)
Lemma prepareConfig_unfilled s path data cfg network :
  quiet s -> fs_files s !! path = Some data -> js_unmarshal data = Ok cfg -> NodesPoolConfigPath cfg = EmptyString ->
  prepareConfig path network s = (ticked s, Ok (Exit 1)).
Proof using Type. intros Hq Hd Hc He. unfold prepareConfig. by rewrite (ReadFile_quiet s path data), Hc, He. Qed.

Context {JCOk : JsonOk ClientConfig JC} {JSOk : JsonOk SharedConfig JS}.

(** A first call that ends well has saved a configuration without a pool. *)
Lemma prepareConfig_first s s' path network :
  (forall c, js_exact (A := ClientConfig) c) ->
  fs_files s !! path = None -> prepareConfig path network s = (s', Ok (Exit 0)) ->
  exists cfg, holds s' path cfg /\ NodesPoolConfigPath cfg = EmptyString.
Proof using JCOk.
  intros Hex Hno. unfold prepareConfig.
  assert (exists s1 e, ReadFile path s = (s1, Err e)) as (s1 & e & ->).
  { unfold ReadFile. rewrite fallible_run. destruct (cf_fault _); [by eexists _, _|]. simpl. rewrite Hno. by eexists _, _. }
  destruct (errorsIs e ErrNotExist); [|done]. unfold generateConfig. rewrite bind_run, attempt_run.
  destruct ((GenerateClientConfig ≫= _) s1) as [s2 [[]|e'|w]] eqn:Eg; [|intros [=]|intros [=]]. intros [= <-].
  ok_step Eg. exists a. split; [by eapply SaveConfig_ok|].
  unfold GenerateClientConfig in Hm. ok_step Hm. destruct a0 as [[[? ?] ?] ?]. by injection Hm as _ <-.
Qed.

(** C30: from the node to its clients: the file a node writes about itself, copied
    to the place a client's configuration names, is what [PrepareTunnel] runs the
    tunnel with: a pool of one node with its key and the prices of its gateway. *)
Theorem prepare_from_node src spath sn sn' shared path data cfg c :
  GenerateSharedConfig src spath sn = (sn', Ok shared) -> js_exact shared ->
  quiet c -> fs_files c !! path = Some data -> js_unmarshal data = Ok cfg -> NodesPoolConfigPath cfg <> EmptyString ->
  fs_files c !! NodesPoolConfigPath cfg = fs_files sn' !! spath ->
  exists c' sec, prepareConfig path true c = (c', Ok (RunWith cfg shared)) /\ fs_files c' = fs_files c /\
    NodesPool shared = [sec] /\ describes sec (ed_fromSeed (TunnelServerKey src)) (nodePayments src).
Proof using JSOk.
  intros Hg He Hq Hd Hc Hne Hcopy. unfold GenerateSharedConfig in Hg. ok_step Hg. rewrite lift_run in Hm. injection Hm as <- Hsh.
  ok_step Hg. injection Hg as <- ->. destruct (SaveConfig_ok _ _ _ _ _ He Hm) as (data' & Hd' & Hj & _).
  destruct (sharedConfig_describes _ _ Hsh) as (sec & Hpool & Hsec). rewrite Hd' in Hcopy.
  eexists _, sec. rewrite (prepareConfig_filled c path data cfg data' shared) by done. by split_and!.
Qed.
End Facts.

(** ** A node and its client *)
Section Runs.
#[local] Existing Instances sampleKA longEd toyConfigWorld.

Definition filledConfig : ClientConfig :=
  mkClientConfig [1] 1 1 "nodes.json" false
    (mkPaymentsClientConfig [2] [3] [4] "" false
      (channels (tonCoin "" (mkBalanceControlConfig "1" "3" "0")) (usdtCoin (mkBalanceControlConfig "5" "10" "0")))).

(** Codecs of one value each. *)
#[local] Instance clientJson : Json ClientConfig := {|
  js_marshal := fun c => Ok [1]; js_unmarshal := fun _ => Ok filledConfig; js_exact := fun c => c = filledConfig |}.
#[local] Instance poolJson : Json SharedConfig := {|
  js_marshal := fun c => Ok [2]; js_unmarshal := fun _ => Ok pricedShared; js_exact := fun c => c = pricedShared |}.
#[local] Instance poolJson_ok : JsonOk SharedConfig poolJson.
Proof. by intros a bs -> _. Qed.

Definition clientDisk : FS := mkFS {[ "client.json"%string := [1]; "nodes.json"%string := [2] ]} ∅ 0.

Lemma prepare_from_node_witness :
  exists c' sec, prepareConfig "client.json" true clientDisk = (c', Ok (RunWith filledConfig pricedShared)) /\
    fs_files c' = fs_files clientDisk /\ NodesPool pricedShared = [sec] /\
    describes sec (ed_fromSeed (TunnelServerKey pricedConfig)) (nodePayments pricedConfig).
Proof using Type.
  assert (GenerateSharedConfig pricedConfig "shared.json" emptyDisk
    = ((GenerateSharedConfig pricedConfig "shared.json" emptyDisk).1, Ok pricedShared)) as Hg by (vm_compute; reflexivity).
  refine (prepare_from_node pricedConfig "shared.json" emptyDisk _ pricedShared "client.json" [1] filledConfig clientDisk
    Hg eq_refl (fun _ _ => eq_refl) eq_refl eq_refl _ _); [discriminate|vm_compute; reflexivity].
Defined.

(** The line of an error: its level and its text. *)
Example LogWriter_sample : LogWriter_Write [49; 32; 98; 97; 100] = Ok ([98; 97; 100], 3, 1, 5).
Proof using Type. reflexivity. Qed.
End Runs.
