(* ===== verification/CLibRun.v ===== *)
(** * The C library beside a running tunnel ([PrepareTunnel], [cmd/lib/lib.go])

    [PrepareTunnel] starts [RunTunnel], follows its events in a goroutine and
    waits for the first tunnel.  This file models that goroutine, what the call
    returns, the lines of the log, and composes them with [RunTunnel]: what the
    program that linked the library sees of a run. *)

From S2P Require Import Prelude NetAddr Seqno Stream Wire Samples Keys PayChain Hoare State Peers Node Payments OutGate Gateway Worlds Traffic.
From S2P Require Import Client ClientMsg ClientPay ClientIO ClientFacts ClientWorlds Delivery Config Setup SetupFacts PayerSetup RunTunnel CLib CLibStart.

(** ** The events of a tunnel *)

(** The global [indexMatch], the event the call waits for, and the tunnels whose
    changes of address are reported through [on_reinit]. *)
Record library := mkLibrary {
  lib_indexMatch : list (option nat);
  lib_initUpd : option (nat * bytes * Z);
  lib_watched : list nat;
}.

(** The goroutine waits for the next event, has returned, or has ended the
    program. *)
Inductive loopEnd : Type := Listening | Returned | ExitedWith (e : error).

Definition startLibrary : library := mkLibrary [None] None [].

(** One event; the first update is passed on once. *)
Definition handleEvent (ev : uiEvent) (l : library) : library * loopEnd :=
  match ev with
  | StoppedEvent => (l, Returned)
  | UpdatedEvent t ip port =>
      (mkLibrary (<[0%nat := Some t]> (lib_indexMatch l))
         (match lib_initUpd l with Some u => Some u | None => Some (t, ip, port) end)
         (lib_watched l ++ [t]), Listening)
  | ConfigurationErrorEvent _ => (l, Listening)
  | ErrorEvent e => (l, ExitedWith e)
  | MsgEvent _ => (l, Listening)
  end.

Fixpoint eventLoop (events : list uiEvent) (l : library) : library * loopEnd :=
  match events with
  | [] => (l, Listening)
  | ev :: events =>
      match handleEvent ev l with
      | (l, Listening) => eventLoop events l
      | stop => stop
      end
  end.

(** What the call returns, [None] while it waits. *)
Definition PrepareTunnel_result (l : library) : option (outcome (Z * Z * Z)) :=
  match lib_initUpd l with
  | Some (_, ExtIP, ExtPort) => Some (tunnelInfo (lib_indexMatch l) ExtIP ExtPort)
  | None => None
  end.

(** The sixteen bytes handed to [on_reinit]. *)
Definition reinitAddr (ip : bytes) (port : Z) : outcome bytes := writeSockAddr (replicate 16 0) ip port.

Lemma reinitAddr_read ip port : len (To4 ip) = 4 -> 0 <= port < 2 ^ 16 ->
  exists buf, reinitAddr ip port = Ok buf /\ parseSockAddr buf = Ok (To4 ip, port).
Proof.
  intros Hip Hport. destruct (To4 ip) as [|a [|b [|c [|d [|? ?]]]]] eqn:Eip;
    [unfold len in Hip; simpl in Hip; lia..| |unfold len in Hip; simpl in Hip; lia].
  unfold reinitAddr, writeSockAddr, store, slice_from. simpl. rewrite Eip. eexists. split; [reflexivity|].
  unfold parseSockAddr. simpl. by rewrite two_bytes.
Qed.

(** ** The lines of the log *)

(** [w.FormatLevel]. *)
Definition FormatLevel (level : string) : string :=
  if String.eqb level "fatal" then "0"
  else if String.eqb level "error" then "1"
  else if String.eqb level "warn" then "2"
  else if String.eqb level "info" then "3"
  else "4".

(** A line starts with its level and a space; the logger gets the level as a
    number from 0 to 4 and the text. *)
Lemma LogWriter_line c msg : LogWriter_Write (c :: 32 :: msg) = Ok (msg, len msg, uint8 (c - 48), len msg + 2).
Proof.
  unfold LogWriter_Write. replace (len (c :: 32 :: msg)) with (len msg + 2) by (unfold len; simpl; lia).
  by replace (len msg + 2 - 2) with (len msg) by lia.
Qed.
Lemma LogWriter_level level msg :
  exists l, LogWriter_Write (map code (chars (FormatLevel level)) ++ 32 :: msg) = Ok (msg, len msg, l, len msg + 2) /\ 0 <= l <= 4.
Proof.
  unfold FormatLevel.
  repeat match goal with |- context [if ?b then _ else _] => destruct b end;
    (eexists; split; [apply LogWriter_line|vm_compute; intuition discriminate]).
Qed.

(** ** The loop on the events of a run *)

Definition updates (events : list uiEvent) : list (nat * bytes * Z) :=
  omap (fun e => match e with UpdatedEvent t ip port => Some (t, ip, port) | _ => None end) events.

Definition tunnelOf (u : nat * bytes * Z) : nat := u.1.1.

(** The library after these updates. *)
Definition updated (us : list (nat * bytes * Z)) (l : library) : library :=
  foldl (fun l '(t, ip, port) => (handleEvent (UpdatedEvent t ip port) l).1) l us.

Lemma eventLoop_app a b l : Forall routine a -> eventLoop (a ++ b) l = eventLoop b (updated (updates a) l).
Proof. intros H. revert l. induction H as [|ev a He Ha IH]; intros l; [done|]. by destruct ev; try apply IH. Qed.

Lemma updated_start us :
  let l := updated us startLibrary in
  lib_indexMatch l = [tunnelOf <$> list.last us] /\ lib_initUpd l = head us /\ lib_watched l = (tunnelOf <$> us).
Proof.
  induction us as [|u us IH] using rev_ind; [done|]. cbv zeta in *. unfold updated in *. rewrite foldl_snoc.
  set (l := foldl _ startLibrary us) in *. destruct IH as (H1 & H2 & H3), u as [[t ip] port].
  cbn [handleEvent fst lib_indexMatch lib_initUpd lib_watched]. rewrite H1, H2, H3, last_snoc, fmap_app.
  split_and!; [done| |done]. by destruct us as [|[[? ?] ?] us].
Qed.

Section Run.
Context {C : CipherCtr} {T : TL} {K : KeyAgreement} {W : World} {CW : ClientWorld} {SW : SetupWorld}.
Context {E : Ed25519} {PW : PayerWorld} {RW : RunWorld}.

Lemma sentEvents_finish s : sentEvents (finish s) = sentEvents (rs_trace s) ++ [StoppedEvent].
Proof using Type. unfold finish. by rewrite !sentEvents_app, sentEvents_did. Qed.

(** A run that goes on has reported no failure, and one that ended without a
    request to stop has reported one, before its end. *)
Lemma RunTunnel_sends cfg sharedCfg turns trace res :
  TurnStop ∉ turns -> RunTunnel cfg sharedCfg turns = (trace, res) ->
  match res with
  | None => Forall routine (sentEvents trace)
  | Some (Ok _) => exists before e, sentEvents trace = before ++ [ErrorEvent e; StoppedEvent] /\ Forall routine before
  | Some _ => True
  end.
Proof using Type.
  intros Hturns. unfold RunTunnel. destruct (startTunnel_spec cfg sharedCfg) as (tr & d & o & -> & Htr%isMsg_routine & Ho).
  destruct o as [[su service]|e|w].
  - destruct Ho as (_ & Hsu & _). destruct (runLoop _ _ _ su) as [su' [b|e|w]] eqn:Er; [|by intros [= _ <-]..].
    assert (only routine su) as H0 by (unfold only; by rewrite Hsu).
    pose proof (runLoop_sends (TunnelSectionsNum cfg) turns Reinit su su' b H0 ltac:(discriminate) Er) as Hs.
    destruct b; intros [= <- <-]; rewrite ?sentEvents_finish; cbn [rs_trace]; rewrite sentEvents_app, sentEvents_sent.
    + destruct Hs as [Hs|(before & e & -> & Hb)]; [done|]. exists (sentEvents tr ++ before), e. split; [by rewrite <- !app_assoc|].
      by apply Forall_app.
    + by apply Forall_app.
  - intros [= <- <-]. rewrite sentEvents_finish. exists (sentEvents tr), e. split; [|done]. cbn [rs_trace].
    by rewrite sentEvents_app, <- app_assoc.
  - by intros [= _ <-].
Qed.

Lemma updates_app a b : updates (a ++ b) = updates a ++ updates b.
Proof using Type. apply omap_app. Qed.

(** What the program has in its hands after these updates: nothing before the
    first; then a handle with the address of the first tunnel, through which it
    writes to the latest. *)
Definition handle (us : list (nat * bytes * Z)) (l : library) : Prop :=
  lib_watched l = (tunnelOf <$> us) /\
  match head us, list.last us with
  | Some (_, ip, port), Some (t, _, _) =>
      PrepareTunnel_result l = Some (if len (To4 ip) <? 4 then Panic "index out of range"
                                     else Ok (1, int32 (le_decode (reverse (To4 ip))), port)) /\
      forall buf num, WriteTunnel (lib_indexMatch l) 1 buf num = writeBatch (Some t) num buf 0
  | _, _ => PrepareTunnel_result l = None
  end.

Lemma updated_handle us : handle us (updated us startLibrary).
Proof using Type.
  destruct (updated_start us) as (Hi & Hu & Hw). split; [done|]. unfold PrepareTunnel_result. rewrite Hu.
  destruct us as [|[[t0 ip] port] us]; [done|]. cbn [head]. destruct (list.last _) as [[[t ?] ?]|] eqn:El.
  - rewrite Hi. split; [|done]. unfold tunnelInfo. by destruct (_ <? 4).
  - by apply last_None in El.
Qed.


(** ** The default answers

    The library sets neither [Acceptor] nor [AskReroute]: every route is accepted
    and no tunnel is given up. *)
Definition Acceptor (to from : list SectionInfo) : Z := AcceptorDecisionAccept.
Definition AskReroute : bool := false.

Definition noUpdate (e : uiEvent) : Prop := updates [e] = [].
Lemma noUpdate_updates l : Forall noUpdate l -> updates l = [].
Proof using Type. induction 1 as [|e l He _ IH]; [done|]. change (updates ([e] ++ l) = []). by rewrite updates_app, He, IH. Qed.
Lemma isMsg_noUpdate l : Forall isMsg l -> Forall noUpdate l.
Proof using Type. apply List.Forall_impl. by intros []. Qed.

Section Unattended.
Context (Hask : forall n, sw_askReroute n = AskReroute).

Lemma monitorStep_unattended waits t lastAsk s :
  match monitorStep waits t lastAsk s with
  | (s', Ok st) => su_events s' = su_events s /\ exists a, st = Running t a
  | (s', _) => su_events s' = su_events s
  end.
Proof using Hask.
  assert (forall A (m : GM RegularOutTunnel A) s0, su_events (inGate m s0).1 = su_events s0) as Hg
    by (intros A m s0; unfold inGate; by destruct (m _)).
  unfold monitorStep. rewrite bind_run. pose proof (Hg _ nowUnix s) as H1. destruct (inGate _ s) as [s1 [now|e|w]]; try done.
  rewrite bind_run. pose proof (Hg _ (getTun t) s1) as H2. destruct (inGate _ s1) as [s2 [tun|e|w]]; simpl in *; try congruence.
  destruct (_ && _); [|split; [congruence|by eexists]]. rewrite bind_run. unfold ask. unfold inGate at 1. run. simpl.
  rewrite Hask. cbn. rewrite bind_run. set (s3 := mkSetup _ _ _ _ _). pose proof (Hg _ nowUnix s3) as H3.
  destruct (inGate _ s3) as [s4 [now'|e|w]]; simpl in *; try congruence. split; [congruence|by eexists].
Qed.

(** A tunnel that runs is kept. *)
Lemma runLoop_kept sections turns t a s : su_events (runLoop sections turns (Running t a) s).1 = su_events s.
Proof using Hask.
  revert a s. induction turns as [|[|fuel waits sched] turns IH]; intros a s; try done. cbn [runLoop]. rewrite bind_run.
  pose proof (monitorStep_unattended waits t a s) as H. destruct (monitorStep _ _ _ s) as [s1 [st|e|w]]; try done.
  destruct H as (H & a' & ->). by rewrite IH.
Qed.

Lemma reinitStep_updates fuel waits sched sections s : only noUpdate s ->
  match reinitStep fuel waits sched sections s with
  | (s', Ok (Running _ _)) => (length (updates (su_events s')) <= 1)%nat
  | (s', _) => only noUpdate s'
  end.
Proof using Type.
  intros Hs. unfold reinitStep. rewrite bind_run.
  pose proof (only_send noUpdate (MsgEvent "Configuring tunnel route...") eq_refl s Hs) as H0.
  destruct (send _ s) as [s0 [[]|e|w]]; try done. rewrite bind_run.
  pose proof (only_configureRoute noUpdate (fun _ => eq_refl) fuel waits sched sections s0 H0) as H1.
  destruct (configureRoute _ _ _ _ s0) as [s1 [[t port ip|t|e r]|e|w]]; try done; simpl in H1.
  - unfold send. run. simpl. rewrite updates_app, (noUpdate_updates (su_events s1)) by done. simpl. lia.
  - assert (only noUpdate ((if errorsIs e ErrNoMoreRoutes then setAttempts ∅ else mret tt) s1).1) as H2
      by (destruct (errorsIs e _); [by apply only_attempts|done]).
    rewrite bind_run. destruct ((if errorsIs e ErrNoMoreRoutes then setAttempts ∅ else mret tt) s1) as [s2 [[]|e'|w]]; try done.
    destruct r; unfold send; run; apply Forall_app; by repeat constructor.
Qed.

Lemma runLoop_one sections turns (s : Setup) : only noUpdate s ->
  (length (updates (su_events (runLoop sections turns Reinit s).1)) <= 1)%nat.
Proof using Hask.
  assert (forall s', only noUpdate s' -> (length (updates (su_events s')) <= 1)%nat) as Hone
    by (intros s' Hs'; rewrite noUpdate_updates by done; simpl; lia).
  revert s. induction turns as [|[|fuel waits sched] turns IH]; intros s Hs; try by apply Hone.
  cbn [runLoop]. rewrite bind_run. pose proof (reinitStep_updates fuel waits sched sections s Hs) as H.
  destruct (reinitStep _ _ _ _ s) as [s1 [[|t|t a|]|e|w]]; try by apply Hone.
  - by apply IH.
  - by destruct turns; apply Hone.
  - by rewrite runLoop_kept.
  - by destruct turns; apply Hone.
Qed.

(** So the handle belongs to one tunnel: whoever holds it writes to the tunnel
    whose address it was given, also when that tunnel has stalled. *)
Lemma library_one_tunnel cfg sharedCfg turns trace res :
  RunTunnel cfg sharedCfg turns = (trace, res) -> (length (updates (sentEvents trace)) <= 1)%nat.
Proof using Hask.
  unfold RunTunnel. destruct (startTunnel_spec cfg sharedCfg) as (tr & d & o & -> & Htr%isMsg_noUpdate & Ho).
  assert (forall l, updates (sentEvents (tr ++ map Sent l)) = updates l) as Hsent
    by (intros l; by rewrite sentEvents_app, sentEvents_sent, updates_app, (noUpdate_updates (sentEvents tr))).
  assert (forall l d', updates (sentEvents (finish (mkRunState (tr ++ map Sent l) d'))) = updates l) as Hfin
    by (intros l d'; rewrite sentEvents_finish, updates_app; cbn [rs_trace]; rewrite Hsent; apply app_nil_r).
  destruct o as [[su service]|e|w].
  - destruct Ho as (_ & Hsu & _). pose proof (runLoop_one (TunnelSectionsNum cfg) turns su) as H.
    destruct (runLoop _ _ _ su) as [su' [[]|e|w]]; intros [= <- <-]; cbn [rs_trace]; rewrite ?Hfin, ?Hsent; apply H; unfold only; by rewrite Hsu.
  - intros [= <- <-]. rewrite (Hfin [ErrorEvent e]). simpl. lia.
  - intros [= <- <-]. rewrite <- (app_nil_r tr). rewrite (Hfin []). simpl. lia.
Qed.
End Unattended.
End Run.

(** ** Runs *)
Section Runs.
#[local] Existing Instances toyCipher sampleTL sampleKA sampleWorld sampleClientWorld sampleSetupWorld plainEd samplePayerWorld sampleRunWorld.

(** A client of a free pool whose exit reports an address. *)
Definition freeClient : ClientConfig :=
  mkClientConfig (seed32 8) 1 3 "" false
    (mkPaymentsClientConfig (seed32 1) (seed32 2) (seed32 3) "" false
      (channels (tonCoin "0" (mkBalanceControlConfig "0" "0" "5")) (usdtCoin (mkBalanceControlConfig "0" "0" "15")))).
Definition exitReports (t : nat) (ip : bytes) (port checkedAt : Z) : GM RegularOutTunnel unit :=
  updTun t (fun x => set_t_tunnelState StateTypeOptimized (set_t_externalAddr ip (set_t_externalPort port
    (set_t_lastFullyCheckedAt checkedAt x)))).

(** Two tunnels: the first stalls and is replaced. *)
Definition twoTurns : list turn :=
  [TurnGo 1 1 [(exitReports 0 [1; 2; 3; 4] 5000 0, None)]; TurnGo 1 1 [];
   TurnGo 1 1 [(exitReports 1 [5; 6; 7; 8] 6000 1000, None)]].
Abbreviation twoTunnels := (RunTunnel freeClient (mkSharedConfig samplePool) twoTurns).


(** A user who refuses the first route ends the program. *)
Example refused_route_exits :
  (eventLoop (sentEvents (RunTunnel (SW := cancelingWorld) payingConfig (mkSharedConfig samplePool) [TurnGo 1 1 []]).1) startLibrary).2
  = ExitedWith (Errorw "failed to configure route" ErrRouteCanceled).
Proof using Type. vm_compute. reflexivity. Qed.

(** The slice is replaced by every call of [PrepareTunnel] and both handles have
    the index one: a write through the first handle panics until the second
    tunnel is up, and goes to the second tunnel afterwards. *)
Definition secondCall (l : library) : library :=
  mkLibrary (lib_indexMatch startLibrary) (lib_initUpd startLibrary) (lib_watched l).
Example second_call_takes_over :
  let first := (eventLoop [UpdatedEvent 0 [1; 2; 3; 4] 5000] startLibrary).1 in
  let second := secondCall first in
  let ready := (eventLoop [UpdatedEvent 1 [5; 6; 7; 8] 6000] second).1 in
  PrepareTunnel_result first = Some (Ok (1, 16909060, 5000)) /\
  PrepareTunnel_result ready = Some (Ok (1, 84281096, 6000)) /\
  (WriteTunnel (lib_indexMatch second) 1 (sampleFrame ++ [99]) 1 configured.1).2 = Panic "nil pointer dereference" /\
  lib_indexMatch ready = [Some 1%nat].
Proof using Type. split_and!; vm_compute; reflexivity. Qed.
End Runs.
