(* ===== verification/Reassemble.v ===== *)
(** * Encrypting a message again ([ReassembleInstructions], [tunnel/regularOutTunnel.go])

    The initiator can open every layer of a message it made, also the return
    path an exit is given, and encrypt it anew with the next numbers of the
    sections: the message has the same length and the nodes read the same
    instructions from it. *)

From S2P Require Import Prelude Seqno Stream Wire Samples Keys PayChain Hoare State Peers Node Payments OutGate Gateway Worlds Traffic.
From S2P Require Import Client ClientMsg ClientPay ClientIO ClientFacts ClientWorlds ClientOnion.

Section Reassemble.
Context {C : CipherCtr} {T : TL} {K : KeyAgreement} {W : World} {CW : ClientWorld}.

Abbreviation G := (GM RegularOutTunnel).

Definition findSection (key : bytes) (l : list SectionInfo) : option nat :=
  fst <$> list_find (fun s => ek_SectionPubKey (si_Keys s) = key) l.

(** The section with this key and the one after it, by their positions among
    the nodes. *)
Definition resolveSection (tun : RegularOutTunnel) (key : bytes) : option (nat * option nat) :=
  let to := length (t_chainTo tun) in
  let from := length (t_chainFrom tun) in
  match findSection key (t_chainTo tun) with
  | Some i => Some (i, if bool_decide (S i < to)%nat then Some (S i)
                       else if bool_decide (0 < from)%nat then Some to else None)
  | None =>
      match findSection key (t_chainFrom tun) with
      | Some i => Some ((to + i)%nat, if bool_decide (S i < from)%nat then Some (to + S i)%nat else None)
      | None => None
      end
  end.

(** The layers from the outermost on, encrypted from the innermost. *)
Fixpoint wrapAll (t : nat) (layers : list (nat * list instruction)) : G EncryptedMessage :=
  match layers with
  | [] => mret emptyMessage
  | (i, l) :: layers =>
      msg ← wrapAll t layers;
      wrapM "encrypt failed" (encryptLayer t i msg l)
  end.

(** The return path of an instruction is reassembled in place. *)
Fixpoint rebuild (again : bytes -> bytes -> G EncryptedMessage) (l : list instruction) : G (list instruction) :=
  match l with
  | [] => mret []
  | i :: l =>
      i ← match i with
          | BindOut v =>
              inMsg ← (fun g => let '(g', o) := again (bo_InboundSectionPubKey v) (bo_InboundInstructions v) g in
                                (g', hideErr "reassemble instructions failed" o));
              mret (BindOut (mkBindOut (bo_InboundNodeADNL v) (bo_InboundSectionPubKey v) (em_Instructions inMsg)
                (bo_ReceiverPubKey v) (bo_PricePerPacket v)))
          | i => mret i
          end;
      l ← rebuild again l;
      mret (i :: l)
  end.

(** [more]: the instructions route the rest on to a section that is known. *)
Definition routed (l : list instruction) (next : option nat) : option nat :=
  if existsb (fun i => match i with Route _ => true | _ => false end) l then next else None.

(** One layer opened with the keys of its section. *)
Definition openLayer (t : nat) (i : nat) (rest : bytes) : G (InstructionsContainer * bytes) :=
  s ← getNode t i;
  data ← lift (hideErr "decrypt stream failed" (decryptStream (CipherKeyCRC (si_Keys s)) (CipherKey (si_Keys s)) rest).2);
  guard_err (len data <? 12) "corrupted instructions" ;;
  lift (hideErr "parse instructions failed" (parseContainer data)).

(** [fuel] bounds the layers opened, nested ones included. *)
Fixpoint unwrapAll (fuel : nat) (t : nat) (key rest : bytes) : G (list (nat * list instruction)) :=
  match fuel with
  | O => throw OutOfFuel
  | S fuel =>
      tun ← getTun t;
      match resolveSection tun key with
      | None => throw (Errorf "section not found")
      | Some (i, next) =>
          '(container, rest) ← openLayer t i rest;
          let again k r := layers ← unwrapAll fuel t k r; wrapAll t layers in
          list ← rebuild again (ic_List container);
          match routed (ic_List container) next with
          | None => mret [(i, list)]
          | Some j =>
              s ← getNode t j;
              layers ← unwrapAll fuel t (ek_SectionPubKey (si_Keys s)) rest;
              mret ((i, list) :: layers)
          end
      end
  end.

Definition reassembleInstructions (fuel : nat) (t : nat) (msg : EncryptedMessage) : G EncryptedMessage :=
  layers ← unwrapAll fuel t (em_SectionPubKey msg) (em_Instructions msg);
  newMsg ← wrapAll t layers;
  mret (mkEncryptedMessage (em_SectionPubKey newMsg) (em_Instructions newMsg) (em_Payload msg)).

(** A message of another length would be a bug: the program stops. *)
Definition ReassembleInstructions (fuel : nat) (t : nat) (msg : EncryptedMessage) : G EncryptedMessage :=
  rs ← reassembleInstructions fuel t msg;
  if bool_decide (length (em_Instructions rs) = length (em_Instructions msg)) then mret rs
  else panic "reassemble instructions failed".
End Reassemble.

(** ** The sections form one chain *)

Lemma findSection_app key l k :
  findSection key (l ++ k) = match findSection key l with
                             | Some i => Some i
                             | None => (fun i => (length l + i)%nat) <$> findSection key k
                             end.
Proof.
  unfold findSection. set (P := fun s => ek_SectionPubKey (si_Keys s) = key) in *.
  induction l as [|s l IH]; simpl; [by destruct (list_find P k) as [[]|]|].
  destruct (decide (P s)); [done|].
  destruct (list_find P (l ++ k)) as [[i x]|], (list_find P l) as [[j y]|], (list_find P k) as [[m z]|]; simpl in *; congruence.
Qed.

(** The two searches are one over the nodes in order, and the next section is
    the next node. *)
Lemma resolveSection_nodes tun key :
  resolveSection tun key =
    (fun i => (i, if bool_decide (S i < length (nodes tun))%nat then Some (S i) else None)) <$> findSection key (nodes tun).
Proof.
  unfold resolveSection, nodes. rewrite findSection_app, length_app.
  destruct (findSection key (t_chainTo tun)) as [i|] eqn:E; simpl.
  - unfold findSection in E. destruct (list_find _ (t_chainTo tun)) as [[j s]|] eqn:Ef; [|done]. injection E as <-.
    apply list_find_Some in Ef as (Hj & _). apply lookup_lt_Some in Hj. f_equal. f_equal.
    repeat case_bool_decide; try lia; try done. f_equal. lia.
  - destruct (findSection key (t_chainFrom tun)) as [i|]; simpl; [|done]. f_equal. f_equal.
    repeat case_bool_decide; try lia; try done. f_equal. lia.
Qed.

(** ** What the nodes read afterwards *)
Section Facts.
Context {C : CipherCtr} {T : TL} {TOk : TLOk T} {K : KeyAgreement} {W : World} {CW : ClientWorld} {ROk : RandOk W}.

Abbreviation State := (Gateway RegularOutTunnel).

(** Instructions without a return path. *)
Definition noBind (l : list instruction) : Prop :=
  Forall (fun i => match i with BindOut _ => False | _ => True end) l.

Definition keysAt (tun : RegularOutTunnel) (layers : list (nat * list instruction)) : option (list (Z * bytes)) :=
  mapM (fun x => cipherOf <$> nodes tun !! fst x) layers.

Lemma rebuild_noBind again l (g g' : State) l' :
  rebuild again l g = (g', Ok l') -> noBind l' -> g' = g /\ l' = l.
Proof using Type.
  revert g g' l'. induction l as [|i l IH]; intros g g' l' H Hn; simpl in H; [by injection H as <- <-|].
  apply bind_ok_inv in H as (g1 & i' & Hi & H). apply bind_ok_inv in H as (g2 & l2 & Hl & H). injection H as <- <-.
  apply Forall_cons_1 in Hn as [Hi' Hn]. destruct (IH _ _ _ Hl Hn) as [-> ->].
  destruct i; try (injection Hi as <- <-; done). apply bind_ok_inv in Hi as (g3 & m & _ & Hi). injection Hi as _ <-. done.
Qed.

Lemma openLayer_peels t i rest (g g' : State) tun c rest' :
  g_tuns g !! t = Some tun -> openLayer t i rest g = (g', Ok (c, rest')) ->
  g' = g /\ exists s, nodes tun !! i = Some s /\
    forall ks cs r, peelLayers ks rest' = Ok (cs, r) -> peelLayers (cipherOf s :: ks) rest = Ok (c :: cs, r).
Proof using Type.
  intros Ht H. unfold openLayer in H. ok_step H. apply (getNode_ok_inv _ _ _ _ _ _ Ht) in Hm as [-> Hi].
  ok_step H. injection Hm as <- Hd. apply hideErr_ok in Hd. ok_step H. apply guard_ok_inv in Hm as [Hlen ->].
  injection H as <- Hp. split; [done|]. exists a. split; [done|]. intros ks cs r Hks. cbn [peelLayers cipherOf].
  unfold decryptMessage. cbn [em_Instructions]. destruct (decryptStream _ _ rest) as [buf o]. cbn [snd] in Hd. subst o.
  rewrite Hlen. cbn [snd]. rewrite Hp. go_bind. rewrite Hks. done.
Qed.

Lemma unwrapAll_peels fuel t key rest (g g' : State) tun layers :
  g_tuns g !! t = Some tun -> unwrapAll fuel t key rest g = (g', Ok layers) -> Forall (fun x => noBind (snd x)) layers ->
  g' = g /\ exists ks cs r, keysAt tun layers = Some ks /\ peelLayers ks rest = Ok (cs, r) /\ map ic_List cs = map snd layers.
Proof using Type.
  intros Ht. revert key rest g' layers. induction fuel as [|fuel IH]; intros key rest g' layers H Hn; [done|].
  cbn [unwrapAll] in H. rewrite bind_run, (getTun_run _ _ _ Ht) in H. cbv iota beta in H.
  destruct (resolveSection tun key) as [[i next]|]; [|done]. apply bind_ok_inv in H as (g1 & [c rest'] & Ho & H).
  destruct (openLayer_peels _ _ _ _ _ _ _ _ Ht Ho) as (-> & s & Hs & Hpeel). cbv zeta in H.
  apply bind_ok_inv in H as (g2 & l & Hr & H). destruct (routed _ next) as [j|].
  - apply bind_ok_inv in H as (g3 & s' & Hj & H). apply bind_ok_inv in H as (g4 & layers' & Hu & H). injection H as <- <-.
    apply Forall_cons_1 in Hn as [Hl Hn]. destruct (rebuild_noBind _ _ _ _ _ Hr Hl) as [-> ->].
    apply (getNode_ok_inv _ _ _ _ _ _ Ht) in Hj as [-> _]. destruct (IH _ _ _ _ Hu Hn) as (-> & ks & cs & r & Hk & Hp & Hc).
    split; [done|]. exists (cipherOf s :: ks), (c :: cs), r. split; [|split; [by apply Hpeel|by simpl; rewrite Hc]].
    unfold keysAt in *. cbn [mapM]. cbn [fst]. rewrite Hs. simpl. unfold mapM in *. by rewrite Hk.
  - injection H as <- <-. apply Forall_cons_1 in Hn as [Hl _]. destruct (rebuild_noBind _ _ _ _ _ Hr Hl) as [-> ->].
    split; [done|]. exists [cipherOf s], [c], rest'. split; [|split; [by apply Hpeel|done]].
    unfold keysAt. cbn [mapM fst]. by rewrite Hs.
Qed.

(** Two moments of a tunnel between which only counters moved. *)
Definition sameNodes (tun0 tun : RegularOutTunnel) : Prop := frozen <$> nodes tun = frozen <$> nodes tun0.

Lemma sameNodes_lookup tun0 tun i s :
  sameNodes tun0 tun -> nodes tun !! i = Some s -> exists s0, nodes tun0 !! i = Some s0 /\ cipherOf s = cipherOf s0.
Proof using Type.
  intros H Hi. apply (f_equal (fun l => l !! i)) in H. rewrite !list_lookup_fmap, Hi in H.
  destruct (nodes tun0 !! i) as [s0|]; [|done]. exists s0. split; [done|].
  cbn in H. assert (frozen s = frozen s0) as Hf by congruence. by apply frozen_cipherOf in Hf as [? _].
Qed.
Lemma sameNodes_keysOk tun0 tun : sameNodes tun0 tun -> keysOk tun0 -> keysOk tun.
Proof using Type.
  intros H Hk. apply Forall_lookup. intros i s Hs. destruct (sameNodes_lookup _ _ _ _ H Hs) as (s0 & Hs0 & [= -> _]).
  exact (proj1 (Forall_lookup _ _) Hk _ _ Hs0).
Qed.

Lemma wrapAll_peels t layers (g g' : State) tun msg :
  g_tuns g !! t = Some tun -> keysOk tun -> Forall (fun x => plainList (snd x)) layers ->
  wrapAll t layers g = (g', Ok msg) ->
  exists tun' ks cs, g_tuns g' !! t = Some tun' /\ sameNodes tun tun' /\ keysAt tun layers = Some ks /\
    peelLayers ks (em_Instructions msg) = Ok (cs, []) /\ map ic_List cs = map snd layers.
Proof using TOk ROk.
  intros Ht Hk Hp. revert g' msg. induction Hp as [|[i l] layers Hl _ IH]; intros g' msg H; cbn [wrapAll] in H.
  { injection H as <- <-. by exists tun, [], []. }
  apply bind_ok_inv in H as (g1 & inner & Hi & H). apply wrapM_ok_inv in H.
  destruct (IH _ _ Hi) as (tun1 & ks & cs & Ht1 & Hs1 & Hks & Hpeel & Hc).
  destruct (encryptLayer_peels _ _ _ _ _ _ _ _ Ht1 (sameNodes_keysOk _ _ Hs1 Hk) Hl H) as (s & f & Hs & Hf & Hg & _ & _ & Hlayer).
  destruct (sameNodes_lookup _ _ _ _ Hs1 Hs) as (s0 & Hs0 & Hciph).
  eexists _, (cipherOf s0 :: ks), (_ :: cs). split_and!; [exact Hg| | |rewrite <- Hciph; by apply Hlayer|by simpl; rewrite Hc].
  - unfold sameNodes. rewrite nodes_alterNode, alter_frozen by done. exact Hs1.
  - unfold keysAt in *. cbn [mapM fst]. rewrite Hs0. simpl. unfold mapM in *. by rewrite Hks.
Qed.

End Facts.

(** ** Fuel

    A layer is longer than what it holds, and so is an instruction than the
    return path in it, as the codec reads both from the bytes it is given. *)
Class BindSized (T : TL) : Prop :=
  bind_sized : forall d v rest, tl_parseFields KBindOut d = Some (BindOut v, rest) ->
    (length (bo_InboundInstructions v) <= length d)%nat.

Section Fuel.
Context {C : CipherCtr} {T : TL} {TOk : TLOk T} {TSz : BindSized T} {K : KeyAgreement} {W : World} {CW : ClientWorld}.

Abbreviation State := (Gateway RegularOutTunnel).

Definition within (n : nat) (i : instruction) : Prop :=
  match i with BindOut v => (length (bo_InboundInstructions v) <= n)%nat | _ => True end.

Lemma within_le n m l : (n <= m)%nat -> Forall (within n) l -> Forall (within m) l.
Proof using Type. intros H. apply List.Forall_impl. intros []; simpl; lia. Qed.

Lemma field_within typ body i rest : tl_parseFields typ body = Some (i, rest) -> within (length body) i.
Proof using TOk TSz.
  intros E. destruct i; try exact I. pose proof (tl_parse_kind _ _ _ _ E) as Hk. injection Hk as <-. by eapply bind_sized.
Qed.

Lemma parse_within fuel num data l rest :
  parseInstructions fuel num data = Ok (l, rest) -> Forall (within (length data)) l.
Proof using TOk TSz.
  revert num data l rest. induction fuel as [|fuel IH]; intros num data l rest H; simpl in H;
    (destruct (num <=? 0); [injection H as <- _; constructor|]); [done|].
  destruct (Z.ltb_spec (len data) 4) as [|Hlen]; [done|]. rewrite Uint32_ok in H by done. unfold len in Hlen. go_bind in H.
  destruct (instructionOpcodes _) as [typ|]; [|done]. rewrite slice_from_ok in H by lia. go_bind in H.
  pose proof (body_good fuel typ (drop 4 data) (proj2 (parse_good fuel) _)) as Hb. rewrite length_drop in Hb.
  destruct (hideErr _ _) as [[i r]|e|w] eqn:Ei; [|done..]. go_bind in H. destruct Hb as [Hr _].
  destruct (parseInstructions fuel (num - 1) r) as [[l' r']|e|w] eqn:El; [|done..]. injection H as <- <-.
  constructor; [|eapply within_le; [|by eapply IH]; lia]. apply hideErr_ok in Ei.
  assert (within (length (drop 4 data)) i) as Hw.
  { destruct typ; try (destruct (tl_parseFields _ _) as [[]|] eqn:Et; [|done]; injection Ei as <- <-; by eapply field_within).
    destruct fuel; [done|]. cbn [CacheInstruction_Parse] in Ei. destruct (len _ <? 12); [done|].
    destruct (Uint64 _); [|done..]. go_bind in Ei. destruct (slice_from _ 8); [|done..]. go_bind in Ei.
    destruct (Uint32 _); [|done..]. go_bind in Ei. destruct (slice_from _ 12); [|done..]. go_bind in Ei.
    destruct (parseInstructions _ _ _) as [[]|e|w]; [|done..]. injection Ei as <- _. exact I. }
  rewrite length_drop in Hw. destruct i; try exact I. simpl in *. lia.
Qed.

(** What a layer holds is shorter than the layer. *)
Lemma openLayer_shorter t i rest (g g' : State) c rest' :
  openLayer t i rest g = (g', Ok (c, rest')) ->
  (length rest' < length rest)%nat /\ Forall (within (length rest - 1)) (ic_List c).
Proof using TOk TSz.
  intros H. unfold openLayer in H. ok_step H. ok_step H. injection Hm0 as <- Hd. apply hideErr_ok in Hd.
  ok_step H. apply guard_ok_inv in Hm0 as [_ ->]. injection H as _ Hp. apply hideErr_ok in Hp.
  assert (length a0 + 16 = length rest)%nat as Hl.
  { unfold decryptStream in Hd. destruct (Z.leb_spec (len rest) 16) as [|H16]; [done|]. unfold len in H16.
    destruct (NewCipherCtr _ _); [|done]. cbn [snd] in Hd. destruct (_ =? _); [|done]. injection Hd as <-.
    rewrite length_XORKeyStream, length_drop. lia. }
  unfold parseContainer in Hp. destruct (tl_unbox a0) as [body|] eqn:Eu; [|done]. apply tl_unbox_length in Eu. cbn [of_option] in Hp.
  go_bind in Hp. unfold InstructionsContainer_Parse in Hp. destruct (Uint32 body) as [seqno|e|w]; [|done..]. go_bind in Hp.
  destruct (slice_from body 4) as [d4|e|w]; [|done..]. go_bind in Hp. destruct (Uint32 d4) as [num|e|w]; [|done..]. go_bind in Hp.
  unfold slice_from in Hp. case_bool_decide as H8; [|done]. go_bind in Hp.
  destruct (parseInstructions _ _ (drop 8 body)) as [[l r]|e|w] eqn:El; [|done..]. injection Hp as <- <-.
  pose proof (parse_within _ _ _ _ _ El) as Hw. rewrite length_drop in Hw.
  pose proof (proj1 (parse_good (parseFuel (drop 8 body))) num (drop 8 body)) as Hg. rewrite El in Hg. cbn [goodList] in Hg.
  rewrite length_drop in Hg. destruct Hg as (Hg & _). split; [lia|]. eapply within_le; [|exact Hw]. lia.
Qed.

Lemma parseContainer_no_fuel data : parseContainer data <> Err OutOfFuel.
Proof using TOk.
  unfold parseContainer. destruct (tl_unbox data) as [body|]; [|by cbn]. cbn [of_option]. go_bind. unfold InstructionsContainer_Parse.
  unfold Uint32, slice_from. destruct (len body <? 4); [by go_bind|]. go_bind.
  destruct (bool_decide (4 <= length body)%nat); [|by go_bind]. go_bind. destruct (len (drop 4 body) <? 4); [by go_bind|]. go_bind.
  destruct (bool_decide (8 <= length body)%nat); [|by go_bind]. go_bind.
  pose proof (proj1 (parse_good (parseFuel (drop 8 body))) (le_decode (take 4 (drop 4 body))) (drop 8 body)) as Hg.
  destruct (parseInstructions _ _ _) as [[]|e|w]; [by go_bind| |by go_bind]. cbn [goodList] in Hg. go_bind. intros [= ->].
  by apply Hg; [unfold parseFuel; lia|].
Qed.

Lemma bind_no_fuel {S A B} (m : M S A) (k : A -> M S B) s :
  (m s).2 <> Err OutOfFuel -> (forall a s', m s = (s', Ok a) -> (k a s').2 <> Err OutOfFuel) ->
  ((m ≫= k) s).2 <> Err OutOfFuel.
Proof using Type. intros Hm Hk. rewrite bind_run. destruct (m s) as [s' [a|e|w]]; [by apply Hk| |done]. simpl in *. congruence. Qed.

Lemma getNode_no_fuel t i (g : State) : (getNode t i g).2 <> Err OutOfFuel.
Proof using Type.
  unfold getNode. rewrite bind_run. unfold getTun, deref. destruct (g_tuns g !! t) as [tun|]; [|done]. by destruct (nodes tun !! i).
Qed.

Lemma openLayer_no_fuel t i rest (g : State) : (openLayer t i rest g).2 <> Err OutOfFuel.
Proof using TOk.
  unfold openLayer. apply bind_no_fuel; [apply getNode_no_fuel|]. intros s g1 _. apply bind_no_fuel; [rewrite lift_run; cbn [snd]|].
  - assert ((decryptStream (CipherKeyCRC (si_Keys s)) (CipherKey (si_Keys s)) rest).2 <> Err OutOfFuel) as Hd.
    { unfold decryptStream. destruct (_ <=? 16); [done|]. destruct (NewCipherCtr _ _); [|done]. cbn [snd]. by destruct (_ =? _). }
    by destruct (decryptStream _ _ rest).2 as [|[]|].
  - intros data g2 _. apply bind_no_fuel; [rewrite guard_run; by destruct (len data <? 12)|]. intros _ g3 _. rewrite lift_run. cbn [snd].
    pose proof (parseContainer_no_fuel data) as Hp. by destruct (parseContainer data) as [|[]|].
Qed.

Lemma wrapAll_no_fuel t layers (g : State) : (wrapAll t layers g).2 <> Err OutOfFuel.
Proof using Type.
  revert g. induction layers as [|[i l] layers IH]; intros g; [done|]. cbn [wrapAll]. apply bind_no_fuel; [apply IH|].
  intros m g1 _. rewrite wrapM_run. cbn [snd]. by destruct (encryptLayer t i m l g1).2.
Qed.

Lemma rebuild_no_fuel again l (g : State) :
  Forall (fun i => match i with
    | BindOut v => forall g : State, (again (bo_InboundSectionPubKey v) (bo_InboundInstructions v) g).2 <> Err OutOfFuel
    | _ => True end) l ->
  (rebuild again l g).2 <> Err OutOfFuel.
Proof using Type.
  intros H. revert g. induction H as [|i l Hi _ IH]; intros g; [done|]. cbn [rebuild]. apply bind_no_fuel.
  - destruct i; try done. apply bind_no_fuel; [|done]. specialize (Hi g). by destruct (again _ _ g) as [g1 [m|[]|w]].
  - intros j g' _. apply bind_no_fuel; [apply IH|done].
Qed.

(** C35: opening a message ends: with more fuel than the message has bytes, the
    recursion over its layers and the return paths inside them is never cut
    short. *)
Theorem unwrapAll_terminates fuel t key rest (g : State) :
  (length rest < fuel)%nat -> (unwrapAll fuel t key rest g).2 <> Err OutOfFuel.
Proof using TOk TSz.
  revert key rest g. induction fuel as [|fuel IH]; intros key rest g Hf; [lia|]. cbn [unwrapAll].
  apply bind_no_fuel; [unfold getTun, deref; by destruct (g_tuns g !! t)|]. intros tun g0 _.
  destruct (resolveSection tun key) as [[i next]|]; [|done]. apply bind_no_fuel; [apply openLayer_no_fuel|].
  intros [c rest'] g1 Eo. destruct (openLayer_shorter _ _ _ _ _ _ _ Eo) as [Hlt Hw]. cbv zeta. apply bind_no_fuel.
  - apply rebuild_no_fuel. eapply List.Forall_impl; [|exact Hw]. intros [] Hv; try exact I. intros g'. simpl in Hv.
    apply bind_no_fuel; [apply IH; lia|]. intros layers g2 _. apply wrapAll_no_fuel.
  - intros l g2 _. destruct (routed _ next) as [j|]; [|done]. apply bind_no_fuel; [apply getNode_no_fuel|].
    intros s g3 _. apply bind_no_fuel; [apply IH; lia|done].
Qed.
End Fuel.

(** ** Runs over five nodes *)
Section Runs.
#[local] Existing Instances toyCipher sampleTL sampleTL_ok sampleKA sampleWorld sampleClientWorld sampleKA_ok sampleRandOk.
Abbreviation State := (Gateway (W := sampleWorld) RegularOutTunnel).

Definition closeMessage : EncryptedMessage := resultOf (prepareTunnelCloseMessage 0).
Definition initMessage : EncryptedMessage := resultOf (prepareInitMessage 0 StateTypeConfiguring).

Definition closeLayers : list (nat * list instruction) :=
  match (unwrapAll 9 0 (em_SectionPubKey closeMessage) (em_Instructions closeMessage) longClient).2 with
  | Ok layers => layers
  | _ => []
  end.
Definition reassembled (msg : EncryptedMessage) : EncryptedMessage :=
  match (ReassembleInstructions 9 0 msg longClient).2 with Ok m => m | _ => emptyMessage end.

(** The layers of the closing message are those of the five nodes. *)
Example closeLayers_nodes : map fst closeLayers = [0; 1; 2; 3; 4]%nat.
Proof using Type. vm_compute. reflexivity. Qed.

(** The configuration message with the return path inside it: the same
    instructions for every node on the way out. *)
Example initMessage_reassembled :
  length (em_Instructions (reassembled initMessage)) = length (em_Instructions initMessage) /\
  (match peelLayers (keysOf (take 3 longSections)) (em_Instructions (reassembled initMessage)),
         peelLayers (keysOf (take 3 longSections)) (em_Instructions initMessage) with
   | Ok (cs', _), Ok (cs, _) => map (fun c => length (ic_List c)) cs' = map (fun c => length (ic_List c)) cs /\ length cs = 3%nat
   | _, _ => False
   end).
Proof using Type. vm_compute. auto. Qed.

#[local] Instance sampleTL_sized : BindSized sampleTL.
Proof.
  intros d v rest H. cbn [tl_parseFields sampleTL sampleParse] in H. unfold getBytes in H.
  assert (forall n d x r, getWord n d = Some (x, r) -> (length r <= length d)%nat) as Hw.
  { intros n d0 x r. unfold getWord. case_bool_decide; [|done]. intros [= _ <-]. rewrite length_drop. lia. }
  repeat match type of H with
  | context [getWord ?n ?x] => let E := fresh in destruct (getWord n x) as [[? ?]|] eqn:E; [apply Hw in E; cbn [mbind option_bind] in H|done]
  | context [bool_decide ?P] => destruct (bool_decide P); [cbn [mbind option_bind] in H|done]
  end.
  injection H as <- _. cbn [bo_InboundInstructions]. rewrite length_take, ?length_drop in *. lia.
Qed.

Lemma unwrapAll_terminates_witness :
  (unwrapAll (S (length (em_Instructions initMessage))) 0 (em_SectionPubKey initMessage) (em_Instructions initMessage) longClient).2
  <> Err OutOfFuel.
Proof using Type.
  exact (unwrapAll_terminates (TOk := sampleTL_ok) (S (length (em_Instructions initMessage))) 0 (em_SectionPubKey initMessage)
    (em_Instructions initMessage) longClient (le_n (S (length (em_Instructions initMessage))))).
Defined.

End Runs.
